(* ===== verification/_CoqProject ===== *)
-Q . S2P
Prelude.v
Types.v
Externals.v
RefInstances.v
Effects.v
Util.v
Etsi014.v
HashDomain.v
Crypto.v
Osk.v
Deadman.v
Duplex.v
Protocol.v
ConnectionManager.v
Roster.v
Fanout.v
Agreement.v
Net.v
Channels.v
ServerTraces.v
ServerSystem.v
ClientTraces.v
Link.v
Setup.v
Simulator.v
EndToEnd.v
Cli.v
