(* ===== verification/Prelude.v ===== *)
(** * Daisyway: a verification development

    Daisyway keeps the pre-shared key of a WireGuard tunnel fresh.  Two peers,
    each next to a QKD key manager (ETSI 014), agree on a key every couple of
    minutes: the server fetches a QKD key, sends its identifier and a nonce, the
    client fetches the same key from its own key manager and acknowledges, and
    both derive the key they hand to WireGuard or write to a file.  The library
    models the whole daemon ([daisyway/src]) and the key-manager simulator that
    comes with it ([simulator/src]).

    ** How code is modelled

    - [Prelude]: bytes, fixed-size arrays, 64-bit additions with the behaviour
      of a dev and of a release build, and [outcome]: what a call gives, a
      value, an error, or a panic.  An error keeps its chain of contexts.
    - [Effects]: an [async fn] is a [proc], a tree of the operations it
      performs on its environment.  [interp] runs it against a handler,
      [runs] says which traces it can have in any environment, [replay]
      decides that for a concrete trace.  A [loop] of the sources is
      [loop fuel body]: fuel is a number of iterations, and the result
      [Continue] says that the loop is still running.  As theorems hold for
      every fuel, they speak about every finite part of an endless loop.
    - [Types]: the data that travels between components.
    - [Externals]: base64, UUIDs and SHAKE256, as classes of functions with
      their documented laws; [RefInstances] gives them a model.  reqwest,
      rustls, serde, WireGuard's socket, files, clocks and channels are
      operations or parameters where they are used.
    - Logging is left out, except that set-up decides the level.

    ** The parts

    - [Util] ([internal/util.rs]): the bounded reader, base64 keys, key files.
      Reading fills the buffer with a prefix of the file whatever the pieces it
      comes in; enough fuel is the length of the buffer and the interruptions
      to come.  Loading a key file decodes what the whole file decodes to.
      Short keys are accepted and padded with zeros.
    - [Etsi014] ([internal/etsi014.rs]): the key manager's client, its TLS
      set-up and the verifier that ignores server names.  Exactly which answers
      yield a key, which are refused, which panic; which CA certificate is
      trusted, what the option that disables the name check disables, and what
      it leaves in force.
    - [HashDomain], [Crypto] ([crypto/hash_domain.rs], [crypto/basics.rs]): the
      key derivation and the wire messages.  The derived key is a prefix of a
      hash over a fixed layout and binds everything that went in: derivations
      that agree and differ in their inputs exhibit these as a collision of the
      hash; messages survive the wire.
    - [Osk] ([osk/mod.rs], [osk/outfile.rs], [osk/wireguard.rs]): the interface
      [OskHandler] and its two implementations for the outside world.
    - [Deadman] ([osk/deadman.rs]): the dead-man switch.  Its worker refines a
      specification by histories of installations ([lifetime]), from which
      follow that it erases first and last, that with a prompt clock no gap is
      longer than the deadline, and that a failing handler is final.
    - [Protocol] ([crypto/server.rs], [crypto/client.rs]): the two loops, and
      exactly which exchanges produce a key.
    - [Duplex]: two tasks and a byte stream between them, in any interleaving
      and with faults.  What a task has done is a partial trace of its
      procedure, and what it consumed is a prefix of what the other delivered.
    - [Fanout] ([tcp_server/fanout_osk_handler.rs],
      [tcp_server/fanout_connection_handler.rs]): the task of one server
      connection and what it reports.
    - [Agreement]: a server task and a client over [Duplex], each with its key
      manager.  In every reachable state both sides installed prefixes of one
      sequence of keys, each missing at most the last; and when the key
      managers deliver, any number of rekeyings completes.
    - [ConnectionManager] ([tcp_server/connection_manager.rs], [events.rs],
      [abort_on_drop_handle.rs]): the server's state and handlers, with every
      drop of a task handle at its place.
    - [Roster]: what the manager promises.  The live connections form a roster;
      a key is handed on exactly for a connection on it, and silences every
      older one, so that keys never go back in time; tasks are aborted exactly
      once; failing connections never stop the server.  [manager_supersedes] reads
      the keys that were handed on off the trace.
    - [Net] ([net/tcp_client.rs], [tcp_server/mod.rs], [tcp_participant.rs]):
      the client reconnects for ever, the server cleans up behind itself.
    - [Channels]: who uses which channel.  [performs] bounds the operations of
      a procedure whatever it is answered; tasks send only to the manager, the
      manager only to the worker, the worker to nobody.
    - [ServerTraces], [ServerSystem]: the server process as a whole, that is
      the connection tasks, the notification queue (16 messages), the manager,
      the request queue (8) and the worker's thread, stepped in any
      interleaving by an executable step function.  [ServerTraces] says what a
      procedure that was stopped anywhere has done ([server_activity],
      [task_facts], [server_ends], [worker_ends]); [ServerSystem] proves the
      invariant [sys_inv] and from it that every key the worker receives was
      negotiated by a task of the server, in the order of the connections; that
      the queues and the number of tasks are bounded; that nothing but a
      failing listener or a dead worker stops the server; that the worker
      drains its queue before it ends; and that nobody waits in a circle.
    - [ClientTraces], [Link]: the server process and a client process, each with
      its dead-man worker, over all the connections the client makes while it
      runs.  [ClientTraces] splits what the client has done into sessions, one
      for each connection; [Link] steps everything together (the i-th
      connection is the stream [i], a stranger's stream is negative) and proves
      [link_end_to_end]: from worker to worker, the keys of every connection
      agree, and the client gets none from a connection the server has not
      taken up.  Its witness runs through a lost connection and a new one.
    - [Setup] ([daisyway/setup.rs]): from the configuration to a participant
      and a dead-man worker.
    - [Simulator], [EndToEnd] ([simulator/src/main.rs]): the simulated key
      manager with its accept loop ([serve]: connections, handshakes and requests
      in any order), its round trip and the uniqueness of the identifiers in its
      answers; in the
      place of the key managers of [Agreement] it is honest, so that the whole
      link agrees and makes progress.
    - [Cli] ([daisyway/src/main.rs]): log levels, the subcommands, [main].

    ** How the parts interact

    A connection task reports keys to the manager through [ESendManager], the
    manager reads them through [ESelect] and hands them to its [OskHandler],
    which is the handle of the dead-man switch ([ESendDeadman]); the worker
    reads them through [ETimeoutRecv] and hands them to the outfile or to
    WireGuard.  The client's protocol has the same handle.  Each component is
    verified against the interface [OskHandler] and the operations, not
    against its neighbour's code.

    [ServerSystem] and [Link] are where the operations meet: a send waits for room in the
    queue and fails once the receiver is gone, a receive takes the oldest
    message, the worker sees its queue closed when the server is over.  A task
    that was told to stop may go on until it yields, so a [MKill] may come at
    any time after the abort.  The worker's thread is detached: when [main]
    returns, the process ends and the thread with it, wherever it is.  The model
    lets the worker go on; a thread that was cut off is one that takes no
    further step, so that what holds in every state holds for it, but nothing
    says that it erases the key.  The queue of the manager counts as closed when
    its procedure is over; a task that in the code already fails to send while
    the manager drops its state does so a little later in the model.  Fuel:
    the theorems hold for every number of turns of the loops, for the server
    of fewer than [2^64], when the connection numbers would run out.

    ** What is not modelled

    Argument parsing (clap), the rendering of manual pages and completions
    (parameters), the TOML and JSON decoders (parameters), the inside of TLS
    handshakes and of the HTTP server, the end of the process, the build script,
    and log output.  A stream
    is a pair of byte sequences without TCP's own timeouts: an operation on
    it may fail at any time, but what arrives is what was sent.  The wires
    carry no authentication, as in the code; a party that alters them is not
    modelled. *)

From Stdlib Require Import Eqdep_dec.
From Stdlib Require Import Strings.Byte.
From stdpp Require Export base tactics numbers list strings gmap sorting.
From stdpp Require Import options.

#[global] Set Default Goal Selector "1".

Declare Scope daisy_scope.
Delimit Scope daisy_scope with daisy.
#[global] Open Scope daisy_scope.

Create HintDb daisy.

(** ** Bytes *)

Abbreviation byte := Corelib.Init.Byte.byte.
Abbreviation bytes := (list byte).

#[global] Instance byte_eq_dec : EqDecision byte := Byte.byte_eq_dec.

(** The numeric value of a [u8]. *)
Definition byte_val (b : byte) : Z := Z.of_N (Byte.to_N b).

(** The [u8] with a given value; [as u8] truncates to the low eight bits. *)
Definition byte_of_Z (z : Z) : byte :=
  default Byte.x00 (Byte.of_N (Z.to_N (z `mod` 256))).

Lemma byte_val_range b : (0 <= byte_val b < 256)%Z.
Proof.
  unfold byte_val. pose proof (Byte.to_N_bounded b). lia.
Qed.

Lemma byte_of_N_small n : (n < 256)%N -> exists b, Byte.of_N n = Some b.
Proof.
  intros Hn. destruct (Byte.of_N n) eqn:E; [eauto|].
  apply Byte.of_N_None_iff in E. lia.
Qed.

Lemma byte_val_of_Z z : byte_val (byte_of_Z z) = (z `mod` 256)%Z.
Proof.
  unfold byte_val, byte_of_Z.
  pose proof (Z.mod_pos_bound z 256 ltac:(lia)) as Hb.
  destruct (byte_of_N_small (Z.to_N (z `mod` 256))) as [b Hb']; [lia|].
  rewrite Hb'. simpl. apply Byte.to_of_N in Hb'. rewrite Hb'. lia.
Qed.

Lemma byte_val_inj b1 b2 : byte_val b1 = byte_val b2 -> b1 = b2.
Proof.
  unfold byte_val. intros H%N2Z.inj.
  pose proof (Byte.of_to_N b1) as H1. pose proof (Byte.of_to_N b2) as H2.
  congruence.
Qed.

Lemma byte_of_Z_val b : byte_of_Z (byte_val b) = b.
Proof.
  apply byte_val_inj. rewrite byte_val_of_Z.
  apply Z.mod_small, byte_val_range.
Qed.

(** Strings and their bytes ([str::as_bytes]). *)
Definition str_bytes (s : string) : bytes := String.list_byte_of_string s.

(** ** Fixed-size byte arrays, Rust's [[u8; n]]

    The length test is a boolean equation, so two arrays with the same bytes
    are equal without any axiom. *)
Record array (n : nat) : Type := MkArray {
  as_bytes : bytes;
  array_ok : Nat.eqb (length as_bytes) n = true;
}.
Arguments MkArray {n} _ _.
Arguments as_bytes {n} _.
Arguments array_ok {n} _.

Lemma array_length {n} (a : array n) : length (as_bytes a) = n.
Proof. apply Nat.eqb_eq, array_ok. Qed.

Lemma array_ext {n} (a b : array n) : as_bytes a = as_bytes b -> a = b.
Proof.
  destruct a as [la Ha], b as [lb Hb]. simpl. intros ->.
  f_equal. apply UIP_dec, bool_dec.
Qed.

#[global] Instance as_bytes_inj n : Inj (=) (=) (@as_bytes n).
Proof. intros a b. apply array_ext. Qed.

#[global] Instance array_eq_dec n : EqDecision (array n).
Proof.
  intros a b. destruct (decide (as_bytes a = as_bytes b)) as [H|H].
  - left. by apply array_ext.
  - right. congruence.
Defined.

(** [<&[u8]>::try_into::<[u8; n]>()]: succeeds exactly on slices of length [n]. *)
Definition try_into_array (n : nat) (l : bytes) : option (array n) :=
  match bool_dec (Nat.eqb (length l) n) true with
  | left H => Some (MkArray l H)
  | right _ => None
  end.

Lemma try_into_array_Some n l (H : length l = n) :
  exists a, try_into_array n l = Some a /\ as_bytes a = l.
Proof.
  unfold try_into_array. destruct (bool_dec _ _) as [E|E]; [eauto|].
  apply Nat.eqb_eq in H. congruence.
Qed.

Lemma try_into_array_None n l : length l <> n -> try_into_array n l = None.
Proof.
  unfold try_into_array. intros H. destruct (bool_dec _ _) as [E|E]; [|done].
  exfalso. by apply Nat.eqb_eq in E.
Qed.

Lemma try_into_array_inv n l a : try_into_array n l = Some a -> as_bytes a = l.
Proof.
  unfold try_into_array. destruct (bool_dec _ _); intros; by simplify_eq.
Qed.

Lemma try_into_as_bytes {n} (a : array n) : try_into_array n (as_bytes a) = Some a.
Proof.
  destruct (try_into_array_Some n (as_bytes a) (array_length a)) as (b & Hb & Hab).
  rewrite Hb. f_equal. by apply array_ext.
Qed.

(** The proof component of an array, in a form that reduces to [eq_refl] on a
    concrete array. *)
Definition canonical_true (b : bool) : b = true -> b = true :=
  match b with
  | true => fun _ => eq_refl
  | false => fun H => H
  end.

Definition eqb_length_ok {n} {l : bytes} (H : length l = n) : Nat.eqb (length l) n = true :=
  canonical_true (Nat.eqb (length l) n) (proj2 (Nat.eqb_eq (length l) n) H).

(** [FromZeros::new_zeroed()]. *)
Definition new_zeroed (n : nat) : array n :=
  MkArray (replicate n Byte.x00) (eqb_length_ok (length_replicate n Byte.x00)).

(** Writing a slice over the beginning of a buffer, the rest unchanged;
    [drop]/[take] make it total, and the callers never write past the end. *)
Definition overwrite_prefix (buf src : bytes) : bytes :=
  take (length buf) src ++ drop (length src) buf.

Lemma overwrite_prefix_length buf src :
  length (overwrite_prefix buf src) = length buf.
Proof.
  unfold overwrite_prefix. rewrite length_app, length_take, length_drop. lia.
Qed.

Lemma overwrite_prefix_nil buf : overwrite_prefix buf [] = buf.
Proof. unfold overwrite_prefix. by rewrite take_nil. Qed.

Definition array_overwrite {n} (a : array n) (src : bytes) : array n :=
  MkArray (overwrite_prefix (as_bytes a) src)
    (eqb_length_ok (eq_trans (overwrite_prefix_length (as_bytes a) src) (array_length a))).

Lemma array_overwrite_full {n} (a : array n) src :
  length src = n -> as_bytes (array_overwrite a src) = src.
Proof.
  intros H. simpl. unfold overwrite_prefix.
  rewrite array_length, drop_ge by (rewrite array_length; lia).
  rewrite app_nil_r. apply take_ge. lia.
Qed.

Lemma array_overwrite_zeroed n src :
  (length src <= n)%nat ->
  as_bytes (array_overwrite (new_zeroed n) src)
  = src ++ replicate (n - length src) Byte.x00.
Proof.
  intros H. simpl. unfold overwrite_prefix.
  rewrite length_replicate, take_ge by lia. by rewrite drop_replicate.
Qed.

(** Concatenation and splitting of arrays, the layout of packed structs. *)
Lemma array_app_ok {n m} (a : array n) (b : array m) :
  length (as_bytes a ++ as_bytes b) = (n + m)%nat.
Proof. by rewrite length_app, !array_length. Qed.

Definition array_app {n m} (a : array n) (b : array m) : array (n + m) :=
  MkArray (as_bytes a ++ as_bytes b) (eqb_length_ok (array_app_ok a b)).

Lemma array_fst_ok n m (a : array (n + m)) : length (take n (as_bytes a)) = n.
Proof. rewrite length_take, array_length. lia. Qed.
Lemma array_snd_ok n m (a : array (n + m)) : length (drop n (as_bytes a)) = m.
Proof. rewrite length_drop, array_length. lia. Qed.

Definition array_fst {n m} (a : array (n + m)) : array n :=
  MkArray (take n (as_bytes a)) (eqb_length_ok (array_fst_ok n m a)).
Definition array_snd {n m} (a : array (n + m)) : array m :=
  MkArray (drop n (as_bytes a)) (eqb_length_ok (array_snd_ok n m a)).

Lemma as_bytes_fst {n m} (a : array (n + m)) : as_bytes (array_fst a) = take n (as_bytes a).
Proof. done. Qed.
Lemma as_bytes_snd {n m} (a : array (n + m)) : as_bytes (array_snd a) = drop n (as_bytes a).
Proof. done. Qed.
Lemma array_fst_app {n m} (a : array n) (b : array m) : array_fst (array_app a b) = a.
Proof.
  apply array_ext. simpl. rewrite take_app_le by (rewrite array_length; lia).
  rewrite take_ge; [done|rewrite array_length; lia].
Qed.
Lemma array_snd_app {n m} (a : array n) (b : array m) : array_snd (array_app a b) = b.
Proof.
  apply array_ext. simpl. by rewrite drop_app_length' by (by rewrite array_length).
Qed.
Lemma array_app_split {n m} (a : array (n + m)) : array_app (array_fst a) (array_snd a) = a.
Proof. apply array_ext. simpl. apply take_drop. Qed.

(** Two concatenations of equal-length prefixes agree only componentwise. *)
Lemma as_bytes_app_inj {n} (a b : array n) l1 l2 :
  as_bytes a ++ l1 = as_bytes b ++ l2 -> a = b /\ l1 = l2.
Proof.
  intros H. apply app_inj_1 in H as [H1 H2]; [|by rewrite !array_length].
  split; [by apply array_ext|done].
Qed.

#[export] Hint Rewrite @array_length @length_app @length_replicate : daisy.
#[export] Hint Rewrite @array_fst_app @array_snd_app @array_app_split @try_into_as_bytes : daisy.

(** ** Errors and outcomes

    [anyhow::Error] as the chain of contexts around a root cause. A message is
    kept as its format template with the values to interpolate, so that the
    rendering of [{}] and [{:?}] plays no role. *)
Inductive fmt_arg : Type :=
  | FStr (s : string)
  | FInt (z : Z)
  | FBytes (b : bytes).

Record message : Type := Msg { template : string; msg_args : list fmt_arg }.

#[global] Instance fmt_arg_eq_dec : EqDecision fmt_arg.
Proof. solve_decision. Defined.
#[global] Instance message_eq_dec : EqDecision message.
Proof. solve_decision. Defined.

(** [std::io::ErrorKind]; the program tells only [Interrupted] apart. *)
Inductive ErrorKind : Type :=
  | Interrupted
  | OtherKind (code : Z).

#[global] Instance ErrorKind_eq_dec : EqDecision ErrorKind.
Proof. solve_decision. Defined.

Inductive Error : Type :=
  | EMsg (m : message)                      (* anyhow!("...") / ensure! / bail! *)
  | EIo (k : ErrorKind)                     (* std::io::Error *)
  | EForeign (lib : string) (what : string) (* an error value of a library *)
  | EContext (m : message) (e : Error).     (* e.context(m) *)

(** The result of a call: Rust's [Result] and, apart from it, a panic. *)
Inductive outcome (A : Type) : Type :=
  | Ok (a : A)
  | Err (e : Error)
  | Panicked (m : message).
Arguments Ok {A} _.
Arguments Err {A} _.
Arguments Panicked {A} _.

Definition obind {A B} (o : outcome A) (f : A -> outcome B) : outcome B :=
  match o with
  | Ok a => f a
  | Err e => Err e
  | Panicked m => Panicked m
  end.

Notation "'let?' x := o 'in' f" := (obind o (fun x => f))
  (at level 200, x pattern, o at level 100, f at level 200, right associativity) : daisy_scope.

(** [.context(m)] and [.with_context(|| m)]. *)
Definition ocontext {A} (m : message) (o : outcome A) : outcome A :=
  match o with
  | Err e => Err (EContext m e)
  | o => o
  end.

(** [.expect(m)] and [.unwrap()]: an [Err] becomes a panic. *)
Definition oexpect {A} (m : message) (o : outcome A) : outcome A :=
  match o with
  | Err _ => Panicked m
  | o => o
  end.

Definition omap {A B} (f : A -> B) (o : outcome A) : outcome B :=
  let? a := o in Ok (f a).

Definition is_ok {A} (o : outcome A) : bool :=
  match o with Ok _ => true | _ => false end.

Definition panics {A} (o : outcome A) : bool :=
  match o with Panicked _ => true | _ => false end.

(** [Option::context]/[ok_or]: [None] becomes an error. *)
Definition ok_or {A} (m : Error) (x : option A) : outcome A :=
  match x with Some a => Ok a | None => Err m end.

Lemma obind_Ok_inv {A B} (o : outcome A) (f : A -> outcome B) b :
  obind o f = Ok b -> exists a, o = Ok a /\ f a = Ok b.
Proof. destruct o; simpl; intros; naive_solver. Qed.

Lemma ocontext_Ok_iff {A} m (o : outcome A) a : ocontext m o = Ok a <-> o = Ok a.
Proof. destruct o; naive_solver. Qed.

Lemma oexpect_Ok_iff {A} m (o : outcome A) a : oexpect m o = Ok a <-> o = Ok a.
Proof. destruct o; naive_solver. Qed.

Lemma ok_or_Ok_iff {A} e (x : option A) a : ok_or e x = Ok a <-> x = Some a.
Proof. destruct x; naive_solver. Qed.

(** Laws of the outcome monad. *)
Lemma obind_assoc {A B C} (o : outcome A) (f : A -> outcome B) (g : B -> outcome C) :
  obind (obind o f) g = obind o (fun a => obind (f a) g).
Proof. by destruct o. Qed.

Lemma obind_Ok_r {A} (o : outcome A) : obind o Ok = o.
Proof. by destruct o. Qed.

#[export] Hint Rewrite @obind_Ok_r @obind_assoc @ocontext_Ok_iff @oexpect_Ok_iff @ok_or_Ok_iff : daisy.

(** Takes apart every [obind ... = Ok _] of the context. *)
Ltac outcome_inv :=
  repeat match goal with
  | H : obind _ _ = Ok _ |- _ => apply obind_Ok_inv in H as (? & ? & ?)
  | H : ocontext _ _ = Ok _ |- _ => apply ocontext_Ok_iff in H
  | H : oexpect _ _ = Ok _ |- _ => apply oexpect_Ok_iff in H
  | H : ok_or _ _ = Ok _ |- _ => apply ok_or_Ok_iff in H
  | H : Ok _ = Ok _ |- _ => injection H as H
  | H : Err _ = Ok _ |- _ => discriminate H
  | H : Panicked _ = Ok _ |- _ => discriminate H
  end.

(** Splits boolean conjunctions and decisions of the context. *)
Ltac bool_inv :=
  repeat match goal with
  | H : _ && _ = true |- _ => apply andb_true_iff in H as [? ?]
  | H : bool_decide _ = true |- _ => apply bool_decide_eq_true_1 in H
  | H : bool_decide _ = false |- _ => apply bool_decide_eq_false_1 in H
  | H : negb _ = true |- _ => apply negb_true_iff in H
  end.

(** ** Machine integers

    [usize] and [u64] are [Z] with their range. [a + b] panics on overflow in a
    build with overflow checks (the dev profile) and wraps without them (the
    release profile). *)
Definition u64_modulus : Z := (2 ^ 64)%Z.

Definition in_u64 (z : Z) : Prop := (0 <= z < u64_modulus)%Z.

Inductive profile : Type := DevProfile | ReleaseProfile.

Definition add_u64 (p : profile) (a b : Z) : outcome Z :=
  if bool_decide (a + b < u64_modulus)%Z then Ok (a + b)%Z
  else match p with
       | DevProfile => Panicked (Msg "attempt to add with overflow" [])
       | ReleaseProfile => Ok ((a + b) `mod` u64_modulus)%Z
       end.

Lemma add_u64_small p a b : (a + b < u64_modulus)%Z -> add_u64 p a b = Ok (a + b)%Z.
Proof. intros H. unfold add_u64. by rewrite bool_decide_eq_true_2. Qed.

Lemma add_u64_range p a b r :
  in_u64 a -> in_u64 b -> add_u64 p a b = Ok r -> in_u64 r.
Proof.
  unfold add_u64, in_u64. intros Ha Hb. case_bool_decide.
  - intros; simplify_eq. lia.
  - destruct p; intros; simplify_eq. apply Z.mod_pos_bound. done.
Qed.

#[export] Hint Resolve add_u64_small add_u64_range : daisy.

(** ** Reachability of a step relation *)
Definition reachable {S} (init : S -> Prop) (step : S -> S -> Prop) (s : S) : Prop :=
  exists s0, init s0 /\ rtc step s0 s.

Lemma reachable_invariant {S} (init : S -> Prop) step (I : S -> Prop) :
  (forall s, init s -> I s) ->
  (forall s s', I s -> step s s' -> I s') ->
  forall s, reachable init step s -> I s.
Proof.
  intros Hinit Hstep s (s0 & H0 & Hrtc).
  apply Hinit in H0. induction Hrtc; eauto.
Qed.

(** ** Lists *)
Lemma take_prefix {A} n (l : list A) : take n l `prefix_of` l.
Proof. exists (drop n l). by rewrite take_drop. Qed.

Lemma sublist_omap {A B} (f : A -> option B) l1 l2 :
  l1 `sublist_of` l2 -> base.omap f l1 `sublist_of` base.omap f l2.
Proof.
  induction 1 as [|x l1 l2 _ IH|x l1 l2 _ IH]; cbn; [done| |]; destruct (f x); try done;
    by constructor.
Qed.

Lemma prefix_omap {A B} (f : A -> option B) l1 l2 :
  l1 `prefix_of` l2 -> base.omap f l1 `prefix_of` base.omap f l2.
Proof. intros [k ->]. exists (base.omap f k). apply omap_app. Qed.

Lemma prefix_of_snoc {A} (l l' : list A) x :
  l `prefix_of` l' ++ [x] -> l `prefix_of` l' \/ l = l' ++ [x].
Proof.
  intros [k Hk]. destruct k as [|y k _] using rev_ind.
  - right. by rewrite app_nil_r in Hk.
  - left. exists k. rewrite app_assoc in Hk. by apply app_inj_tail in Hk as [-> _].
Qed.

Lemma prefix_of_app {A} (l l1 l2 : list A) :
  l `prefix_of` l1 ++ l2 -> l `prefix_of` l1 \/ exists k, l = l1 ++ k /\ k `prefix_of` l2.
Proof.
  intros [k Hk]. destruct (decide (length l <= length l1)) as [Hle|Hgt].
  - left. exists (drop (length l) l1). rewrite <- (take_drop (length l) l1) in Hk at 1.
    rewrite <- app_assoc in Hk. apply app_inj_1 in Hk as [H1 _].
    + by rewrite <- H1 at 1; rewrite take_drop.
    + rewrite length_take. lia.
  - right. exists (drop (length l1) l). rewrite <- (take_drop (length l1) l) in Hk at 1.
    rewrite <- app_assoc in Hk. apply app_inj_1 in Hk as [H1 H2].
    + split; [by rewrite <- (take_drop (length l1) l) at 1; rewrite <- H1|]. by exists k.
    + rewrite length_take. lia.
Qed.

Lemma prefix_of_sorted {A} (R : relation A) l1 l2 :
  l1 `prefix_of` l2 -> StronglySorted R l2 -> StronglySorted R l1.
Proof. intros [k ->]. apply StronglySorted_app_1_l. Qed.
