(* ===== verification/Types.v ===== *)
(** * Data shared by the components

    Keys and their length constants ([crypto/basics.rs]), the reason attached
    to an output key ([osk/mod.rs]), and the messages that travel over the
    program's two channels: connection tasks to connection manager
    ([tcp_server/events.rs]) and everyone to the deadman worker
    ([osk/deadman.rs]). *)

From S2P Require Import Prelude.

(** ** Keys *)
Definition KEY_LENGTH : nat := 32.
Definition KEY_LENGTH_B64 : nat := KEY_LENGTH * 4 / 3 + 4.
Definition REKEY_INTERVAL : Z := 120.

Abbreviation PublicKey := (array 32) (only parsing).
Abbreviation PeerId := (array 32) (only parsing).
Abbreviation Nonce := (array 32) (only parsing).
Abbreviation Key := (array 32).
Abbreviation UuidBytes := (array 16).

(** ** Output keys *)
Inductive SetOskReason : Type :=
  | Fresh   (* a new, secure key *)
  | Stale.  (* a random, invalid key that erases the old one *)

#[export] Instance SetOskReason_eq_dec : EqDecision SetOskReason.
Proof. solve_decision. Defined.

(** ** Channel messages *)
Abbreviation ConnectionId := Z.

Record ExitEvent : Type := mkExitEvent { exit_connection_id : ConnectionId }.

Record OskEvent : Type := mkOskEvent {
  osk_connection_id : ConnectionId;
  osk_key : Key;
  osk_reason : SetOskReason;
}.

(** Sent by a connection task to the connection manager. *)
Inductive ConnectionHandlerEvent : Type :=
  | CExit (ev : ExitEvent)
  | COsk (ev : OskEvent).

(** A connection accepted by the listener; the socket is a handle. *)
Record AcceptEvent : Type := mkAcceptEvent { stream : Z; addr : string }.

(** What the connection manager's loop reacts to. *)
Inductive StreamEvent : Type :=
  | SAccept (ev : AcceptEvent)
  | SExit (ev : ExitEvent)
  | SOsk (ev : OskEvent).

(** [impl From<ConnectionHandlerEvent> for StreamEvent] *)
Definition stream_event_from (value : ConnectionHandlerEvent) : StreamEvent :=
  match value with
  | CExit exit => SExit exit
  | COsk osk => SOsk osk
  end.

(** Sent to the deadman worker. *)
Inductive DeadmanRequest : Type :=
  | SetOsk (key : Key) (reason : SetOskReason).

#[export] Instance DeadmanRequest_eq_dec : EqDecision DeadmanRequest.
Proof. solve_decision. Defined.
#[export] Instance OskEvent_eq_dec : EqDecision OskEvent.
Proof. solve_decision. Defined.
#[export] Instance ExitEvent_eq_dec : EqDecision ExitEvent.
Proof. solve_decision. Defined.
#[export] Instance ConnectionHandlerEvent_eq_dec : EqDecision ConnectionHandlerEvent.
Proof. solve_decision. Defined.
