(* ===== verification/Externals.v ===== *)
(** * The libraries the program calls

    Each class collects the functions of one crate that the sources use, and
    its [...Laws] companion the documented behaviour the proofs rely on.  No
    definition is given here: the development is parametric in these classes,
    and [RefInstances] shows that their laws have a model. *)

From S2P Require Import Prelude.

(** ** [base64ct::Base64] (padded standard alphabet)

    [b64_decode src cap] is [Base64::decode(src, dst)] for a destination of
    [cap] bytes: the decoded slice, which is written at the start of [dst].
    [b64_encode src cap] is [Base64::encode(src, dst)]: the encoded text. *)
Class Base64Codec : Type := {
  b64_decode : bytes -> nat -> outcome bytes;
  b64_encode : bytes -> nat -> outcome string;
  b64_encoded_len : bytes -> nat;
}.

Class Base64Laws `{Base64Codec} : Prop := {
  b64_decode_fits src cap d : b64_decode src cap = Ok d -> length d <= cap;
  b64_decode_total src cap : panics (b64_decode src cap) = false;
  b64_decode_len src cap d :
    b64_decode src cap = Ok d -> length src = b64_encoded_len d;
  b64_encoded_len_spec d : b64_encoded_len d = 4 * ((length d + 2) / 3);
  b64_encode_ok src cap :
    b64_encoded_len src <= cap ->
    exists s, b64_encode src cap = Ok s /\ length (str_bytes s) = b64_encoded_len src;
  b64_roundtrip src cap s cap' :
    b64_encode src cap = Ok s -> length src <= cap' ->
    b64_decode (str_bytes s) cap' = Ok src;
}.

(** ** [uuid::Uuid] *)
Class UuidLib : Type := {
  Uuid : Type;
  Uuid_eq_dec :: EqDecision Uuid;
  uuid_nil : Uuid;
  uuid_from_bytes : array 16 -> Uuid;
  uuid_as_bytes : Uuid -> array 16;
  uuid_to_bytes_le : Uuid -> array 16;
  uuid_from_u128 : Z -> Uuid;
  uuid_to_string : Uuid -> string;
  uuid_parse_str : string -> option Uuid;   (* an [Err] says no more than that *)
}.

Class UuidLaws `{UuidLib} : Prop := {
  uuid_from_as_bytes u : uuid_from_bytes (uuid_as_bytes u) = u;
  uuid_as_from_bytes b : uuid_as_bytes (uuid_from_bytes b) = b;
  uuid_to_bytes_le_inj u v : uuid_to_bytes_le u = uuid_to_bytes_le v -> u = v;
  uuid_from_u128_inj a b :
    (0 <= a < 2 ^ 128)%Z -> (0 <= b < 2 ^ 128)%Z ->
    uuid_from_u128 a = uuid_from_u128 b -> a = b;
  uuid_parse_to_string u : uuid_parse_str (uuid_to_string u) = Some u;
}.

(** ** [shake::Shake256]

    [shake256 absorbed n] is the first [n] bytes squeezed after absorbing
    [absorbed]; successive [update] calls absorb the concatenation. *)
Class Shake256Lib : Type := {
  shake256 : bytes -> nat -> bytes;
}.

Class Shake256Laws `{Shake256Lib} : Prop := {
  shake256_length d n : length (shake256 d n) = n;
  shake256_prefix d n m : n <= m -> take n (shake256 d m) = shake256 d n;
}.
