(* ===== verification/RefInstances.v ===== *)
(** * Concrete instances of the library interfaces

    RFC 4648 base64, hyphenated hexadecimal UUIDs and a transparent
    extendable-output function.  They are not claimed to be the code of the
    crates: they show that the laws of [Externals] have a model, and the
    witnesses of the development compute with them. *)

From Stdlib Require Import Strings.Byte Lia.
From S2P Require Import Prelude Externals.

(** ** Base64 (RFC 4648, padded) *)
Module RefBase64.

Definition alphabet : bytes :=
  str_bytes "ABCDEFGHIJKLMNOPQRSTUVWXYZabcdefghijklmnopqrstuvwxyz0123456789+/".

Definition pad : byte := Byte.x3d.

Definition enc6 (n : Z) : byte := nth (Z.to_nat n) alphabet pad.

Fixpoint index_of (c : byte) (l : bytes) (i : Z) : option Z :=
  match l with
  | [] => None
  | x :: l => if bool_decide (x = c) then Some i else index_of c l (i + 1)%Z
  end.

Definition dec6 (c : byte) : option Z := index_of c alphabet 0.

Fixpoint encode (l : bytes) : bytes :=
  match l with
  | [] => []
  | [a] => let a := byte_val a in
      [enc6 (a / 4); enc6 (a `mod` 4 * 16); pad; pad]
  | [a; b] => let a := byte_val a in let b := byte_val b in
      [enc6 (a / 4); enc6 (a `mod` 4 * 16 + b / 16); enc6 (b `mod` 16 * 4); pad]
  | a :: b :: c :: l =>
      let a := byte_val a in let b := byte_val b in let c := byte_val c in
      [enc6 (a / 4); enc6 (a `mod` 4 * 16 + b / 16);
       enc6 (b `mod` 16 * 4 + c / 64); enc6 (c `mod` 64)] ++ encode l
  end%Z.

(** One group of four characters; trailing bits of a padded group must be 0. *)
Definition decode_group (c1 c2 c3 c4 : byte) (last : bool) : option bytes :=
  x1 ← dec6 c1; x2 ← dec6 c2;
  match dec6 c3, dec6 c4 with
  | Some x3, Some x4 =>
      Some [byte_of_Z (x1 * 4 + x2 / 16); byte_of_Z (x2 `mod` 16 * 16 + x3 / 4);
            byte_of_Z (x3 `mod` 4 * 64 + x4)]%Z
  | Some x3, None =>
      if last && bool_decide (c4 = pad) && bool_decide (x3 `mod` 4 = 0)%Z
      then Some [byte_of_Z (x1 * 4 + x2 / 16); byte_of_Z (x2 `mod` 16 * 16 + x3 / 4)]%Z
      else None
  | None, None =>
      if last && bool_decide (c3 = pad) && bool_decide (c4 = pad)
         && bool_decide (x2 `mod` 16 = 0)%Z
      then Some [byte_of_Z (x1 * 4 + x2 / 16)]%Z else None
  | None, Some _ => None
  end.

Fixpoint decode (l : bytes) : option bytes :=
  match l with
  | [] => Some []
  | c1 :: c2 :: c3 :: c4 :: r =>
      g ← decode_group c1 c2 c3 c4 (bool_decide (r = []));
      t ← decode r; Some (g ++ t)
  | _ => None
  end.

Lemma dec6_enc6 n : (0 <= n < 64)%Z -> dec6 (enc6 n) = Some n.
Proof.
  intros H.
  assert (Hall : forallb (fun k => bool_decide (dec6 (enc6 (Z.of_nat k)) = Some (Z.of_nat k)))
            (seq 0 64) = true) by (vm_compute; reflexivity).
  rewrite forallb_forall in Hall.
  specialize (Hall (Z.to_nat n) ltac:(apply in_seq; lia)).
  rewrite Z2Nat.id in Hall by lia. by apply bool_decide_eq_true_1 in Hall.
Qed.

Lemma dec6_pad : dec6 pad = None.
Proof. reflexivity. Qed.

Lemma byte_of_Z_eq z b : z = byte_val b -> byte_of_Z z = b.
Proof. intros ->. apply byte_of_Z_val. Qed.

Lemma encode_nil l : encode l = [] -> l = [].
Proof. by destruct l as [|? [|? [|]]]. Qed.

(** Induction by groups of three bytes. *)
Lemma groups3_ind (P : bytes -> Prop) :
  P [] -> (forall a, P [a]) -> (forall a b, P [a; b]) ->
  (forall a b c l, P l -> P (a :: b :: c :: l)) -> forall l, P l.
Proof.
  intros H0 H1 H2 H3. fix IH 1. intros [|a [|b [|c l]]]; [done|apply H1|apply H2|apply H3, IH].
Qed.

Lemma groups4_ind (P : bytes -> Prop) :
  P [] -> (forall a, P [a]) -> (forall a b, P [a; b]) -> (forall a b c, P [a; b; c]) ->
  (forall a b c d l, P l -> P (a :: b :: c :: d :: l)) -> forall l, P l.
Proof.
  intros H0 H1 H2 H3 H4. fix IH 1.
  intros [|a [|b [|c [|d l]]]]; [done|apply H1|apply H2|apply H3|apply H4, IH].
Qed.

Ltac byte_arith :=
  repeat match goal with
  | b : byte |- _ =>
      lazymatch goal with
      | _ : (0 <= byte_val b < 256)%Z |- _ => fail
      | _ => pose proof (byte_val_range b)
      end
  end; Z.to_euclidean_division_equations; lia.

Lemma decode_encode l : decode (encode l) = Some l.
Proof.
  induction l as [|a|a b|a b c l IH] using groups3_ind; [done| | |].
  - simpl. unfold decode_group. rewrite !dec6_enc6, !dec6_pad by byte_arith. simpl.
    rewrite bool_decide_eq_true_2 by byte_arith. simpl.
    do 2 f_equal. apply byte_of_Z_eq. byte_arith.
  - simpl. unfold decode_group. rewrite !dec6_enc6, !dec6_pad by byte_arith. simpl.
    rewrite bool_decide_eq_true_2 by byte_arith. simpl.
    do 2 f_equal; [|f_equal]; apply byte_of_Z_eq; byte_arith.
  - simpl. unfold decode_group. rewrite !dec6_enc6 by byte_arith. simpl.
    rewrite IH. simpl.
    do 2 f_equal; [|f_equal; [|f_equal]]; apply byte_of_Z_eq; byte_arith.
Qed.

Definition encoded_len (l : bytes) : nat := 4 * ((length l + 2) / 3).

Lemma div3_step n : (3 + n + 2) / 3 = S ((n + 2) / 3).
Proof. replace (3 + n + 2) with (n + 2 + 1 * 3) by lia. rewrite Nat.div_add; lia. Qed.

Lemma encode_length l : length (encode l) = encoded_len l.
Proof.
  unfold encoded_len. induction l as [|a|a b|a b c l IH] using groups3_ind; [done..|].
  change (length (a :: b :: c :: l)) with (3 + length l). rewrite div3_step.
  change (length (encode (a :: b :: c :: l))) with (4 + length (encode l)). lia.
Qed.

Lemma decode_group_length c1 c2 c3 c4 last g :
  decode_group c1 c2 c3 c4 last = Some g ->
  length g = 3 \/ (last = true /\ 1 <= length g <= 3).
Proof.
  unfold decode_group. destruct (dec6 c1), (dec6 c2); simpl; try discriminate.
  destruct (dec6 c3), (dec6 c4); simpl; intros H;
    repeat (case_match; try discriminate); simplify_eq; simpl; auto; right;
    bool_inv; (split; [done|lia]).
Qed.

Lemma decode_length l d : decode l = Some d -> length l = encoded_len d.
Proof.
  unfold encoded_len. revert d.
  induction l as [| | | |c1 c2 c3 c4 r IH] using groups4_ind; cbn [decode]; intros d H; try discriminate.
  - by simplify_eq.
  - apply bind_Some in H as (g & Hg & H). apply bind_Some in H as (t & Ht & H).
    simplify_eq. rewrite length_app.
    apply decode_group_length in Hg as [->|[->%bool_decide_eq_true Hl]].
    + change (length (c1 :: c2 :: c3 :: c4 :: r)) with (4 + length r).
      rewrite (IH t Ht), div3_step. lia.
    + simpl in Ht. simplify_eq. simpl.
      assert (length g = 1 \/ length g = 2 \/ length g = 3) as [->|[->| ->]] by lia; done.
Qed.

End RefBase64.

#[export] Instance ref_base64 : Base64Codec := {|
  b64_decode src cap :=
    match RefBase64.decode src with
    | Some d => if bool_decide (length d <= cap) then Ok d
                else Err (EForeign "base64ct" "InvalidLength")
    | None => Err (EForeign "base64ct" "InvalidEncoding")
    end;
  b64_encode src cap :=
    if bool_decide (RefBase64.encoded_len src <= cap)
    then Ok (String.string_of_list_byte (RefBase64.encode src))
    else Err (EForeign "base64ct" "InvalidLength");
  b64_encoded_len := RefBase64.encoded_len;
|}.

#[export] Instance ref_base64_laws : Base64Laws.
Proof.
  split; simpl.
  - intros src cap d H. case_match; [|done]. case_bool_decide; by simplify_eq.
  - intros src cap. by repeat case_match.
  - intros src cap d H. case_match eqn:E; [|done]. case_bool_decide; simplify_eq.
    by apply RefBase64.decode_length.
  - done.
  - intros src cap H. rewrite bool_decide_eq_true_2 by done. eexists. split; [done|].
    unfold str_bytes. rewrite String.list_byte_of_string_of_list_byte.
    apply RefBase64.encode_length.
  - intros src cap s cap' H Hle. case_bool_decide; simplify_eq. unfold str_bytes.
    rewrite String.list_byte_of_string_of_list_byte, RefBase64.decode_encode.
    by rewrite bool_decide_eq_true_2.
Qed.

(** ** UUIDs: sixteen bytes, printed as hyphenated hexadecimal *)
Module RefUuid.

Definition hex_digits : bytes := str_bytes "0123456789abcdef".
Definition hyphen : byte := Byte.x2d.

Definition hex_of_byte (b : byte) : bytes :=
  [nth (Z.to_nat (byte_val b / 16)) hex_digits hyphen;
   nth (Z.to_nat (byte_val b `mod` 16)) hex_digits hyphen].

Definition hex_val (c : byte) : option Z := RefBase64.index_of c hex_digits 0.

Fixpoint parse_hex (l : bytes) : option bytes :=
  match l with
  | [] => Some []
  | h :: l :: r => x ← hex_val h; y ← hex_val l; t ← parse_hex r;
                   Some (byte_of_Z (x * 16 + y) :: t)
  | _ => None
  end.

Definition strip (l : bytes) : bytes := filter (.≠ hyphen) l.

Definition hex (l : bytes) : bytes := mjoin (hex_of_byte <$> l).

Definition print (u : array 16) : bytes :=
  let l := as_bytes u in
  hex (take 4 l) ++ [hyphen] ++ hex (take 2 (drop 4 l)) ++ [hyphen] ++
  hex (take 2 (drop 6 l)) ++ [hyphen] ++ hex (take 2 (drop 8 l)) ++ [hyphen] ++
  hex (drop 10 l).

Definition parse (s : bytes) : option (array 16) :=
  parse_hex (strip s) ≫= try_into_array 16.

Definition hex_check (b : byte) : bool :=
  match hex_of_byte b with
  | [h; l] => bool_decide (h <> hyphen) && bool_decide (l <> hyphen) &&
      match hex_val h, hex_val l with
      | Some x, Some y => bool_decide (byte_of_Z (x * 16 + y) = b)
      | _, _ => false
      end
  | _ => false
  end.

Lemma hex_check_true b : hex_check b = true.
Proof.
  assert (Hall : forallb (fun k => hex_check (byte_of_Z (Z.of_nat k))) (seq 0 256) = true)
    by (vm_compute; reflexivity).
  rewrite forallb_forall in Hall. pose proof (byte_val_range b).
  specialize (Hall (Z.to_nat (byte_val b)) ltac:(apply in_seq; lia)).
  by rewrite Z2Nat.id, byte_of_Z_val in Hall by lia.
Qed.

Lemma hex_byte_ok b : exists h l x y,
  hex_of_byte b = [h; l] /\ h <> hyphen /\ l <> hyphen /\
  hex_val h = Some x /\ hex_val l = Some y /\ byte_of_Z (x * 16 + y) = b.
Proof.
  pose proof (hex_check_true b) as H. unfold hex_check in H.
  destruct (hex_of_byte b) as [|h [|l [|]]]; try discriminate.
  destruct (hex_val h) as [x|] eqn:Hx, (hex_val l) as [y|] eqn:Hy; bool_inv; try discriminate.
  bool_inv. eauto 12.
Qed.

Lemma strip_app l1 l2 : strip (l1 ++ l2) = strip l1 ++ strip l2.
Proof. apply filter_app. Qed.

Lemma hex_cons b l : hex (b :: l) = hex_of_byte b ++ hex l.
Proof. done. Qed.

Lemma strip_hex l : strip (hex l) = hex l.
Proof.
  induction l as [|b l IH]; [done|]. rewrite hex_cons, strip_app.
  f_equal; [|done]. destruct (hex_byte_ok b) as (h & l' & x & y & -> & Hh & Hl & _).
  unfold strip. by rewrite !filter_cons_True, filter_nil.
Qed.

Lemma parse_hex_hex l : parse_hex (hex l) = Some l.
Proof.
  induction l as [|b l IH]; [done|]. rewrite hex_cons.
  destruct (hex_byte_ok b) as (h & l' & x & y & -> & _ & _ & Hx & Hy & Hb).
  simpl. rewrite Hx, Hy, IH. simpl. by rewrite Hb.
Qed.

Lemma hex_app l1 l2 : hex (l1 ++ l2) = hex l1 ++ hex l2.
Proof. unfold hex. rewrite fmap_app. apply join_app. Qed.

Lemma chunk {A} n k (l : list A) : take n (drop k l) ++ drop (k + n) l = drop k l.
Proof. by rewrite <-drop_drop, take_drop. Qed.

Lemma strip_print u : strip (print u) = hex (as_bytes u).
Proof.
  unfold print. rewrite !strip_app, !strip_hex.
  change (strip [hyphen]) with (@nil byte). rewrite !app_nil_l, <-!hex_app. f_equal.
  by rewrite (chunk 2 8), (chunk 2 6), (chunk 2 4), take_drop.
Qed.

Lemma parse_print u : parse (print u) = Some u.
Proof.
  unfold parse. rewrite strip_print, parse_hex_hex. simpl. apply try_into_as_bytes.
Qed.

(** Big-endian bytes of a number. *)
Fixpoint be_bytes (n : nat) (z : Z) : bytes :=
  match n with
  | 0 => []
  | S n => be_bytes n (z / 256) ++ [byte_of_Z z]
  end.

Lemma be_bytes_length n z : length (be_bytes n z) = n.
Proof. revert z; induction n; intros; simpl; [done|]. rewrite length_app, IHn. simpl. lia. Qed.

Lemma be_bytes_inj n a b :
  (0 <= a < 256 ^ Z.of_nat n)%Z -> (0 <= b < 256 ^ Z.of_nat n)%Z ->
  be_bytes n a = be_bytes n b -> a = b.
Proof.
  revert a b. induction n as [|n IH]; intros a b Ha Hb H.
  - change (256 ^ Z.of_nat 0)%Z with 1%Z in *. lia.
  - rewrite Nat2Z.inj_succ, Z.pow_succ_r in Ha, Hb by lia.
    simpl in H. apply app_inj_tail in H as [H1 H2].
    apply (f_equal byte_val) in H2. rewrite !byte_val_of_Z in H2.
    apply IH in H1; [| |]; Z.to_euclidean_division_equations; lia.
Qed.

(** The first three fields of a UUID with their bytes reversed. *)
Definition to_bytes_le (u : array 16) : bytes :=
  let l := as_bytes u in
  reverse (take 4 l) ++ reverse (take 2 (drop 4 l)) ++ reverse (take 2 (drop 6 l)) ++ drop 8 l.

Lemma to_bytes_le_length u : length (to_bytes_le u) = 16.
Proof.
  unfold to_bytes_le.
  rewrite !length_app, !length_reverse, !length_take, !length_drop, !array_length. done.
Qed.

Lemma to_bytes_le_inj u v : to_bytes_le u = to_bytes_le v -> u = v.
Proof.
  unfold to_bytes_le. intros H.
  pose proof (array_length u) as Hu. pose proof (array_length v) as Hv.
  apply app_inj_1 in H as [H1 H]; [|rewrite !length_reverse, !length_take; lia].
  apply app_inj_1 in H as [H2 H]; [|rewrite !length_reverse, !length_take, !length_drop; lia].
  apply app_inj_1 in H as [H3 H4]; [|rewrite !length_reverse, !length_take, !length_drop; lia].
  apply (inj reverse) in H1, H2, H3. apply array_ext.
  rewrite <-(take_drop 4 (as_bytes u)), <-(take_drop 4 (as_bytes v)). f_equal; [done|].
  rewrite <-(chunk 2 4 (as_bytes u)), <-(chunk 2 4 (as_bytes v)). f_equal; [done|].
  cbn [Nat.add]. rewrite <-(chunk 2 6 (as_bytes u)), <-(chunk 2 6 (as_bytes v)). f_equal; done.
Qed.

End RefUuid.

#[export] Instance ref_uuid : UuidLib := {|
  Uuid := array 16;
  uuid_nil := new_zeroed 16;
  uuid_from_bytes b := b;
  uuid_as_bytes u := u;
  uuid_to_bytes_le u :=
    MkArray (RefUuid.to_bytes_le u) (eqb_length_ok (RefUuid.to_bytes_le_length u));
  uuid_from_u128 z := MkArray (RefUuid.be_bytes 16 z) (eqb_length_ok (RefUuid.be_bytes_length 16 z));
  uuid_to_string u := String.string_of_list_byte (RefUuid.print u);
  uuid_parse_str s := RefUuid.parse (str_bytes s);
|}.

#[export] Instance ref_uuid_laws : UuidLaws.
Proof.
  split; simpl; try done.
  - intros u v H. apply (f_equal as_bytes) in H. by apply RefUuid.to_bytes_le_inj.
  - intros a b Ha Hb H. apply (f_equal as_bytes) in H.
    change (2 ^ 128)%Z with (256 ^ Z.of_nat 16)%Z in *.
    by apply (RefUuid.be_bytes_inj 16) in H.
  - intros u. unfold str_bytes. rewrite String.list_byte_of_string_of_list_byte.
    by rewrite RefUuid.parse_print.
Qed.

(** ** An extendable-output function: a byte stream keyed by a checksum *)
Definition checksum (d : bytes) : Z :=
  foldr (fun b acc => Z.land (byte_val b + 31 * acc) (Z.ones 128))%Z 7%Z d.

Definition stream_byte (c : Z) (i : nat) : byte := byte_of_Z (Z.shiftr c (8 * Z.of_nat (i mod 16)) + Z.of_nat i).

#[export] Instance ref_shake : Shake256Lib := {|
  shake256 d n := let c := checksum d in stream_byte c <$> seq 0 n
|}.

#[export] Instance ref_shake_laws : Shake256Laws.
Proof.
  split; simpl.
  - intros d n. by rewrite length_fmap, length_seq.
  - intros d n m H. rewrite <-fmap_take. f_equal.
    rewrite take_seq. f_equal. lia.
Qed.
