(* ===== verification/Effects.v ===== *)
(** * Asynchronous code as effectful procedures

    An [async fn] of the sources becomes a [proc]: a finite tree whose nodes
    are the operations the function performs on its environment (sockets,
    HTTP, channels, timers, files, randomness) and whose leaves are its
    [outcome].  A [loop] is cut after a number of iterations given as fuel.

    Three readings of a [proc] are used: [interp] runs it against a handler,
    [runs] says which traces of operations and answers it can produce in any
    environment, and the system models step it one operation at a time. *)

From S2P Require Import Prelude Types.

(** ** Operations *)

(** The parts of [reqwest::Response] the program looks at; reading the body
    may itself fail. *)
Record http_response : Type := mkResponse {
  status : Z;
  body : outcome string;
}.

(** [wireguard_uapi::set::Peer] and [set::Device], the fields the program sets. *)
Inductive WgPeerF : Type := RemoveMe | ReplaceAllowedIps | UpdateOnly.

Record WgSetPeer : Type := mkSetPeer {
  public_key : Key;
  flags : list WgPeerF;
  preshared_key : option Key;
}.

Record WgSetDevice : Type := mkSetDevice { ifname : string; peers : list WgSetPeer }.

(** What the connection manager's [select!] yields: a result of
    [listener.accept()] or of [manager_notification_rx.recv()]. *)
Inductive select_result : Type :=
  | Accepted (r : outcome AcceptEvent)
  | Notified (n : option ConnectionHandlerEvent).

Inductive effect : Type :=
  | ERandom                              (* rand::rng().random::<[u8; 32]>() *)
  | ESleep (secs : Z)                    (* tokio::time::sleep *)
  | ENow                                 (* tokio::time::Instant::now() *)
  | ETimeoutRecv (deadline : Z)          (* timeout_at(deadline, requests.recv()).ok() *)
  | EHttpGet (uri : string)              (* client.get(uri).send() *)
  | EBind (addr : string)                (* TcpListener::bind *)
  | EConnect (endpoint : string)         (* TcpStream::connect *)
  | EWriteAll (data : bytes)             (* stream.write_all(data) *)
  | EReadExact (n : nat)                 (* stream.read_exact(&mut [u8; n]) *)
  | ESelect                              (* select! { accept(), recv() } *)
  | ESpawn (id : ConnectionId) (s : Z)   (* spawn the task of a connection: its handle *)
  | EAbort (handle : Z)                  (* AbortHandle::abort *)
  | ESendManager (ev : ConnectionHandlerEvent)  (* manager_notification_tx.send *)
  | ESendDeadman (req : DeadmanRequest)         (* OskDeadman's client.send *)
  | EFileCreate (path : string)                 (* File::create *)
  | EFileWrite (path : string) (data : bytes)   (* file.write_all *)
  | EPrintln (m : message)                      (* println! *)
  | EWgConnect                                  (* WgSocket::connect *)
  | EWgGetDevice (ifname : string)              (* WgSocket::get_device: its peers' keys *)
  | EWgSetDevice (dev : WgSetDevice).           (* WgSocket::set_device *)

#[export] Instance WgPeerF_eq_dec : EqDecision WgPeerF.
Proof. solve_decision. Defined.
#[export] Instance WgSetPeer_eq_dec : EqDecision WgSetPeer.
Proof. solve_decision. Defined.
#[export] Instance WgSetDevice_eq_dec : EqDecision WgSetDevice.
Proof. solve_decision. Defined.
#[export] Instance effect_eq_dec : EqDecision effect.
Proof. solve_decision. Defined.

Definition answer (e : effect) : Type :=
  match e with
  | ERandom => array 32
  | ESleep _ | EAbort _ | EPrintln _ => unit
  | ESpawn _ _ => Z
  | ENow => Z
  | ETimeoutRecv _ => option (option DeadmanRequest)
  | EHttpGet _ => outcome http_response
  | EReadExact n => outcome (array n)
  | EWgGetDevice _ => outcome (list Key)
  | ESelect => select_result
  | EBind _ | EConnect _ | EWriteAll _ | ESendManager _ | ESendDeadman _
  | EFileCreate _ | EFileWrite _ _ | EWgConnect | EWgSetDevice _ => outcome unit
  end.

(** ** Procedures *)
Inductive proc (A : Type) : Type :=
  | Ret (o : outcome A)
  | Vis (e : effect) (k : answer e -> proc A).
Arguments Ret {A} _.
Arguments Vis {A} _ _.

Fixpoint pbind {A B} (p : proc A) (f : A -> proc B) : proc B :=
  match p with
  | Ret (Ok a) => f a
  | Ret (Err e) => Ret (Err e)
  | Ret (Panicked m) => Ret (Panicked m)
  | Vis e k => Vis e (fun a => pbind (k a) f)
  end.

Notation "'let!' x := p 'in' f" := (pbind p (fun x => f))
  (at level 200, x pattern, p at level 100, f at level 200, right associativity) : daisy_scope.
Notation "p ';;;' f" := (pbind p (fun _ => f))
  (at level 200, f at level 200, right associativity) : daisy_scope.

(** [.await.context(m)?] *)
Fixpoint pcontext {A} (m : message) (p : proc A) : proc A :=
  match p with
  | Ret o => Ret (ocontext m o)
  | Vis e k => Vis e (fun a => pcontext m (k a))
  end.

(** Post-processing the outcome of a call ([map_err], [and_then], [expect]). *)
Fixpoint pmap_outcome {A B} (f : outcome A -> outcome B) (p : proc A) : proc B :=
  match p with
  | Ret o => Ret (f o)
  | Vis e k => Vis e (fun a => pmap_outcome f (k a))
  end.

(** A call whose [Result] is inspected instead of propagated; a panic goes on. *)
Fixpoint ptry {A} (p : proc A) : proc (outcome A) :=
  match p with
  | Ret (Panicked m) => Ret (Panicked m)
  | Ret o => Ret (Ok o)
  | Vis e k => Vis e (fun a => ptry (k a))
  end.

Definition pure {A} (a : A) : proc A := Ret (Ok a).
Definition perform (e : effect) : proc (answer e) := Vis e pure.

Definition random_key : proc Key := perform ERandom.
Definition sleep (secs : Z) : proc unit := perform (ESleep secs).
Definition write_all (data : bytes) : proc unit := Vis (EWriteAll data) Ret.
Definition read_exact (n : nat) : proc (array n) := Vis (EReadExact n) Ret.
Definition http_get (uri : string) : proc http_response := Vis (EHttpGet uri) Ret.

(** A call that answers with a [Result]. *)
Definition send_manager (ev : ConnectionHandlerEvent) : proc unit := Vis (ESendManager ev) Ret.
Definition send_deadman (req : DeadmanRequest) : proc unit := Vis (ESendDeadman req) Ret.

(** ** Loops *)
Inductive control (S A : Type) : Type :=
  | Continue (s : S)
  | Break (a : A).
Arguments Continue {S A} _.
Arguments Break {S A} _.

(** [fuel] iterations of [loop { body }] from state [s]; [Continue s'] says the
    loop is still running in state [s'], an error or a [Break] ends it. *)
Fixpoint loop {S A} (fuel : nat) (body : S -> proc (control S A)) (s : S) : proc (control S A) :=
  match fuel with
  | O => pure (Continue s)
  | S fuel =>
      let! c := body s in
      match c with
      | Continue s' => loop fuel body s'
      | Break a => pure (Break a)
      end
  end.

(** [loop { body?; }], which has no way out but an error. *)
Definition forever (fuel : nat) (body : proc unit) : proc (control unit Empty_set) :=
  loop fuel (fun _ => body ;;; pure (Continue tt)) tt.

(** ** Running against a handler *)
Definition handler (W : Type) : Type := forall e : effect, W -> answer e * W.

Fixpoint interp {W A} (h : handler W) (p : proc A) (w : W) : outcome A * W :=
  match p with
  | Ret o => (o, w)
  | Vis e k => let '(a, w') := h e w in interp h (k a) w'
  end.

(** ** Traces *)
Record event : Type := Ev { ev_effect : effect; ev_answer : answer ev_effect }.

Fixpoint runs {A} (p : proc A) (tr : list event) (o : outcome A) : Prop :=
  match p with
  | Ret o' => tr = [] /\ o = o'
  | Vis e k => exists a tr', tr = Ev e a :: tr' /\ runs (k a) tr' o
  end.

(** An answer recorded for one operation, taken for an equal one.  The types
    depend on the constructor alone, but for the length of a read. *)
Definition cast_answer (e' e : effect) : answer e' -> option (answer e) :=
  match e' return answer e' -> option (answer e) with
  | ERandom => match e with ERandom => Some | _ => fun _ => None end
  | ESleep _ => match e with ESleep _ => Some | _ => fun _ => None end
  | ENow => match e with ENow => Some | _ => fun _ => None end
  | ETimeoutRecv _ => match e with ETimeoutRecv _ => Some | _ => fun _ => None end
  | EHttpGet _ => match e with EHttpGet _ => Some | _ => fun _ => None end
  | EBind _ => match e with EBind _ => Some | _ => fun _ => None end
  | EConnect _ => match e with EConnect _ => Some | _ => fun _ => None end
  | EWriteAll _ => match e with EWriteAll _ => Some | _ => fun _ => None end
  | EReadExact n' =>
      match e with
      | EReadExact n => fun o =>
          match o with
          | Ok b => match try_into_array n (as_bytes b) with Some b => Some (Ok b) | None => None end
          | Err err => Some (Err err)
          | Panicked m => Some (Panicked m)
          end
      | _ => fun _ => None
      end
  | ESelect => match e with ESelect => Some | _ => fun _ => None end
  | ESpawn _ _ => match e with ESpawn _ _ => Some | _ => fun _ => None end
  | EAbort _ => match e with EAbort _ => Some | _ => fun _ => None end
  | ESendManager _ => match e with ESendManager _ => Some | _ => fun _ => None end
  | ESendDeadman _ => match e with ESendDeadman _ => Some | _ => fun _ => None end
  | EFileCreate _ => match e with EFileCreate _ => Some | _ => fun _ => None end
  | EFileWrite _ _ => match e with EFileWrite _ _ => Some | _ => fun _ => None end
  | EPrintln _ => match e with EPrintln _ => Some | _ => fun _ => None end
  | EWgConnect => match e with EWgConnect => Some | _ => fun _ => None end
  | EWgGetDevice _ => match e with EWgGetDevice _ => Some | _ => fun _ => None end
  | EWgSetDevice _ => match e with EWgSetDevice _ => Some | _ => fun _ => None end
  end.

Lemma cast_answer_same e a : cast_answer e e a = Some a.
Proof.
  destruct e; try done. destruct a as [b|e|m]; simpl; [|done..]. by rewrite try_into_as_bytes.
Qed.

(** Replays a trace: the outcome of [p] if this is one of its traces. *)
Fixpoint replay {A} (p : proc A) (tr : list event) : option (outcome A) :=
  match p, tr with
  | Ret o, [] => Some o
  | Vis e k, Ev e' a :: tr =>
      if bool_decide (e' = e)
      then match cast_answer e' e a with
           | Some a => replay (k a) tr
           | None => None
           end
      else None
  | _, _ => None
  end.

(** Every outcome of [p], whatever the environment answers, satisfies [P]. *)
Fixpoint always {A} (P : outcome A -> Prop) (p : proc A) : Prop :=
  match p with
  | Ret o => P o
  | Vis e k => forall a, always P (k a)
  end.

(** ** Laws *)
Lemma interp_bind {W A B} (h : handler W) (p : proc A) (f : A -> proc B) w :
  interp h (pbind p f) w =
  match interp h p w with
  | (Ok a, w') => interp h (f a) w'
  | (Err e, w') => (Err e, w')
  | (Panicked m, w') => (Panicked m, w')
  end.
Proof.
  revert w. induction p as [[a|e|m]|e k IH]; intros w; simpl; try done.
  destruct (h e w). apply IH.
Qed.

Lemma interp_context {W A} (h : handler W) m (p : proc A) w :
  interp h (pcontext m p) w = (ocontext m (interp h p w).1, (interp h p w).2).
Proof.
  revert w. induction p as [o|e k IH]; intros w; simpl; [done|].
  destruct (h e w). apply IH.
Qed.

Lemma replay_runs {A} (p : proc A) tr o : replay p tr = Some o -> runs p tr o.
Proof.
  revert tr. induction p as [o'|e k IH]; intros [|[e' a] tr]; simpl; try done; [naive_solver|].
  case_bool_decide as Heq; [|done]. destruct Heq. rewrite cast_answer_same. eauto.
Qed.

Lemma runs_bind {A B} (p : proc A) (f : A -> proc B) tr o :
  runs (pbind p f) tr o <->
  (exists tr1 tr2 a, tr = tr1 ++ tr2 /\ runs p tr1 (Ok a) /\ runs (f a) tr2 o) \/
  (exists e, runs p tr (Err e) /\ o = Err e) \/
  (exists m, runs p tr (Panicked m) /\ o = Panicked m).
Proof.
  revert tr. induction p as [[a|e|m]|e k IH]; intros tr; simpl.
  - split; [intros H; left; by exists [], tr, a|].
    by intros [(? & ? & ? & -> & [-> [= ->]] & ?)|[(? & (_ & ?) & _)|(? & (_ & ?) & _)]].
  - split; [intros [-> ->]; right; left; by exists e|].
    by intros [(? & ? & ? & -> & (_ & ?) & ?)|[(? & (-> & [= ->]) & ->)|(? & (_ & ?) & _)]].
  - split; [intros [-> ->]; right; right; by exists m|].
    by intros [(? & ? & ? & -> & (_ & ?) & ?)|[(? & (_ & ?) & _)|(? & (-> & [= ->]) & ->)]].
  - split.
    + intros (a & tr' & -> & Hr). apply IH in Hr as [(tr1 & tr2 & b & -> & H1 & H2)|Hr].
      * left. exists (Ev e a :: tr1), tr2, b. naive_solver.
      * right. naive_solver.
    + intros [(tr1 & tr2 & b & -> & (a & tr' & -> & H1) & H2)|Hr].
      * exists a, (tr' ++ tr2). split; [done|]. apply IH. left. eauto 10.
      * destruct Hr as [(e' & (a & tr' & -> & H1) & ->)|(m & (a & tr' & -> & H1) & ->)];
          exists a, tr'; (split; [done|]); apply IH; right; eauto.
Qed.

Lemma runs_bind_Ok {A B} (p : proc A) (f : A -> proc B) tr b :
  runs (pbind p f) tr (Ok b) ->
  exists tr1 tr2 a, tr = tr1 ++ tr2 /\ runs p tr1 (Ok a) /\ runs (f a) tr2 (Ok b).
Proof. intros [Hr|[(? & ? & ?)|(? & ? & ?)]]%runs_bind; [done|done|done]. Qed.

Lemma runs_context {A} m (p : proc A) tr o :
  runs (pcontext m p) tr o <-> exists o', runs p tr o' /\ o = ocontext m o'.
Proof.
  revert tr. induction p as [o'|e k IH]; intros tr; simpl; [naive_solver|].
  setoid_rewrite IH. naive_solver.
Qed.

Lemma runs_map_outcome {A B} (f : outcome A -> outcome B) (p : proc A) tr o :
  runs (pmap_outcome f p) tr o <-> exists o', runs p tr o' /\ o = f o'.
Proof.
  revert tr. induction p as [o'|e k IH]; intros tr; simpl; [naive_solver|].
  setoid_rewrite IH. naive_solver.
Qed.

Lemma runs_try {A} (p : proc A) tr o :
  runs (ptry p) tr o <->
  exists o', runs p tr o' /\ o = match o' with Panicked m => Panicked m | o' => Ok o' end.
Proof.
  revert tr. induction p as [[a|e|m]|e k IH]; intros tr; simpl; [naive_solver..|].
  setoid_rewrite IH. naive_solver.
Qed.

(** A call whose result is inspected: the continuation sees every result but a
    panic. *)
Lemma runs_bind_try {A B} (p : proc A) (f : outcome A -> proc B) tr o :
  runs (pbind (ptry p) f) tr o <->
  (exists t1 t2 r, tr = t1 ++ t2 /\ runs p t1 r /\ panics r = false /\ runs (f r) t2 o) \/
  (exists m, runs p tr (Panicked m) /\ o = Panicked m).
Proof.
  rewrite runs_bind. setoid_rewrite runs_try. split.
  - intros [(t1 & t2 & r & -> & (r' & Hp & Hr) & Hf)|[(e & (r' & Hp & Hr) & ->)|(m & (r' & Hp & Hr) & ->)]].
    + left. exists t1, t2, r. destruct r'; simplify_eq; eauto.
    + by destruct r'.
    + right. destruct r'; simplify_eq; eauto.
  - intros [(t1 & t2 & r & -> & Hp & Hn & Hf)|(m & Hp & ->)].
    + left. exists t1, t2, r. split; [done|]. split; [|done]. exists r. by destruct r.
    + right. right. eauto.
Qed.

Lemma always_runs {A} (P : outcome A -> Prop) (p : proc A) :
  always P p <-> forall tr o, runs p tr o -> P o.
Proof.
  induction p as [o'|e k IH]; simpl; [naive_solver|].
  setoid_rewrite IH. split; [naive_solver|]. intros H a tr o Hr. eapply H. eauto.
Qed.

Lemma always_bind {A B} (P : outcome A -> Prop) (Q : outcome B -> Prop) (p : proc A) (f : A -> proc B) :
  always P p ->
  (forall a, P (Ok a) -> always Q (f a)) ->
  (forall e, P (Err e) -> Q (Err e)) ->
  (forall m, P (Panicked m) -> Q (Panicked m)) ->
  always Q (pbind p f).
Proof.
  intros Hp Hok Herr Hpan. induction p as [[a|e|m]|e k IH]; simpl in *; eauto.
Qed.

Lemma always_mono {A} (P Q : outcome A -> Prop) (p : proc A) :
  (forall o, P o -> Q o) -> always P p -> always Q p.
Proof. intros H. induction p; simpl; eauto. Qed.

(** Procedures that hand on no error: they return or panic. *)
Definition no_err {A} (o : outcome A) : Prop := match o with Err _ => False | _ => True end.

Lemma no_err_bind {A B} (p : proc A) (f : A -> proc B) :
  always no_err p -> (forall a, always no_err (f a)) -> always no_err (pbind p f).
Proof. intros Hp Hf. by apply (always_bind no_err). Qed.

Lemma no_err_try {A} (p : proc A) : always no_err (ptry p).
Proof. induction p as [[a|e|m]|e k IH]; simpl; auto. Qed.

Lemma no_err_perform e : always no_err (perform e).
Proof. simpl. auto. Qed.

Lemma no_err_loop {S A} n (body : S -> proc (control S A)) s :
  (forall s, always no_err (body s)) -> always no_err (loop n body s).
Proof.
  intros Hb. revert s. induction n as [|n IH]; intros s; cbn [loop]; [done|].
  apply no_err_bind; [done|]. intros [s'|a]; [apply IH|done].
Qed.

Lemma no_err_runs {A} (p : proc A) tr e : always no_err p -> ~ runs p tr (Err e).
Proof. intros Hp Hr. by apply (proj1 (always_runs no_err p) Hp _ _ Hr). Qed.

#[export] Hint Resolve no_err_bind no_err_try no_err_perform no_err_loop : daisy.

(** Two procedures are equivalent when no handler tells them apart. *)
Definition proc_equiv {A} (p q : proc A) : Prop :=
  forall W (h : handler W) w, interp h p w = interp h q w.

#[export] Instance proc_equiv_equivalence A : Equivalence (@proc_equiv A).
Proof.
  split.
  - by intros p W h w.
  - intros p q H W h w. by rewrite H.
  - intros p q r H1 H2 W h w. by rewrite H1.
Qed.

#[export] Instance pbind_proper A B :
  Proper (proc_equiv ==> pointwise_relation A proc_equiv ==> proc_equiv) (@pbind A B).
Proof.
  intros p q Hpq f g Hfg W h w. rewrite !interp_bind, Hpq.
  destruct (interp h q w) as [[a| |] w']; [apply Hfg|done..].
Qed.

#[export] Instance pcontext_proper A m : Proper (proc_equiv ==> proc_equiv) (@pcontext A m).
Proof. intros p q H W h w. by rewrite !interp_context, H. Qed.

Lemma pbind_assoc {A B C} (p : proc A) (f : A -> proc B) (g : B -> proc C) :
  proc_equiv (pbind (pbind p f) g) (pbind p (fun a => pbind (f a) g)).
Proof.
  intros W h w. rewrite !interp_bind. destruct (interp h p w) as [[a| |] w']; try done.
  by rewrite interp_bind.
Qed.

Lemma pbind_pure_r {A} (p : proc A) : proc_equiv (pbind p pure) p.
Proof. intros W h w. rewrite interp_bind. by destruct (interp h p w) as [[| |] ?]. Qed.

(** Running a loop for [n + m] iterations is running it for [n] and going on. *)
Lemma loop_split {S A} n m (body : S -> proc (control S A)) s :
  proc_equiv (loop (n + m) body s)
    (let! c := loop n body s in
     match c with Continue s' => loop m body s' | Break a => pure (Break a) end).
Proof.
  revert s. induction n as [|n IH]; intros s; simpl; [done|].
  rewrite pbind_assoc. apply pbind_proper; [done|]. intros [s'|a]; [apply IH|done].
Qed.

Lemma forever_never_breaks fuel body :
  always (fun o => o = Ok (Continue tt) \/ is_ok o = false) (forever fuel body).
Proof.
  unfold forever. induction fuel as [|n IH]; simpl; [by left|].
  apply (always_bind (fun o => o = Ok (Continue tt) \/ is_ok o = false)).
  - clear IH. induction body as [[[]|e|m]|e k IHb]; simpl; auto.
  - intros c [H|H]; simplify_eq; done.
  - intros e [?|H]; [done|by right].
  - intros m [?|H]; [done|by right].
Qed.

(** ** The operations a procedure may perform *)

(** Whatever it is answered, [p] performs only operations that satisfy [P]. *)
Fixpoint performs {A} (P : effect -> bool) (p : proc A) : Prop :=
  match p with
  | Ret _ => True
  | Vis e k => P e = true /\ forall a, performs P (k a)
  end.

Section Performs.
Context (P : effect -> bool).

Lemma performs_Ret {A} (o : outcome A) : performs P (Ret o).
Proof. done. Qed.

Lemma performs_pure {A} (a : A) : performs P (pure a).
Proof. done. Qed.

Lemma performs_Vis {A} e (k : answer e -> proc A) :
  P e = true -> (forall a, performs P (k a)) -> performs P (Vis e k).
Proof. by split. Qed.

Lemma performs_perform e : P e = true -> performs P (perform e).
Proof. by intros He. Qed.

Lemma performs_bind {A B} (p : proc A) (f : A -> proc B) :
  performs P p -> (forall a, performs P (f a)) -> performs P (pbind p f).
Proof. intros Hp Hf. induction p as [[a|e|m]|e k IH]; simpl; [apply Hf|done..|]. destruct Hp. eauto. Qed.

Lemma performs_context {A} m (p : proc A) : performs P p -> performs P (pcontext m p).
Proof. induction p as [o|e k IH]; simpl; [done|]. intros [? ?]. eauto. Qed.

Lemma performs_try {A} (p : proc A) : performs P p -> performs P (ptry p).
Proof. induction p as [[a|e|m]|e k IH]; simpl; try done. intros [? ?]. eauto. Qed.

Lemma performs_map_outcome {A B} (f : outcome A -> outcome B) (p : proc A) :
  performs P p -> performs P (pmap_outcome f p).
Proof. induction p as [o|e k IH]; simpl; [done|]. intros [? ?]. eauto. Qed.

Lemma performs_loop {S A} n (body : S -> proc (control S A)) s :
  (forall s, performs P (body s)) -> performs P (loop n body s).
Proof.
  intros Hb. revert s. induction n as [|n IH]; intros s; cbn [loop]; [done|].
  apply performs_bind; [done|]. intros [s'|a]; [apply IH|done].
Qed.
End Performs.

Lemma performs_weaken {A} (P Q : effect -> bool) (p : proc A) :
  (forall e, P e = true -> Q e = true) -> performs P p -> performs Q p.
Proof. intros HPQ. induction p as [o|e k IH]; simpl; [done|]. intros [? ?]. eauto. Qed.

(** Walks through a procedure whose parts are known. *)
Ltac performs_step :=
  lazymatch goal with
  | |- performs _ (Ret _) => exact I
  | |- performs _ (pure _) => exact I
  | |- performs _ (perform _) => by apply performs_perform
  | |- performs _ (Vis _ _) => apply performs_Vis; [done|intros]
  | |- performs _ (pcontext _ _) => apply performs_context
  | |- performs _ (ptry _) => apply performs_try
  | |- performs _ (pmap_outcome _ _) => apply performs_map_outcome
  | |- performs _ (loop _ _ _) => apply performs_loop; intros
  | |- performs _ (pbind _ _) => apply performs_bind; [|intros]
  | |- performs _ (match ?x with _ => _ end) => destruct x
  | |- forall _, _ => intros
  end.
Ltac performs_steps := repeat performs_step.

(** Unfolds a trace of a procedure one operation at a time. *)
Ltac runs_step :=
  repeat match goal with
  | H : runs (Ret _) _ _ |- _ => destruct H as [? ?]
  | H : runs (Vis _ _) _ _ |- _ => destruct H as (? & ? & ? & H)
  | H : runs (pure _) _ _ |- _ => destruct H as [? ?]
  | H : _ /\ _ |- _ => destruct H
  end; simplify_eq.
