(* ===== verification/Util.v ===== *)
(** * Utilities ([daisyway/src/internal/util.rs])

    The bounded reader, base64 keys, key files, and the small extension
    traits. *)

From S2P Require Import Prelude Types Externals RefInstances.

(** ** Readers

    [std::io::Read::read] on a buffer of [cap] bytes: the bytes it stored at
    the start of the buffer, or an error, and the reader afterwards. *)
Inductive read_result : Type :=
  | ROk (data : bytes)
  | RErr (k : ErrorKind).

Class Reader (R : Type) : Type := read : R -> nat -> read_result * R.

(** What [Read] promises, for a reader with [content] left: a read delivers a
    prefix of it that fits, nothing only at the end of it (or into no space),
    and interruptions run out ([interrupts] counts those to come). *)
Class ReaderLaws (R : Type) `{Reader R} : Type := {
  content : R -> bytes;
  interrupts : R -> nat;
  read_ok r cap d r' : read r cap = (ROk d, r') ->
    content r = d ++ content r' /\ length d <= cap /\
    (d = [] -> cap = 0 \/ content r = []) /\ interrupts r' <= interrupts r;
  read_interrupted r cap r' : read r cap = (RErr Interrupted, r') ->
    content r' = content r /\ interrupts r' < interrupts r;
}.

Section ReadExt.
Context {R : Type} `{Reader R}.

(** The loop of [read_to_end_up_to]: [buf] and [red] are its variables. A read
    that reports more than the space left makes the next slice [buf[red..]]
    panic. [None]: out of fuel. *)
Fixpoint read_loop (fuel : nat) (r : R) (buf : bytes) (red : nat)
    : option (outcome nat * bytes * R) :=
  match fuel with
  | O => None
  | S fuel =>
      if bool_decide (length buf < red)
      then Some (Panicked (Msg "range start index out of range" []), buf, r)
      else
        let left := length buf - red in
        if bool_decide (left = 0) then Some (Ok red, buf, r)
        else
          match read r left with
          | (ROk [], r') => Some (Ok red, buf, r')
          | (ROk data, r') =>
              let buf' := take red buf ++ overwrite_prefix (drop red buf) data in
              read_loop fuel r' buf' (red + length data)
          | (RErr Interrupted, r') => read_loop fuel r' buf red
          | (RErr e, r') => Some (Err (EIo e), buf, r')
          end
  end.

Definition read_to_end_up_to (fuel : nat) (r : R) (buf : bytes) : option (outcome nat * bytes * R) :=
  read_loop fuel r buf 0.
End ReadExt.

(** ** Keys in base64 *)
Section Base64Keys.
Context `{Base64Codec}.

(** [base64_to_key]: the length of the decoded slice is not looked at. *)
Definition base64_to_key (encoded_key : bytes) : outcome Key :=
  let key := new_zeroed KEY_LENGTH in
  let? decoded := b64_decode encoded_key KEY_LENGTH in
  Ok (array_overwrite key decoded).

(** A trailing newline is cut off. *)
Definition trim_newline (psk_b64 : bytes) : bytes :=
  match last psk_b64 with
  | Some c => if bool_decide (c = Byte.x0a) then take (length psk_b64 - 1) psk_b64 else psk_b64
  | None => psk_b64
  end.

(** [load_base64_key_file]; [open] is [std::fs::File::open]. *)
Definition load_base64_key_file {R} `{Reader R} (open : string -> outcome R)
    (fuel : nat) (file : string) : option (outcome Key) :=
  let psk_b64 := replicate KEY_LENGTH_B64 Byte.x00 in
  match open file with
  | Ok f =>
      match read_to_end_up_to fuel f psk_b64 with
      | None => None
      | Some (Ok psk_b64_len, psk_b64, _) =>
          Some (base64_to_key (trim_newline (take psk_b64_len psk_b64)))
      | Some (Err e, _, _) => Some (Err e)
      | Some (Panicked m, _, _) => Some (Panicked m)
      end
  | Err e => Some (Err e)
  | Panicked m => Some (Panicked m)
  end.
End Base64Keys.

(** [io_error_kind]: [downcast_ref] looks through the contexts attached to an
    error. *)
Fixpoint io_error_kind (e : Error) : option ErrorKind :=
  match e with
  | EIo k => Some k
  | EContext _ e => io_error_kind e
  | _ => None
  end.

(** The extension traits. *)
Definition const_len {n} (_ : array n) : nat := n.
Definition ok_ext {A} (a : A) : outcome A := Ok a.
Definition some_ext {A} (a : A) : option A := Some a.
Definition cas {A} (a : A) (f : A -> A) : A := f a.
Definition discard_result {A} (a : A) : unit := tt.
Definition run_async {A} (f : unit -> A) : A := f tt.
Definition run {A} (f : unit -> A) : A := f tt.

(** ** A reader over a byte string, reading in pieces *)

(** What each call of [read] does: deliver at most [k + 1] bytes, or be
    interrupted, or fail. When the list is used up every call delivers all it
    can. *)
Inductive read_step : Type :=
  | Chunk (k : nat)
  | Interrupt
  | Failure (code : Z).

Record file_reader : Type := mkReader { remaining : bytes; schedule : list read_step }.

#[export] Instance file_reader_read : Reader file_reader := fun r cap =>
  match schedule r with
  | Interrupt :: s => (RErr Interrupted, mkReader (remaining r) s)
  | Failure c :: s => (RErr (OtherKind c), mkReader (remaining r) s)
  | Chunk k :: s =>
      let n := Nat.min (S k) cap in
      (ROk (take n (remaining r)), mkReader (drop n (remaining r)) s)
  | [] => (ROk (take cap (remaining r)), mkReader (drop cap (remaining r)) [])
  end.

Definition is_interrupt (x : read_step) : bool :=
  match x with Interrupt => true | _ => false end.

Definition pending_interrupts (s : list read_step) : nat :=
  length (List.filter is_interrupt s).

Lemma take_delivers n cap (c : bytes) :
  n <= cap -> (n = 0 -> cap = 0) ->
  c = take n c ++ drop n c /\ length (take n c) <= cap /\ (take n c = [] -> cap = 0 \/ c = []).
Proof.
  intros Hn H0. rewrite take_drop, length_take. split; [done|]. split; [lia|].
  intros Hnil%(f_equal length). rewrite length_take in Hnil.
  destruct (nil_or_length_pos c) as [->|]; [by right|]. left. simpl in Hnil. lia.
Qed.

#[export] Instance file_reader_laws : ReaderLaws file_reader.
Proof.
  refine {| content := remaining; interrupts r := pending_interrupts (schedule r) |}.
  - intros [c s] cap d r'. unfold read, file_reader_read, pending_interrupts.
    destruct s as [|[k| |z] s]; cbn [schedule remaining]; intros; simplify_eq.
    + destruct (take_delivers cap cap c) as (? & ? & ?); [lia|done|]. auto.
    + destruct (take_delivers (Nat.min (S k) cap) cap c) as (? & ? & ?); [lia|lia|]. auto.
  - intros [c s] cap r'. unfold read, file_reader_read, pending_interrupts.
    destruct s as [|[k| |z] s]; cbn [schedule remaining]; intros; simplify_eq.
    split; [done|]. simpl. lia.
Defined.

(** ** Correctness of the bounded reader *)
Section ReadProofs.
Context {R : Type} `{ReaderLaws R}.

(** No error other than an interruption is met while reading. *)
Definition never_fails (r : R) : Prop :=
  forall r1 cap c r2, rtc (fun a b => exists n x, read a n = (x, b)) r r1 ->
  read r1 cap <> (RErr (OtherKind c), r2).

Lemma never_fails_step r cap x r' : never_fails r -> read r cap = (x, r') -> never_fails r'.
Proof.
  intros Hnf Hr r1 cap1 c r2 Hrtc. apply Hnf. eapply rtc_l; [|done]. by exists cap, x.
Qed.

Lemma overwrite_prefix_fits (buf data : bytes) :
  length data <= length buf -> overwrite_prefix buf data = data ++ drop (length data) buf.
Proof. intros Hl. unfold overwrite_prefix. by rewrite take_ge. Qed.

(** Storing [d] at [red] and then filling up with [c] is filling up with [d ++ c]. *)
Lemma fill_step (buf d c : bytes) red :
  red + length d <= length buf ->
  let buf' := take red buf ++ overwrite_prefix (drop red buf) d in
  take (red + length d) buf' ++
    overwrite_prefix (drop (red + length d) buf') (take (length buf - (red + length d)) c)
  = take red buf ++ overwrite_prefix (drop red buf) (take (length buf - red) (d ++ c)).
Proof.
  intros Hl buf'. unfold buf'.
  rewrite overwrite_prefix_fits by (rewrite length_drop; lia).
  rewrite take_app_ge, drop_app_ge by (rewrite length_take; lia).
  rewrite length_take, Nat.min_l by lia.
  replace (red + length d - red) with (length d) by lia.
  rewrite take_app_length, drop_app_length, <-app_assoc. f_equal.
  rewrite take_app_ge by lia.
  rewrite !overwrite_prefix_fits by (rewrite ?length_app, ?length_take, ?length_drop; lia).
  rewrite <-app_assoc. f_equal.
  replace (length buf - (red + length d)) with (length buf - red - length d) by lia.
  f_equal. rewrite !drop_drop. f_equal. rewrite length_app. lia.
Qed.

Lemma read_loop_spec fuel r buf red :
  never_fails r -> red <= length buf ->
  length buf - red + interrupts r < fuel ->
  exists r', read_loop fuel r buf red =
    Some (Ok (red + Nat.min (length (content r)) (length buf - red)),
          take red buf ++ overwrite_prefix (drop red buf) (take (length buf - red) (content r)), r').
Proof.
  revert r buf red. induction fuel as [|fuel IH]; intros r buf red Hnf Hred Hfuel; [lia|].
  simpl. rewrite bool_decide_eq_false_2 by lia. case_bool_decide as Hleft.
  { exists r. rewrite Hleft, Nat.min_0_r, Nat.add_0_r.
    by rewrite overwrite_prefix_nil, take_drop. }
  destruct (read r (length buf - red)) as [[data|[|c]] r'] eqn:Hr.
  - destruct (read_ok _ _ _ _ Hr) as (Hc & Hlen & Hnil & Hint). destruct data as [|b data].
    + exists r'. destruct Hnil as [?|Hnil]; [done|lia|]. rewrite Hnil.
      by rewrite take_nil, Nat.add_0_r, overwrite_prefix_nil, take_drop.
    + set (d := b :: data) in *. assert (length d <> 0) by done.
      set (buf' := take red buf ++ overwrite_prefix (drop red buf) d).
      assert (Hb' : length buf' = length buf).
      { unfold buf'. rewrite length_app, overwrite_prefix_length, length_take, length_drop. lia. }
      destruct (IH r' buf' (red + length d)) as [r'' ->];
        [by eapply never_fails_step|lia|lia|].
      exists r''. rewrite Hb', Hc. unfold buf'. rewrite fill_step by lia.
      do 3 f_equal. f_equal. rewrite length_app. lia.
  - destruct (read_interrupted _ _ _ Hr) as [Hc Hi].
    destruct (IH r' buf red) as [r'' ->]; [by eapply never_fails_step|done|lia|].
    exists r''. by rewrite Hc.
  - exfalso. by eapply (Hnf r).
Qed.

Lemma read_fills fuel r buf :
  never_fails r -> length buf + interrupts r < fuel ->
  exists r', read_to_end_up_to fuel r buf =
    Some (Ok (Nat.min (length (content r)) (length buf)),
          take (length buf) (content r) ++ drop (length (content r)) buf, r').
Proof.
  intros Hnf Hfuel. unfold read_to_end_up_to.
  destruct (read_loop_spec fuel r buf 0) as [r' ->]; [done|lia|lia|].
  exists r'. rewrite drop_0, Nat.sub_0_r. simpl. do 3 f_equal.
  unfold overwrite_prefix. rewrite take_take, Nat.min_id, length_take.
  destruct (decide (length buf <= length (content r))).
  - rewrite Nat.min_l by done. by rewrite !drop_ge by lia.
  - by rewrite Nat.min_r by lia.
Qed.

(** C37. The number of bytes returned and the buffer afterwards. *)
Theorem read_to_end_up_to_spec fuel r buf :
  never_fails r -> length buf + interrupts r < fuel ->
  exists r', read_to_end_up_to fuel r buf =
    Some (Ok (Nat.min (length (content r)) (length buf)),
          take (length buf) (content r) ++ drop (length (content r)) buf, r').
Proof. apply read_fills. Qed.
End ReadProofs.

Lemma file_reader_never_fails c s :
  forallb (fun x => match x with Failure _ => false | _ => true end) s = true ->
  never_fails (mkReader c s).
Proof.
  intros Hs r1 cap code r2 Hrtc Hr.
  assert (Hs1 : forallb (fun x => match x with Failure _ => false | _ => true end)
            (schedule r1) = true).
  { change s with (schedule (mkReader c s)) in Hs. induction Hrtc as [|x y z Hxy ? IH]; [done|].
    apply IH; [|done]. destruct Hxy as (n & a & Hxy). revert Hxy.
    unfold read, file_reader_read. destruct (schedule x) as [|[] ?];
      intros; simplify_eq; simpl in *; congruence. }
  revert Hr. unfold read, file_reader_read.
  destruct (schedule r1) as [|[] ?]; intros; simplify_eq; discriminate.
Qed.

(** ** Correctness of key decoding *)
Section KeyProofs.
Context `{Base64Laws}.

Lemma base64_to_key_Ok s k :
  base64_to_key s = Ok k <->
  exists d, b64_decode s KEY_LENGTH = Ok d /\
            as_bytes k = d ++ replicate (KEY_LENGTH - length d) Byte.x00.
Proof.
  unfold base64_to_key. split.
  - intros Hd. outcome_inv. eexists; split; [done|]. subst k.
    apply array_overwrite_zeroed. by eapply b64_decode_fits.
  - intros (d & Hd & Hk). rewrite Hd. simpl. f_equal. apply array_ext.
    etransitivity; [|symmetry; exact Hk]. apply array_overwrite_zeroed. by eapply b64_decode_fits.
Qed.

Lemma base64_to_key_total s : panics (base64_to_key s) = false.
Proof.
  unfold base64_to_key. pose proof (b64_decode_total s KEY_LENGTH).
  by destruct (b64_decode s KEY_LENGTH).
Qed.

Lemma b64_accepted_length s d : b64_decode s KEY_LENGTH = Ok d ->
  length s <= 44 /\ (exists q, length s = 4 * q).
Proof.
  intros Hd. pose proof (b64_decode_fits _ _ _ Hd) as Hfit.
  rewrite (b64_decode_len _ _ _ Hd), b64_encoded_len_spec. unfold KEY_LENGTH in *.
  split; [|eauto]. change 44 with (4 * ((32 + 2) / 3)).
  apply Nat.mul_le_mono_l, Nat.Div0.div_le_mono. lia.
Qed.

Lemma KEY_LENGTH_B64_eq : KEY_LENGTH_B64 = 46.
Proof. done. Qed.

Lemma trim_newline_length l : length l - 1 <= length (trim_newline l) <= length l.
Proof.
  unfold trim_newline. destruct (last l); [|lia].
  case_bool_decide; [rewrite length_take|]; lia.
Qed.

(** Cutting a file off after [KEY_LENGTH_B64] bytes never changes the result. *)
Lemma truncation_harmless c k :
  base64_to_key (trim_newline (take KEY_LENGTH_B64 c)) = Ok k <->
  base64_to_key (trim_newline c) = Ok k.
Proof.
  rewrite KEY_LENGTH_B64_eq.
  destruct (decide (length c <= 46)) as [Hc|Hc]; [by rewrite take_ge|].
  rewrite !base64_to_key_Ok.
  split; intros (d & Hd & _); exfalso; apply b64_accepted_length in Hd as [Hle [q Hq]].
  - pose proof (trim_newline_length (take 46 c)) as Ht.
    rewrite length_take in Ht. lia.
  - pose proof (trim_newline_length c). lia.
Qed.

Lemma take_filled {A} (c rest : list A) n :
  take (Nat.min (length c) n) (take n c ++ rest) = take n c.
Proof.
  destruct (decide (length c <= n)).
  - rewrite (take_ge c n), Nat.min_l by done. apply take_app_length.
  - rewrite Nat.min_r, take_app_le by (rewrite ?length_take; lia).
    by rewrite take_take, Nat.min_id.
Qed.

(** C26. [load_base64_key_file] on a readable file yields exactly what decoding the
    whole contents would, however the reads are split up or interrupted. *)
Theorem load_key_file_spec {R} `{ReaderLaws R} (open : string -> outcome R) file f fuel :
  open file = Ok f -> never_fails f -> KEY_LENGTH_B64 + interrupts f < fuel ->
  exists o, load_base64_key_file open fuel file = Some o /\ panics o = false /\
    forall k, o = Ok k <->
      exists d, b64_decode (trim_newline (content f)) KEY_LENGTH = Ok d /\
                as_bytes k = d ++ replicate (KEY_LENGTH - length d) Byte.x00.
Proof.
  intros Hopen Hnf Hfuel. unfold load_base64_key_file. rewrite Hopen.
  destruct (read_fills fuel f (replicate KEY_LENGTH_B64 Byte.x00)) as [r' ->];
    [done|by rewrite length_replicate|].
  rewrite length_replicate, take_filled. eexists. split; [done|].
  split; [apply base64_to_key_total|].
  intros k. rewrite <-base64_to_key_Ok. apply truncation_harmless.
Qed.

(** Text that decodes to fewer than 32 bytes is accepted and zero-padded. *)
Theorem short_key_accepted d cap s :
  length d <= KEY_LENGTH -> b64_encode d cap = Ok s ->
  exists k, base64_to_key (str_bytes s) = Ok k /\
    as_bytes k = d ++ replicate (KEY_LENGTH - length d) Byte.x00.
Proof.
  intros Hd Henc. unfold base64_to_key.
  rewrite (b64_roundtrip _ _ _ KEY_LENGTH Henc) by done. eexists. split; [done|].
  by apply array_overwrite_zeroed.
Qed.
End KeyProofs.

(** [io_error_kind] finds the I/O error at the root of any chain of contexts. *)
Theorem io_error_kind_contexts (ms : list message) e :
  io_error_kind (foldr EContext e ms) = io_error_kind e.
Proof. by induction ms. Qed.

Definition demo_file : bytes := str_bytes "GOJt/mfPuwoUiKD+hARpxuDtnzJOWkcK0Tq+sxxw4UQ=" ++ [Byte.x0a].

(** ** Witnesses *)
Definition demo_reader : file_reader := mkReader demo_file [Chunk 9; Interrupt; Chunk 30].

Lemma read_to_end_up_to_spec_witness : exists r',
  read_to_end_up_to 40 demo_reader (replicate 20 Byte.x00) =
    Some (Ok 20, take 20 demo_file, r').
Proof.
  destruct (read_to_end_up_to_spec 40 demo_reader (replicate 20 Byte.x00)) as [r' Hr].
  - by apply file_reader_never_fails.
  - vm_compute. lia.
  - exists r'. rewrite Hr. vm_compute. reflexivity.
Defined.

Lemma load_key_file_spec_witness : exists o,
  load_base64_key_file (fun _ => Ok demo_reader) 60 "psk.key" = Some o /\ panics o = false /\
  exists k, o = Ok k.
Proof.
  destruct (load_key_file_spec (fun _ => Ok demo_reader) "psk.key" demo_reader 60)
    as (o & Ho & Hp & Hk); [done|by apply file_reader_never_fails|vm_compute; lia|].
  exists o. split; [done|]. split; [done|].
  exists (array_overwrite (new_zeroed 32) (default [] (RefBase64.decode (trim_newline demo_file)))).
  apply Hk. eexists. split; vm_compute; reflexivity.
Defined.

Lemma short_key_accepted_witness :
  exists k, base64_to_key [] = Ok k /\ as_bytes k = replicate 32 Byte.x00.
Proof.
  destruct (short_key_accepted [] 0 "") as (k & Hk & Hb); [vm_compute; lia|reflexivity|].
  exists k. split; [exact Hk|exact Hb].
Defined.
