(* ===== verification/Etsi014.v ===== *)
(** * The ETSI 014 key-management client ([daisyway/src/internal/etsi014.rs])

    The key type and its decoding from a response, the HTTP requests, the TLS
    client configuration, and the certificate verifier that ignores server
    names. *)

From S2P Require Import Prelude Types Externals RefInstances Effects Util.

(** ** Keys and responses *)
Section Keys.
Context `{UuidLib}.

Record Etsi014Key : Type := mkEtsi014Key { id : Uuid; key : Key }.

#[export] Instance Etsi014Key_eq_dec : EqDecision Etsi014Key.
Proof. solve_decision. Defined.

Definition Etsi014Key_empty : Etsi014Key := mkEtsi014Key uuid_nil (new_zeroed KEY_LENGTH).

(** One entry of a response, and the response. *)
Record ResponseKey : Type := mkResponseKey { response_id : Uuid; response_key : string }.
Record ResponseKeys : Type := mkResponseKeys { keys : list ResponseKey }.

Context `{Base64Codec}.

(** [TryFrom<ResponseKey> for Etsi014Key] *)
Definition etsi_key_from_response (value : ResponseKey) : outcome Etsi014Key :=
  let 'mkResponseKey id key := value in
  if bool_decide (b64_encoded_len (str_bytes key) = KEY_LENGTH)
  then Panicked (Msg "assertion failed: Base64::encoded_len(key.as_bytes()) != Key::LEN" [])
  else
    let? decoded := oexpect (Msg "called `Result::unwrap()` on an `Err` value" [])
                      (b64_decode (str_bytes key) KEY_LENGTH) in
    let? key := ok_or (EForeign "core::array" "TryFromSliceError")
                  (try_into_array KEY_LENGTH decoded) in
    Ok (mkEtsi014Key id key).

(** [TryFrom<ResponseKeys> for Etsi014Key] *)
Definition etsi_key_from_responses (value : ResponseKeys) : outcome Etsi014Key :=
  match keys value with
  | [k] => etsi_key_from_response k
  | ks => Err (EMsg (Msg "Expected exactly one key, but got {} keys" [FInt (Z.of_nat (length ks))]))
  end.

(** ** Requests *)

Record Etsi014Connection : Type := mkConnection { url : string; remote_sae_id : string }.

(** [reqwest]: [response.json()], the JSON decoder derived for [ResponseKeys],
    and [StatusCode::is_success] with its documented range. *)
Class ReqwestLib : Type := {
  response_json : string -> outcome ResponseKeys;
  is_success : Z -> bool;
}.

Class ReqwestLaws `{!ReqwestLib} : Prop :=
  is_success_spec status : is_success status = true <-> (200 <= status < 300)%Z.

Context `{!ReqwestLib}.

Definition fetch_key_internal (uri : string) : proc Etsi014Key :=
  let! response := http_get uri in
  if negb (is_success (status response)) then
    Ret (let? text := body response in
         Err (EMsg (Msg "ETSI 014 URL {} returned status code {}: {}"
                      [FStr uri; FInt (status response); FStr text])))
  else
    Ret (let? text := body response in
         let? response := response_json text in
         etsi_key_from_responses response).

Definition any_key_uri (c : Etsi014Connection) : string :=
  url c +:+ "/api/v1/keys/" +:+ remote_sae_id c +:+ "/enc_keys?number=1&key_length=256".

Definition specific_key_uri (c : Etsi014Connection) (id : Uuid) : string :=
  url c +:+ "/api/v1/keys/" +:+ remote_sae_id c +:+ "/dec_keys?key_ID=" +:+ uuid_to_string id.

Definition fetch_any_key (c : Etsi014Connection) : proc Etsi014Key :=
  pcontext (Msg "Error Fetching unspecific key from ETSI014 URL." [])
    (fetch_key_internal (any_key_uri c)).

(** The context is a plain literal: its [{id}] is not a placeholder. *)
Definition fetch_specific_key (c : Etsi014Connection) (id : Uuid) : proc Etsi014Key :=
  pcontext (Msg "Error Fetching specific key from ETSI014 URL. (key id={id})" [])
    (fetch_key_internal (specific_key_uri c id)).
End Keys.

(** ** TLS configuration *)

(** [rustls]: certificates, trust store, and client configuration builder. *)
Class RustlsTypes : Type := {
  Cert : Type;
  PrivKey : Type;
  RootStore : Type;
  ClientConfig : Type;
  ServerName : Type;
  UnixTime : Type;
  DigitallySignedStruct : Type;
  SignatureScheme : Type;
}.

(** [rustls::CertificateError] and [rustls::Error], as far as told apart. *)
Inductive CertificateError : Type :=
  | NotValidForName
  | NotValidForNameContext (expected : string) (presented : list string)
  | OtherCertificateError (what : string).

Inductive TlsError : Type :=
  | InvalidCertificate (e : CertificateError)
  | OtherTlsError (what : string).

(** [trait ServerCertVerifier] *)
Record ServerCertVerifier `{RustlsTypes} : Type := mkVerifier {
  v_server_cert : Cert -> list Cert -> ServerName -> bytes -> UnixTime -> unit + TlsError;
  v_tls12_signature : bytes -> Cert -> DigitallySignedStruct -> unit + TlsError;
  v_tls13_signature : bytes -> Cert -> DigitallySignedStruct -> unit + TlsError;
  v_supported_schemes : list SignatureScheme;
}.
Arguments mkVerifier {_} _ _ _ _.

Class RustlsLib : Type := {
  rustls_types :: RustlsTypes;
  cert_from_pem : string -> outcome Cert;
  key_from_pem : string -> outcome PrivKey;
  roots_empty : RootStore;
  roots_add : RootStore -> Cert -> outcome RootStore;
  with_no_client_auth : RootStore -> ClientConfig;
  with_client_auth_cert : RootStore -> list Cert -> PrivKey -> outcome ClientConfig;
  webpki_verifier : RootStore -> outcome ServerCertVerifier;
  set_certificate_verifier : ClientConfig -> ServerCertVerifier -> ClientConfig;
}.

(** ** The verifier that ignores the server name *)
Section NoServerNameVerification.
Context `{RustlsTypes}.

Record NoServerNameVerification : Type := NoServerNameVerification_new { inner : ServerCertVerifier }.

Definition verify_server_cert (self : NoServerNameVerification) (end_entity : Cert)
    (intermediates : list Cert) (server_name : ServerName) (ocsp : bytes) (now : UnixTime) : unit + TlsError :=
  match v_server_cert (inner self) end_entity intermediates server_name ocsp now with
  | inl scv => inl scv
  | inr (InvalidCertificate cert_error) =>
      match cert_error with
      | NotValidForName => inl tt
      | NotValidForNameContext _ _ => inl tt
      | _ => inr (InvalidCertificate cert_error)
      end
  | inr e => inr e
  end.

Definition verify_tls12_signature (self : NoServerNameVerification) (message : bytes) (cert : Cert)
    (dss : DigitallySignedStruct) : unit + TlsError :=
  v_tls12_signature (inner self) message cert dss.

Definition verify_tls13_signature (self : NoServerNameVerification) (message : bytes) (cert : Cert)
    (dss : DigitallySignedStruct) : unit + TlsError :=
  v_tls13_signature (inner self) message cert dss.

Definition supported_verify_schemes (self : NoServerNameVerification) : list SignatureScheme :=
  v_supported_schemes (inner self).

(** [impl ServerCertVerifier for NoServerNameVerification] *)
Definition no_server_name_verifier (self : NoServerNameVerification) : ServerCertVerifier :=
  mkVerifier (verify_server_cert self) (verify_tls12_signature self) (verify_tls13_signature self)
    (supported_verify_schemes self).
End NoServerNameVerification.

(** ** The configuration and what is made of it *)
Record ClientAuth : Type := mkClientAuth { tls_cert : string; tls_key : string }.

Record Etsi014Config : Type := mkEtsi014Config {
  cfg_url : string;
  cfg_remote_sae_id : string;
  interval_secs : option Z;
  tls_cacert : option string;
  client_auth : option ClientAuth;
  danger_allow_insecure_no_server_name_certificates : bool;
}.

Section Tls.
Context `{RustlsLib}.

(** [NoServerNameVerification::from_roots] *)
Definition NoServerNameVerification_from_roots (roots : RootStore) : outcome NoServerNameVerification :=
  let? inner := webpki_verifier roots in
  Ok (NoServerNameVerification_new inner).

(** The root store: the configured CA certificate, or nothing. *)
Definition load_roots (config : Etsi014Config) : outcome RootStore :=
  match tls_cacert config with
  | Some cacert_path =>
      let? cacert := ocontext (Msg "Failed to read TLS CA certificate from file {:?}" [FStr cacert_path])
                       (cert_from_pem cacert_path) in
      ocontext (Msg "Failed to add TLS CA certificate to RootCertStore" [])
        (roots_add roots_empty cacert)
  | None => Ok roots_empty
  end.

Definition load_client_config (config : Etsi014Config) (tls_roots : RootStore) : outcome ClientConfig :=
  match client_auth config with
  | Some (mkClientAuth cert_path key_path) =>
      let? cert := ocontext (Msg "Failed to read TLS client certificate from file {:?}" [FStr cert_path])
                     (cert_from_pem cert_path) in
      let? key := ocontext (Msg "Failed to read TLS client key from file {:?}" [FStr key_path])
                    (key_from_pem key_path) in
      with_client_auth_cert tls_roots [cert] key
  | None => Ok (with_no_client_auth tls_roots)
  end.

(** [configure_rustls]; [installed] says whether the process already has a
    default crypto provider, of which there can be one. *)
Definition configure_rustls (config : Etsi014Config) (installed : bool)
    : outcome (option ClientConfig) * bool :=
  if installed then (Panicked (Msg "Failed to install rustls crypto provider" []), true)
  else
    (let? tls_roots := load_roots config in
     let? rustls_config := load_client_config config tls_roots in
     if danger_allow_insecure_no_server_name_certificates config then
       let? v := NoServerNameVerification_from_roots tls_roots in
       Ok (Some (set_certificate_verifier rustls_config (no_server_name_verifier v)))
     else Ok (Some rustls_config),
     true).

(** [Etsi014Connection::from_config]; [build] is [ClientBuilder::build] with an
    optional preconfigured TLS setup. *)
Definition etsi_from_config {Client : Type} (build : option ClientConfig -> outcome Client)
    (config : Etsi014Config) (installed : bool) : outcome (Etsi014Connection * Client) * bool :=
  let '(r, installed) := configure_rustls config installed in
  (let? tls := r in
   let? client := build tls in
   Ok (mkConnection (cfg_url config) (cfg_remote_sae_id config), client),
   installed).
End Tls.

(** ** Correctness *)
Section KeyProofs.
Context `{UuidLib} `{Base64Laws}.

Lemma encoded_key_length k cap s : length k = KEY_LENGTH ->
  b64_encode k cap = Ok s -> length (str_bytes s) = 44.
Proof.
  intros Hk Hs. pose proof (b64_roundtrip _ _ _ KEY_LENGTH Hs ltac:(lia)) as Hd.
  apply b64_decode_len in Hd. rewrite Hd, b64_encoded_len_spec, Hk. done.
Qed.

(** A response whose entry is the base64 text of 32 bytes decodes to them. *)
Lemma etsi_key_decodes u (k : Key) cap s :
  b64_encode (as_bytes k) cap = Ok s ->
  etsi_key_from_response (mkResponseKey u s) = Ok (mkEtsi014Key u k).
Proof.
  intros Hs. unfold etsi_key_from_response.
  assert (Hl : length (str_bytes s) = 44) by (eapply encoded_key_length, Hs; apply array_length).
  rewrite bool_decide_eq_false_2
    by (rewrite b64_encoded_len_spec, Hl; vm_compute; discriminate).
  rewrite (b64_roundtrip _ _ _ KEY_LENGTH Hs) by (rewrite array_length; done). simpl.
  by rewrite try_into_as_bytes.
Qed.

(** What each entry of a response leads to. *)
Lemma entry_cases r :
  match etsi_key_from_response r with
  | Ok k => id k = response_id r /\ b64_decode (str_bytes (response_key r)) KEY_LENGTH = Ok (as_bytes (key k))
  | Err _ => ~ 22 <= length (str_bytes (response_key r)) <= 24 /\
      exists d, b64_decode (str_bytes (response_key r)) KEY_LENGTH = Ok d /\ length d < KEY_LENGTH
  | Panicked _ => 22 <= length (str_bytes (response_key r)) <= 24 \/
      is_ok (b64_decode (str_bytes (response_key r)) KEY_LENGTH) = false
  end.
Proof.
  destruct r as [u s]. unfold etsi_key_from_response. cbn [response_id response_key].
  assert (Hq : b64_encoded_len (str_bytes s) = KEY_LENGTH <-> 22 <= length (str_bytes s) <= 24).
  { rewrite b64_encoded_len_spec. unfold KEY_LENGTH.
    pose proof (Nat.div_mod_eq (length (str_bytes s) + 2) 3).
    pose proof (Nat.mod_upper_bound (length (str_bytes s) + 2) 3 ltac:(lia)). split; lia. }
  case_bool_decide as Hlen; [left; by apply Hq|]. rewrite Hq in Hlen.
  destruct (b64_decode (str_bytes s) KEY_LENGTH) as [d|e|m] eqn:Hd; simpl; [|by right..].
  pose proof (b64_decode_fits _ _ _ Hd). destruct (decide (length d = KEY_LENGTH)) as [Hk|Hk].
  - by destruct (try_into_array_Some _ _ Hk) as (a & -> & <-).
  - rewrite try_into_array_None by done. simpl. split; [done|]. exists d. split; [done|lia].
Qed.

(** A text that decodes to a key has 44 characters. *)
Lemma key_text_length s (k : Key) :
  b64_decode (str_bytes s) KEY_LENGTH = Ok (as_bytes k) -> length (str_bytes s) = 44.
Proof. intros Hd. rewrite (b64_decode_len _ _ _ Hd), b64_encoded_len_spec, array_length. done. Qed.

Lemma entry_spec r :
  (forall k, etsi_key_from_response r = Ok k <->
     id k = response_id r /\ b64_decode (str_bytes (response_key r)) KEY_LENGTH = Ok (as_bytes (key k))) /\
  (panics (etsi_key_from_response r) = true <->
     22 <= length (str_bytes (response_key r)) <= 24 \/
     is_ok (b64_decode (str_bytes (response_key r)) KEY_LENGTH) = false) /\
  ((exists e, etsi_key_from_response r = Err e) <->
     ~ 22 <= length (str_bytes (response_key r)) <= 24 /\
     exists d, b64_decode (str_bytes (response_key r)) KEY_LENGTH = Ok d /\ length d < KEY_LENGTH).
Proof.
  pose proof (entry_cases r) as Hc. pose proof (key_text_length (response_key r)) as H44.
  assert (Hfull : forall k : Key, ~ length (as_bytes k) < KEY_LENGTH)
    by (intros k; rewrite array_length; apply Nat.lt_irrefl).
  destruct (etsi_key_from_response r) as [[i k]|e|m]; simpl in Hc.
  - destruct Hc as [-> Hd]. specialize (H44 _ Hd). rewrite Hd. simpl. split; [|split].
    + intros [i' k']. simpl. split; [by intros [= <- <-]|]. intros [-> [= Hk%array_ext]]. by subst.
    + split; [done|]. intros [?|?]; [lia|done].
    + split; [by intros [e ?]|]. intros (_ & d & [= <-] & Hl). by destruct (Hfull k).
  - destruct Hc as (Hlen & d & Hd & Hl). rewrite Hd. split; [|split; naive_solver].
    intros k. split; [done|]. intros [_ [= ->]]. by destruct (Hfull (key k)).
  - split; [|split; [naive_solver|]].
    + intros k. split; [done|]. intros [_ Hd]. specialize (H44 _ Hd). rewrite Hd in Hc.
      destruct Hc; [lia|done].
    + split; [by intros [e ?]|]. intros (Hn & d & Hd & _). rewrite Hd in Hc. by destruct Hc.
Qed.

Lemma etsi_key_Ok value k :
  etsi_key_from_responses value = Ok k ->
  exists r, keys value = [r] /\ id k = response_id r /\
    b64_decode (str_bytes (response_key r)) KEY_LENGTH = Ok (as_bytes (key k)).
Proof.
  unfold etsi_key_from_responses. destruct (keys value) as [|r [|]]; [done| |done].
  intros Hk%entry_spec. by exists r.
Qed.

(** C33. Which responses yield a key, which panic the process, and which are
    refused - three cases that exclude each other: a key comes from exactly one
    entry whose text decodes to 32 bytes; one entry panics exactly when its
    text has 22 to 24 characters or does not decode; and refused are responses
    with another number of entries, and an entry that decodes to fewer bytes. *)
Theorem etsi_key_from_responses_cases value :
  (forall k, etsi_key_from_responses value = Ok k <->
     exists r, keys value = [r] /\ id k = response_id r /\
       b64_decode (str_bytes (response_key r)) KEY_LENGTH = Ok (as_bytes (key k))) /\
  (panics (etsi_key_from_responses value) = true <->
     exists r, keys value = [r] /\
       (22 <= length (str_bytes (response_key r)) <= 24 \/
        is_ok (b64_decode (str_bytes (response_key r)) KEY_LENGTH) = false)) /\
  ((exists e, etsi_key_from_responses value = Err e) <->
     length (keys value) <> 1 \/
     exists r d, keys value = [r] /\ ~ 22 <= length (str_bytes (response_key r)) <= 24 /\
       b64_decode (str_bytes (response_key r)) KEY_LENGTH = Ok d /\ length d < KEY_LENGTH).
Proof.
  unfold etsi_key_from_responses. destruct (keys value) as [|r [|r2 ks]]; [|destruct (entry_spec r) as (Hk & Hp & He)|].
  - split; [|split]; naive_solver.
  - setoid_rewrite Hk. rewrite Hp, He. split; [|split]; naive_solver.
  - split; [|split]; naive_solver.
Qed.
End KeyProofs.

Section FetchProofs.
Context `{UuidLib} `{Base64Codec} `{!ReqwestLib}.

(** What a response contributes: the decoded key, or the reason it is refused. *)
Definition decode_response (uri : string) (response : http_response) : outcome Etsi014Key :=
  if is_success (status response) then
    let? text := body response in
    let? response := response_json text in
    etsi_key_from_responses response
  else
    let? text := body response in
    Err (EMsg (Msg "ETSI 014 URL {} returned status code {}: {}"
                 [FStr uri; FInt (status response); FStr text])).

(** A fetch is one GET request, and its outcome the decoded response. *)
Lemma runs_fetch m uri tr o :
  runs (pcontext m (fetch_key_internal uri)) tr o <->
  exists a : outcome http_response,
    tr = [Ev (EHttpGet uri) a] /\ o = ocontext m (obind a (decode_response uri)).
Proof.
  unfold fetch_key_internal, http_get. simpl. split.
  - intros (a & tr' & -> & Hr). exists a. destruct a as [r|e|m']; simpl in Hr.
    + simpl. unfold decode_response.
      destruct (is_success (status r)); simpl in Hr; by destruct Hr as [-> ->].
    + by destruct Hr as [-> ->].
    + by destruct Hr as [-> ->].
  - intros (a & -> & ->). exists a, []. split; [done|].
    destruct a as [r|e|m']; simpl; [|done..].
    unfold decode_response. by destruct (is_success (status r)).
Qed.

(** C25. Only the one entry of a successful response ever becomes a key, and its
    key is exactly the 32 bytes the text stands for. *)
Theorem fetch_key_sound `{!Base64Laws} `{!ReqwestLaws} m uri tr k :
  runs (pcontext m (fetch_key_internal uri)) tr (Ok k) ->
  exists r text e,
    tr = [Ev (EHttpGet uri) (Ok r)] /\ (200 <= status r < 300)%Z /\
    body r = Ok text /\ response_json text = Ok (mkResponseKeys [e]) /\
    id k = response_id e /\
    b64_decode (str_bytes (response_key e)) KEY_LENGTH = Ok (as_bytes (key k)).
Proof.
  intros ([r| |] & -> & Ho)%runs_fetch; simpl in Ho; try discriminate.
  symmetry in Ho. apply ocontext_Ok_iff in Ho. unfold decode_response in Ho.
  destruct (is_success (status r)) eqn:Hs; outcome_inv. apply is_success_spec in Hs.
  match goal with Hk : etsi_key_from_responses ?v = Ok _ |- _ =>
    apply etsi_key_Ok in Hk as (e & He & Hid & Hdec); destruct v
  end.
  simpl in He. subst. eauto 10.
Qed.
End FetchProofs.

Section TlsProofs.
Context `{RustlsLib}.

(** The roots a configuration names: its one CA certificate, or none. *)
Definition configured_roots (config : Etsi014Config) (roots : RootStore) : Prop :=
  match tls_cacert config with
  | Some path => exists ca, cert_from_pem path = Ok ca /\ roots_add roots_empty ca = Ok roots
  | None => roots = roots_empty
  end.

(** The client presents the certificate a configuration names, or none. *)
Definition configured_identity (config : Etsi014Config) (roots : RootStore) (c : ClientConfig) : Prop :=
  match client_auth config with
  | Some auth => exists cert key, cert_from_pem (tls_cert auth) = Ok cert /\
      key_from_pem (tls_key auth) = Ok key /\ with_client_auth_cert roots [cert] key = Ok c
  | None => c = with_no_client_auth roots
  end.

Lemma load_roots_configured config roots : load_roots config = Ok roots -> configured_roots config roots.
Proof.
  unfold load_roots, configured_roots. destruct (tls_cacert config); [|by intros [= <-]].
  intros Hr. outcome_inv. eauto.
Qed.

Lemma load_client_configured config roots c :
  load_client_config config roots = Ok c -> configured_identity config roots c.
Proof.
  unfold load_client_config, configured_identity. destruct (client_auth config) as [[cert key]|]; [|by intros [= <-]].
  intros Hr. outcome_inv. eauto 10.
Qed.

(** Every successful run of [configure_rustls] returns a configuration, never
    [None], and consumes the process-wide provider slot. *)
Theorem configure_rustls_some config installed c installed' :
  configure_rustls config installed = (Ok c, installed') ->
  is_Some c /\ installed = false /\ installed' = true.
Proof.
  unfold configure_rustls. destruct installed; [done|]. intros [= Ho <-].
  outcome_inv. case_match; outcome_inv; subst; eauto.
Qed.

(** C39. What the client trusts, for every configuration: exactly the CA
    certificate that is configured, and nothing when there is none, whatever
    client certificate it presents.  Hence with a verifier that, as documented,
    cannot be built without roots, disabling the name check without a CA
    certificate fails. *)
Theorem configured_trust config :
  is_ok (webpki_verifier roots_empty) = false ->
  (forall c, (configure_rustls config false).1 = Ok (Some c) ->
     exists roots base, configured_roots config roots /\ configured_identity config roots base /\
       if danger_allow_insecure_no_server_name_certificates config
       then exists strict, webpki_verifier roots = Ok strict /\ tls_cacert config <> None /\
         c = set_certificate_verifier base (no_server_name_verifier (NoServerNameVerification_new strict))
       else c = base) /\
  (tls_cacert config = None -> danger_allow_insecure_no_server_name_certificates config = true ->
     is_ok (configure_rustls config false).1 = false).
Proof.
  intros Hempty.
  assert (Hspec : forall c, (configure_rustls config false).1 = Ok (Some c) ->
    exists roots base, configured_roots config roots /\ configured_identity config roots base /\
      if danger_allow_insecure_no_server_name_certificates config
      then exists strict, webpki_verifier roots = Ok strict /\ tls_cacert config <> None /\
        c = set_certificate_verifier base (no_server_name_verifier (NoServerNameVerification_new strict))
      else c = base).
  { unfold configure_rustls. cbn [fst]. intros c Ho. outcome_inv.
    match goal with Hr : load_roots config = Ok ?r, Hc : load_client_config config ?r = Ok ?b |- _ =>
      exists r, b; pose proof (load_roots_configured _ _ Hr) as Hroots; pose proof (load_client_configured _ _ _ Hc) end.
    split; [done|]. split; [done|]. unfold NoServerNameVerification_from_roots in *.
    destruct (danger_allow_insecure_no_server_name_certificates config); outcome_inv; simplify_eq; [|done].
    eexists. split; [done|]. split; [|done]. intros Hno. unfold configured_roots in Hroots. rewrite Hno in Hroots.
    subst. by destruct (webpki_verifier roots_empty). }
  split; [exact Hspec|]. intros Hno Hd. destruct (configure_rustls config false) as [[[c|]|e|m] i] eqn:Hc; try done.
  - destruct (Hspec c eq_refl) as (roots & base & _ & _ & Hx). rewrite Hd in Hx. by destruct Hx as (? & _ & ? & _).
  - by apply configure_rustls_some in Hc as [[? ?] _].
Qed.

(** A certificate refused for the server's name alone. *)
Definition name_mismatch (e : TlsError) : bool :=
  match e with
  | InvalidCertificate NotValidForName => true
  | InvalidCertificate (NotValidForNameContext _ _) => true
  | _ => false
  end.

(** C40. What the option that disables the name check disables: the verifier in
    the configuration accepts a certificate exactly when the verifier for the
    configured roots accepts it or refuses it for the name alone, and refuses
    it otherwise with the same error; handshake signatures are checked as ever. *)
Theorem lax_verifier_spec config c :
  danger_allow_insecure_no_server_name_certificates config = true ->
  (configure_rustls config false).1 = Ok (Some c) ->
  exists roots strict base lax,
    load_roots config = Ok roots /\ webpki_verifier roots = Ok strict /\
    load_client_config config roots = Ok base /\ c = set_certificate_verifier base lax /\
    (forall ee chain sn ocsp now,
       v_server_cert lax ee chain sn ocsp now =
       match v_server_cert strict ee chain sn ocsp now with
       | inr e => if name_mismatch e then inl tt else inr e
       | accepted => accepted
       end) /\
    v_tls12_signature lax = v_tls12_signature strict /\
    v_tls13_signature lax = v_tls13_signature strict /\
    v_supported_schemes lax = v_supported_schemes strict.
Proof.
  intros Hd. unfold configure_rustls. rewrite Hd. cbn [fst]. intros Ho.
  unfold NoServerNameVerification_from_roots in Ho. outcome_inv. simplify_eq.
  do 4 eexists. do 4 (split; [done|]). split; [|done].
  intros ee chain sn ocsp now. cbn [v_server_cert no_server_name_verifier]. unfold verify_server_cert. simpl.
  by destruct (v_server_cert _ ee chain sn ocsp now) as [[]|[[]|]].
Qed.
End TlsProofs.

(** ** Witnesses *)
Definition demo_key : Key := new_zeroed 32.
Definition demo_key_text : string := "AAAAAAAAAAAAAAAAAAAAAAAAAAAAAAAAAAAAAAAAAAA=".

(** A decoder for a body that is the base64 text itself. *)
#[local] Instance demo_json : ReqwestLib := {|
  response_json text := Ok (mkResponseKeys [mkResponseKey uuid_nil text]);
  is_success status := (200 <=? status)%Z && (status <? 300)%Z;
|}.

#[local] Instance demo_reqwest_laws : ReqwestLaws.
Proof. intros s. unfold is_success, demo_json. rewrite andb_true_iff, Z.leb_le, Z.ltb_lt. done. Qed.

(** A 24-character text decodes to 18 bytes, and trips the assertion. *)
Definition demo_short_response : ResponseKeys :=
  mkResponseKeys [mkResponseKey uuid_nil "AAAAAAAAAAAAAAAAAAAAAAAA"].

Lemma etsi_key_from_responses_cases_witness :
  length <$> match b64_decode (str_bytes "AAAAAAAAAAAAAAAAAAAAAAAA") KEY_LENGTH with Ok d => Some d | _ => None end = Some 18 /\
  panics (etsi_key_from_responses demo_short_response) = true.
Proof.
  split; [vm_compute; reflexivity|].
  destruct (etsi_key_from_responses_cases demo_short_response) as (_ & Hp & _).
  apply Hp. eexists. split; [reflexivity|]. left. vm_compute. lia.
Defined.

Lemma fetch_key_sound_witness :
  exists k, id k = uuid_nil /\ as_bytes (key k) = as_bytes demo_key.
Proof.
  destruct (fetch_key_sound (Msg "" []) "http://kme"
    [Ev (EHttpGet "http://kme") (Ok (mkResponse 200 (Ok demo_key_text)))]
    (mkEtsi014Key uuid_nil demo_key)) as (r & text & e & Htr & _ & Hbody & Hjson & Hid & Hdec).
  - apply runs_fetch. eexists. split; [reflexivity|].
    cbn [obind decode_response status is_success Z.leb Z.ltb Z.compare Pos.compare
         Pos.compare_cont andb body response_json demo_json etsi_key_from_responses keys].
    rewrite (etsi_key_decodes uuid_nil demo_key 46 demo_key_text); [reflexivity|].
    vm_compute. reflexivity.
  - exists (mkEtsi014Key uuid_nil demo_key). split; reflexivity.
Defined.

#[local] Instance demo_rustls_types : RustlsTypes := {|
  Cert := string; PrivKey := string; RootStore := list string;
  ClientConfig := list string * option string * option (string -> unit + TlsError);
  ServerName := string; UnixTime := Z; DigitallySignedStruct := string; SignatureScheme := string;
|}.

(** Certificates are the names of their issuers and subjects. *)
Definition demo_strict (roots : list string) : ServerCertVerifier :=
  mkVerifier
    (fun (cert : Cert) _ (name : ServerName) _ _ =>
       if bool_decide (cert ∈ roots) then
         if bool_decide (cert = name) then inl tt else inr (InvalidCertificate NotValidForName)
       else inr (InvalidCertificate (OtherCertificateError "UnknownIssuer")))
    (fun _ _ _ => inr (OtherTlsError "PeerIncompatible")) (fun _ _ _ => inl tt) ["ED25519"%string].

Definition demo_rustls : RustlsLib := {|
  rustls_types := demo_rustls_types;
  cert_from_pem := Ok; key_from_pem := Ok; roots_empty := []; roots_add rs c := Ok (c :: rs);
  with_no_client_auth rs := (rs, None, None); with_client_auth_cert rs _ k := Ok (rs, Some k, None);
  webpki_verifier rs :=
    if bool_decide (rs = []) then Err (EForeign "rustls" "NoRootAnchors") else Ok (demo_strict rs);
  set_certificate_verifier c v := (c.1, Some (fun cert => v_server_cert v cert [] "kme"%string [] 0%Z));
|}.

Definition demo_etsi_config (ca : option string) (danger : bool) : Etsi014Config :=
  mkEtsi014Config "https://kme" "SAE_002" None ca None danger.

Lemma configure_rustls_some_witness :
  is_Some (Some (["ca.crt"%string], @None string, @None (string -> unit + TlsError))) /\ false = false /\ true = true.
Proof.
  apply (@configure_rustls_some demo_rustls
           (demo_etsi_config (Some "ca.crt"%string) false) false _ true).
  reflexivity.
Defined.

(** No CA certificate and no name check; a CA certificate, and the name check. *)
Lemma configured_trust_witness :
  is_ok (@configure_rustls demo_rustls (demo_etsi_config None true) false).1 = false /\
  exists roots base, @configured_roots demo_rustls (demo_etsi_config (Some "ca.crt"%string) false) roots /\
    (["ca.crt"%string], @None string, @None (string -> unit + TlsError)) = base.
Proof.
  split.
  - apply (@configured_trust demo_rustls (demo_etsi_config None true)); reflexivity.
  - destruct (@configured_trust demo_rustls (demo_etsi_config (Some "ca.crt"%string) false) eq_refl) as [Ht _].
    destruct (Ht (["ca.crt"%string], @None string, @None (string -> unit + TlsError)) eq_refl) as (roots & base & Hr & _ & Hb).
    exists roots, base. split; [exact Hr|exact Hb].
Defined.

(** A certificate of the right issuer for another name is accepted, one of
    another issuer is not. *)
Definition demo_lax : option (string -> unit + TlsError) :=
  match (@configure_rustls demo_rustls (demo_etsi_config (Some "ca.crt"%string) true) false).1 with
  | Ok (Some c) => c.2
  | _ => None
  end.

Example demo_lax_verifier :
  (fun v => (v "ca.crt"%string, v "evil.crt"%string)) <$> demo_lax =
  Some (inl tt, inr (InvalidCertificate (OtherCertificateError "UnknownIssuer"))).
Proof. vm_compute. reflexivity. Qed.

Lemma lax_verifier_spec_witness : exists strict lax : ServerCertVerifier,
  v_tls12_signature lax = v_tls12_signature strict /\ v_tls13_signature lax = v_tls13_signature strict.
Proof.
  destruct (@lax_verifier_spec demo_rustls (demo_etsi_config (Some "ca.crt"%string) true)
    (["ca.crt"%string], None, demo_lax))
    as (roots & strict & base & lax & _ & _ & _ & _ & _ & H12 & H13 & _).
  - reflexivity.
  - reflexivity.
  - exists strict, lax. split; [exact H12|exact H13].
Defined.
