(* ===== verification/HashDomain.v ===== *)
(** * Hash domains ([daisyway/src/internal/daisyway/crypto/hash_domain.rs])

    Keyed hashing with SHAKE256: a domain absorbs its key and the data, and
    its outputs are squeezed from one reader. *)

From S2P Require Import Prelude Types Externals RefInstances.

Section HashDomain.
Context `{Shake256Lib}.

Record HashDomain : Type := mkHashDomain { hd_key : Key }.

(** The XOF reader: what was absorbed, and how much was read already. *)
Record MixReader : Type := mkMixReader { absorbed : bytes; position : nat }.

(** [XofReader::read] into a buffer of [n] bytes. *)
Definition reader_read (r : MixReader) (n : nat) : bytes * MixReader :=
  (drop (position r) (shake256 (absorbed r) (position r + n)),
   mkMixReader (absorbed r) (position r + n)).

Definition new (key : Key) : HashDomain := mkHashDomain key.

Definition zero : HashDomain := new (new_zeroed KEY_LENGTH).

Definition mix_begin_reader (self : HashDomain) (data : bytes) : MixReader :=
  mkMixReader (as_bytes (hd_key self) ++ data) 0.

Definition mix_read_into {n} (self : HashDomain) (data : bytes) (out : array n) : array n :=
  let reader := mix_begin_reader self data in
  array_overwrite out (reader_read reader n).1.

Definition mix_read (n : nat) (self : HashDomain) (data : bytes) : array n :=
  mix_read_into self data (new_zeroed n).

Definition mix (self : HashDomain) (data : bytes) : HashDomain :=
  mkHashDomain (mix_read 32 self data).

Definition mix_fork (self : HashDomain) (data : bytes) : HashDomain * HashDomain :=
  let out := mix_read (32 + 32) self data in
  (new (array_fst out), new (array_snd out)).

Definition mix_trifork (self : HashDomain) (data : bytes) : HashDomain * HashDomain * HashDomain :=
  let out := mix_read (32 + (32 + 32)) self data in
  (new (array_fst out), new (array_fst (array_snd out)), new (array_snd (array_snd out))).

Definition into_key (self : HashDomain) : Key := hd_key self.

(** ** Correctness *)
Context `{!Shake256Laws}.

Lemma mix_read_bytes n self data :
  as_bytes (mix_read n self data) = shake256 (as_bytes (hd_key self) ++ data) n.
Proof.
  unfold mix_read, mix_read_into, mix_begin_reader, reader_read. simpl. rewrite drop_0.
  apply (array_overwrite_full (new_zeroed n)). apply shake256_length.
Qed.

(** The outputs of the three mixing operations agree wherever they overlap:
    the first key of a fork is the key [mix] gives, and the first two of a
    trifork are those of the fork. *)
Theorem mix_family_prefixes self data :
  (mix_fork self data).1 = mix self data /\
  (mix_trifork self data).1 = mix_fork self data.
Proof.
  unfold mix_fork, mix_trifork, mix, new. cbn [fst snd].
  split; [|f_equal]; f_equal; apply array_ext;
    rewrite ?as_bytes_fst, ?as_bytes_snd, ?as_bytes_fst, !mix_read_bytes;
    change (32 + (32 + 32)) with 96; change (32 + 32) with 64.
  - apply shake256_prefix. lia.
  - rewrite <-(shake256_prefix _ 64 96) by lia. by rewrite take_take.
  - rewrite <-(shake256_prefix _ 64 96) by lia. by rewrite take_drop_commute.
Qed.

(** The two inputs are different and have the same 32-byte hash. *)
Definition collide (x y : bytes) : Prop := x <> y /\ shake256 x 32 = shake256 y 32.

Lemma mix_inj d1 d2 data1 data2 :
  mix d1 data1 = mix d2 data2 ->
  (d1 = d2 /\ data1 = data2) \/ collide (as_bytes (hd_key d1) ++ data1) (as_bytes (hd_key d2) ++ data2).
Proof.
  intros Hm. apply (f_equal (fun d => as_bytes (hd_key d))) in Hm.
  unfold mix in Hm. cbn [hd_key] in Hm.
  rewrite !mix_read_bytes in Hm.
  destruct (decide (as_bytes (hd_key d1) ++ data1 = as_bytes (hd_key d2) ++ data2)) as [He|He].
  - left. apply as_bytes_app_inj in He as [Hk ->]. split; [|done].
    destruct d1, d2; simpl in Hk. by subst.
  - by right.
Qed.

(** C38. [mix] binds its key and its data: two mixes that agree had the same key and
    the same data, or else the very strings they hashed, key and data one after
    the other, are a collision of the hash. *)
Theorem mix_binding d1 d2 data1 data2 :
  mix d1 data1 = mix d2 data2 ->
  (d1 = d2 /\ data1 = data2) \/ collide (as_bytes (hd_key d1) ++ data1) (as_bytes (hd_key d2) ++ data2).
Proof. apply mix_inj. Qed.
End HashDomain.

(** ** Witnesses *)
Lemma mix_family_prefixes_witness :
  (mix_fork zero (str_bytes "abc")).1 = mix zero (str_bytes "abc").
Proof. apply (mix_family_prefixes zero (str_bytes "abc")). Defined.

(** The checksum of the reference function does have collisions. *)
Lemma mix_binding_witness :
  (zero = zero /\ [Byte.x1f; Byte.x00] = [Byte.x00; Byte.x01]) \/
  collide (replicate 32 Byte.x00 ++ [Byte.x1f; Byte.x00]) (replicate 32 Byte.x00 ++ [Byte.x00; Byte.x01]).
Proof. apply (mix_binding zero zero [Byte.x1f; Byte.x00] [Byte.x00; Byte.x01]).
  vm_compute. reflexivity.
Defined.
