(* ===== verification/Crypto.v ===== *)
(** * Protocol messages and key derivation
    ([daisyway/src/internal/daisyway/crypto/basics.rs]) *)

From S2P Require Import Prelude Types Externals RefInstances Effects Etsi014 HashDomain.

(** ** Ordering of byte arrays ([Ord for [u8; N]]: lexicographic) *)
Fixpoint bytes_ltb (a b : bytes) : bool :=
  match a, b with
  | [], [] => false
  | [], _ :: _ => true
  | _ :: _, [] => false
  | x :: a, y :: b =>
      if (byte_val x <? byte_val y)%Z then true
      else if (byte_val y <? byte_val x)%Z then false
      else bytes_ltb a b
  end.

Lemma bytes_ltb_asym a b : bytes_ltb a b = true -> bytes_ltb b a = false.
Proof.
  revert b. induction a as [|x a IH]; intros [|y b]; simpl; try done.
  repeat case_match; try done; try lia. apply IH.
Qed.

Lemma bytes_ltb_total a b : bytes_ltb a b = false -> bytes_ltb b a = false -> a = b.
Proof.
  revert b. induction a as [|x a IH]; intros [|y b]; simpl; try done.
  repeat case_match; try done; intros; f_equal; [|by apply IH].
  apply byte_val_inj. lia.
Qed.

(** [[a, b].cas(|a| a.sort())] *)
Definition sort_pair (ab : PeerId * PeerId) : PeerId * PeerId :=
  let '(a, b) := ab in
  if bytes_ltb (as_bytes b) (as_bytes a) then (b, a) else (a, b).

#[global] Arguments sort_pair : simpl never.

Lemma sort_pair_comm a b : sort_pair (a, b) = sort_pair (b, a).
Proof.
  unfold sort_pair. destruct (bytes_ltb (as_bytes b) (as_bytes a)) eqn:E1.
  - by rewrite (bytes_ltb_asym _ _ E1).
  - destruct (bytes_ltb (as_bytes a) (as_bytes b)) eqn:E2; [done|].
    pose proof (bytes_ltb_total _ _ E1 E2) as Hab. apply array_ext in Hab. by subst.
Qed.

Lemma sort_pair_inj a b c d :
  sort_pair (a, b) = sort_pair (c, d) -> (a = c /\ b = d) \/ (a = d /\ b = c).
Proof. unfold sort_pair. repeat case_match; intros; simplify_eq; auto. Qed.

Section Basics.
Context `{Shake256Lib} `{UuidLib}.

(** ** Domains *)
Definition PROTOCOL_DOMAIN : bytes :=
  str_bytes "Daisyway v1 by Paul Spooren & Karolin Varner, Feb-2025 with Shake256".

Definition root : HashDomain := mix zero PROTOCOL_DOMAIN.

Definition derive_key : HashDomain := mix root (str_bytes "derive key").

(** ** Parameters and messages *)
Record DaisywayProtocolParameters : Type := mkParams {
  psk : Key;
  local_peer_id : PeerId;
  remote_peer_id : PeerId;
}.

Record WireGuardConnectionId : Type := mkConnId { first_peer : PeerId; second_peer : PeerId }.

Definition WireGuardConnectionId_new (self_public_key peer_public_key : PeerId) : WireGuardConnectionId :=
  let '(first_peer, second_peer) := sort_pair (self_public_key, peer_public_key) in
  mkConnId first_peer second_peer.

(** [#[repr(C, packed)] struct KdfInput] *)
Record KdfInput : Type := mkKdfInput {
  kdf_psk : Key;
  kdf_nonce : Nonce;
  kdf_qkd_key : Key;
  kdf_qkd_key_id : UuidBytes;
  kdf_connection_id : WireGuardConnectionId;
}.

Definition KdfInput_new (psk : Key) (nonce : Nonce) (qkd_key : Etsi014Key)
    (wireguard_connection_id : WireGuardConnectionId) : KdfInput :=
  let 'mkEtsi014Key id key := qkd_key in
  mkKdfInput psk nonce key (uuid_to_bytes_le id) wireguard_connection_id.

Definition KdfInput_as_bytes (k : KdfInput) : bytes :=
  as_bytes (kdf_psk k) ++ as_bytes (kdf_nonce k) ++ as_bytes (kdf_qkd_key k) ++
  as_bytes (kdf_qkd_key_id k) ++
  as_bytes (first_peer (kdf_connection_id k)) ++ as_bytes (second_peer (kdf_connection_id k)).

Definition derive_daisyway_key (params : DaisywayProtocolParameters) (nonce : Nonce)
    (key : Etsi014Key) : Key :=
  let conn_id := WireGuardConnectionId_new (local_peer_id params) (remote_peer_id params) in
  let kdf_input := KdfInput_new (psk params) nonce key conn_id in
  into_key (mix derive_key (KdfInput_as_bytes kdf_input)).

(** [#[repr(C, packed)] struct RekeyReq], 48 bytes on the wire *)
Record RekeyReq : Type := mkRekeyReq { qkd_key_id : UuidBytes; req_nonce : Nonce }.

Definition RekeyReq_as_bytes (r : RekeyReq) : array (16 + 32) :=
  array_app (qkd_key_id r) (req_nonce r).

(** Reading into [as_mut_bytes()] of a zeroed request. *)
Definition RekeyReq_from_bytes (b : array (16 + 32)) : RekeyReq :=
  mkRekeyReq (array_fst b) (array_snd b).

Definition RekeyReq_new (qkd_key_id : UuidBytes) : proc RekeyReq :=
  let! nonce := random_key in
  pure (mkRekeyReq qkd_key_id nonce).

(** [struct RekeyAck], one byte *)
Record RekeyAck : Type := mkRekeyAck { dummy_data : byte }.

#[export] Instance RekeyAck_eq_dec : EqDecision RekeyAck.
Proof. solve_decision. Defined.

Definition REKEY_ACK : RekeyAck := mkRekeyAck Byte.x01.

Definition RekeyAck_as_bytes (a : RekeyAck) : array 1 := @MkArray 1 [dummy_data a] eq_refl.

Definition RekeyAck_from_bytes (b : array 1) : RekeyAck :=
  mkRekeyAck (default Byte.x00 (head (as_bytes b))).

Definition RekeyAck_validate (self : RekeyAck) : outcome unit :=
  if decide (self = REKEY_ACK) then Ok tt
  else Err (EMsg (Msg "Rekey acknowledgement is invalid: Expected {REKEY_ACK:?} but received {self:?}"
                    [FBytes [dummy_data REKEY_ACK]; FBytes [dummy_data self]])).

(** ** Correctness *)
Lemma RekeyReq_roundtrip r : RekeyReq_from_bytes (RekeyReq_as_bytes r) = r.
Proof.
  destruct r. unfold RekeyReq_from_bytes, RekeyReq_as_bytes.
  by rewrite array_fst_app, array_snd_app.
Qed.

Lemma RekeyAck_roundtrip a : RekeyAck_from_bytes (RekeyAck_as_bytes a) = a.
Proof. by destruct a. Qed.

(** Both messages survive the wire, every 48 bytes are some request, and one
    byte value in 256 acknowledges. *)
Theorem wire_messages :
  (forall r, RekeyReq_from_bytes (RekeyReq_as_bytes r) = r) /\
  (forall b, RekeyReq_as_bytes (RekeyReq_from_bytes b) = b) /\
  (forall b, RekeyAck_validate (RekeyAck_from_bytes b) = Ok tt <-> b = RekeyAck_as_bytes REKEY_ACK).
Proof.
  split; [apply RekeyReq_roundtrip|]. split.
  - intros b. apply array_app_split.
  - intros b. unfold RekeyAck_validate. split.
    + case_decide as Hd; [|done]. intros _. apply array_ext.
      pose proof (array_length b). destruct (as_bytes b) as [|x [|]] eqn:Hb; try done.
      unfold RekeyAck_from_bytes in Hd. rewrite Hb in Hd.
      unfold REKEY_ACK in Hd. simpl in Hd. by simplify_eq.
    + intros ->. by rewrite RekeyAck_roundtrip, decide_True.
Qed.

(** Both peers name the connection alike: exchanging the local and the remote
    identity changes nothing. *)
Theorem derive_peer_symmetric p l r nonce key :
  derive_daisyway_key (mkParams p l r) nonce key = derive_daisyway_key (mkParams p r l) nonce key.
Proof.
  unfold derive_daisyway_key, WireGuardConnectionId_new. simpl. by rewrite sort_pair_comm.
Qed.

Lemma KdfInput_as_bytes_length k : length (KdfInput_as_bytes k) = 176.
Proof. unfold KdfInput_as_bytes. by rewrite !length_app, !array_length. Qed.

Lemma KdfInput_as_bytes_inj k1 k2 : KdfInput_as_bytes k1 = KdfInput_as_bytes k2 -> k1 = k2.
Proof.
  destruct k1 as [p1 n1 q1 i1 [f1 s1]], k2 as [p2 n2 q2 i2 [f2 s2]].
  unfold KdfInput_as_bytes. simpl. intros Hk.
  repeat match goal with
  | H : as_bytes _ ++ _ = as_bytes _ ++ _ |- _ => apply as_bytes_app_inj in H as [-> H]
  end.
  apply array_ext in Hk. by subst.
Qed.

Context `{!Shake256Laws}.

(** What is hashed: the domain key, the pre-shared key, the nonce, the QKD key,
    its identifier and the two peer identities in order. *)
Definition key_material (params : DaisywayProtocolParameters) (nonce : Nonce) (k : Etsi014Key) : bytes :=
  let ids := sort_pair (local_peer_id params, remote_peer_id params) in
  as_bytes (hd_key derive_key) ++ as_bytes (psk params) ++ as_bytes nonce ++
  as_bytes (key k) ++ as_bytes (uuid_to_bytes_le (id k)) ++ as_bytes ids.1 ++ as_bytes ids.2.

Lemma derive_is_hash params nonce k :
  as_bytes (derive_daisyway_key params nonce k) = shake256 (key_material params nonce k) 32.
Proof.
  unfold derive_daisyway_key, into_key, mix, key_material. cbn [hd_key]. rewrite mix_read_bytes.
  unfold WireGuardConnectionId_new, KdfInput_new, KdfInput_as_bytes. by destruct (sort_pair _), k.
Qed.

(** C21. The derived key is the first 32 bytes of SHAKE256 over the 208 bytes: the
    domain key, the pre-shared key, the nonce, the QKD key, its identifier and
    the two peer identities in order. *)
Theorem derive_key_layout params nonce k :
  let ids := sort_pair (local_peer_id params, remote_peer_id params) in
  let input := as_bytes (hd_key derive_key) ++ as_bytes (psk params) ++ as_bytes nonce ++
    as_bytes (key k) ++ as_bytes (uuid_to_bytes_le (id k)) ++
    as_bytes ids.1 ++ as_bytes ids.2 in
  as_bytes (derive_daisyway_key params nonce k) = shake256 input 32 /\ length input = 208.
Proof.
  intros ids input. split; [apply derive_is_hash|]. unfold input. by rewrite !length_app, !array_length.
Qed.

Lemma key_material_inj `{!UuidLaws} p1 n1 k1 p2 n2 k2 :
  key_material p1 n1 k1 = key_material p2 n2 k2 ->
  psk p1 = psk p2 /\ n1 = n2 /\ k1 = k2 /\
  ((local_peer_id p1 = local_peer_id p2 /\ remote_peer_id p1 = remote_peer_id p2) \/
   (local_peer_id p1 = remote_peer_id p2 /\ remote_peer_id p1 = local_peer_id p2)).
Proof.
  unfold key_material. intros Hm. destruct k1 as [i1 k1], k2 as [i2 k2]. cbn [key id] in Hm.
  apply app_inv_head in Hm.
  do 5 (apply as_bytes_app_inj in Hm as [? Hm]). apply array_ext in Hm.
  assert (Hids : sort_pair (local_peer_id p1, remote_peer_id p1) = sort_pair (local_peer_id p2, remote_peer_id p2))
    by (destruct (sort_pair (local_peer_id p1, _)), (sort_pair (local_peer_id p2, _)); simpl in *; by subst).
  apply sort_pair_inj in Hids. repeat split; try done.
  f_equal; [by apply uuid_to_bytes_le_inj|done].
Qed.

(** C20. The derived key commits to everything that went in: two derivations that
    agree used the same pre-shared key, nonce, QKD key and identifier, and the
    same two peers, or else their own 208 bytes of input are a collision of the
    hash. *)
Theorem derive_key_binding `{!UuidLaws} p1 n1 k1 p2 n2 k2 :
  derive_daisyway_key p1 n1 k1 = derive_daisyway_key p2 n2 k2 ->
  (psk p1 = psk p2 /\ n1 = n2 /\ k1 = k2 /\
   ((local_peer_id p1 = local_peer_id p2 /\ remote_peer_id p1 = remote_peer_id p2) \/
    (local_peer_id p1 = remote_peer_id p2 /\ remote_peer_id p1 = local_peer_id p2)))
  \/ collide (key_material p1 n1 k1) (key_material p2 n2 k2).
Proof.
  intros Hd. apply (f_equal as_bytes) in Hd. rewrite !derive_is_hash in Hd.
  destruct (decide (key_material p1 n1 k1 = key_material p2 n2 k2)) as [He|Hne];
    [left; by apply key_material_inj|by right].
Qed.
End Basics.

(** ** Witnesses *)
Definition demo_params : DaisywayProtocolParameters :=
  mkParams (new_zeroed 32) (array_overwrite (new_zeroed 32) [Byte.x01])
    (array_overwrite (new_zeroed 32) [Byte.x02]).

Lemma derive_key_layout_witness :
  as_bytes (derive_daisyway_key demo_params (new_zeroed 32) Etsi014Key_empty) =
  shake256 (as_bytes (hd_key derive_key) ++ replicate 112 Byte.x00 ++
    [Byte.x01] ++ replicate 31 Byte.x00 ++ [Byte.x02] ++ replicate 31 Byte.x00) 32.
Proof.
  destruct (derive_key_layout demo_params (new_zeroed 32) Etsi014Key_empty) as [Hd _].
  etransitivity; [exact Hd|]. vm_compute. reflexivity.
Defined.

Lemma derive_key_binding_witness :
  let p := demo_params in
  let q := mkParams (psk p) (remote_peer_id p) (local_peer_id p) in
  (psk p = psk q /\ new_zeroed 32 = new_zeroed 32 /\ Etsi014Key_empty = Etsi014Key_empty /\
   ((local_peer_id p = local_peer_id q /\ remote_peer_id p = remote_peer_id q) \/
    (local_peer_id p = remote_peer_id q /\ remote_peer_id p = local_peer_id q)))
  \/ collide (key_material p (new_zeroed 32) Etsi014Key_empty) (key_material q (new_zeroed 32) Etsi014Key_empty).
Proof.
  apply (derive_key_binding demo_params (new_zeroed 32) Etsi014Key_empty
    (mkParams (psk demo_params) (remote_peer_id demo_params) (local_peer_id demo_params))
    (new_zeroed 32) Etsi014Key_empty).
  vm_compute. reflexivity.
Defined.
