(* ===== verification/Osk.v ===== *)
(** * Output-key handlers ([daisyway/src/internal/osk/mod.rs], [outfile.rs],
    [wireguard.rs])

    The trait and the two handlers that hand keys to the outside world. *)

From S2P Require Import Prelude Types Externals RefInstances Effects Util.

(** ** [trait OskHandler] *)
Class OskHandler (H : Type) : Type := set_osk : H -> Key -> SetOskReason -> proc unit.

Definition set_fresh_osk `{OskHandler H} (self : H) (key : Key) : proc unit :=
  set_osk self key Fresh.

Definition erase_stale_osk `{OskHandler H} (self : H) : proc unit :=
  let! key := random_key in
  set_osk self key Stale.

(** ** Keys into a file *)
Section Outfile.
Context `{Base64Codec}.

Record OutfileOskHandler : Type := mkOutfile { path : string }.

Definition reason_word (reason : SetOskReason) : string :=
  match reason with
  | Fresh => "exchanged"
  | Stale => "stale"
  end.

Definition outfile_set_osk (self : OutfileOskHandler) (key : Key) (reason : SetOskReason) : proc unit :=
  let why := reason_word reason in
  let! key := Ret (oexpect (Msg "called `Result::unwrap()` on an `Err` value" [])
                     (b64_encode (as_bytes key) KEY_LENGTH_B64)) in
  let! _ := Vis (EFileCreate (path self))
              (fun r => Ret (oexpect (Msg "Failed to create file" []) r)) in
  let! _ := Vis (EFileWrite (path self) (str_bytes key))
              (fun r => Ret (oexpect (Msg "Failed to write PSK to file {}" [FStr (path self)]) r)) in
  let! _ := perform (EPrintln (Msg "output-key {path:?} {why}" [FStr (path self); FStr why])) in
  pure tt.

#[export] Instance outfile_handler : OskHandler OutfileOskHandler := outfile_set_osk.
End Outfile.

(** ** Keys into a WireGuard interface *)
Section WireGuard.
Context `{Base64Codec}.

Record WireGuardOskHandler : Type := mkWireGuard { interface : string; peer_id : Key }.

Definition wireguard_setup (peer_id interface : string) : proc WireGuardOskHandler :=
  let! peer_id_u8 := Ret (oexpect (Msg "Invalid peer_id" []) (base64_to_key (str_bytes peer_id))) in
  let! _ := pcontext (Msg "Failed to connect to WireGuard control socket." [])
              (Vis EWgConnect Ret) in
  let! device_peers :=
    pcontext (Msg "Failed to access WireGuard interface {interface}" [FStr interface])
      (Vis (EWgGetDevice interface) Ret) in
  if bool_decide (peer_id_u8 ∈ device_peers)
  then pure (mkWireGuard interface peer_id_u8)
  else Ret (Err (EMsg (Msg "Could not find WireGuard peer {peer_id}" [FStr peer_id]))).

Definition wireguard_set_osk (self : WireGuardOskHandler) (key : Key) (reason : SetOskReason) : proc unit :=
  let set_peer := mkSetPeer (peer_id self) [UpdateOnly] (Some key) in
  let set_dev := mkSetDevice (interface self) [set_peer] in
  Vis (EWgSetDevice set_dev) Ret.

#[export] Instance wireguard_handler : OskHandler WireGuardOskHandler := wireguard_set_osk.
End WireGuard.

(** ** A host file system to run the handlers in *)

Record host : Type := mkHost {
  files : gmap string bytes;
  stdout : list message;
}.

(** An answer for the operations the host does not implement. *)
Definition default_answer (e : effect) : answer e :=
  match e with
  | ERandom => new_zeroed 32
  | ESleep _ | EAbort _ | EPrintln _ => tt
  | ENow | ESpawn _ _ => 0%Z
  | ETimeoutRecv _ => None
  | ESelect => Notified None
  | EHttpGet _ | EReadExact _ | EWgGetDevice _ | EBind _ | EConnect _ | EWriteAll _
  | ESendManager _ | ESendDeadman _ | EFileCreate _ | EFileWrite _ _ | EWgConnect
  | EWgSetDevice _ => Err (EForeign "host" "not connected")
  end.

(** [File::create] truncates, [write_all] appends at the end. *)
Definition host_handler : handler host := fun e w =>
  match e return answer e * host with
  | EFileCreate p => (Ok tt, mkHost (<[p := []]> (files w)) (stdout w))
  | EFileWrite p d => (Ok tt, mkHost (<[p := default [] (files w !! p) ++ d]> (files w)) (stdout w))
  | EPrintln m => (tt, mkHost (files w) (stdout w ++ [m]))
  | e => (default_answer e, w)
  end.

(** ** Correctness *)
Section Proofs.
Context `{Base64Laws}.

Lemma key_encodes (k : Key) :
  exists s, b64_encode (as_bytes k) KEY_LENGTH_B64 = Ok s /\ length (str_bytes s) = 44.
Proof.
  assert (Hl : b64_encoded_len (as_bytes k) = 44) by (rewrite b64_encoded_len_spec, array_length; done).
  destruct (b64_encode_ok (as_bytes k) KEY_LENGTH_B64) as (s & Hs & Hsl).
  - rewrite Hl. vm_compute. lia.
  - exists s. split; [done|]. by rewrite Hsl.
Qed.

Lemma encoded_key_decodes (k : Key) cap s :
  b64_encode (as_bytes k) cap = Ok s -> base64_to_key (str_bytes s) = Ok k.
Proof.
  intros Hs. unfold base64_to_key.
  rewrite (b64_roundtrip _ _ _ KEY_LENGTH Hs) by (by rewrite array_length).
  simpl. f_equal. apply array_ext. apply (array_overwrite_full (new_zeroed 32)), array_length.
Qed.

(** C27. What a run of the outfile handler does: the file ends up holding exactly
    the base64 text of the key, whatever it held before, the key decodes from
    that text, and one line on standard output says which kind of key it is. *)
Theorem outfile_installs_key (h : OutfileOskHandler) k reason w :
  exists text w',
    interp host_handler (set_osk h k reason) w = (Ok tt, w') /\
    files w' = <[path h := str_bytes text]> (files w) /\
    stdout w' = stdout w ++ [Msg "output-key {path:?} {why}" [FStr (path h); FStr (reason_word reason)]] /\
    base64_to_key (str_bytes text) = Ok k.
Proof.
  destruct (key_encodes k) as (s & Hs & _). exists s. eexists.
  unfold set_osk, outfile_handler, outfile_set_osk. rewrite Hs. simpl.
  split; [done|]. simpl. rewrite lookup_insert_eq, insert_insert_eq. simpl.
  split; [done|]. split; [done|]. by eapply encoded_key_decodes.
Qed.

(** C28. In any environment the outfile handler either writes its key and then
    announces it, or panics without announcing anything; it never returns an
    error to its caller. *)
Theorem outfile_announces_only_written (h : OutfileOskHandler) k reason tr o :
  runs (set_osk h k reason) tr o ->
  (o = Ok tt /\ exists text, base64_to_key text = Ok k /\
     tr = [Ev (EFileCreate (path h)) (Ok tt); Ev (EFileWrite (path h) text) (Ok tt);
           Ev (EPrintln (Msg "output-key {path:?} {why}" [FStr (path h); FStr (reason_word reason)])) tt]) \/
  (panics o = true /\ forall m a, Ev (EPrintln m) a ∉ tr).
Proof.
  destruct (key_encodes k) as (s & Hs & _).
  unfold set_osk, outfile_handler, outfile_set_osk. rewrite Hs. simpl.
  intros ([[]|e|m] & tr1 & -> & Hr); simpl in Hr;
    [|right; destruct Hr as [-> ->]; split; [done|];
      intros ? ? [Hx|Hx%not_elem_of_nil]%elem_of_cons; [discriminate Hx|done]..].
  destruct Hr as ([[]|e|m] & tr2 & -> & Hr); simpl in Hr;
    [|right; destruct Hr as [-> ->]; split; [done|];
      intros ? ? [Hx|[Hx|Hx%not_elem_of_nil]%elem_of_cons]%elem_of_cons;
      [discriminate Hx|discriminate Hx|done]..].
  destruct Hr as ([] & tr3 & -> & -> & ->). left. split; [done|].
  exists (str_bytes s). split; [|done].
  by apply encoded_key_decodes with KEY_LENGTH_B64.
Qed.

(** C29. [setup] succeeds exactly when the configured peer decodes and the device
    lists it; an undecodable peer is a panic, and then the kernel is not even
    contacted. *)
Theorem wireguard_setup_spec peer_id_str ifname tr o :
  runs (wireguard_setup peer_id_str ifname) tr o ->
  match base64_to_key (str_bytes peer_id_str) with
  | Ok pk =>
      forall h, o = Ok h ->
        h = mkWireGuard ifname pk /\
        exists device_peers, pk ∈ device_peers /\
          tr = [Ev EWgConnect (Ok tt); Ev (EWgGetDevice ifname) (Ok device_peers)]
  | _ => panics o = true /\ tr = []
  end.
Proof.
  unfold wireguard_setup. pose proof (base64_to_key_total (str_bytes peer_id_str)) as Ht.
  destruct (base64_to_key (str_bytes peer_id_str)) as [pk|e|m]; simpl; [|by intros [-> ->]|done].
  intros ([[]|e|m] & tr1 & -> & Hr) h ->; simpl in Hr; [|by destruct Hr..].
  destruct Hr as ([l|e|m] & tr2 & -> & Hr); simpl in Hr; [|by destruct Hr..].
  case_bool_decide; destruct Hr as [-> Hh]; [|done]. injection Hh as <-. eauto.
Qed.

(** Every request the WireGuard handler makes concerns its own peer alone,
    may not create it, and carries the new key. *)
Lemma wireguard_requests (h : WireGuardOskHandler) k reason tr o :
  runs (set_osk h k reason) tr o ->
  exists d a, tr = [Ev (EWgSetDevice d) a] /\ ifname d = interface h /\
    peers d = [mkSetPeer (peer_id h) [UpdateOnly] (Some k)].
Proof. intros (a & tr' & -> & -> & ->). eexists _, _. done. Qed.
End Proofs.

(** ** Witnesses *)
Definition demo_outfile : OutfileOskHandler := mkOutfile "/tmp/outfile.ada".
Definition demo_host : host := mkHost {["/tmp/outfile.ada" := str_bytes "old"]} [].

Lemma outfile_installs_key_witness : exists text w',
  interp host_handler (set_osk demo_outfile (new_zeroed 32) Fresh) demo_host = (Ok tt, w') /\
  files w' !! "/tmp/outfile.ada" = Some (str_bytes text) /\
  base64_to_key (str_bytes text) = Ok (new_zeroed 32).
Proof.
  destruct (outfile_installs_key demo_outfile (new_zeroed 32) Fresh demo_host)
    as (text & w' & Hrun & Hfiles & _ & Hk).
  exists text, w'. split; [exact Hrun|]. split; [|exact Hk].
  rewrite Hfiles. apply lookup_insert_eq.
Defined.

Lemma outfile_announces_only_written_witness :
  (@Err unit (EMsg (Msg "" [])) = Ok tt \/ panics (@Panicked unit (Msg "Failed to create file" [])) = true).
Proof.
  destruct (outfile_announces_only_written demo_outfile (new_zeroed 32) Stale
    [Ev (EFileCreate "/tmp/outfile.ada") (Err (EIo (OtherKind 13)))]
    (Panicked (Msg "Failed to create file" []))) as [[Ho _]|[Ho _]].
  - vm_compute. eexists _, _. split; [reflexivity|]. split; reflexivity.
  - discriminate Ho.
  - right. exact Ho.
Defined.

Definition demo_peer : string := "GOJt/mfPuwoUiKD+hARpxuDtnzJOWkcK0Tq+sxxw4UQ=".
Definition demo_peer_key : Key :=
  array_overwrite (new_zeroed 32) (default [] (RefBase64.decode (str_bytes demo_peer))).

Lemma wireguard_setup_spec_witness :
  exists device_peers, demo_peer_key ∈ device_peers /\
    [Ev EWgConnect (Ok tt); Ev (EWgGetDevice "wg0") (Ok [demo_peer_key])] =
    [Ev EWgConnect (Ok tt); Ev (EWgGetDevice "wg0") (Ok device_peers)].
Proof.
  pose proof (wireguard_setup_spec demo_peer "wg0"
    [Ev EWgConnect (Ok tt); Ev (EWgGetDevice "wg0") (Ok [demo_peer_key])]
    (Ok (mkWireGuard "wg0" demo_peer_key))) as Hs.
  assert (Hk : base64_to_key (str_bytes demo_peer) = Ok demo_peer_key) by (vm_compute; reflexivity).
  rewrite Hk in Hs. refine (proj2 (Hs _ _ eq_refl)).
  unfold wireguard_setup. rewrite Hk. simpl. eexists _, _. split; [reflexivity|]. simpl.
  eexists _, _. split; [reflexivity|]. vm_compute. split; reflexivity.
Defined.
