(* ===== verification/Deadman.v ===== *)
(** * The dead-man switch ([daisyway/src/internal/osk/deadman.rs])

    A worker that owns the real handler, installs the keys it is sent, and
    erases the output key at start-up, whenever no key arrives in time, and
    when every sender is gone. *)

From S2P Require Import Prelude Types Externals Effects Osk.

(** ** The handle *)
Record OskDeadman : Type := mkOskDeadman {}.

Definition deadman_set_osk (self : OskDeadman) (key : Key) (reason : SetOskReason) : proc unit :=
  let! _ := send_deadman (SetOsk key reason) in
  pure tt.

#[export] Instance deadman_handler : OskHandler OskDeadman := deadman_set_osk.

(** Setting a key is one request to the worker. *)
Lemma runs_deadman h k r t o :
  runs (set_osk (H := OskDeadman) h k r) t o -> t = [Ev (ESendDeadman (SetOsk k r)) o].
Proof. intros ([[]|e|m] & t' & -> & -> & ->); done. Qed.

(** ** The worker *)
Section Worker.
Context {Broker : Type} `{OskHandler Broker}.

(** [std::time::Instant] ends at a platform-dependent point; adding a duration
    past it panics. *)
Context (instant_max : Z).

Definition instant_add (now d : Z) : outcome Z :=
  if bool_decide (now + d <= instant_max)%Z then Ok (now + d)%Z
  else Panicked (Msg "overflow when adding duration to instant" []).

Record DeadmanWorker : Type := mkWorker { broker : Broker; erase_after : Z }.

(** One turn of the worker's loop. *)
Definition worker_turn (self : DeadmanWorker) : proc (control unit unit) :=
  let! now := perform ENow in
  let! next_erase := Ret (instant_add now (erase_after self)) in
  let! req := perform (ETimeoutRecv next_erase) in
  match req with
  | Some (Some (SetOsk key reason)) =>
      let! _ := set_osk (broker self) key reason in
      pure (Continue tt)
  | Some None =>
      let! _ := erase_stale_osk (broker self) in
      pure (Break tt)
  | None =>
      let! _ := erase_stale_osk (broker self) in
      pure (Continue tt)
  end.

Definition worker_event_loop (fuel : nat) (self : DeadmanWorker) : proc (control unit unit) :=
  let! _ := erase_stale_osk (broker self) in
  loop fuel (fun _ => worker_turn self) tt.

(** [OskDeadman::start], [DeadmanWorker::start]: the handle, and the worker
    that the new thread makes and runs. *)
Definition deadman_start (erase_after : Z) (make_broker : unit -> Broker) : OskDeadman * DeadmanWorker :=
  (mkOskDeadman, mkWorker (make_broker tt) erase_after).

(** [thread_run]: [runtime] says whether the thread's runtime could be built. *)
Definition thread_run (runtime : outcome unit) (fuel : nat) (self : DeadmanWorker) : proc (control unit unit) :=
  let! _ := Ret runtime in
  worker_event_loop fuel self.

(** The thread's main function: an error is a panic of the thread. *)
Definition worker_thread (runtime : outcome unit) (fuel : nat) (self : DeadmanWorker) : proc (control unit unit) :=
  pmap_outcome (fun o => match o with
                         | Err _ => Panicked (Msg "Error in output key worker thread: {e:?}" [])
                         | o => o
                         end) (thread_run runtime fuel self).

(** ** What a dead-man switch promises

    The specification is a history of installations, each with its cause and
    the worlds it started and ended in.  It does not mention the loop: [h]
    answers the operations, a [W] is the state of the world. *)
Context {W : Type} (h : handler W).

Inductive cause : Type := Startup | Requested | TimedOut | Closed.

Record install : Type := mkInstall {
  i_cause : cause;
  i_key : Key;
  i_reason : SetOskReason;
  i_before : W;
  i_result : outcome unit;
  i_after : W;
}.

(** Waiting in [w] until [deadline] ends with the decision to make [i]. *)
Definition caused (deadline : Z) (w : W) (i : install) : Prop :=
  match i_cause i with
  | Startup => h ERandom w = (i_key i, i_before i) /\ i_reason i = Stale
  | Requested =>
      h (ETimeoutRecv deadline) w = (Some (Some (SetOsk (i_key i) (i_reason i))), i_before i)
  | TimedOut => exists w1, h (ETimeoutRecv deadline) w = (None, w1) /\
      h ERandom w1 = (i_key i, i_before i) /\ i_reason i = Stale
  | Closed => exists w1, h (ETimeoutRecv deadline) w = (Some None, w1) /\
      h ERandom w1 = (i_key i, i_before i) /\ i_reason i = Stale
  end.

(** The handler really was run on the key of [i]. *)
Definition installed (b : Broker) (i : install) : Prop :=
  interp h (set_osk b (i_key i) (i_reason i)) (i_before i) = (i_result i, i_after i).

(** One installation after a wait that began in [w], due [erase_after] later. *)
Inductive awaited (self : DeadmanWorker) (w : W) (i : install) : Prop :=
  | Awaited now w0 :
      h ENow w = (now, w0) -> (now + erase_after self <= instant_max)%Z ->
      i_cause i <> Startup -> caused (now + erase_after self) w0 i -> installed (broker self) i ->
      awaited self w i.

(** [history self n w l o w']: after [n] turns at most, starting in [w], the
    installations [l] were made and the outcome is [o] in [w']. *)
Inductive history (self : DeadmanWorker) : nat -> W -> list install -> outcome (control unit unit) -> W -> Prop :=
  | h_running w : history self 0 w [] (Ok (Continue tt)) w
  | h_turn n w i l o w' :
      awaited self w i -> i_cause i <> Closed -> i_result i = Ok tt ->
      history self n (i_after i) l o w' ->
      history self (S n) w (i :: l) o w'
  | h_closed n w i :
      awaited self w i -> i_cause i = Closed -> i_result i = Ok tt ->
      history self (S n) w [i] (Ok (Break tt)) (i_after i)
  | h_failed n w i :
      awaited self w i -> is_ok (i_result i) = false ->
      history self (S n) w [i] (omap (fun _ => Break tt) (i_result i)) (i_after i)
  | h_overflow n w now w0 :
      h ENow w = (now, w0) -> (instant_max < now + erase_after self)%Z ->
      history self (S n) w [] (Panicked (Msg "overflow when adding duration to instant" [])) w0.

(** A whole life: the erasure at start-up, and a history if that succeeds. *)
Inductive lifetime (self : DeadmanWorker) (n : nat) (w : W) : list install -> outcome (control unit unit) -> W -> Prop :=
  | l_started i l o w' :
      i_cause i = Startup -> caused 0 w i -> installed (broker self) i -> i_result i = Ok tt ->
      history self n (i_after i) l o w' ->
      lifetime self n w (i :: l) o w'
  | l_failed i :
      i_cause i = Startup -> caused 0 w i -> installed (broker self) i ->
      is_ok (i_result i) = false ->
      lifetime self n w [i] (omap (fun _ => Break tt) (i_result i)) (i_after i).

(** ** Correctness *)
Lemma turn_awaited self w now w0 c k r w1 res w2 :
  h ENow w = (now, w0) -> (now + erase_after self <= instant_max)%Z -> c <> Startup ->
  caused (now + erase_after self) w0 (mkInstall c k r w1 res w2) ->
  interp h (set_osk (broker self) k r) w1 = (res, w2) ->
  awaited self w (mkInstall c k r w1 res w2).
Proof. intros. by eapply Awaited. Qed.

Lemma worker_loop_history self fuel w o w' :
  interp h (loop fuel (fun _ => worker_turn self) tt) w = (o, w') ->
  exists l, history self fuel w l o w'.
Proof.
  revert w. induction fuel as [|n IH]; intros w; cbn [loop].
  { intros [= <- <-]. exists []. constructor. }
  unfold worker_turn. simpl. destruct (h ENow w) as [now w0] eqn:Hnow.
  unfold instant_add. case_bool_decide as Hmax; simpl;
    [|intros [= <- <-]; exists []; eapply h_overflow; [exact Hnow|lia]].
  assert (Haw : forall c k r w1 res w2, c <> Startup ->
    caused (now + erase_after self) w0 (mkInstall c k r w1 res w2) ->
    interp h (set_osk (broker self) k r) w1 = (res, w2) -> awaited self w (mkInstall c k r w1 res w2))
    by (intros c k r w1 res w2; by apply turn_awaited).
  destruct (h (ETimeoutRecv _) w0) as [[[[k r]|]|] w1] eqn:Hrecv; simpl;
    [|destruct (h ERandom w1) as [k w2] eqn:Hk|destruct (h ERandom w1) as [k w2] eqn:Hk];
    rewrite !interp_bind.
  - destruct (interp h (set_osk _ k r) w1) as [res w2] eqn:Hset.
    set (i := mkInstall Requested k r w1 res w2).
    assert (Hi : awaited self w i) by (by apply Haw).
    destruct res as [[]|e|m]; simpl; [intros (l & Hh)%IH|intros [= <- <-]..].
    + exists (i :: l). by apply h_turn.
    + exists [i]. by apply (h_failed self n w i).
    + exists [i]. by apply (h_failed self n w i).
  - destruct (interp h (set_osk _ k Stale) w2) as [res w3] eqn:Hset.
    set (i := mkInstall Closed k Stale w2 res w3).
    assert (Hi : awaited self w i) by (apply Haw; [done|by exists w1|done]).
    destruct res as [[]|e|m]; simpl; intros [= <- <-]; exists [i].
    + by apply (h_closed self n w i).
    + by apply (h_failed self n w i).
    + by apply (h_failed self n w i).
  - destruct (interp h (set_osk _ k Stale) w2) as [res w3] eqn:Hset.
    set (i := mkInstall TimedOut k Stale w2 res w3).
    assert (Hi : awaited self w i) by (apply Haw; [done|by exists w1|done]).
    destruct res as [[]|e|m]; simpl; [intros (l & Hh)%IH|intros [= <- <-]..].
    + exists (i :: l). by apply h_turn.
    + exists [i]. by apply (h_failed self n w i).
    + exists [i]. by apply (h_failed self n w i).
Qed.

Lemma worker_lifetime self fuel w o w' :
  interp h (worker_event_loop fuel self) w = (o, w') ->
  exists l, lifetime self fuel w l o w'.
Proof.
  unfold worker_event_loop, erase_stale_osk. simpl. destruct (h ERandom w) as [k w1] eqn:Hk.
  rewrite interp_bind. destruct (interp h (set_osk _ k Stale) w1) as [res w2] eqn:Hset.
  set (i := mkInstall Startup k Stale w1 res w2).
  destruct res as [[]|e|m]; simpl; [intros (l & Hh)%worker_loop_history|intros [= <- <-]..].
  - exists (i :: l). by apply l_started.
  - exists [i]. by apply (l_failed self fuel w i).
  - exists [i]. by apply (l_failed self fuel w i).
Qed.

(** C7. The worker's event loop refines the specification of the dead-man switch:
    whatever the handler and the environment do, any number of turns of it is
    a lifetime. *)
Theorem worker_refines_lifetime self fuel w o w' :
  interp h (worker_event_loop fuel self) w = (o, w') ->
  exists l, lifetime self fuel w l o w'.
Proof. apply worker_lifetime. Qed.

Lemma history_stale self n w l o w' : history self n w l o w' ->
  Forall (fun i => i_cause i <> Requested -> i_reason i = Stale) l.
Proof.
  assert (Haw : forall w i, awaited self w i -> i_cause i <> Requested -> i_reason i = Stale).
  { intros ? i [? ? _ _ Hc Hcaused _] Hr. unfold caused in Hcaused.
    destruct (i_cause i); naive_solver. }
  induction 1; repeat constructor; eauto.
Qed.

Lemma history_outcome self n w l o w' : history self n w l o w' ->
  match o with
  | Ok (Continue _) => length l = n
  | Ok (Break _) => exists i, last l = Some i /\ i_cause i = Closed /\ i_reason i = Stale /\ i_after i = w'
  | _ => True
  end.
Proof.
  induction 1 as [| n w i l o w' Hi Hc Hr Hh IH| n w i Hi Hc Hr| n w i Hi Hr|]; try done.
  - destruct o as [[[]|[]]| |]; simpl in *; [lia| |done..].
    destruct IH as (j & Hj & ?). exists j. split; [|done]. by rewrite last_cons, Hj.
  - exists i. split; [done|]. split; [done|]. split; [|done].
    destruct Hi as [? ? _ _ _ Hcaused _]. unfold caused in Hcaused. rewrite Hc in Hcaused. naive_solver.
  - by destruct (i_result i).
Qed.

(** C9. Consequences for one life of the worker: the first thing it does is to
    erase, only a request ever installs a key that is not an erasure, when it
    ends normally its last installation was an erasure, and as long as it
    keeps running every turn installs something. *)
Theorem worker_erases self fuel w o w' :
  interp h (worker_event_loop fuel self) w = (o, w') ->
  exists i l, lifetime self fuel w (i :: l) o w' /\ i_cause i = Startup /\ i_reason i = Stale /\
    Forall (fun j => i_cause j <> Requested -> i_reason j = Stale) l /\
    match o with
    | Ok (Continue _) => length l = fuel
    | Ok (Break _) => exists j, last l = Some j /\ i_reason j = Stale /\ i_after j = w'
    | _ => True
    end.
Proof.
  intros (l & Hl)%worker_lifetime.
  destruct Hl as [i l o w' Hs Hc Hi Hr Hh|i Hs Hc Hi Hr]; exists i; unfold caused in Hc;
    rewrite Hs in Hc; destruct Hc as [Hk Hst].
  - exists l. split; [by apply l_started; unfold caused; rewrite ?Hs|].
    split; [done|]. split; [done|]. split; [by eapply history_stale|].
    pose proof (history_outcome _ _ _ _ _ _ Hh) as Ho.
    destruct o as [[[]|[]]| |]; try done. destruct Ho as (j & ? & ? & ? & ?). eauto.
  - exists []. split; [by apply l_failed; unfold caused; rewrite ?Hs|].
    repeat split; try done. by destruct (i_result i).
Qed.

(** ** Deadlines *)

(** A clock, and timers that fire at most [slack] late. *)
Class Timed (clock : W -> Z) (slack : Z) : Prop := {
  timed_now w n w' : h ENow w = (n, w') -> n = clock w /\ clock w' = clock w;
  timed_random w k w' : h ERandom w = (k, w') -> clock w' = clock w;
  timed_recv d w a w' :
    h (ETimeoutRecv d) w = (a, w') -> (clock w <= clock w' <= Z.max (clock w) d + slack)%Z;
}.

(** Each installation begins at most [bound] after the previous one ended. *)
Fixpoint prompt (clock : W -> Z) (bound : Z) (w : W) (l : list install) : Prop :=
  match l with
  | [] => True
  | i :: l => (clock (i_before i) <= clock w + bound)%Z /\ prompt clock bound (i_after i) l
  end.

Lemma awaited_deadline clock slack `{!Timed clock slack} self w i :
  (0 <= erase_after self)%Z ->
  awaited self w i -> (clock (i_before i) <= clock w + (erase_after self + slack))%Z.
Proof.
  intros Hpos [now w0 Hnow _ Hc Hcaused _]. apply timed_now in Hnow as [-> Hw0].
  unfold caused in Hcaused. destruct (i_cause i); [done| | |].
  - apply timed_recv in Hcaused. lia.
  - destruct Hcaused as (w1 & Hr%timed_recv & Hk%timed_random & _). lia.
  - destruct Hcaused as (w1 & Hr%timed_recv & Hk%timed_random & _). lia.
Qed.

Lemma history_prompt clock slack `{!Timed clock slack} self n w l o w' :
  (0 <= erase_after self)%Z -> history self n w l o w' -> prompt clock (erase_after self + slack) w l.
Proof. intros Hpos. induction 1; simpl; eauto using awaited_deadline. Qed.

(** C10. The switch is never late: in any run of the worker's event loop, the first
    installation is the start-up erasure and begins at once, and at most
    [erase_after] and the lateness of the timer pass between the end of one
    installation and the beginning of the next. *)
Theorem worker_deadline clock slack `{!Timed clock slack} self fuel w o w' :
  (0 <= erase_after self)%Z -> interp h (worker_event_loop fuel self) w = (o, w') ->
  exists i l, lifetime self fuel w (i :: l) o w' /\
    i_reason i = Stale /\ clock (i_before i) = clock w /\
    prompt clock (erase_after self + slack) (i_after i) l.
Proof.
  intros Hpos (l & Hl)%worker_lifetime.
  assert (Hi : exists i l', l = i :: l' /\ i_reason i = Stale /\ clock (i_before i) = clock w /\
    prompt clock (erase_after self + slack) (i_after i) l').
  { destruct Hl as [i l o w' Hs Hc _ _ Hh|i Hs Hc _ _]; unfold caused in Hc; rewrite Hs in Hc;
      destruct Hc as [Hk%timed_random Hr]; eexists i, _; (split; [done|]; split; [done|]; split; [done|]).
    - by eapply history_prompt.
    - done. }
  destruct Hi as (i & l' & -> & Hr & Hc & Hp). by exists i, l'.
Qed.

(** A failure ends a history, with itself as the outcome. *)
Lemma history_failure self n w l o w' i :
  history self n w l o w' -> i ∈ l -> is_ok (i_result i) = false ->
  last l = Some i /\ o = omap (fun _ => Break tt) (i_result i) /\ w' = i_after i.
Proof.
  intros Hh. induction Hh as [|n w j l o w' Hj Hc Hr Hh IH|n w j Hj Hc Hr|n w j Hj Hr|]; intros Hi Hf.
  - by apply not_elem_of_nil in Hi.
  - apply elem_of_cons in Hi as [->|Hi]; [by rewrite Hr in Hf|].
    destruct (IH Hi Hf) as (Hl & ? & ?). split; [|done]. by rewrite last_cons, Hl.
  - apply list_elem_of_singleton in Hi as ->. by rewrite Hr in Hf.
  - by apply list_elem_of_singleton in Hi as ->.
  - by apply not_elem_of_nil in Hi.
Qed.

(** C36. A handler that fails ends the worker: in any run of the event loop, the
    first installation that fails - the erasure at start-up included - is the
    last thing that happens, nothing is installed or erased after it, and its
    failure is what the loop returns. *)
Theorem worker_failure_is_final self fuel w o w' :
  interp h (worker_event_loop fuel self) w = (o, w') ->
  exists l, lifetime self fuel w l o w' /\
    forall i, i ∈ l -> is_ok (i_result i) = false ->
      last l = Some i /\ o = omap (fun _ => Break tt) (i_result i) /\ w' = i_after i.
Proof.
  intros (l & Hl)%worker_lifetime. exists l. split; [done|]. intros j Hj Hf.
  destruct Hl as [i l o w' Hs Hc Hi Hr Hh|i Hs Hc Hi Hr].
  - apply elem_of_cons in Hj as [->|Hj]; [by rewrite Hr in Hf|].
    destruct (history_failure _ _ _ _ _ _ _ Hh Hj Hf) as (Hlast & ? & ?). by rewrite last_cons, Hlast.
  - by apply list_elem_of_singleton in Hj as ->.
Qed.
End Worker.

(** ** A simulated host: a clock, a mailbox with arrival times, a disk *)
Record sim : Type := mkSim {
  clk : Z;
  inbox : list (Z * option DeadmanRequest);   (* [None]: every sender is gone *)
  rng : Z;
  disk : host;
  disk_full : bool;
}.

Definition sim_key (n : Z) : Key := array_overwrite (new_zeroed 32) [byte_of_Z n].

Definition sim_recv (deadline : Z) (w : sim) : option (option DeadmanRequest) * sim :=
  match inbox w with
  | (t, r) :: rest =>
      if bool_decide (t <= deadline)%Z
      then (Some r, mkSim (Z.max (clk w) t) rest (rng w) (disk w) (disk_full w))
      else (None, mkSim (Z.max (clk w) deadline) (inbox w) (rng w) (disk w) (disk_full w))
  | [] => (None, mkSim (Z.max (clk w) deadline) [] (rng w) (disk w) (disk_full w))
  end.

Definition sim_handler : handler sim := fun e w =>
  match e return answer e * sim with
  | ENow => (clk w, w)
  | ERandom => (sim_key (rng w), mkSim (clk w) (inbox w) (rng w + 1) (disk w) (disk_full w))
  | ETimeoutRecv d => sim_recv d w
  | EFileCreate p =>
      if disk_full w then (Err (EIo (OtherKind 28)), w)
      else let '(a, d) := host_handler (EFileCreate p) (disk w) in
           (a, mkSim (clk w) (inbox w) (rng w) d (disk_full w))
  | e => let '(a, d) := host_handler e (disk w) in
         (a, mkSim (clk w) (inbox w) (rng w) d (disk_full w))
  end.

#[export] Instance sim_timed : Timed sim_handler clk 0.
Proof.
  split; simpl.
  - intros; by simplify_eq.
  - intros; by simplify_eq.
  - intros d w a w'. unfold sim_recv. destruct (inbox w) as [|[t r] rest];
      [|case_bool_decide]; intros; simplify_eq; simpl; lia.
Qed.

(** ** Witnesses *)
From S2P Require Import RefInstances.

Definition demo_worker : @DeadmanWorker OutfileOskHandler := mkWorker (mkOutfile "/tmp/osk") 150.

Definition demo_sim (full : bool) : sim :=
  mkSim 0 [(10, Some (SetOsk (sim_key 77) Fresh)); (400, None)]%Z 1 (mkHost ∅ []) full.

Definition demo_run : outcome (control unit unit) * sim :=
  interp sim_handler (worker_event_loop 1000000 4 demo_worker) (demo_sim false).

Lemma worker_refines_lifetime_witness :
  demo_run.1 = Ok (Break tt) /\
  exists l, lifetime 1000000 sim_handler demo_worker 4 (demo_sim false) l demo_run.1 demo_run.2.
Proof.
  split; [vm_compute; reflexivity|].
  apply (worker_refines_lifetime 1000000 sim_handler demo_worker 4 (demo_sim false)).
  vm_compute. reflexivity.
Defined.

Lemma worker_erases_witness : exists j,
  i_reason j = Stale /\ i_after j = demo_run.2 /\ length (stdout (disk demo_run.2)) = 5.
Proof.
  destruct (worker_erases 1000000 sim_handler demo_worker 4 (demo_sim false) (Ok (Break tt)) demo_run.2)
    as (i & l & _ & _ & _ & _ & j & _ & Hj & Ha); [vm_compute; reflexivity|].
  exists j. split; [exact Hj|]. split; [exact Ha|]. vm_compute. reflexivity.
Defined.

Lemma worker_deadline_witness : exists i l,
  i_reason i = Stale /\ clk (i_before i) = 0%Z /\ prompt clk (150 + 0) (i_after i) l.
Proof.
  destruct (worker_deadline 1000000 sim_handler clk 0 demo_worker 4 (demo_sim false) demo_run.1 demo_run.2)
    as (i & l & _ & Hr & Hc & Hp); [done|vm_compute; reflexivity|].
  exists i, l. split; [exact Hr|]. split; [exact Hc|exact Hp].
Defined.

(** The disk is full: the erasure at start-up fails, and nothing follows. *)
Lemma worker_failure_is_final_witness : exists l,
  lifetime 1000000 sim_handler demo_worker 4 (demo_sim true) l
    (interp sim_handler (worker_event_loop 1000000 4 demo_worker) (demo_sim true)).1
    (interp sim_handler (worker_event_loop 1000000 4 demo_worker) (demo_sim true)).2 /\
  forall i, i ∈ l -> is_ok (i_result i) = false -> last l = Some i.
Proof.
  destruct (worker_failure_is_final 1000000 sim_handler demo_worker 4 (demo_sim true)
    (interp sim_handler (worker_event_loop 1000000 4 demo_worker) (demo_sim true)).1
    (interp sim_handler (worker_event_loop 1000000 4 demo_worker) (demo_sim true)).2) as (l & Hl & Hf).
  - apply surjective_pairing.
  - exists l. split; [exact Hl|]. intros i Hi Hr. exact (proj1 (Hf i Hi Hr)).
Defined.
