(* ===== verification/Duplex.v ===== *)
(** * Two parties and a byte stream between them

    A TCP connection with a task at each end.  The tasks are arbitrary
    procedures, stepped one operation at a time in any interleaving; what one
    writes the other reads, in order, but a write may fail having delivered
    any part of its data, a read may fail, and a task may stop at any point.

    The analysis is by traces: whatever the interleaving, each task has
    performed a partial trace of its procedure ([partial]), and what a task has
    consumed is a prefix of what the other has delivered
    ([duplex_wires]). *)

From S2P Require Import Prelude Types Effects.

(** ** Partial traces *)

(** [tr] is what a run of [p] may have done so far. *)
Fixpoint partial {A} (p : proc A) (tr : list event) {struct tr} : Prop :=
  match tr with
  | [] => True
  | ev :: tr =>
      match p with
      | Ret _ => False
      | Vis e k => exists a, ev = Ev e a /\ partial (k a) tr
      end
  end.

Lemma runs_partial {A} (p : proc A) tr o : runs p tr o -> partial p tr.
Proof.
  revert tr. induction p as [o'|e k IH]; intros tr; simpl; [by intros [-> _]|].
  intros (a & t & -> & Hr). simpl. eauto.
Qed.

Lemma partial_Ret {A} (o : outcome A) tr : partial (Ret o) tr -> tr = [].
Proof. by destruct tr. Qed.

Lemma partial_bind {A B} (p : proc A) (f : A -> proc B) tr :
  partial (pbind p f) tr ->
  partial p tr \/ exists t1 t2 a, tr = t1 ++ t2 /\ runs p t1 (Ok a) /\ partial (f a) t2.
Proof.
  revert tr. induction p as [[a|e|m]|e k IH]; intros [|ev tr]; simpl; auto; try done.
  - intros Hp. right. by exists [], (ev :: tr), a.
  - intros (a & -> & [Hp|(t1 & t2 & b & -> & Hr & Hp)]%IH).
    + left. eauto.
    + right. exists (Ev e a :: t1), t2, b. simpl. eauto 10.
Qed.

Lemma partial_context {A} m (p : proc A) tr : partial (pcontext m p) tr -> partial p tr.
Proof.
  revert tr. induction p as [o|e k IH]; intros [|ev tr]; simpl; auto.
  intros (a & -> & Hp). eauto.
Qed.

Lemma partial_try {A} (p : proc A) tr : partial (ptry p) tr -> partial p tr.
Proof.
  revert tr. induction p as [[a|e|m]|e k IH]; intros [|ev tr]; simpl; auto.
  intros (a & -> & Hp). eauto.
Qed.

(** A partial run of [loop { body?; }] is some complete turns and a partial one. *)
Lemma partial_forever n body tr :
  partial (forever n body) tr ->
  exists turns rest, tr = mjoin turns ++ rest /\
    Forall (fun t => runs body t (Ok tt)) turns /\ partial body rest.
Proof.
  unfold forever. revert tr. induction n as [|n IH]; intros tr; cbn [loop].
  - intros ->%partial_Ret. exists [], []. split; [done|]. split; [by apply Forall_nil|done].
  - intros [Hp|(t1 & t2 & c & -> & Hr & Hp)]%partial_bind.
    + apply partial_bind in Hp as [Hp|(t1 & t2 & [] & -> & Hr & ->%partial_Ret)].
      * exists [], tr. split; [done|]. split; [by apply Forall_nil|done].
      * exists [t1], []. simpl. rewrite !app_nil_r. split; [done|]. by rewrite Forall_singleton.
    + apply runs_bind_Ok in Hr as (t3 & t4 & [] & -> & Hr & [-> [= ->]]). rewrite app_nil_r.
      apply IH in Hp as (turns & rest & -> & Hall & Hp).
      exists (t3 :: turns), rest. simpl. rewrite app_assoc. split; [done|]. split; [by constructor|done].
Qed.

(** [residue p tr p']: after [tr], what is left of [p] is [p']. *)
Inductive residue {A} : proc A -> list event -> proc A -> Prop :=
  | r_nil p : residue p [] p
  | r_cons e k a tr p' : residue (k a) tr p' -> residue (Vis e k) (Ev e a :: tr) p'.

Lemma residue_snoc {A} (p : proc A) tr e k a :
  residue p tr (Vis e k) -> residue p (tr ++ [Ev e a]) (k a).
Proof.
  intros Hr. remember (Vis e k) as q eqn:Hq. induction Hr as [p|e' k' a' tr p' _ IH]; subst; simpl.
  - constructor. constructor.
  - constructor. auto.
Qed.

Lemma residue_partial {A} (p : proc A) tr p' : residue p tr p' -> partial p tr.
Proof. induction 1; simpl; eauto. Qed.

(** What is left of a procedure performs what the procedure may. *)
Lemma residue_performs {A} P (p : proc A) tr p' : residue p tr p' -> performs P p -> performs P p'.
Proof. induction 1; simpl; [done|]. intros [_ Hk]. auto. Qed.

Lemma residue_app {A} (p : proc A) t1 t2 p' :
  residue p (t1 ++ t2) p' -> exists q, residue p t1 q /\ residue q t2 p'.
Proof.
  revert p. induction t1 as [|ev t1 IH]; intros p Hr; [exists p; split; [constructor|done]|].
  simpl in Hr. remember (ev :: t1 ++ t2) as l eqn:Hl. destruct Hr as [|e k a tr p' Hr]; [done|].
  injection Hl as <- ->. apply IH in Hr as (q & H1 & H2). exists q. split; [by constructor|done].
Qed.

(** Running the head of a sequence leaves its continuation. *)
Lemma residue_bind {A B} (p : proc A) (f : A -> proc B) tr a :
  runs p tr (Ok a) -> residue (pbind p f) tr (f a).
Proof.
  revert tr. induction p as [o|e k IH]; intros tr; simpl.
  - intros [-> <-]. constructor.
  - intros (b & t & -> & Hr). constructor. by apply IH.
Qed.

Lemma residue_under_bind {A B} (p p' : proc A) (f : A -> proc B) tr :
  residue p tr p' -> residue (pbind p f) tr (pbind p' f).
Proof. induction 1; simpl; by constructor. Qed.

Lemma residue_under_try {A} (p p' : proc A) tr : residue p tr p' -> residue (ptry p) tr (ptry p').
Proof. induction 1; simpl; by constructor. Qed.

Lemma residue_forever n body tr :
  runs body tr (Ok tt) -> residue (forever (S n) body) tr (forever n body).
Proof.
  intros Hr. unfold forever. cbn [loop].
  assert (Hb : runs (body ;;; pure (@Continue unit Empty_set tt)) tr (Ok (Continue tt))).
  { apply runs_bind. left. exists tr, [], tt. by rewrite app_nil_r. }
  exact (residue_bind _ _ _ _ Hb).
Qed.

(** ** What a trace does to the wires *)

(** [puts ev out]: the operation [ev] put [out] on the wire; a write that
    reports an error delivered some part of its data. *)
Definition puts (ev : event) : bytes -> Prop :=
  match ev with
  | Ev e a => match e return answer e -> bytes -> Prop with
              | EWriteAll data => fun r out => if is_ok r then out = data else out `prefix_of` data
              | _ => fun _ out => out = []
              end a
  end.

(** [takes ev inp]: it took [inp] off the wire; a read that reports an error
    took any number of bytes. *)
Definition takes (ev : event) : bytes -> Prop :=
  match ev with
  | Ev e a => match e return answer e -> bytes -> Prop with
              | EReadExact n => fun r inp => match r with Ok b => inp = as_bytes b | _ => True end
              | _ => fun _ inp => inp = []
              end a
  end.

(** Along a trace, the bytes of its operations follow each other. *)
Fixpoint along (R : event -> bytes -> Prop) (tr : list event) (l : bytes) : Prop :=
  match tr with
  | [] => l = []
  | ev :: tr => exists l1 l2, l = l1 ++ l2 /\ R ev l1 /\ along R tr l2
  end.

Abbreviation delivers := (along puts).
Abbreviation consumes := (along takes).

Lemma along_app R t1 t2 l :
  along R (t1 ++ t2) l <-> exists l1 l2, l = l1 ++ l2 /\ along R t1 l1 /\ along R t2 l2.
Proof.
  revert l. induction t1 as [|ev t1 IH]; intros l; simpl.
  - split; [intros H; by exists [], l|]. by intros (? & ? & -> & -> & ?).
  - setoid_rewrite IH. split.
    + intros (l1 & l2 & -> & Hev & l3 & l4 & -> & H1 & H2).
      exists (l1 ++ l3), l4. rewrite app_assoc. eauto 10.
    + intros (l1 & l2 & -> & (l3 & l4 & -> & Hev & H1) & H2).
      exists l3, (l4 ++ l2). rewrite app_assoc. eauto 10.
Qed.

Lemma along_one R ev l : R ev l -> along R [ev] l.
Proof. intros HR. exists l, []. by rewrite app_nil_r. Qed.

Lemma along_quiet R ev tr l : R ev [] -> along R tr l -> along R (ev :: tr) l.
Proof. intros H1 H2. by exists [], l. Qed.

Lemma along_then_quiet R ev tr l : R ev l -> along R tr [] -> along R (ev :: tr) l.
Proof. intros H1 H2. exists l, []. by rewrite app_nil_r. Qed.

Lemma along_snoc R tr ev l1 l2 : along R tr l1 -> R ev l2 -> along R (tr ++ [ev]) (l1 ++ l2).
Proof. intros H1 H2. apply along_app. exists l1, l2. eauto using along_one. Qed.

(** ** The system *)
Section System.
Context {A B : Type}.

(** The answers HTTP requests may get, over the whole lifetime of the system. *)
Context (http : string -> outcome http_response -> Prop).

(** [task_step p inp ev p' inp' out]: the task [p] performs [ev] with [inp]
    on its incoming wire, and puts [out] on its outgoing one. *)
Inductive task_step {T} : proc T -> bytes -> event -> proc T -> bytes -> bytes -> Prop :=
  | ts_write data k inp :
      task_step (Vis (EWriteAll data) k) inp (Ev (EWriteAll data) (Ok tt)) (k (Ok tt)) inp data
  | ts_write_failed data k inp part e :
      part `prefix_of` data ->
      task_step (Vis (EWriteAll data) k) inp (Ev (EWriteAll data) (Err e)) (k (Err e)) inp part
  | ts_read n k (b : array n) inp :
      task_step (Vis (EReadExact n) k) (as_bytes b ++ inp) (Ev (EReadExact n) (Ok b)) (k (Ok b)) inp []
  | ts_read_failed n k lost inp e :
      task_step (Vis (EReadExact n) k) (lost ++ inp) (Ev (EReadExact n) (Err e)) (k (Err e)) inp []
  | ts_http uri k inp r :
      http uri r ->
      task_step (Vis (EHttpGet uri) k) inp (Ev (EHttpGet uri) r) (k r) inp []
  | ts_other e k inp a :
      (forall data, e <> EWriteAll data) -> (forall n, e <> EReadExact n) -> (forall uri, e <> EHttpGet uri) ->
      task_step (Vis e k) inp (Ev e a) (k a) inp [].

(** The rest of each task, what it did, and the bytes in flight. *)
Record duplex : Type := mkDuplex {
  left : proc A; left_trace : list event;
  right : proc B; right_trace : list event;
  to_right : bytes; to_left : bytes;
}.

Inductive duplex_step : duplex -> duplex -> Prop :=
  | step_left p tl q tr l2r r2l ev p' r2l' out :
      task_step p r2l ev p' r2l' out ->
      duplex_step (mkDuplex p tl q tr l2r r2l) (mkDuplex p' (tl ++ [ev]) q tr (l2r ++ out) r2l')
  | step_right p tl q tr l2r r2l ev q' l2r' out :
      task_step q l2r ev q' l2r' out ->
      duplex_step (mkDuplex p tl q tr l2r r2l) (mkDuplex p tl q' (tr ++ [ev]) l2r' (r2l ++ out)).

Definition duplex_init (p : proc A) (q : proc B) : duplex := mkDuplex p [] q [] [] [].

(** Requests are answered as the environment allows. *)
Definition http_ok (ev : event) : Prop :=
  match ev with
  | Ev e a => match e return answer e -> Prop with
              | EHttpGet uri => fun r => http uri r
              | _ => fun _ => True
              end a
  end.

(** Where one task stands. *)
Record task_wf {T} (p0 p : proc T) (tr : list event) (sent taken : bytes) : Prop := {
  tw_residue : residue p0 tr p;
  tw_delivers : delivers tr sent;
  tw_consumes : consumes tr taken;
  tw_http : Forall http_ok tr;
}.

Lemma task_step_wf {T} (p0 p : proc T) tr sent taken inp ev p' inp' out :
  task_wf p0 p tr sent taken -> task_step p inp ev p' inp' out ->
  exists took, inp = took ++ inp' /\ task_wf p0 p' (tr ++ [ev]) (sent ++ out) (taken ++ took).
Proof.
  intros [Hr Hd Hc Hh] Hs.
  assert (Hone : exists took, inp = took ++ inp' /\ puts ev out /\ takes ev took /\
                   http_ok ev /\ exists e k a, p = Vis e k /\ ev = Ev e a /\ p' = k a).
  { destruct Hs as [data k inp|data k inp part e Hp|n k b inp|n k lost inp e|uri k inp r Hu|e k inp a H1 H2 H3].
    - exists []. repeat split; eauto 10.
    - exists []. repeat split; eauto 10.
    - exists (as_bytes b). repeat split; eauto 10.
    - exists lost. repeat split; eauto 10.
    - exists []. repeat split; eauto 10.
    - exists []. split; [done|].
      assert (puts (Ev e a) [] /\ takes (Ev e a) [] /\ http_ok (Ev e a)) as (? & ? & ?); [|eauto 12].
      destruct e; try done; [by destruct (H3 uri)|by destruct (H1 data)|by destruct (H2 n)]. }
  destruct Hone as (took & -> & Hd1 & Hc1 & Hh1 & e & k & a & -> & -> & ->).
  exists took. split; [done|]. split.
  - by apply residue_snoc.
  - by apply along_snoc.
  - by apply along_snoc.
  - apply Forall_app. split; [done|]. by constructor.
Qed.

(** Each task performed a partial trace, and the wires lose and reorder nothing. *)
Definition duplex_inv (p0 : proc A) (q0 : proc B) (s : duplex) : Prop :=
  exists sentl takenl sentr takenr,
    task_wf p0 (left s) (left_trace s) sentl takenl /\
    task_wf q0 (right s) (right_trace s) sentr takenr /\
    sentl = takenr ++ to_right s /\ sentr = takenl ++ to_left s.

Lemma duplex_wires p0 q0 s :
  reachable (fun s => s = duplex_init p0 q0) duplex_step s -> duplex_inv p0 q0 s.
Proof.
  apply reachable_invariant.
  - intros s' ->. exists [], [], [], []. repeat split; repeat constructor.
  - intros s1 s2 (sl & tl & sr & tkr & Hl & Hr & -> & ->) Hs.
    destruct Hs as [p trl q trr l2r r2l ev p' r2l' out Hs|p trl q trr l2r r2l ev q' l2r' out Hs];
      simpl in *.
    + destruct (task_step_wf _ _ _ _ _ _ _ _ _ _ Hl Hs) as (took & -> & Hl').
      exists ((tkr ++ l2r) ++ out), (tl ++ took), (tl ++ took ++ r2l'), tkr. simpl.
      split; [done|]. split; [done|]. by rewrite !app_assoc.
    + destruct (task_step_wf _ _ _ _ _ _ _ _ _ _ Hr Hs) as (took & -> & Hr').
      exists (tkr ++ took ++ l2r'), tl, ((tl ++ r2l) ++ out), (tkr ++ took). simpl.
      split; [done|]. split; [done|]. by rewrite !app_assoc.
Qed.

(** Operations that succeed, if they can fail at all. *)
Definition no_fault (ev : event) : Prop :=
  match ev with
  | Ev e a => match e return answer e -> Prop with
              | EWriteAll _ => fun r => r = Ok tt
              | EReadExact _ => fun r => is_ok r = true
              | _ => fun _ => True
              end a
  end.

Lemma task_step_event {T} e (k : answer e -> proc T) a inp1 inp out :
  takes (Ev e a) inp1 -> puts (Ev e a) out -> http_ok (Ev e a) -> no_fault (Ev e a) ->
  task_step (Vis e k) (inp1 ++ inp) (Ev e a) (k a) inp out.
Proof.
  destruct e; simpl; intros Ht Hp Hh Hn; subst; try (by apply ts_other).
  - by constructor.
  - rewrite Hp. constructor.
  - destruct a as [b|e|m]; [|done..]. subst. constructor.
Qed.

(** One side runs undisturbed along a trace. *)
Lemma left_runs p tr p' :
  residue p tr p' -> forall inp out tl (q : proc B) trr l2r r2l,
  consumes tr inp -> delivers tr out -> Forall http_ok tr -> Forall no_fault tr ->
  rtc duplex_step (mkDuplex p tl q trr l2r (inp ++ r2l)) (mkDuplex p' (tl ++ tr) q trr (l2r ++ out) r2l).
Proof.
  induction 1 as [p|e k a tr p' _ IH]; intros inp out tl q trr l2r r2l Hc Hd Hh Hn.
  - simpl in Hc, Hd. subst. rewrite !app_nil_r. reflexivity.
  - destruct Hc as (i1 & i2 & -> & Hc1 & Hc2). destruct Hd as (o1 & o2 & -> & Hd1 & Hd2).
    apply Forall_cons in Hh as [Hh1 Hh2]. apply Forall_cons in Hn as [Hn1 Hn2].
    eapply rtc_l.
    + apply step_left. rewrite <- app_assoc. by apply task_step_event.
    + rewrite (cons_middle (Ev e a) tl tr), !app_assoc. by apply IH.
Qed.

Lemma right_runs q tr q' :
  residue q tr q' -> forall inp out trr (p : proc A) tl l2r r2l,
  consumes tr inp -> delivers tr out -> Forall http_ok tr -> Forall no_fault tr ->
  rtc duplex_step (mkDuplex p tl q trr (inp ++ l2r) r2l) (mkDuplex p tl q' (trr ++ tr) l2r (r2l ++ out)).
Proof.
  induction 1 as [q|e k a tr q' _ IH]; intros inp out trr p tl l2r r2l Hc Hd Hh Hn.
  - simpl in Hc, Hd. subst. rewrite !app_nil_r. reflexivity.
  - destruct Hc as (i1 & i2 & -> & Hc1 & Hc2). destruct Hd as (o1 & o2 & -> & Hd1 & Hd2).
    apply Forall_cons in Hh as [Hh1 Hh2]. apply Forall_cons in Hn as [Hn1 Hn2].
    eapply rtc_l.
    + apply step_right. rewrite <- app_assoc. by apply task_step_event.
    + rewrite (cons_middle (Ev e a) trr tr), !app_assoc. by apply IH.
Qed.
End System.
