(* ===== verification/Protocol.v ===== *)
(** * The rekeying protocol ([daisyway/src/internal/daisyway/crypto/server.rs],
    [client.rs])

    The server fetches a fresh QKD key, announces its identifier with a nonce,
    waits for the one-byte acknowledgement and installs the derived key; the
    client answers such announcements. *)

From S2P Require Import Prelude Types Externals RefInstances Effects Etsi014 HashDomain Crypto Osk Duplex.

Section Protocol.
Context `{Shake256Lib} `{UuidLib} `{Base64Codec} `{!ReqwestLib}.
Context {O : Type} `{OskHandler O}.

(** ** Server *)
Record DaisywayServerProtocol : Type := mkServerProtocol {
  sp_protocol_params : DaisywayProtocolParameters;
  sp_etsi_client : Etsi014Connection;
  sp_osk_handler : O;
  rekey_interval : Z;
}.

Definition negotiate_key (self : DaisywayServerProtocol) : proc Key :=
  let! key := pcontext (Msg "Failed to fetch a QKD key." [])
                (fetch_any_key (sp_etsi_client self)) in
  let! rekey_req := RekeyReq_new (uuid_as_bytes (id key)) in
  let nonce := req_nonce rekey_req in
  let! _ := pcontext (Msg "Could not send QKD key and nonce to server" [])
              (write_all (as_bytes (RekeyReq_as_bytes rekey_req))) in
  let! _ := pcontext (Msg "Failed to receive rekey acknowledgement message" [])
              (let! ack := read_exact 1 in
               Ret (RekeyAck_validate (RekeyAck_from_bytes ack))) in
  pure (derive_daisyway_key (sp_protocol_params self) nonce key).

(** The body of the server's [loop]. *)
Definition server_turn (self : DaisywayServerProtocol) : proc unit :=
  let! key := negotiate_key self in
  let! _ := set_fresh_osk (sp_osk_handler self) key in
  sleep (rekey_interval self).

Definition server_event_loop (fuel : nat) (self : DaisywayServerProtocol) : proc (control unit Empty_set) :=
  forever fuel (server_turn self).

(** ** Client *)
Record DaisywayClientProtocol : Type := mkClientProtocol {
  cp_protocol_params : DaisywayProtocolParameters;
  cp_etsi_client : Etsi014Connection;
  cp_osk_handler : O;
}.

Definition wait_for_key_negotiation (self : DaisywayClientProtocol) : proc Key :=
  let! buf := pcontext (Msg "Failed to read rekey request message" []) (read_exact (16 + 32)) in
  let rekey_req := RekeyReq_from_bytes buf in
  let nonce := req_nonce rekey_req in
  let! key := pcontext (Msg "Failed to fetch key from QKD device" [])
                (fetch_specific_key (cp_etsi_client self) (uuid_from_bytes (qkd_key_id rekey_req))) in
  let! _ := pcontext (Msg "Failed to send rekey acknowledgement message" [])
              (write_all (as_bytes (RekeyAck_as_bytes REKEY_ACK))) in
  pure (derive_daisyway_key (cp_protocol_params self) nonce key).

(** The body of the client's [loop]. *)
Definition client_turn (self : DaisywayClientProtocol) : proc unit :=
  let! key := wait_for_key_negotiation self in
  set_fresh_osk (cp_osk_handler self) key.

Definition client_event_loop (fuel : nat) (self : DaisywayClientProtocol) : proc (control unit Empty_set) :=
  forever fuel (client_turn self).

(** ** One negotiation, in any environment *)
Lemma runs_fetch_in_context m m' uri tr qk :
  runs (pcontext m (pcontext m' (fetch_key_internal uri))) tr (Ok qk) <->
  exists a, tr = [Ev (EHttpGet uri) a] /\ obind a (decode_response uri) = Ok qk.
Proof.
  rewrite runs_context. setoid_rewrite runs_fetch. split.
  - intros (o & (a & -> & ->) & Ho). exists a. split; [done|].
    symmetry in Ho. by apply ocontext_Ok_iff, ocontext_Ok_iff in Ho.
  - intros (a & -> & Ha). exists (Ok qk). split; [|done]. exists a. by rewrite Ha.
Qed.

(** [a] is a key manager's answer to [uri] that the program accepts as [qk]. *)
Definition fetched (uri : string) (a : outcome http_response) (qk : Etsi014Key) : Prop :=
  obind a (decode_response uri) = Ok qk.

(** The request a server sends. *)
Definition request (nonce : Nonce) (qk : Etsi014Key) : array (16 + 32) :=
  RekeyReq_as_bytes (mkRekeyReq (uuid_as_bytes (id qk)) nonce).

(** What a server does in a successful exchange. *)
Definition server_exchange (self : DaisywayServerProtocol) a qk nonce : list event :=
  [Ev (EHttpGet (any_key_uri (sp_etsi_client self))) a;
   Ev ERandom nonce;
   Ev (EWriteAll (as_bytes (request nonce qk))) (Ok tt);
   Ev (EReadExact 1) (Ok (RekeyAck_as_bytes REKEY_ACK))].

(** What a client does in a successful exchange. *)
Definition client_uri (self : DaisywayClientProtocol) (buf : array (16 + 32)) : string :=
  specific_key_uri (cp_etsi_client self) (uuid_from_bytes (qkd_key_id (RekeyReq_from_bytes buf))).

Definition client_exchange (self : DaisywayClientProtocol) buf a : list event :=
  [Ev (EReadExact 48) (Ok buf);
   Ev (EHttpGet (client_uri self buf)) a;
   Ev (EWriteAll (as_bytes (RekeyAck_as_bytes REKEY_ACK))) (Ok tt)].

Definition server_key (self : DaisywayServerProtocol) qk nonce : Key :=
  derive_daisyway_key (sp_protocol_params self) nonce qk.
Definition client_key (self : DaisywayClientProtocol) buf qk : Key :=
  derive_daisyway_key (cp_protocol_params self) (req_nonce (RekeyReq_from_bytes buf)) qk.

Lemma ack_valid (b : array 1) :
  RekeyAck_validate (RekeyAck_from_bytes b) = Ok tt -> b = RekeyAck_as_bytes REKEY_ACK.
Proof.
  unfold RekeyAck_validate. case_decide as Hd; [|done]. intros _. apply array_ext.
  pose proof (array_length b). destruct (as_bytes b) as [|x [|]] eqn:Hb; try done.
  unfold RekeyAck_from_bytes in Hd. rewrite Hb in Hd. unfold REKEY_ACK in Hd. simpl in Hd.
  by simplify_eq.
Qed.

Lemma runs_negotiate self tr k :
  runs (negotiate_key self) tr (Ok k) <->
  exists a qk nonce, tr = server_exchange self a qk nonce /\
    fetched (any_key_uri (sp_etsi_client self)) a qk /\ k = server_key self qk nonce.
Proof.
  unfold negotiate_key, fetch_any_key. split.
  - intros (tr1 & tr2 & qk & -> & Hf & Hr)%runs_bind_Ok.
    apply runs_fetch_in_context in Hf as (a & -> & Ha).
    destruct Hr as (nonce & tr3 & -> & Hr). exists a, qk, nonce.
    destruct Hr as ([[]|e|m] & tr4 & -> & Hr); [|by destruct Hr..].
    destruct Hr as ([b|e|m] & tr5 & -> & Hr); [|by destruct Hr..].
    simpl in Hr.
    destruct (RekeyAck_validate _) as [[]|e|m] eqn:Hv; [|by destruct Hr..].
    apply ack_valid in Hv as ->. simpl in Hr. by destruct Hr as [-> [= ->]].
  - intros (a & qk & nonce & -> & Ha & ->). apply runs_bind. left.
    exists [Ev (EHttpGet (any_key_uri (sp_etsi_client self))) a]. eexists _, qk. split; [done|].
    split; [apply runs_fetch_in_context; eauto|].
    do 2 eexists. split; [done|]. do 2 eexists. split; [done|].
    do 2 eexists. split; [done|]. done.
Qed.

Lemma runs_wait self tr k :
  runs (wait_for_key_negotiation self) tr (Ok k) <->
  exists buf a qk, tr = client_exchange self buf a /\
    fetched (client_uri self buf) a qk /\ k = client_key self buf qk.
Proof.
  unfold wait_for_key_negotiation, fetch_specific_key. split.
  - intros ([buf|e|m] & tr1 & -> & Hr); [|by destruct Hr..].
    exists buf. cbn [pcontext pbind read_exact ocontext] in Hr.
    apply runs_bind_Ok in Hr as (tr2 & tr3 & qk & -> & Hf & Hr).
    apply runs_fetch_in_context in Hf as (a & -> & Ha). exists a, qk.
    destruct Hr as ([[]|e|m] & tr4 & -> & Hr); [|by destruct Hr..].
    by destruct Hr as [-> [= ->]].
  - intros (buf & a & qk & -> & Ha & ->). exists (Ok buf). eexists. split; [done|].
    cbn [pcontext pbind read_exact ocontext]. apply runs_bind. left.
    eexists [_], _, qk. split; [done|]. split; [apply runs_fetch_in_context; eauto|].
    do 2 eexists. split; [done|]. done.
Qed.

(** Complete turns of the two loops. *)
Lemma runs_server_turn self tr :
  runs (server_turn self) tr (Ok tt) <->
  exists a qk nonce t, tr = server_exchange self a qk nonce ++ t ++ [Ev (ESleep (rekey_interval self)) tt] /\
    fetched (any_key_uri (sp_etsi_client self)) a qk /\
    runs (set_fresh_osk (sp_osk_handler self) (server_key self qk nonce)) t (Ok tt).
Proof.
  unfold server_turn. split.
  - intros (t1 & t2 & k & -> & (a & qk & nonce & -> & Hf & ->)%runs_negotiate & Hr)%runs_bind_Ok.
    apply runs_bind_Ok in Hr as (t3 & t4 & [] & -> & Hset & Hr).
    destruct Hr as ([] & t5 & -> & -> & _). eauto 10.
  - intros (a & qk & nonce & t & -> & Hf & Hset). apply runs_bind. left.
    eexists _, _, _. split; [done|]. split; [apply runs_negotiate; eauto 10|].
    apply runs_bind. left. eexists _, _, _. split; [done|]. split; [done|]. by exists tt, [].
Qed.

Lemma runs_client_turn self tr :
  runs (client_turn self) tr (Ok tt) <->
  exists buf a qk t, tr = client_exchange self buf a ++ t /\ fetched (client_uri self buf) a qk /\
    runs (set_fresh_osk (cp_osk_handler self) (client_key self buf qk)) t (Ok tt).
Proof.
  unfold client_turn. split.
  - intros (t1 & t2 & k & -> & (buf & a & qk & -> & Hf & ->)%runs_wait & Hr)%runs_bind_Ok.
    eauto 10.
  - intros (buf & a & qk & t & -> & Hf & Hset). apply runs_bind. left.
    eexists _, _, _. split; [done|]. split; [apply runs_wait; eauto 10|done].
Qed.

(** How far a turn of the server may have come. *)
Inductive server_progress (self : DaisywayServerProtocol) : list event -> Prop :=
  | sp_idle : server_progress self []
  | sp_fetching a : server_progress self [Ev (EHttpGet (any_key_uri (sp_etsi_client self))) a]
  | sp_requesting a qk nonce :
      fetched (any_key_uri (sp_etsi_client self)) a qk ->
      server_progress self (take 2 (server_exchange self a qk nonce))
  | sp_requested a qk nonce w :
      fetched (any_key_uri (sp_etsi_client self)) a qk ->
      server_progress self (take 2 (server_exchange self a qk nonce) ++
        [Ev (EWriteAll (as_bytes (request nonce qk))) w])
  | sp_answered a qk nonce r :
      fetched (any_key_uri (sp_etsi_client self)) a qk ->
      server_progress self (take 3 (server_exchange self a qk nonce) ++ [Ev (EReadExact 1) r])
  | sp_installing a qk nonce t rest :
      fetched (any_key_uri (sp_etsi_client self)) a qk ->
      partial (set_fresh_osk (sp_osk_handler self) (server_key self qk nonce)) t ->
      rest = [] \/ rest = [Ev (ESleep (rekey_interval self)) tt] ->
      server_progress self (server_exchange self a qk nonce ++ t ++ rest).

Lemma partial_fetch m m' uri tr :
  partial (pcontext m (pcontext m' (fetch_key_internal uri))) tr ->
  tr = [] \/ exists a, tr = [Ev (EHttpGet uri) a].
Proof.
  intros Hp. do 2 apply partial_context in Hp. destruct tr as [|ev tr]; [auto|]. right.
  destruct Hp as (a & -> & Hp). exists a. destruct a as [r|e|m'']; simpl in Hp.
  - destruct (negb _); by apply partial_Ret in Hp as ->.
  - by apply partial_Ret in Hp as ->.
  - by apply partial_Ret in Hp as ->.
Qed.

Lemma partial_negotiate self tr :
  partial (negotiate_key self) tr ->
  server_progress self tr.
Proof.
  unfold negotiate_key, fetch_any_key. intros [Hp|(t1 & t2 & qk & -> & Hf & Hp)]%partial_bind.
  - apply partial_fetch in Hp as [->|[a ->]]; constructor.
  - apply runs_fetch_in_context in Hf as (a & -> & Ha).
    destruct t2 as [|ev t2]; [constructor|]. destruct Hp as (nonce & -> & Hp).
    destruct t2 as [|ev t2]; [by apply (sp_requesting self a qk nonce)|]. destruct Hp as (w & -> & Hp).
    destruct t2 as [|ev t2]; [by apply (sp_requested self a qk nonce w)|].
    destruct w as [[]|e|m]; [|done..]. destruct Hp as (r & -> & Hp).
    assert (t2 = []) as ->.
    { destruct r as [b|e|m]; simpl in Hp; [|by apply partial_Ret in Hp..].
      destruct (RekeyAck_validate _) as [[]|e|m]; by apply partial_Ret in Hp. }
    by apply (sp_answered self a qk nonce r).
Qed.

Lemma partial_server_turn self tr : partial (server_turn self) tr -> server_progress self tr.
Proof.
  unfold server_turn. intros [Hp|(t1 & t2 & k & -> & Hr & Hp)]%partial_bind;
    [by apply partial_negotiate|].
  apply runs_negotiate in Hr as (a & qk & nonce & -> & Hf & ->).
  apply partial_bind in Hp as [Hp|(t3 & t4 & [] & -> & Hr%runs_partial & Hp)].
  - rewrite <- (app_nil_r t2). apply sp_installing; auto.
  - apply sp_installing; [done|done|]. destruct t4 as [|ev t4]; [auto|]. right.
    destruct Hp as ([] & -> & Hp). by apply partial_Ret in Hp as ->.
Qed.

(** How far a turn of the client may have come. *)
Inductive client_progress (self : DaisywayClientProtocol) : list event -> Prop :=
  | cp_idle : client_progress self []
  | cp_reading r : client_progress self [Ev (EReadExact 48) r]
  | cp_fetching buf a : client_progress self (take 2 (client_exchange self buf a))
  | cp_answering buf a qk w :
      fetched (client_uri self buf) a qk ->
      client_progress self (take 2 (client_exchange self buf a) ++
        [Ev (EWriteAll (as_bytes (RekeyAck_as_bytes REKEY_ACK))) w])
  | cp_installing buf a qk t :
      fetched (client_uri self buf) a qk ->
      partial (set_fresh_osk (cp_osk_handler self) (client_key self buf qk)) t ->
      client_progress self (client_exchange self buf a ++ t).

Lemma partial_client_turn self tr : partial (client_turn self) tr -> client_progress self tr.
Proof.
  unfold client_turn. intros [Hp|(t1 & t2 & k & -> & Hr & Hp)]%partial_bind.
  - unfold wait_for_key_negotiation, fetch_specific_key in Hp.
    destruct tr as [|ev tr]; [constructor|]. destruct Hp as (r & -> & Hp).
    destruct r as [buf|e|m]; [|apply partial_Ret in Hp as ->; constructor..].
    cbn [pcontext pbind read_exact ocontext] in Hp.
    apply partial_bind in Hp as [Hp|(t1 & t2 & qk & -> & Hf & Hp)].
    + apply partial_fetch in Hp as [->|[a ->]]; [constructor|apply (cp_fetching self buf a)].
    + apply runs_fetch_in_context in Hf as (a & -> & Ha).
      destruct t2 as [|ev t2]; [apply (cp_fetching self buf a)|]. destruct Hp as (w & -> & Hp).
      assert (t2 = []) as -> by (destruct w as [[]|e|m]; by apply partial_Ret in Hp).
      by apply (cp_answering self buf a qk w).
  - apply runs_wait in Hr as (buf & a & qk & -> & Hf & ->). by apply (cp_installing self buf a qk).
Qed.


(** C12. The server obtains a key exactly through the whole exchange: it fetched a
    QKD key, sent its identifier with the random nonce, and read precisely the
    acknowledgement byte; the key is then the derivation of the two. *)
Theorem server_negotiation_spec self tr k :
  runs (negotiate_key self) tr (Ok k) <->
  exists a qk nonce,
    tr = [Ev (EHttpGet (any_key_uri (sp_etsi_client self))) a;
          Ev ERandom nonce;
          Ev (EWriteAll (as_bytes (RekeyReq_as_bytes (mkRekeyReq (uuid_as_bytes (id qk)) nonce)))) (Ok tt);
          Ev (EReadExact 1) (Ok (RekeyAck_as_bytes REKEY_ACK))] /\
    obind a (decode_response (any_key_uri (sp_etsi_client self))) = Ok qk /\
    k = derive_daisyway_key (sp_protocol_params self) nonce qk.
Proof. apply runs_negotiate. Qed.

(** C13. The client's counterpart: it derives from the nonce it was sent and the key
    its own key manager holds for the identifier it was sent, and it has
    acknowledged before it returns. *)
Theorem client_negotiation_spec self tr k :
  runs (wait_for_key_negotiation self) tr (Ok k) <->
  exists buf a qk,
    let req := RekeyReq_from_bytes buf in
    let uri := specific_key_uri (cp_etsi_client self) (uuid_from_bytes (qkd_key_id req)) in
    tr = [Ev (EReadExact 48) (Ok buf);
          Ev (EHttpGet uri) a;
          Ev (EWriteAll [Byte.x01]) (Ok tt)] /\
    obind a (decode_response uri) = Ok qk /\
    k = derive_daisyway_key (cp_protocol_params self) (req_nonce req) qk.
Proof. apply runs_wait. Qed.
End Protocol.
