(* ===== verification/ConnectionManager.v ===== *)
(** * The connection manager
    ([daisyway/src/internal/daisyway/net/tcp_server/connection_manager.rs])

    The server accepts any number of connections but listens to one: the first
    connection to finish a negotiation becomes active and supersedes every
    older one.  The handles kept here abort their task when dropped
    ([abort_on_drop_handle.rs]). *)

From Stdlib Require Import Sorting.Permutation.
From S2P Require Import Prelude Types Effects Osk.

Definition MAX_BUDDING_CONNECTIONS : nat := 2000.

(** ** [BTreeMap<ConnectionId, AbortOnDropHandle>] *)
Abbreviation Handle := Z (only parsing).

(** The entries in the order of their keys. *)
Definition key_le (a b : ConnectionId * Handle) : Prop := (a.1 <= b.1)%Z.
#[export] Instance key_le_dec a b : Decision (key_le a b).
Proof. unfold key_le. apply _. Defined.

Definition entries (m : gmap Z Z) : list (ConnectionId * Handle) :=
  merge_sort key_le (map_to_list m).

Definition pop_first (m : gmap Z Z) : option ((ConnectionId * Handle) * gmap Z Z) :=
  match entries m with
  | [] => None
  | (k, h) :: _ => Some ((k, h), delete k m)
  end.

(** [split_off]: what stays (keys below [k]) and what is returned. *)
Definition split_off (k : ConnectionId) (m : gmap Z Z) : gmap Z Z * gmap Z Z :=
  (filter (fun kv => kv.1 < k)%Z m, filter (fun kv => k <= kv.1)%Z m).

(** ** [Drop for AbortOnDropHandle] *)
Definition drop_handle (h : Handle) : proc unit := perform (EAbort h).

Definition drop_option (h : option Handle) : proc unit :=
  match h with
  | Some h => drop_handle h
  | None => pure tt
  end.

Fixpoint drop_handles (hs : list Handle) : proc unit :=
  match hs with
  | [] => pure tt
  | h :: hs => drop_handle h ;;; drop_handles hs
  end.

Definition drop_map (m : gmap Z Z) : proc unit := drop_handles (entries m).*2.

(** ** State *)
Section Manager.
Context {O : Type} `{OskHandler O} (prof : profile).

Record ConnectionManager : Type := mkManager {
  osk_handler : O;
  next_connection_id : ConnectionId;
  active_connection : option (ConnectionId * Handle);
  budding_connections : gmap Z Z;
}.

Definition manager_new (osk_handler : O) : ConnectionManager :=
  mkManager osk_handler 0 None ∅.

Definition active_connection_id (self : ConnectionManager) : option ConnectionId :=
  fst <$> active_connection self.

(** ** Handlers

    A method on [&mut self] returns its [Result] with the state it left. *)
Definition allocate_connection_id (self : ConnectionManager) : outcome (ConnectionId * ConnectionManager) :=
  let r := next_connection_id self in
  let? next := add_u64 prof r 1 in
  Ok (r, mkManager (osk_handler self) next (active_connection self) (budding_connections self)).

Definition prune (budding : gmap Z Z) : proc (gmap Z Z) :=
  if bool_decide (MAX_BUDDING_CONNECTIONS <= size budding) then
    let! ((_, handle), budding) :=
      Ret (match pop_first budding with
           | Some r => Ok r
           | None => Panicked (Msg "Could not prune oldest budding connection to make space for a new one, because data structure returned None. This is a bug!" [])
           end) in
    let! _ := drop_handle handle in
    pure budding
  else pure budding.

Definition on_accept (self : ConnectionManager) (ev : AcceptEvent) : proc (outcome unit * ConnectionManager) :=
  let! (connection_id, self) := Ret (allocate_connection_id self) in
  let! budding := prune (budding_connections self) in
  let! abort_handle := perform (ESpawn connection_id (stream ev)) in
  let! _ := drop_option (budding !! connection_id) in
  pure (Ok tt, mkManager (osk_handler self) (next_connection_id self) (active_connection self)
                 (<[connection_id := abort_handle]> budding)).

Definition on_exit (self : ConnectionManager) (ev : ExitEvent) : proc (outcome unit * ConnectionManager) :=
  let conn_id := exit_connection_id ev in
  if bool_decide (Some conn_id = active_connection_id self) then
    let! _ := drop_option (snd <$> active_connection self) in
    pure (Ok tt, mkManager (osk_handler self) (next_connection_id self) None (budding_connections self))
  else
    let! _ := drop_option (budding_connections self !! conn_id) in
    pure (Ok tt, mkManager (osk_handler self) (next_connection_id self) (active_connection self)
                   (delete conn_id (budding_connections self))).

Definition on_osk_from_stale (self : ConnectionManager) (ev : OskEvent) : proc (outcome unit * ConnectionManager) :=
  pure (Ok tt, self).

Definition on_osk_from_active (self : ConnectionManager) (ev : OskEvent) : proc (outcome unit * ConnectionManager) :=
  let! r := ptry (set_osk (osk_handler self) (osk_key ev) (osk_reason ev)) in
  pure (r, self).

Definition on_osk_from_budding (self : ConnectionManager) (ev : OskEvent) : proc (outcome unit * ConnectionManager) :=
  let new_active_id := osk_connection_id ev in
  match budding_connections self !! new_active_id with
  | None => pure (Ok tt, self)
  | Some new_active_handle =>
      let budding := delete new_active_id (budding_connections self) in
      let '(below, removed) := split_off new_active_id budding in
      (* std::mem::swap(&mut removed, &mut self.budding_connections) *)
      let '(removed, budding) := (below, removed) in
      (* the previously active handle is dropped by the assignment *)
      let! _ := drop_option (snd <$> active_connection self) in
      let! r := ptry (set_osk (osk_handler self) (osk_key ev) (osk_reason ev)) in
      (* [removed] goes out of scope *)
      let! _ := drop_map removed in
      pure (r, mkManager (osk_handler self) (next_connection_id self)
                 (Some (new_active_id, new_active_handle)) budding)
  end.

Definition on_osk (self : ConnectionManager) (ev : OskEvent) : proc (outcome unit * ConnectionManager) :=
  let conn_id := osk_connection_id ev in
  let conn_lifecycle :=
    default Gt ((fun active => Z.compare conn_id active) <$> active_connection_id self) in
  match conn_lifecycle with
  | Lt => on_osk_from_stale self ev
  | Eq => on_osk_from_active self ev
  | Gt => on_osk_from_budding self ev
  end.

Definition on_event (self : ConnectionManager) (ev : StreamEvent) : proc (outcome unit * ConnectionManager) :=
  match ev with
  | SAccept ev => on_accept self ev
  | SExit ev => on_exit self ev
  | SOsk ev => on_osk self ev
  end.

(** [self.on_event(ev).await?]; an error ends the loop. *)
Definition manager_next (self : ConnectionManager) (ev : StreamEvent)
    : proc (control ConnectionManager (Error * ConnectionManager)) :=
  let! (r, self) := on_event self ev in
  match r with
  | Ok _ => pure (Continue self)
  | Err e => pure (Break (e, self))
  | Panicked m => Ret (Panicked m)
  end.

(** One turn of the manager's loop: [select!], then the event. *)
Definition manager_turn (self : ConnectionManager) : proc (control ConnectionManager (Error * ConnectionManager)) :=
  let! sel := perform ESelect in
  match sel with
  | Accepted (Ok ev) => manager_next self (SAccept ev)
  | Accepted (Err e) => pure (Break (e, self))
  | Accepted (Panicked m) => Ret (Panicked m)
  | Notified (Some n) => manager_next self (stream_event_from n)
  | Notified None =>
      pure (Break (EMsg (Msg "OSK notification queue closed. This is a bug!" []), self))
  end.

Definition manager_event_loop (fuel : nat) (self : ConnectionManager)
    : proc (control ConnectionManager (Error * ConnectionManager)) :=
  loop fuel manager_turn self.

(** Dropping the manager: its fields in the order of their declaration. *)
Definition drop_manager (self : ConnectionManager) : proc unit :=
  drop_option (snd <$> active_connection self) ;;; drop_map (budding_connections self).
End Manager.

Arguments ConnectionManager : clear implicits.
Arguments osk_handler {O} _.
Arguments next_connection_id {O} _.
Arguments active_connection {O} _.
Arguments budding_connections {O} _.
Arguments mkManager {O} _ _ _ _.
Arguments active_connection_id {O} _.
