(* ===== verification/Roster.v ===== *)
(** * The connection manager keeps its roster

    What the connection manager of [ConnectionManager.v] promises: the
    connections form a roster from which a key, an exit or an eviction removes
    entries; an output key is handed on exactly for a connection on the roster
    and silences every older one; no task is left running. *)

From S2P Require Import Prelude Types Effects Osk Deadman ConnectionManager.

(** ** What the manager promises

    The roster: the live connections with their handles, the active one
    included.  A connection on the roster may deliver keys; a key silences
    every older connection. *)
Definition connections {O} (m : ConnectionManager O) : gmap Z Z :=
  match active_connection m with
  | Some (a, h) => <[a := h]> (budding_connections m)
  | None => budding_connections m
  end.

(** [high] is the last connection that delivered a key, [-1] before the first. *)
Record manager_wf {O} (high : Z) (m : ConnectionManager O) : Prop := {
  wf_next : in_u64 (next_connection_id m);
  wf_high : (-1 <= high < next_connection_id m)%Z;
  wf_active : forall a h, active_connection m = Some (a, h) -> a = high;
  wf_budding : forall k h, budding_connections m !! k = Some h ->
    (high < k < next_connection_id m)%Z;
  wf_size : size (budding_connections m) <= MAX_BUDDING_CONNECTIONS;
}.

(** The connection whose key the event hands on. *)
Definition forwards {O} (m : ConnectionManager O) (ev : StreamEvent) : option ConnectionId :=
  match ev with
  | SOsk ev => if bool_decide (is_Some (connections m !! osk_connection_id ev))
               then Some (osk_connection_id ev) else None
  | _ => None
  end.

(** Handles started and aborted along a trace. *)
Definition aborted_by (ev : event) : option Handle :=
  match ev_effect ev with EAbort h => Some h | _ => None end.

Definition spawned_by (ev : event) : option Handle :=
  match ev with
  | Ev e a => match e return answer e -> option Handle with
              | ESpawn _ _ => fun a => Some a
              | _ => fun _ => None
              end a
  end.

Definition aborted (tr : list event) : list Handle := base.omap aborted_by tr.
Definition spawned (tr : list event) : list Handle := base.omap spawned_by tr.
Definition handles {O} (m : ConnectionManager O) : list Handle := (map_to_list (connections m)).*2.

Definition abort_events (hs : list Handle) : list event := (fun h => Ev (EAbort h) tt) <$> hs.

(** ** Lemmas on the data structures *)
Lemma entries_perm m : entries m ≡ₚ map_to_list m.
Proof. apply merge_sort_Permutation. Qed.

Lemma drop_map_handles m : (entries m).*2 ≡ₚ (map_to_list m).*2.
Proof. by rewrite entries_perm. Qed.

#[local] Instance key_le_total : Total key_le.
Proof. intros a b. unfold key_le. lia. Qed.
#[local] Instance key_le_trans : Transitive key_le.
Proof. intros a b c. unfold key_le. lia. Qed.

Lemma pop_first_Some m k h m' :
  pop_first m = Some ((k, h), m') ->
  m !! k = Some h /\ m' = delete k m /\ forall k' h', m !! k' = Some h' -> (k <= k')%Z.
Proof.
  unfold pop_first. destruct (entries m) as [|[k0 h0] l] eqn:E; [done|]. intros; simplify_eq.
  assert (Hin : forall k' h', m !! k' = Some h' <-> (k', h') ∈ (k, h) :: l).
  { intros k' h'. rewrite <- E, entries_perm. by rewrite elem_of_map_to_list. }
  split; [apply Hin; left|]. split; [done|].
  intros k' h' [Heq|Hl]%Hin%elem_of_cons; [by simplify_eq|].
  pose proof (StronglySorted_merge_sort key_le (map_to_list m)) as Hs.
  unfold entries in E. rewrite E in Hs. apply StronglySorted_inv in Hs as [_ Hall].
  rewrite Forall_forall in Hall. apply (Hall _ Hl).
Qed.

Lemma pop_first_None m : pop_first m = None -> m = ∅.
Proof.
  unfold pop_first. destruct (entries m) as [|[k0 h0] l] eqn:E; [|done]. intros _.
  apply map_to_list_empty_iff, Permutation_nil. by rewrite <- E, entries_perm.
Qed.

Lemma split_off_spec k m k' h :
  ((split_off k m).1 !! k' = Some h <-> m !! k' = Some h /\ (k' < k)%Z) /\
  ((split_off k m).2 !! k' = Some h <-> m !! k' = Some h /\ (k <= k')%Z).
Proof. unfold split_off. simpl. by rewrite !map_lookup_filter_Some. Qed.

Lemma runs_drop_handles hs tr o :
  runs (drop_handles hs) tr o <-> tr = abort_events hs /\ o = Ok tt.
Proof.
  revert tr. induction hs as [|h hs IH]; intros tr; simpl; [done|].
  setoid_rewrite IH. split.
  - by intros ([] & tr' & -> & -> & ->).
  - intros [-> ->]. by exists tt, (abort_events hs).
Qed.

Lemma runs_drop_option h tr o :
  runs (drop_option h) tr o <-> tr = abort_events (option_list h) /\ o = Ok tt.
Proof.
  destruct h as [h|]; simpl; [|done]. split.
  - by intros ([] & tr' & -> & -> & ->).
  - intros [-> ->]. by exists tt, [].
Qed.

Lemma runs_drop_option_bind {B} h (p : proc B) tr o :
  runs (let! _ := drop_option h in p) tr o <->
  exists t, tr = abort_events (option_list h) ++ t /\ runs p t o.
Proof.
  destruct h as [h|]; simpl; [|naive_solver]. split.
  - intros ([] & t & -> & Hr). eauto.
  - intros (t & -> & Hr). by exists tt, t.
Qed.

Lemma runs_drop_handles_bind {B} hs (p : proc B) tr o :
  runs (let! _ := drop_handles hs in p) tr o <-> exists t, tr = abort_events hs ++ t /\ runs p t o.
Proof.
  revert tr. induction hs as [|h hs IH]; intros tr; simpl; [naive_solver|].
  setoid_rewrite IH. split.
  - intros ([] & t & -> & t' & -> & Hr). eauto.
  - intros (t & -> & Hr). exists tt. eauto 10.
Qed.

Lemma aborted_events hs : aborted (abort_events hs) = hs.
Proof. induction hs as [|h hs IH]; [done|]. cbn. f_equal. exact IH. Qed.
Lemma spawned_events hs : spawned (abort_events hs) = [].
Proof. by induction hs. Qed.
Lemma aborted_app t1 t2 : aborted (t1 ++ t2) = aborted t1 ++ aborted t2.
Proof. apply omap_app. Qed.
Lemma spawned_app t1 t2 : spawned (t1 ++ t2) = spawned t1 ++ spawned t2.
Proof. apply omap_app. Qed.
#[export] Hint Rewrite aborted_events spawned_events aborted_app spawned_app : daisy.

Lemma map_to_list_union (m1 m2 : gmap Z Z) :
  m1 ##ₘ m2 -> map_to_list (m1 ∪ m2) ≡ₚ map_to_list m1 ++ map_to_list m2.
Proof.
  intros Hd. apply NoDup_Permutation.
  - apply NoDup_map_to_list.
  - apply NoDup_app. split; [apply NoDup_map_to_list|]. split; [|apply NoDup_map_to_list].
    intros [k h] H1%elem_of_map_to_list H2%elem_of_map_to_list.
    by apply (map_disjoint_spec m1 m2) with k h h in Hd.
  - intros [k h]. by rewrite elem_of_app, !elem_of_map_to_list, lookup_union_Some.
Qed.

(** The handles of a map that loses some of its entries. *)
Lemma handles_split (P : ConnectionId * Handle -> Prop) `{!forall kv, Decision (P kv)} (m : gmap Z Z) :
  (map_to_list m).*2 ≡ₚ (map_to_list (filter P m)).*2 ++ (map_to_list (filter (fun kv => ~ P kv) m)).*2.
Proof.
  rewrite <- fmap_app, <- map_to_list_union by apply map_disjoint_filter_complement.
  by rewrite map_filter_union_complement.
Qed.

Lemma handles_insert (m : gmap Z Z) k h :
  m !! k = None -> (map_to_list (<[k := h]> m)).*2 ≡ₚ h :: (map_to_list m).*2.
Proof. intros Hk. by rewrite map_to_list_insert. Qed.

Lemma handles_delete (m : gmap Z Z) k h :
  m !! k = Some h -> (map_to_list m).*2 ≡ₚ h :: (map_to_list (delete k m)).*2.
Proof.
  intros Hk. rewrite <- handles_insert by apply lookup_delete_eq. by rewrite insert_delete_id.
Qed.

(** ** The handlers against the roster *)
Section Handlers.
Context {O : Type} `{OskHandler O} (prof : profile).
Implicit Types m : ConnectionManager O.

(** The active connection is not also a budding one. *)
Lemma active_not_budding high m a h :
  manager_wf high m -> active_connection m = Some (a, h) -> budding_connections m !! a = None.
Proof.
  intros Hwf Ha. destruct (budding_connections m !! a) as [h'|] eqn:E; [|done].
  pose proof (wf_active _ _ Hwf _ _ Ha). pose proof (wf_budding _ _ Hwf _ _ E). lia.
Qed.

Lemma connections_lookup high m k h :
  manager_wf high m ->
  connections m !! k = Some h <->
  active_connection m = Some (k, h) \/ budding_connections m !! k = Some h.
Proof.
  intros Hwf. unfold connections. destruct (active_connection m) as [[a ha]|] eqn:Ha.
  - rewrite lookup_insert_Some. pose proof (active_not_budding _ _ _ _ Hwf Ha). split.
    + intros [[-> ->]|[_ ?]]; auto.
    + intros [?|Hb]; [simplify_eq; auto|]. right. split; [|done]. intros ->. congruence.
  - split; [auto|]. by intros [?|?].
Qed.

Lemma connections_range high m k h :
  manager_wf high m -> connections m !! k = Some h -> (high <= k < next_connection_id m)%Z.
Proof.
  intros Hwf [Ha|Hb]%(connections_lookup _ _ _ _ Hwf).
  - pose proof (wf_active _ _ Hwf _ _ Ha) as ->. pose proof (wf_high _ _ Hwf). lia.
  - pose proof (wf_budding _ _ Hwf _ _ Hb). lia.
Qed.

Lemma handles_alt high m :
  manager_wf high m ->
  handles m ≡ₚ option_list (snd <$> active_connection m) ++ (map_to_list (budding_connections m)).*2.
Proof.
  intros Hwf. unfold handles, connections.
  destruct (active_connection m) as [[a h]|] eqn:Ha; [|done]. simpl.
  by rewrite handles_insert by by eapply active_not_budding.
Qed.

(** Making room evicts the oldest budding connection, and only when full. *)
Definition evicted (budding : gmap Z Z) (victim : option (ConnectionId * Handle)) : Prop :=
  match victim with
  | None => size budding < MAX_BUDDING_CONNECTIONS
  | Some (k, h) => MAX_BUDDING_CONNECTIONS <= size budding /\ budding !! k = Some h /\
      forall k' h', budding !! k' = Some h' -> (k <= k')%Z
  end.

Definition without (victim : option (ConnectionId * Handle)) (b : gmap Z Z) : gmap Z Z :=
  match victim with Some (k, _) => delete k b | None => b end.

Lemma runs_prune budding tr o :
  runs (prune budding) tr o ->
  exists victim, evicted budding victim /\
    tr = abort_events (option_list (snd <$> victim)) /\ o = Ok (without victim budding).
Proof.
  unfold prune. case_bool_decide as Hs.
  - destruct (pop_first budding) as [[[k h] b']|] eqn:Hp; simpl.
    + intros ([] & tr' & -> & -> & ->). apply pop_first_Some in Hp as (Hk & -> & Hmin).
      by exists (Some (k, h)).
    + apply pop_first_None in Hp as ->. unfold MAX_BUDDING_CONNECTIONS in Hs.
      rewrite map_size_empty in Hs. lia.
  - intros [-> ->]. exists None. simpl. split; [lia|done].
Qed.

(** Handles of the connections older than [k]. *)
Definition silenced m (k : ConnectionId) : list Handle :=
  (map_to_list (filter (fun kv => kv.1 < k)%Z (connections m))).*2.

(** The possible effects of an output key on the manager. *)
Inductive osk_effect m (ev : OskEvent) : list event -> outcome (outcome unit * ConnectionManager O) -> Prop :=
  | osk_ignored :
      connections m !! osk_connection_id ev = None ->
      osk_effect m ev [] (Ok (Ok tt, m))
  | osk_forwarded h old rest t r m' :
      connections m !! osk_connection_id ev = Some h ->
      runs (set_osk (osk_handler m) (osk_key ev) (osk_reason ev)) t r -> panics r = false ->
      old ++ rest ≡ₚ silenced m (osk_connection_id ev) ->
      connections m' = filter (fun kv => osk_connection_id ev <= kv.1)%Z (connections m) ->
      active_connection m' = Some (osk_connection_id ev, h) ->
      budding_connections m' = filter (fun kv => osk_connection_id ev < kv.1)%Z (budding_connections m) ->
      osk_handler m' = osk_handler m -> next_connection_id m' = next_connection_id m ->
      osk_effect m ev (abort_events old ++ t ++ abort_events rest) (Ok (r, m'))
  | osk_panicked h old t msg :
      connections m !! osk_connection_id ev = Some h ->
      runs (set_osk (osk_handler m) (osk_key ev) (osk_reason ev)) t (Panicked msg) ->
      old ⊆+ silenced m (osk_connection_id ev) ->
      osk_effect m ev (abort_events old ++ t) (Panicked msg).

Lemma silenced_at_high high m k :
  manager_wf high m -> (k <= high)%Z -> silenced m k = [].
Proof.
  intros Hwf Hk. unfold silenced.
  assert (filter (fun kv => kv.1 < k)%Z (connections m) = ∅) as ->; [|by rewrite map_to_list_empty].
  apply map_empty. intros k'. apply eq_None_not_Some. intros [h Hh].
  apply map_lookup_filter_Some in Hh as [Hc Hlt].
  pose proof (connections_range _ _ _ _ Hwf Hc). simpl in Hlt. lia.
Qed.

Lemma filter_at_high high m k :
  manager_wf high m -> (k <= high)%Z ->
  filter (fun kv => k <= kv.1)%Z (connections m) = connections m.
Proof.
  intros Hwf Hk. apply map_filter_id. intros k' h' Hc.
  pose proof (connections_range _ _ _ _ Hwf Hc). simpl. lia.
Qed.

Lemma silenced_budding high m k h :
  manager_wf high m -> budding_connections m !! k = Some h ->
  silenced m k ≡ₚ option_list (snd <$> active_connection m) ++
                 (map_to_list (split_off k (delete k (budding_connections m))).1).*2.
Proof.
  intros Hwf Hk. unfold silenced, split_off, connections. simpl.
  assert (Hb : filter (fun kv => kv.1 < k)%Z (delete k (budding_connections m))
             = filter (fun kv => kv.1 < k)%Z (budding_connections m)).
  { apply map_filter_delete_not. intros y ?. simpl. lia. }
  rewrite Hb. destruct (active_connection m) as [[a ha]|] eqn:Ha; [|done]. simpl.
  pose proof (wf_active _ _ Hwf _ _ Ha) as ->. pose proof (wf_budding _ _ Hwf _ _ Hk).
  rewrite map_filter_insert_True by (simpl; lia).
  apply handles_insert, map_lookup_filter_None. left.
  by eapply active_not_budding.
Qed.

Lemma budding_above_high high m k :
  manager_wf high m -> (k <= high)%Z ->
  filter (fun kv => k < kv.1)%Z (budding_connections m) = budding_connections m.
Proof.
  intros Hwf Hk. apply map_filter_id. intros k' h' Hb.
  pose proof (wf_budding _ _ Hwf _ _ Hb). simpl. lia.
Qed.

Lemma split_off_delete k (b : gmap Z Z) :
  (split_off k (delete k b)).2 = filter (fun kv => k < kv.1)%Z b.
Proof.
  apply map_eq. intros k'. apply option_eq. intros h.
  rewrite (proj2 (split_off_spec _ _ _ _)), lookup_delete_Some, map_lookup_filter_Some. simpl.
  split; [intros [[? ?] ?]|intros [? ?]]; repeat split; try done; lia.
Qed.

(** The state a promotion leaves. *)
Definition promoted m (k : ConnectionId) (h : Handle) : ConnectionManager O :=
  mkManager (osk_handler m) (next_connection_id m) (Some (k, h))
    (split_off k (delete k (budding_connections m))).2.

Lemma promoted_connections high m k h :
  manager_wf high m -> budding_connections m !! k = Some h ->
  connections (promoted m k h) = filter (fun kv => k <= kv.1)%Z (connections m).
Proof.
  intros Hwf Hk. apply map_eq. intros k'. apply option_eq. intros h'.
  rewrite map_lookup_filter_Some, (connections_lookup _ _ _ _ Hwf).
  unfold connections, promoted. cbn [active_connection budding_connections].
  rewrite lookup_insert_Some. rewrite (proj2 (split_off_spec _ _ _ _)), lookup_delete_Some.
  pose proof (wf_budding _ _ Hwf _ _ Hk). split.
  - intros [[-> ->]|(? & (? & ?) & ?)]; simpl; [split; [auto|lia]|auto].
  - intros [[Ha|Hb] Hle]; simpl in Hle.
    + pose proof (wf_active _ _ Hwf _ _ Ha). lia.
    + destruct (decide (k = k')) as [->|]; [left; split; congruence|]. naive_solver.
Qed.

Lemma on_osk_from_budding_effect high m ev tr o :
  manager_wf high m -> (high < osk_connection_id ev)%Z \/ active_connection m = None ->
  runs (on_osk_from_budding m ev) tr o -> osk_effect m ev tr o.
Proof.
  intros Hwf Hnew Hr. unfold on_osk_from_budding in Hr.
  destruct (budding_connections m !! osk_connection_id ev) as [h|] eqn:Hk.
  - assert (Hc : connections m !! osk_connection_id ev = Some h)
      by (apply (connections_lookup _ _ _ _ Hwf); auto).
    pose proof (silenced_budding _ _ _ _ Hwf Hk) as Hsil.
    apply runs_drop_option_bind in Hr as (t2 & -> & Hr).
    apply runs_bind_try in Hr as [(t3 & t4 & r & -> & Hset & Hp & Hr)|(msg & Hset & ->)].
    + apply runs_drop_handles_bind in Hr as (t5 & -> & -> & ->). rewrite app_nil_r.
      eapply osk_forwarded; try done.
      * by rewrite Hsil, drop_map_handles.
      * by apply (promoted_connections _ _ _ _ Hwf Hk).
      * apply split_off_delete.
    + eapply osk_panicked; [done|done|]. rewrite Hsil. by apply submseteq_inserts_r.
  - destruct Hr as [-> ->]. apply osk_ignored. apply eq_None_not_Some. intros [h Hh].
    apply (connections_lookup _ _ _ _ Hwf) in Hh as [Ha|?]; [|congruence].
    pose proof (wf_active _ _ Hwf _ _ Ha). destruct Hnew; [lia|congruence].
Qed.

Lemma on_osk_from_active_effect high m ev h tr o :
  manager_wf high m -> active_connection m = Some (osk_connection_id ev, h) ->
  runs (on_osk_from_active m ev) tr o -> osk_effect m ev tr o.
Proof.
  intros Hwf Ha Hr. pose proof (wf_active _ _ Hwf _ _ Ha) as Hhigh.
  assert (Hc : connections m !! osk_connection_id ev = Some h)
    by (apply (connections_lookup _ _ _ _ Hwf); auto).
  assert (Hs : silenced m (osk_connection_id ev) = []) by (apply (silenced_at_high _ _ _ Hwf); lia).
  apply runs_bind_try in Hr as [(t3 & t4 & r & -> & Hset & Hp & -> & ->)|(msg & Hset & ->)].
  - apply (osk_forwarded m ev h [] []); try done; [by rewrite Hs| |]; symmetry.
    + apply (filter_at_high _ _ _ Hwf). lia.
    + apply (budding_above_high _ _ _ Hwf). lia.
  - apply (osk_panicked m ev h []); try done. apply submseteq_nil_l.
Qed.

Lemma on_osk_effect high m ev tr o :
  manager_wf high m -> runs (on_osk m ev) tr o -> osk_effect m ev tr o.
Proof.
  intros Hwf Hr. unfold on_osk, active_connection_id in Hr.
  destruct (active_connection m) as [[a h]|] eqn:Ha; simpl in Hr.
  - pose proof (wf_active _ _ Hwf _ _ Ha) as Hah.
    destruct (Z.compare_spec (osk_connection_id ev) a) as [Heq|Hlt|Hgt].
    + eapply on_osk_from_active_effect; [done|by rewrite Ha, Heq|done].
    + destruct Hr as [-> ->]. apply osk_ignored. apply eq_None_not_Some. intros [h' Hh].
      pose proof (connections_range _ _ _ _ Hwf Hh). lia.
    + eapply on_osk_from_budding_effect; [done|left; lia|done].
  - eapply on_osk_from_budding_effect; [done|by right|done].
Qed.

Lemma on_accept_effect high m ev tr o :
  manager_wf high m -> (next_connection_id m + 1 < u64_modulus)%Z ->
  runs (on_accept prof m ev) tr o ->
  exists victim h, evicted (budding_connections m) victim /\
    tr = abort_events (option_list (snd <$> victim)) ++
         [Ev (ESpawn (next_connection_id m) (stream ev)) h] /\
    o = Ok (Ok tt, mkManager (osk_handler m) (next_connection_id m + 1) (active_connection m)
                     (<[next_connection_id m := h]> (without victim (budding_connections m)))).
Proof.
  intros Hwf Hnext Hr. unfold on_accept, allocate_connection_id in Hr.
  rewrite add_u64_small in Hr by done. cbn [pbind obind] in Hr.
  cbn [budding_connections osk_handler next_connection_id active_connection] in Hr.
  assert (Hfresh : forall v, without v (budding_connections m) !! next_connection_id m = None).
  { intros v. destruct (without v _ !! _) as [h|] eqn:E; [|done].
    assert (Hb : budding_connections m !! next_connection_id m = Some h).
    { destruct v as [[k ?]|]; simpl in E; [|done]. by apply lookup_delete_Some in E as [_ ?]. }
    pose proof (wf_budding _ _ Hwf _ _ Hb). lia. }
  apply runs_bind in Hr as [(t1 & t2 & b & -> & Hp & Hr)|[(e & Hp & _)|(e & Hp & _)]];
    apply runs_prune in Hp as (victim & Hv & -> & Hb); simplify_eq.
  destruct Hr as (h & t3 & -> & Hr). apply runs_drop_option_bind in Hr as (t4 & -> & -> & ->).
  exists victim, h. by rewrite Hfresh.
Qed.

Lemma on_exit_effect high m ev tr o :
  manager_wf high m -> runs (on_exit m ev) tr o ->
  tr = abort_events (option_list (connections m !! exit_connection_id ev)) /\
  exists m', o = Ok (Ok tt, m') /\
    connections m' = delete (exit_connection_id ev) (connections m) /\
    budding_connections m' = delete (exit_connection_id ev) (budding_connections m) /\
    (active_connection m' = None \/ active_connection m' = active_connection m) /\
    osk_handler m' = osk_handler m /\ next_connection_id m' = next_connection_id m.
Proof.
  intros Hwf Hr. unfold on_exit in Hr. unfold active_connection_id in Hr.
  case_bool_decide as Ha; apply runs_drop_option_bind in Hr as (t & -> & -> & ->).
  - destruct (active_connection m) as [[a h]|] eqn:Hact; [|done]. simplify_eq/=.
    pose proof (active_not_budding _ _ _ _ Hwf Hact) as Hnone.
    assert (Hc : connections m !! exit_connection_id ev = Some h)
      by (apply (connections_lookup _ _ _ _ Hwf); auto).
    rewrite Hc. split; [done|]. eexists. split; [done|]. unfold connections. rewrite Hact. simpl.
    rewrite delete_insert_id, delete_id by done. auto.
  - assert (Hc : connections m !! exit_connection_id ev = budding_connections m !! exit_connection_id ev).
    { unfold connections. destruct (active_connection m) as [[a h]|] eqn:Hact; [|done].
      simpl in Ha. rewrite lookup_insert_ne; [done|congruence]. }
    rewrite Hc, app_nil_r. split; [done|]. eexists. split; [done|]. unfold connections. simpl.
    destruct (active_connection m) as [[a h]|] eqn:Hact; [|auto].
    simpl in Ha. split; [|auto]. rewrite delete_insert_ne; [done|congruence].
Qed.

(** The last connection that delivered a key, after an event. *)
Definition high_after (high : Z) m (ev : StreamEvent) : Z := default high (forwards m ev).

Lemma wf_shrink high high' m m' :
  manager_wf high m -> (high <= high' < next_connection_id m)%Z ->
  next_connection_id m' = next_connection_id m ->
  (forall a h, active_connection m' = Some (a, h) -> a = high') ->
  (forall k h, budding_connections m' !! k = Some h -> (high' < k)%Z) ->
  budding_connections m' ⊆ budding_connections m ->
  manager_wf high' m'.
Proof.
  intros Hwf Hh Hn Ha Hk Hsub. destruct Hwf. split.
  - by rewrite Hn.
  - rewrite Hn. lia.
  - done.
  - intros k h Hb. rewrite Hn. split; [by eapply Hk|].
    by apply wf_budding0 with h, (lookup_weaken _ _ _ _ Hb).
  - etrans; [by apply map_subseteq_size|done].
Qed.

Lemma wf_accept high m victim h :
  manager_wf high m -> (next_connection_id m + 1 < u64_modulus)%Z ->
  evicted (budding_connections m) victim ->
  manager_wf high
    (mkManager (osk_handler m) (next_connection_id m + 1) (active_connection m)
       (<[next_connection_id m := h]> (without victim (budding_connections m)))).
Proof.
  intros [Hn Hh Ha Hb Hs] Hnext Hv. split; simpl.
  - unfold in_u64 in *. lia.
  - lia.
  - done.
  - intros k h' Hk. apply lookup_insert_Some in Hk as [[<- _]|[_ Hk]]; [lia|].
    assert (Hk' : budding_connections m !! k = Some h').
    { destruct victim as [[v ?]|]; simpl in Hk; [|done]. by apply lookup_delete_Some in Hk as [_ ?]. }
    specialize (Hb _ _ Hk'). lia.
  - assert (Hins : forall b : gmap Z Z, size (<[next_connection_id m := h]> b) <= S (size b)).
    { intros b. rewrite map_size_insert. destruct (b !! _); simpl; lia. }
    etrans; [apply Hins|]. destruct victim as [[v hv]|]; simpl in *.
    + destruct Hv as (_ & Hv & _). rewrite map_size_delete_Some by by rewrite Hv.
      assert (size (budding_connections m) <> 0).
      { intros He%map_size_empty_iff. by rewrite He, lookup_empty in Hv. }
      lia.
    + lia.
Qed.

Lemma forwards_osk m ev h :
  connections m !! osk_connection_id ev = Some h ->
  forwards m (SOsk ev) = Some (osk_connection_id ev).
Proof. intros Hc. simpl. by rewrite bool_decide_eq_true_2 by eauto. Qed.

Lemma forwards_none m ev :
  connections m !! osk_connection_id ev = None -> forwards m (SOsk ev) = None.
Proof. intros Hc. simpl. by rewrite bool_decide_eq_false_2 by (rewrite Hc; by intros [? ?]). Qed.

(** Every event keeps the manager well formed, and the last delivering
    connection only moves up. *)
Lemma on_event_preserves high m ev tr r m' :
  manager_wf high m -> (next_connection_id m + 1 < u64_modulus)%Z ->
  runs (on_event prof m ev) tr (Ok (r, m')) ->
  manager_wf (high_after high m ev) m' /\ (high <= high_after high m ev)%Z /\
  (next_connection_id m' <= next_connection_id m + 1)%Z.
Proof.
  intros Hwf Hnext Hr. pose proof (wf_high _ _ Hwf).
  destruct ev as [ev|ev|ev]; unfold high_after; cbn [on_event] in Hr.
  - apply (on_accept_effect _ _ _ _ _ Hwf Hnext) in Hr as (victim & h & Hv & -> & Ho).
    injection Ho as -> ->. split; [by apply wf_accept|]. simpl. lia.
  - apply (on_exit_effect _ _ _ _ _ Hwf) in Hr as (-> & m'' & Ho & _ & Hbud & Ha & _ & Hn).
    injection Ho as -> <-. simpl. split; [|lia].
    apply (wf_shrink high high m); [done|lia|done|..].
    + intros a h Hact. destruct Ha as [Ha|Ha]; [congruence|]. apply (wf_active _ _ Hwf a h). congruence.
    + intros k h. rewrite Hbud. intros [_ Hk]%lookup_delete_Some. by apply (wf_budding _ _ Hwf k h).
    + rewrite Hbud. apply delete_subseteq.
  - apply (on_osk_effect _ _ _ _ _ Hwf) in Hr.
    remember (Ok (r, m')) as o eqn:Ho. destruct Hr as [Hc|h old rest t r0 m0 Hc Hset Hp _ _ Ha Hbud _ Hn|];
      [| |done]; injection Ho as <- <-.
    + rewrite (forwards_none _ _ Hc). simpl. split; [done|lia].
    + rewrite (forwards_osk _ _ _ Hc). pose proof (connections_range _ _ _ _ Hwf Hc).
      cbn [default]. split; [|simpl; lia].
      apply (wf_shrink high _ m); [done|simpl; lia|done|..].
      * intros a h' Ha'. simpl. congruence.
      * intros k h'. rewrite Hbud. intros [_ Hk]%map_lookup_filter_Some. done.
      * rewrite Hbud. apply map_filter_subseteq.
Qed.

Lemma manager_new_wf (o : O) : manager_wf (-1) (manager_new o).
Proof.
  split; simpl; try done; unfold in_u64, u64_modulus; try lia.
  rewrite map_size_empty. lia.
Qed.
End Handlers.

(** ** Runs of the manager *)
Section Runs.
Context {O : Type} `{OskHandler O} (prof : profile).
Implicit Types m : ConnectionManager O.

(** A turn of the loop: what [select!] gave, what the handler of the event did. *)
Record turn : Type := mkTurn {
  t_before : ConnectionManager O;
  t_select : select_result;
  t_event : StreamEvent;
  t_trace : list event;
}.

Definition select_event (sel : select_result) : option StreamEvent :=
  match sel with
  | Accepted (Ok ev) => Some (SAccept ev)
  | Notified (Some n) => Some (stream_event_from n)
  | _ => None
  end.

(** The turns of a run that goes on, from one state to another. *)
Inductive served : ConnectionManager O -> list turn -> ConnectionManager O -> Prop :=
  | served_none m : served m [] m
  | served_turn m sel ev tr m1 l m' :
      select_event sel = Some ev ->
      runs (on_event prof m ev) tr (Ok (Ok tt, m1)) ->
      served m1 l m' ->
      served m (mkTurn m sel ev tr :: l) m'.

Definition turn_trace (t : turn) : list event := Ev ESelect (t_select t) :: t_trace t.
Definition turns_trace (l : list turn) : list event := mjoin (turn_trace <$> l).

(** The connections whose keys were handed on, in order. *)
Definition delivered (l : list turn) : list ConnectionId :=
  base.omap (fun t => forwards (t_before t) (t_event t)) l.

(** What becomes of the outcome of a handler. *)
Definition next_outcome (o : outcome (outcome unit * ConnectionManager O))
    : outcome (control (ConnectionManager O) (Error * ConnectionManager O)) :=
  match o with
  | Ok (Ok _, m) => Ok (Continue m)
  | Ok (Err e, m) => Ok (Break (e, m))
  | Ok (Panicked msg, _) => Panicked msg
  | Err e => Err e
  | Panicked msg => Panicked msg
  end.

Lemma runs_manager_next m ev tr o :
  runs (manager_next prof m ev) tr o <->
  exists o', runs (on_event prof m ev) tr o' /\ o = next_outcome o'.
Proof.
  unfold manager_next. rewrite runs_bind. split.
  - intros [(t1 & t2 & [r m'] & -> & He & Hr)|[(e & He & ->)|(msg & He & ->)]]; [|by eexists..].
    exists (Ok (r, m')). destruct r; destruct Hr as [-> ->]; by rewrite app_nil_r.
  - intros ([[r m']|e|msg] & He & ->); [left|eauto..].
    exists tr, [], (r, m'). rewrite app_nil_r. by destruct r.
Qed.

Lemma runs_manager_turn m tr m' :
  runs (manager_turn prof m) tr (Ok (Continue m')) ->
  exists sel ev t, tr = Ev ESelect sel :: t /\ select_event sel = Some ev /\
    runs (on_event prof m ev) t (Ok (Ok tt, m')).
Proof.
  intros (sel & t & -> & Hr). exists sel.
  assert (Hnext : forall ev, runs (manager_next prof m ev) t (Ok (Continue m')) ->
    runs (on_event prof m ev) t (Ok (Ok tt, m'))).
  { intros ev ([[[[]|e|msg] m1]|e|msg] & Hev & Ho)%runs_manager_next; by simplify_eq/=. }
  destruct sel as [[ev|e|msg]|[n|]]; cbn [pbind] in Hr; [|by destruct Hr..| |by destruct Hr].
  - exists (SAccept ev), t. auto.
  - exists (stream_event_from n), t. auto.
Qed.

Lemma runs_turn_break m tr e m' :
  runs (manager_turn prof m) tr (Ok (Break (e, m'))) ->
  exists sel t, tr = Ev ESelect sel :: t /\
    ((t = [] /\ (sel, m') = (Accepted (Err e), m)) \/
     (t = [] /\ sel = Notified None /\ m' = m) \/
     (exists ev, select_event sel = Some ev /\ runs (on_event prof m ev) t (Ok (Err e, m')))).
Proof.
  intros (sel & t & -> & Hr). exists sel, t. split; [done|].
  assert (Hnext : forall ev, runs (manager_next prof m ev) t (Ok (Break (e, m'))) ->
    runs (on_event prof m ev) t (Ok (Err e, m'))).
  { intros ev ([[[[]|e'|msg] m1]|e'|msg] & Hev & Ho)%runs_manager_next; by simplify_eq/=. }
  destruct sel as [[ev|e'|msg]|[n|]]; cbn [pbind] in Hr.
  - right. right. exists (SAccept ev). auto.
  - left. by destruct Hr as [-> [= -> ->]].
  - by destruct Hr.
  - right. right. exists (stream_event_from n). auto.
  - right. left. by destruct Hr as [-> [= -> ->]].
Qed.

Lemma select_osk sel ev :
  select_event sel = Some (SOsk ev) -> sel = Notified (Some (COsk ev)).
Proof. by destruct sel as [[?|?|?]|[[?|?]|]]; intros [= ->]. Qed.

Lemma runs_manager_loop n m tr m' :
  runs (manager_event_loop prof n m) tr (Ok (Continue m')) ->
  exists l, served m l m' /\ length l = n /\ tr = turns_trace l.
Proof.
  unfold manager_event_loop. revert m tr. induction n as [|n IH]; intros m tr Hr; cbn [loop] in Hr.
  - destruct Hr as [-> [= ->]]. exists []. split; [constructor|done].
  - apply runs_bind_Ok in Hr as (t1 & t2 & [m1|a] & -> & H1 & H2); [|by destruct H2].
    apply runs_manager_turn in H1 as (sel & ev & t & -> & Hsel & Hev).
    apply IH in H2 as (l & Hl & <- & ->). exists (mkTurn m sel ev t :: l).
    split; [by econstructor|]. done.
Qed.

Lemma served_preserves m l m' high :
  served m l m' -> manager_wf high m ->
  (next_connection_id m + Z.of_nat (length l) < u64_modulus)%Z ->
  exists high', manager_wf high' m' /\ (high <= high')%Z /\
    (next_connection_id m' <= next_connection_id m + Z.of_nat (length l))%Z /\
    StronglySorted Z.le (delivered l) /\ Forall (Z.le high) (delivered l).
Proof.
  intros Hs. revert high. induction Hs as [m|m sel ev tr m1 l m' Hsel Hr Hs IH]; intros high Hwf Hlen.
  - exists high. unfold delivered. simpl.
    split; [done|]. split; [lia|]. split; [lia|]. split; constructor.
  - simpl in Hlen. destruct (on_event_preserves prof _ _ _ _ _ _ Hwf ltac:(lia) Hr) as (Hwf1 & Hle & Hn).
    destruct (IH _ Hwf1 ltac:(lia)) as (high' & Hwf' & Hle' & Hn' & Hsort & Hall).
    exists high'. split; [done|]. split; [lia|]. split; [simpl; lia|].
    unfold high_after in *. unfold delivered in *. simpl.
    destruct (forwards m ev) as [k|] eqn:Hf; simpl in *.
    + split; [by constructor|]. constructor; [done|]. eapply Forall_impl; [done|]. simpl. lia.
    + done.
Qed.

Lemma served_from_new (o : O) l m' :
  served (manager_new o) l m' -> (Z.of_nat (length l) < u64_modulus)%Z ->
  exists high, manager_wf high m' /\ StronglySorted Z.le (delivered l) /\
    (next_connection_id m' <= Z.of_nat (length l))%Z.
Proof.
  intros Hs Hl. destruct (served_preserves _ _ _ (-1) Hs (manager_new_wf o)) as (h & ? & _ & Hn & ? & _);
    [simpl; lia|]. exists h. split; [done|]. split; [done|]. simpl in Hn. lia.
Qed.
End Runs.

(** ** Tasks are neither leaked nor aborted twice

    A handler that starts and aborts no tasks of its own, as the dead-man
    handle the server is configured with. *)
Class QuietHandler (H : Type) `{OskHandler H} : Prop :=
  quiet_handler : forall (h : H) k r tr o,
    runs (set_osk h k r) tr o -> aborted tr = [] /\ spawned tr = [].

#[export] Instance quiet_deadman : QuietHandler OskDeadman.
Proof.
  intros [] k r tr o Hr. unfold set_osk, deadman_handler, deadman_set_osk in Hr.
  destruct Hr as ([[]|e|m] & t & -> & -> & ->); done.
Qed.

Section Tasks.
Context {O : Type} `{QuietHandler O} (prof : profile).
Implicit Types m : ConnectionManager O.

Lemma without_handles high m victim :
  manager_wf high m -> evicted (budding_connections m) victim ->
  (map_to_list (budding_connections m)).*2 ≡ₚ
  option_list (snd <$> victim) ++ (map_to_list (without victim (budding_connections m))).*2.
Proof.
  intros Hwf Hv. destruct victim as [[k h]|]; [|done]. destruct Hv as (_ & Hk & _).
  by apply handles_delete.
Qed.

Lemma event_handles high m ev tr r m' :
  manager_wf high m -> (next_connection_id m + 1 < u64_modulus)%Z ->
  runs (on_event prof m ev) tr (Ok (r, m')) ->
  handles m ++ spawned tr ≡ₚ handles m' ++ aborted tr.
Proof.
  intros Hwf Hnext Hr. destruct ev as [ev|ev|ev]; cbn [on_event] in Hr.
  - apply (on_accept_effect _ _ _ _ _ _ Hwf Hnext) in Hr as (victim & h & Hv & -> & Ho).
    injection Ho as -> ->.
    rewrite (handles_alt _ _ Hwf), (handles_alt _ _ (wf_accept _ _ _ h Hwf Hnext Hv)).
    rewrite (without_handles _ _ _ Hwf Hv). cbn [active_connection budding_connections].
    rewrite handles_insert.
    + autorewrite with daisy. simpl. rewrite app_nil_r.
      rewrite (Permutation_app_comm _ [h]). simpl. rewrite <- Permutation_middle. simpl.
      apply perm_skip. rewrite <- app_assoc. apply Permutation_app_head, Permutation_app_comm.
    + apply eq_None_not_Some. intros [h' Hh].
      pose proof (wf_accept _ _ _ h Hwf Hnext Hv) as Hwf'.
      assert (Hb : budding_connections m !! next_connection_id m = Some h').
      { destruct victim as [[k ?]|]; simpl in Hh; [|done]. by apply lookup_delete_Some in Hh as [_ ?]. }
      pose proof (wf_budding _ _ Hwf _ _ Hb). lia.
  - apply (on_exit_effect _ _ _ _ _ Hwf) in Hr as (-> & m'' & Ho & Hc & _).
    injection Ho as -> <-. unfold handles. rewrite Hc. autorewrite with daisy.
    destruct (connections m !! exit_connection_id ev) as [h|] eqn:Hk; simpl.
    + rewrite (handles_delete _ _ _ Hk). rewrite app_nil_r. apply (Permutation_app_comm [h]).
    + by rewrite delete_id.
  - apply (on_osk_effect _ _ _ _ _ Hwf) in Hr.
    remember (Ok (r, m')) as o eqn:Ho.
    destruct Hr as [Hc|h old rest t r0 m0 Hc Hset Hp Hsil Hconn _ _ _ _|]; [| |done];
      injection Ho as <- <-; [reflexivity|].
    destruct (quiet_handler _ _ _ _ _ Hset) as [Ha Hsp].
    autorewrite with daisy. rewrite Ha, Hsp. simpl. rewrite app_nil_r, Hsil.
    unfold handles, silenced. rewrite Hconn.
    rewrite (handles_split (fun kv => osk_connection_id ev <= kv.1)%Z (connections m)).
    apply Permutation_app_head, fmap_Permutation. apply reflexive_eq, f_equal, map_filter_ext.
    intros k h' _. simpl. lia.
Qed.

Lemma served_handles m l m' high :
  served prof m l m' -> manager_wf high m ->
  (next_connection_id m + Z.of_nat (length l) < u64_modulus)%Z ->
  handles m ++ spawned (turns_trace l) ≡ₚ handles m' ++ aborted (turns_trace l).
Proof.
  intros Hs. revert high. induction Hs as [m|m sel ev tr m1 l m' Hsel Hr Hs IH]; intros high Hwf Hlen.
  - done.
  - simpl in Hlen. destruct (on_event_preserves prof _ _ _ _ _ _ Hwf ltac:(lia) Hr) as (Hwf1 & _ & Hn).
    specialize (IH _ Hwf1 ltac:(lia)). pose proof (event_handles _ _ _ _ _ _ Hwf ltac:(lia) Hr) as He.
    unfold turns_trace in *. cbn [fmap list_fmap mjoin list_join]. rewrite spawned_app, aborted_app.
    change (spawned (turn_trace (mkTurn m sel ev tr))) with (spawned tr).
    change (aborted (turn_trace (mkTurn m sel ev tr))) with (aborted tr).
    rewrite (app_assoc (handles m)), He, <- app_assoc, (Permutation_app_comm (aborted tr)), app_assoc, IH.
    by rewrite <- app_assoc, (Permutation_app_comm (aborted _) (aborted tr)).
Qed.
End Tasks.

Section Endings.
Context {O : Type} `{OskHandler O} (prof : profile).
Implicit Types m : ConnectionManager O.

Lemma runs_drop_manager m tr o :
  runs (drop_manager m) tr o ->
  tr = abort_events (option_list (snd <$> active_connection m) ++
         (entries (budding_connections m)).*2) /\ o = Ok tt.
Proof.
  unfold drop_manager. intros (t & -> & [-> ->]%runs_drop_handles)%runs_drop_option_bind.
  split; [|done]. unfold abort_events. by rewrite fmap_app.
Qed.

(** Dropping the manager aborts the tasks it still holds. *)
Lemma drop_manager_handles high m tr o :
  manager_wf high m -> runs (drop_manager m) tr o -> spawned tr = [] /\ aborted tr ≡ₚ handles m.
Proof.
  intros Hwf [-> _]%runs_drop_manager. autorewrite with daisy. split; [done|].
  by rewrite (handles_alt _ _ Hwf), drop_map_handles.
Qed.

(** A run that ends: complete turns, and the turn that ended it. *)
Lemma runs_manager_loop_ends n m tr o :
  runs (manager_event_loop prof n m) tr o ->
  (exists m', o = Ok (Continue m')) \/
  (exists l m1 t, served prof m l m1 /\ length l < n /\ tr = turns_trace l ++ t /\
     runs (manager_turn prof m1) t o).
Proof.
  unfold manager_event_loop. revert m tr. induction n as [|n IH]; intros m tr Hr; cbn [loop] in Hr.
  { destruct Hr as [-> ->]. eauto. }
  assert (Hfirst : runs (manager_turn prof m) tr o -> exists l m1 t, served prof m l m1 /\
    length l < S n /\ tr = turns_trace l ++ t /\ runs (manager_turn prof m1) t o).
  { intros Ht. exists [], m, tr. split; [constructor|]. split; [simpl; lia|done]. }
  apply runs_bind in Hr as [(t1 & t2 & [m1|a] & -> & H1 & H2)|[(e & H1 & ->)|(msg & H1 & ->)]].
  - apply runs_manager_turn in H1 as (sel & ev & t & -> & Hsel & Hev).
    apply IH in H2 as [?|(l & m2 & t3 & Hl & Hlen & -> & Hb)]; [by left|right].
    exists (mkTurn m sel ev t :: l), m2, t3. split; [by econstructor|]. split; [simpl; lia|].
    split; [|done]. unfold turns_trace. simpl. by rewrite <- app_assoc.
  - destruct H2 as [-> ->]. rewrite app_nil_r in *. by right; apply Hfirst.
  - by right; apply Hfirst.
  - by right; apply Hfirst.
Qed.

Lemma runs_manager_loop_break n m tr e m' :
  runs (manager_event_loop prof n m) tr (Ok (Break (e, m'))) ->
  exists l m1 t, served prof m l m1 /\ length l < n /\ tr = turns_trace l ++ t /\
    runs (manager_turn prof m1) t (Ok (Break (e, m'))).
Proof. by intros [[? ?]|Hr]%runs_manager_loop_ends. Qed.

(** The handlers return their errors with the state: none escapes a turn. *)
Lemma no_err_drop_option h : always no_err (drop_option h).
Proof. by destruct h. Qed.

Lemma no_err_drop_handles hs : always no_err (drop_handles hs).
Proof. induction hs; simpl; auto. Qed.

Lemma no_err_on_event m ev : always no_err (on_event prof m ev).
Proof.
  pose proof no_err_drop_option. pose proof no_err_drop_handles.
  destruct ev as [ev|ev|ev]; simpl.
  - apply no_err_bind.
    { unfold allocate_connection_id, add_u64. case_bool_decide; [done|by destruct prof]. }
    intros [k m']. apply no_err_bind.
    { unfold prune. case_bool_decide; [|done]. apply no_err_bind; [by destruct (pop_first _)|].
      intros [[k' h] b]. by apply no_err_bind. }
    intros b. apply no_err_bind; [apply no_err_perform|]. intros h. by apply no_err_bind.
  - unfold on_exit. case_bool_decide; by apply no_err_bind.
  - unfold on_osk. destruct (default _ _).
    + apply no_err_bind; [apply no_err_try|done].
    + done.
    + unfold on_osk_from_budding. destruct (_ !! _); [|done].
      apply no_err_bind; [done|]. intros _. apply no_err_bind; [apply no_err_try|].
      intros r. apply no_err_bind; [apply no_err_drop_handles|done].
Qed.

Lemma no_err_manager_turn m : always no_err (manager_turn prof m).
Proof.
  assert (Hn : forall ev, always no_err (manager_next prof m ev)).
  { intros ev. apply no_err_bind; [apply no_err_on_event|]. by intros [[|e|msg] m']. }
  intros sel. destruct sel as [[ev|e|msg]|[n|]]; try done; apply Hn.
Qed.

Lemma manager_loop_no_error n m tr e : ~ runs (manager_event_loop prof n m) tr (Err e).
Proof. apply no_err_runs, no_err_loop, no_err_manager_turn. Qed.

(** A run that ended and then dropped its state has aborted what it started. *)
Lemma manager_break_handles `{!QuietHandler O} n (o : O) tr e m' tr' res :
  (Z.of_nat n < u64_modulus)%Z ->
  runs (manager_event_loop prof n (manager_new o)) tr (Ok (Break (e, m'))) ->
  runs (drop_manager m') tr' res ->
  spawned (tr ++ tr') ≡ₚ aborted (tr ++ tr').
Proof.
  intros Hn Hr Hd. apply runs_manager_loop_break in Hr as (l & m1 & t & Hs & Hlen & -> & Ht).
  destruct (served_from_new _ _ _ _ Hs ltac:(lia)) as (high & Hwf & _ & Hnext).
  pose proof (served_handles _ _ _ _ (-1) Hs (manager_new_wf o) ltac:(simpl; lia)) as Hp.
  assert (Hfresh : handles (manager_new o) = []) by done. rewrite Hfresh in Hp. simpl in Hp.
  assert (Ht' : exists high', manager_wf high' m' /\ handles m1 ++ spawned t ≡ₚ handles m' ++ aborted t).
  { apply runs_turn_break in Ht as (sel & t' & -> & [[-> [= _ ->]]|[(-> & _ & ->)|(ev & Hsel & Hev)]]); [by eexists..|].
    eexists. split; [apply (on_event_preserves _ _ _ _ _ _ _ Hwf ltac:(lia) Hev)|].
    apply (event_handles _ _ _ _ _ _ _ Hwf ltac:(lia) Hev). }
  destruct Ht' as (high' & Hwf' & Ht'). destruct (drop_manager_handles _ _ _ _ Hwf' Hd) as [Hds Hda].
  autorewrite with daisy. rewrite Hp, Hds, Hda, app_nil_r.
  rewrite (Permutation_app_comm (handles m1)), <- app_assoc, Ht', <- app_assoc.
  apply Permutation_app_head, Permutation_app_comm.
Qed.
End Endings.

(** ** Correctness *)
Section Correctness.
Context {O : Type} `{OskHandler O} (prof : profile).

(** C5. The decision on a key, in every state the server can reach: it reaches the
    handler exactly when its connection is on the roster; then every older
    connection is aborted and leaves the roster, and the sender is the active
    connection.  A key from anyone else changes and runs nothing. *)
Theorem osk_decision (o : O) l m ev tr res :
  (Z.of_nat (length l) < u64_modulus)%Z ->
  served prof (manager_new o) l m ->
  runs (on_osk m ev) tr res -> osk_effect m ev tr res.
Proof.
  intros Hl Hs. destruct (served_from_new _ _ _ _ Hs Hl) as (high & Hwf & _).
  by apply (on_osk_effect high).
Qed.

(** C16. The state of the connection manager is well formed whenever its loop stops,
    by an error or for lack of fuel: the active connection and the budding ones
    have numbers that were given out, the active one is older than every
    budding one, and at most 2000 are budding. *)
Theorem roster_well_formed (o : O) n tr m' :
  (Z.of_nat n < u64_modulus)%Z ->
  runs (manager_event_loop prof n (manager_new o)) tr (Ok (Continue m')) \/
  (exists e, runs (manager_event_loop prof n (manager_new o)) tr (Ok (Break (e, m')))) ->
  exists high, manager_wf high m' /\ (next_connection_id m' <= Z.of_nat n)%Z.
Proof.
  intros Hn [(l & Hs & <- & ->)%runs_manager_loop|[e (l & m1 & t & Hs & Hlen & -> & Ht)%runs_manager_loop_break]].
  - destruct (served_from_new _ _ _ _ Hs Hn) as (high & Hwf & _ & Hnext). by exists high.
  - destruct (served_from_new _ _ _ _ Hs ltac:(lia)) as (high & Hwf & _ & Hnext).
    apply runs_turn_break in Ht as (sel & t' & -> & [[-> [= _ ->]]|[(-> & _ & ->)|(ev & Hsel & Hev)]]);
      [exists high; split; [done|lia]..|].
    destruct (on_event_preserves _ _ _ _ _ _ _ Hwf ltac:(lia) Hev) as (Hwf' & _ & Hnext').
    eexists. split; [exact Hwf'|lia].
Qed.

(** The server stops only when accepting fails, when the queue of the tasks is
    closed, or when the handler rejects a key of a live connection: a failing
    or misbehaving connection never stops it. *)
Theorem server_stops_only (o : O) l m tr e m' :
  (Z.of_nat (length l) + 1 < u64_modulus)%Z ->
  served prof (manager_new o) l m ->
  runs (manager_turn prof m) tr (Ok (Break (e, m'))) ->
  (tr = [Ev ESelect (Accepted (Err e))] /\ m' = m) \/
  (tr = [Ev ESelect (Notified None)] /\ m' = m) \/
  (exists ev old t rest, is_Some (connections m !! osk_connection_id ev) /\
     tr = Ev ESelect (Notified (Some (COsk ev))) :: abort_events old ++ t ++ abort_events rest /\
     runs (set_osk (osk_handler m) (osk_key ev) (osk_reason ev)) t (Err e)).
Proof.
  intros Hl Hs Hr. destruct (served_from_new _ _ _ _ Hs ltac:(lia)) as (high & Hwf & _ & Hn).
  apply runs_turn_break in Hr as (sel & t & -> & [[-> [= <-]]|[(-> & -> & ->)|(ev & Hsel & Hev)]]); auto.
  right. right. destruct ev as [ev|ev|ev]; cbn [on_event] in Hev.
  - by apply (on_accept_effect _ _ _ _ _ _ Hwf ltac:(lia)) in Hev as (? & ? & _ & _ & ?).
  - by apply (on_exit_effect _ _ _ _ _ Hwf) in Hev as (_ & ? & ? & _).
  - apply (on_osk_effect _ _ _ _ _ Hwf) in Hev. remember (Ok (Err e, m')) as res eqn:Hres.
    destruct Hev as [Hc|h old rest t r0 m0 Hc Hset Hp Hsil Hconn _ _ _ _|]; [done| |done].
    injection Hres as -> ->. exists ev, old, t, rest. split; [by eexists|]. split; [|done].
    by rewrite (select_osk _ _ Hsel).
Qed.
End Correctness.

(** ** What reaches the dead-man switch *)

(** The requests that a trace sends to the dead-man switch. *)
Definition handed_by (ev : event) : option DeadmanRequest :=
  match ev_effect ev with ESendDeadman req => Some req | _ => None end.
Definition handed (tr : list event) : list DeadmanRequest := base.omap handed_by tr.

Lemma handed_app t1 t2 : handed (t1 ++ t2) = handed t1 ++ handed t2.
Proof. apply omap_app. Qed.
Lemma handed_aborts hs : handed (abort_events hs) = [].
Proof. by induction hs. Qed.
#[export] Hint Rewrite handed_app handed_aborts : daisy.

Section Handed.
Context (prof : profile).
Implicit Types m : ConnectionManager OskDeadman.

(** The connection behind the request that a turn sent, if it sent one. *)
Definition sender (t : turn (O := OskDeadman)) : option ConnectionId :=
  match t_event t, handed (t_trace t) with
  | SOsk ev, _ :: _ => Some (osk_connection_id ev)
  | _, _ => None
  end.

(** A turn sends nothing, or the key of the event it handles. *)
Definition sends_own (t : turn (O := OskDeadman)) : Prop :=
  handed (t_trace t) = [] \/
  exists ev, t_select t = Notified (Some (COsk ev)) /\
    handed (t_trace t) = [SetOsk (osk_key ev) (osk_reason ev)].

Lemma event_handed high m ev tr r m' :
  manager_wf high m -> (next_connection_id m + 1 < u64_modulus)%Z ->
  runs (on_event prof m ev) tr (Ok (r, m')) ->
  handed tr = match ev, forwards m ev with
              | SOsk ev, Some _ => [SetOsk (osk_key ev) (osk_reason ev)]
              | _, _ => []
              end.
Proof.
  intros Hwf Hnext Hr. destruct ev as [ev|ev|ev]; cbn [on_event] in Hr.
  - apply (on_accept_effect _ _ _ _ _ _ Hwf Hnext) in Hr as (victim & h & _ & -> & _). by autorewrite with daisy.
  - apply (on_exit_effect _ _ _ _ _ Hwf) in Hr as (-> & _). by autorewrite with daisy.
  - apply (on_osk_effect _ _ _ _ _ Hwf) in Hr. remember (Ok (r, m')) as o eqn:Ho.
    destruct Hr as [Hc|h old rest t r0 m0 Hc Hset%runs_deadman _ _ _ _ _ _ _|]; [| |done].
    + by rewrite (forwards_none _ _ Hc).
    + rewrite (forwards_osk _ _ _ Hc), Hset. by autorewrite with daisy.
Qed.

Lemma served_senders high m l m' :
  served prof m l m' -> manager_wf high m ->
  (next_connection_id m + Z.of_nat (length l) < u64_modulus)%Z ->
  base.omap sender l = delivered l /\ Forall sends_own l.
Proof.
  intros Hs. revert high. induction Hs as [m|m sel ev tr m1 l m' Hsel Hr Hs IH]; intros high Hwf Hlen; [done|].
  simpl in Hlen. destruct (on_event_preserves prof _ _ _ _ _ _ Hwf ltac:(lia) Hr) as (Hwf1 & _ & Hn).
  destruct (IH _ Hwf1 ltac:(lia)) as [IH1 IH2]. pose proof (event_handed _ _ _ _ _ _ Hwf ltac:(lia) Hr) as Hh.
  unfold delivered in *. cbn [base.omap list_omap]. rewrite IH1. unfold sender at 1. cbn [t_event t_trace t_before].
  rewrite Hh. destruct ev as [ev|ev|ev]; cbn [forwards] in *.
  - split; [done|]. constructor; [by left|done].
  - split; [done|]. constructor; [by left|done].
  - destruct (bool_decide (is_Some (connections m !! osk_connection_id ev))); (split; [done|]); constructor; try done.
    + right. exists ev. split; [by apply select_osk|done].
    + by left.
Qed.

(** C6. Keys never go back in time.  In any run of the manager over the dead-man
    switch, of fewer than [2^64] events, each turn sends nothing to the switch
    or exactly the key of the message it read, and the numbers of the
    connections whose keys were sent never decrease: once a key of a connection
    was sent, no older connection has one sent again.  At most 2000 connections
    are budding. *)
Theorem manager_supersedes (o : OskDeadman) n tr m' :
  (Z.of_nat n < u64_modulus)%Z ->
  runs (manager_event_loop prof n (manager_new o)) tr (Ok (Continue m')) ->
  exists l, served prof (manager_new o) l m' /\ tr = turns_trace l /\
    Forall sends_own l /\ StronglySorted Z.le (base.omap sender l) /\
    size (budding_connections m') <= MAX_BUDDING_CONNECTIONS.
Proof.
  intros Hn Hr. apply runs_manager_loop in Hr as (l & Hs & <- & ->).
  destruct (served_from_new _ _ _ _ Hs Hn) as (high & Hwf & Hsort & _).
  destruct (served_senders (-1) _ _ _ Hs (manager_new_wf o)) as [Hsend Hown]; [simpl; lia|].
  exists l. rewrite Hsend. split; [done|]. split; [done|]. split; [done|]. split; [done|]. apply (wf_size _ _ Hwf).
Qed.
End Handed.

(** C17. Every task the server starts is aborted exactly once by the time the
    server's state is dropped, when its handler starts and aborts none. *)
Theorem no_task_leaks {O : Type} `{QuietHandler O} (prof : profile) (o : O) n tr m' tr' res :
  (Z.of_nat n < u64_modulus)%Z ->
  runs (manager_event_loop prof n (manager_new o)) tr (Ok (Continue m')) ->
  runs (drop_manager m') tr' res ->
  res = Ok tt /\ spawned tr ≡ₚ aborted (tr ++ tr').
Proof.
  intros Hn Hr Hdrop. apply runs_manager_loop in Hr as (l & Hs & <- & ->).
  destruct (served_from_new _ _ _ _ Hs Hn) as (high & Hwf & _).
  pose proof (served_handles _ _ _ _ (-1) Hs (manager_new_wf o) ltac:(simpl; lia)) as Hp.
  unfold drop_manager in Hdrop.
  apply runs_drop_option_bind in Hdrop as (t & -> & [-> ->]%runs_drop_handles). split; [done|].
  unfold handles at 1, connections, manager_new in Hp. simpl in Hp.
  rewrite map_to_list_empty in Hp. simpl in Hp. rewrite Hp, (handles_alt _ _ Hwf).
  autorewrite with daisy. rewrite drop_map_handles. apply Permutation_app_comm.
Qed.

(** ** Witnesses *)

(** Connections 0 and 1 are accepted; 1 delivers, then 0 does; 0 was silenced. *)
Definition demo_key0 : Key := new_zeroed 32.
Definition demo_accept (s : Z) : select_result := Accepted (Ok (mkAcceptEvent s "127.0.0.1:4")).
Definition demo_osk (id : ConnectionId) : select_result :=
  Notified (Some (COsk (mkOskEvent id demo_key0 Fresh))).
Definition demo_trace : list event :=
  [Ev ESelect (demo_accept 7); Ev (ESpawn 0 7) 100%Z;
   Ev ESelect (demo_accept 8); Ev (ESpawn 1 8) 101%Z;
   Ev ESelect (demo_osk 1); Ev (ESendDeadman (SetOsk demo_key0 Fresh)) (Ok tt); Ev (EAbort 100) tt;
   Ev ESelect (demo_osk 0)].
Definition demo_manager : ConnectionManager OskDeadman :=
  mkManager mkOskDeadman 2 (Some (1%Z, 101%Z)) ∅.

Lemma demo_run :
  runs (manager_event_loop DevProfile 4 (manager_new mkOskDeadman)) demo_trace (Ok (Continue demo_manager)).
Proof. apply replay_runs. vm_compute. reflexivity. Qed.

Lemma manager_supersedes_witness :
  exists l, served DevProfile (manager_new mkOskDeadman) l demo_manager /\
    demo_trace = turns_trace l /\ StronglySorted Z.le (base.omap sender l).
Proof.
  destruct (manager_supersedes DevProfile mkOskDeadman 4 demo_trace demo_manager)
    as (l & Hs & Ht & _ & Hsort & _); [vm_compute; reflexivity|apply demo_run|].
  exists l. auto.
Defined.

Lemma roster_well_formed_witness : exists high, manager_wf high demo_manager.
Proof.
  destruct (roster_well_formed DevProfile mkOskDeadman 4 demo_trace demo_manager) as (high & Hwf & _).
  - vm_compute. reflexivity.
  - left. apply demo_run.
  - exists high. exact Hwf.
Defined.

(** Two budding connections; the newer one delivers, and the older is silenced. *)
Definition demo_budding : ConnectionManager OskDeadman :=
  mkManager mkOskDeadman 2 None (<[0%Z := 100%Z]> {[1%Z := 101%Z]}).

Lemma osk_decision_witness :
  connections demo_budding !! 1%Z = Some 101%Z /\
  osk_effect demo_budding (mkOskEvent 1 demo_key0 Fresh)
    [Ev (ESendDeadman (SetOsk demo_key0 Fresh)) (Ok tt); Ev (EAbort 100) tt]
    (Ok (Ok tt, demo_manager)).
Proof.
  split; [reflexivity|].
  destruct (runs_manager_loop DevProfile 2 (manager_new mkOskDeadman) (take 4 demo_trace) demo_budding)
    as (l & Hs & Hl & _); [apply replay_runs; vm_compute; reflexivity|].
  apply (osk_decision DevProfile mkOskDeadman l).
  - rewrite Hl. vm_compute. reflexivity.
  - exact Hs.
  - apply replay_runs. vm_compute. reflexivity.
Defined.

Definition selected (ev : event) : option select_result :=
  match ev with Ev e a => match e return answer e -> option select_result with
                          | ESelect => Some
                          | _ => fun _ => None
                          end a end.

Lemma server_stops_only_witness :
  exists m tr, runs (manager_turn DevProfile m) tr (Ok (Break (EIo (OtherKind 24), m))) /\
    tr = [Ev ESelect (Accepted (Err (EIo (OtherKind 24))))].
Proof.
  exists (manager_new mkOskDeadman), [Ev ESelect (Accepted (Err (EIo (OtherKind 24))))].
  assert (Hr : runs (manager_turn DevProfile (manager_new mkOskDeadman))
    [Ev ESelect (Accepted (Err (EIo (OtherKind 24))))]
    (Ok (Break (EIo (OtherKind 24), manager_new mkOskDeadman)))) by (apply replay_runs; vm_compute; reflexivity).
  split; [exact Hr|].
  destruct (server_stops_only DevProfile mkOskDeadman [] _ _ _ _ ltac:(vm_compute; reflexivity)
    (served_none _ _) Hr) as [[Ht _]|[[Ht _]|(ev & old & t & rest & _ & Ht & _)]];
    [exact Ht|apply (f_equal (base.omap selected)) in Ht; discriminate Ht..].
Defined.

Lemma no_task_leaks_witness :
  spawned demo_trace ≡ₚ aborted (demo_trace ++ [Ev (EAbort 101) tt]).
Proof.
  refine (proj2 (no_task_leaks DevProfile mkOskDeadman 4 demo_trace demo_manager
    [Ev (EAbort 101) tt] (Ok tt) _ demo_run _)); [|apply replay_runs]; vm_compute; reflexivity.
Defined.
