(* ===== verification/Fanout.v ===== *)
(** * The tasks of the server's connections
    ([daisyway/src/internal/daisyway/net/tcp_server/fanout_osk_handler.rs],
    [fanout_connection_handler.rs])

    One task per accepted connection runs the server protocol and reports to
    the connection manager over the notification channel: each key it
    negotiates, and its end. *)

From S2P Require Import Prelude Types Externals RefInstances Effects Etsi014 HashDomain Crypto Osk Duplex Protocol.

(** ** Keys to the manager *)
Record FanoutOskHandler : Type := mkFanoutOsk { connection_id : ConnectionId }.

Definition fanout_set_osk (self : FanoutOskHandler) (key : Key) (reason : SetOskReason) : proc unit :=
  let! _ := send_manager (COsk (mkOskEvent (connection_id self) key reason)) in
  pure tt.

#[export] Instance fanout_handler : OskHandler FanoutOskHandler := fanout_set_osk.

Section Fanout.
Context `{Shake256Lib} `{UuidLib} `{Base64Codec} `{!ReqwestLib}.

Record FanoutConnectionHandler : Type := mkFanout {
  f_protocol_params : DaisywayProtocolParameters;
  f_etsi_client : Etsi014Connection;
  f_rekey_interval : Z;
}.

(** The protocol handler of connection [id]; its socket is the stream the
    operations of the task refer to. *)
Definition fanout_protocol (self : FanoutConnectionHandler) (id : ConnectionId)
    : DaisywayServerProtocol :=
  mkServerProtocol (f_protocol_params self) (f_etsi_client self) (mkFanoutOsk id)
    (f_rekey_interval self).

Definition fanout_event_loop (fuel : nat) (self : FanoutConnectionHandler) (id : ConnectionId)
    : proc (control unit Empty_set) :=
  server_event_loop fuel (fanout_protocol self id).

(** [init_task]: [Continue] while the protocol is still running, [Break] when
    the task is done. *)
Definition init_task (fuel : nat) (self : FanoutConnectionHandler) (id : ConnectionId)
    : proc (control unit unit) :=
  let! r := ptry (fanout_event_loop fuel self id) in
  match r with
  | Ok (Continue _) => pure (Continue tt)
  | _ =>
      (* tell the connection manager; a failure to do so is only logged *)
      let! _ := ptry (send_manager (CExit (mkExitEvent id))) in
      pure (Break tt)
  end.

(** ** What a task reports *)

(** The messages a trace sends to the manager, and the valid acknowledgements
    it reads. *)
Definition report_of (ev : event) : option ConnectionHandlerEvent :=
  match ev_effect ev with ESendManager n => Some n | _ => None end.

Definition ack_of (ev : event) : option unit :=
  match ev with
  | Ev e a => match e return answer e -> option unit with
              | EReadExact _ => fun o =>
                  match o with
                  | Ok b => if decide (as_bytes b = as_bytes (RekeyAck_as_bytes REKEY_ACK)) then Some tt else None
                  | _ => None
                  end
              | _ => fun _ => None
              end a
  end.

Definition reports (tr : list event) : list ConnectionHandlerEvent := base.omap report_of tr.
Definition acks (tr : list event) : list unit := base.omap ack_of tr.

Definition osk_report (id : ConnectionId) (k : Key) : ConnectionHandlerEvent :=
  COsk (mkOskEvent id k Fresh).

Lemma reports_app t1 t2 : reports (t1 ++ t2) = reports t1 ++ reports t2.
Proof. apply omap_app. Qed.
Lemma acks_app t1 t2 : acks (t1 ++ t2) = acks t1 ++ acks t2.
Proof. apply omap_app. Qed.

Lemma fanout_partial (h : FanoutOskHandler) k t :
  partial (set_fresh_osk h k) t ->
  t = [] \/ exists r, t = [Ev (ESendManager (COsk (mkOskEvent (connection_id h) k Fresh))) r].
Proof.
  destruct t as [|ev t]; [auto|]. intros (r & -> & Hp). right. exists r.
  destruct r as [[]|e|m]; by apply partial_Ret in Hp as ->.
Qed.

Lemma fanout_runs (h : FanoutOskHandler) k t :
  runs (set_fresh_osk h k) t (Ok tt) ->
  t = [Ev (ESendManager (COsk (mkOskEvent (connection_id h) k Fresh))) (Ok tt)].
Proof. intros ([[]|e|m] & t' & -> & Hr); by destruct Hr as [-> ?]. Qed.

(** A negotiation a task completed: the key manager's answer, the key in it, the nonce. *)
Record negotiation : Type := mkNegotiation {
  n_answer : outcome http_response;
  n_qkd_key : Etsi014Key;
  n_nonce : Nonce;
}.

Definition negotiation_trace (self : DaisywayServerProtocol (O := FanoutOskHandler)) (x : negotiation) : list event :=
  server_exchange self (n_answer x) (n_qkd_key x) (n_nonce x).

Definition negotiation_key (self : DaisywayServerProtocol (O := FanoutOskHandler)) (x : negotiation) : Key :=
  server_key self (n_qkd_key x) (n_nonce x).

Definition negotiation_ok (self : DaisywayServerProtocol (O := FanoutOskHandler)) (x : negotiation) : Prop :=
  fetched (any_key_uri (sp_etsi_client self)) (n_answer x) (n_qkd_key x).

(** [told self t xs]: what [t] reports are the keys of [xs], whose exchanges
    it went through, in this order. *)
Record told (self : DaisywayServerProtocol (O := FanoutOskHandler)) (t : list event) (xs : list negotiation) : Prop := {
  told_ok : Forall (negotiation_ok self) xs;
  told_reports : reports t = osk_report (connection_id (sp_osk_handler self)) <$> (negotiation_key self <$> xs);
  told_trace : mjoin (negotiation_trace self <$> xs) `sublist_of` t;
}.

Lemma told_app self t1 t2 xs1 xs2 : told self t1 xs1 -> told self t2 xs2 -> told self (t1 ++ t2) (xs1 ++ xs2).
Proof.
  intros [Ho1 Hr1 Ht1] [Ho2 Hr2 Ht2]. split.
  - by apply Forall_app.
  - by rewrite reports_app, !fmap_app, Hr1, Hr2.
  - rewrite fmap_app, join_app. by apply sublist_app.
Qed.

Lemma told_nothing self t : reports t = [] -> told self t [].
Proof. intros Hr. split; [by apply Forall_nil|by rewrite Hr|apply sublist_nil_l]. Qed.

Lemma negotiation_acks self xs : acks (mjoin (negotiation_trace self <$> xs)) = replicate (length xs) tt.
Proof.
  induction xs as [|x xs IH]; [done|].
  change (mjoin (negotiation_trace self <$> x :: xs))
    with (negotiation_trace self x ++ mjoin (negotiation_trace self <$> xs)).
  by rewrite acks_app, IH.
Qed.

Lemma told_acks self t xs : told self t xs -> length xs <= length (acks t).
Proof.
  intros [_ _ Ht]. rewrite <- (length_replicate (length xs) tt), <- (negotiation_acks self xs).
  by apply sublist_length, sublist_omap.
Qed.

Lemma turn_tells self t : server_progress self t -> exists xs, told self t xs.
Proof.
  intros Hp. destruct Hp as [|a|a qk nonce Ha|a qk nonce w Ha|a qk nonce r Ha|a qk nonce t rest Ha Ht Hrest];
    try (exists []; by apply told_nothing).
  destruct (fanout_partial _ _ _ Ht) as [->|[r ->]].
  { exists []. apply told_nothing. by destruct Hrest as [->| ->]. }
  exists [mkNegotiation a qk nonce]. split.
  - by apply Forall_singleton.
  - by destruct Hrest as [->| ->].
  - by apply sublist_inserts_r.
Qed.

Lemma loop_tells self turns t :
  Forall (fun t => runs (server_turn self) t (Ok tt)) turns -> partial (server_turn self) t ->
  exists xs, told self (mjoin turns ++ t) xs.
Proof.
  intros Hall Hp. induction Hall as [|t1 turns Hr _ [xs2 IH]].
  - by apply turn_tells, partial_server_turn.
  - apply runs_partial, partial_server_turn, turn_tells in Hr as [xs1 Ht1].
    exists (xs1 ++ xs2). cbn [mjoin list_join]. rewrite <- app_assoc. by apply told_app.
Qed.

Lemma partial_fanout_loop fuel self cid tr :
  partial (fanout_event_loop fuel self cid) tr -> exists xs, told (fanout_protocol self cid) tr xs.
Proof. intros (turns & rest & -> & Hall & Hrest)%partial_forever. by apply loop_tells. Qed.

(** At any time a task has reported keys it negotiated, and then perhaps its end. *)
Lemma partial_init_task fuel self cid tr :
  partial (init_task fuel self cid) tr ->
  exists t ends xs, tr = t ++ ends /\ told (fanout_protocol self cid) t xs /\
    (ends = [] \/ exists r, ends = [Ev (ESendManager (CExit (mkExitEvent cid))) r]).
Proof.
  intros [Hp|(t1 & t2 & r & -> & Hr & Hp)]%partial_bind.
  - apply partial_try, partial_fanout_loop in Hp as [xs Hx]. exists tr, [], xs. by rewrite app_nil_r; auto.
  - apply runs_partial, partial_try, partial_fanout_loop in Hr as [xs Hx]. exists t1, t2, xs.
    split; [done|]. split; [done|].
    assert (Hend : forall t, partial (let! _ := ptry (send_manager (CExit (mkExitEvent cid))) in pure (@Break unit unit tt)) t ->
      t = [] \/ exists r, t = [Ev (ESendManager (CExit (mkExitEvent cid))) r]).
    { intros [|ev t]; [auto|]. intros (x & -> & Hx'). right. exists x.
      destruct x as [[]|e|m]; by apply partial_Ret in Hx' as ->. }
    destruct r as [[[]|[]]|e|m]; [left; by apply partial_Ret in Hp|by apply Hend..].
Qed.

(** C19. What the connection manager hears from a task: keys of this connection,
    each only after a valid acknowledgement, all of them fresh; then, exactly
    when the task ends by itself, one notice of its end.  A task that panics
    ends without one, unless it was the sending of the notice that panicked. *)
Theorem task_reports fuel self cid tr o :
  runs (init_task fuel self cid) tr o ->
  exists keys ends,
    reports tr = (osk_report cid <$> keys) ++ ends /\ length keys <= length (acks tr) /\
    match o with
    | Ok (Break _) => ends = [CExit (mkExitEvent cid)]
    | Ok (Continue _) => ends = []
    | Err _ => False
    | Panicked m => ends = [] \/ last tr = Some (Ev (ESendManager (CExit (mkExitEvent cid))) (Panicked m))
    end.
Proof.
  intros [(t1 & t2 & r & -> & Hr & Hp & Ht2)|(m & Hr & ->)]%runs_bind_try;
    apply runs_partial, partial_fanout_loop in Hr as [xs Hx]; pose proof (told_acks _ _ _ Hx) as Hl;
    apply told_reports in Hx; simpl in Hx.
  - exists (negotiation_key (fanout_protocol self cid) <$> xs), (reports t2).
    rewrite reports_app, acks_app, Hx, length_app, length_fmap. split; [done|]. split; [lia|].
    destruct r as [[|[]]|e|m]; [by destruct Ht2 as [-> ->]| |done].
    apply runs_bind_try in Ht2 as [(t3 & t4 & r & -> & (x & t' & -> & -> & ->) & _ & -> & ->)|
      (m & (x & t' & -> & -> & <-) & ->)]; [done|]. right. apply last_snoc.
  - exists (negotiation_key (fanout_protocol self cid) <$> xs), [].
    rewrite app_nil_r, length_fmap. auto.
Qed.
End Fanout.

(** ** Witness: a key manager that cannot be reached ends the task *)
Lemma task_reports_witness :
  exists keys, [CExit (mkExitEvent 5)] = (osk_report 5 <$> keys) ++ [CExit (mkExitEvent 5)].
Proof.
  destruct (task_reports (H2 := demo_json) 3
    (mkFanout demo_params (mkConnection "http://kme" "b") 120) 5
    [Ev (EHttpGet "http://kme/api/v1/keys/b/enc_keys?number=1&key_length=256") (Err (EIo (OtherKind 111)));
     Ev (ESendManager (CExit (mkExitEvent 5))) (Ok tt)] (Ok (Break tt)))
    as (keys & ends & Hr & _ & ->).
  - apply replay_runs. vm_compute. reflexivity.
  - exists keys. exact Hr.
Defined.
