(* ===== verification/Agreement.v ===== *)
(** * The two peers install the same keys

    A task of the server ([Fanout.init_task]) and the client protocol
    ([Protocol.client_event_loop]) joined by a connection ([Duplex]), each with
    its own key manager.  Both report the keys they install to the next
    component: the server's task to the connection manager, the client to the
    dead-man worker. *)

From S2P Require Import Prelude Types Externals RefInstances Effects Etsi014 HashDomain Crypto Osk Deadman Duplex Protocol Fanout.

(** ** Installed keys *)
Definition server_install_of (ev : event) : option Key :=
  match ev with
  | Ev e a => match e return answer e -> option Key with
              | ESendManager (COsk osk) => fun r => if is_ok r then Some (osk_key osk) else None
              | _ => fun _ => None
              end a
  end.

Definition client_install_of (ev : event) : option Key :=
  match ev with
  | Ev e a => match e return answer e -> option Key with
              | ESendDeadman (SetOsk key _) => fun r => if is_ok r then Some key else None
              | _ => fun _ => None
              end a
  end.

Definition server_installs (tr : list event) : list Key := base.omap server_install_of tr.
Definition client_installs (tr : list event) : list Key := base.omap client_install_of tr.

(** Takes apart what a concrete trace did to a wire. *)
Ltac along_inv :=
  repeat match goal with
  | H : along _ (_ ++ _) _ |- _ => apply along_app in H as (? & ? & ? & H & ?)
  | H : along _ (_ :: _) _ |- _ => destruct H as (? & ? & ? & ? & H)
  | H : along _ [] _ |- _ => cbn [along] in H
  | H : puts (Ev _ _) _ |- _ => cbn [puts is_ok] in H
  | H : takes (Ev _ _) _ |- _ => cbn [takes] in H
  | H : exists _ _, _ = _ ++ _ /\ _ |- _ => destruct H as (? & ? & ? & ? & ?)
  end; subst; rewrite ?app_nil_r in *.

Lemma server_installs_app t1 t2 : server_installs (t1 ++ t2) = server_installs t1 ++ server_installs t2.
Proof. apply omap_app. Qed.
Lemma client_installs_app t1 t2 : client_installs (t1 ++ t2) = client_installs t1 ++ client_installs t2.
Proof. apply omap_app. Qed.

Section Agreement.
Context `{Shake256Lib} `{UuidLib} `{Base64Codec} `{!ReqwestLib}.
Context (http : string -> outcome http_response -> Prop).

(** ** The server's side

    The exchanges a task got as far as preparing a request for; its keys are
    those of the exchanges that were acknowledged. *)
Record server_story (self : DaisywayServerProtocol (O := FanoutOskHandler))
    (tr : list event) (sent taken : bytes) (reqs : list (Nonce * Etsi014Key)) : Prop := {
  ss_fetched : Forall (fun '(nonce, qk) => exists a,
    http (any_key_uri (sp_etsi_client self)) a /\
    fetched (any_key_uri (sp_etsi_client self)) a qk) reqs;
  ss_sent : sent `prefix_of` mjoin ((fun '(nonce, qk) => as_bytes (request nonce qk)) <$> reqs);
  ss_installs : server_installs tr `prefix_of` ((fun '(nonce, qk) => server_key self qk nonce) <$> reqs);
  ss_taken : length (server_installs tr) <= length taken;
  ss_lag : length reqs <= S (length (server_installs tr));
}.

Abbreviation req_bytes := (fun '(nonce, qk) => as_bytes (request nonce qk)).

(** A complete turn in front of a story. *)
Lemma server_story_turn self t tr out1 out2 inp1 inp2 reqs :
  runs (server_turn self) t (Ok tt) -> Forall (http_ok http) t ->
  delivers t out1 -> consumes t inp1 ->
  server_story self tr out2 inp2 reqs ->
  exists req, server_story self (t ++ tr) (out1 ++ out2) (inp1 ++ inp2) (req :: reqs).
Proof.
  intros Hr Hh Hd Hc [Hf Hs Hi Ht Hl].
  apply runs_server_turn in Hr as (a & qk & nonce & t' & -> & Ha & ->%fanout_runs).
  exists (nonce, qk). unfold server_exchange in *. simpl in Hd, Hc. along_inv.
  apply Forall_cons in Hh as [Hh _].
  split; rewrite ?server_installs_app; simpl.
  - constructor; [eauto|done].
  - by apply prefix_app.
  - by apply prefix_cons.
  - lia.
  - lia.
Qed.

Lemma server_story_nil self tr out inp :
  out = [] -> server_installs tr = [] -> server_story self tr out inp [].
Proof. intros -> Hi. split; rewrite ?Hi; simpl; [constructor|done|done|lia|lia]. Qed.

Lemma server_story_one self tr out inp a nonce qk :
  http (any_key_uri (sp_etsi_client self)) a ->
  fetched (any_key_uri (sp_etsi_client self)) a qk ->
  out `prefix_of` as_bytes (request nonce qk) ->
  server_installs tr = [] \/ (server_installs tr = [server_key self qk nonce] /\ 1 <= length inp) ->
  server_story self tr out inp [(nonce, qk)].
Proof.
  intros Hh Ha Ho Hi. split; simpl.
  - constructor; [eauto|constructor].
  - by rewrite app_nil_r.
  - destruct Hi as [->|[-> _]]; [apply prefix_nil|done].
  - destruct Hi as [->|[-> ?]]; simpl; lia.
  - lia.
Qed.

Lemma server_story_rest self t out inp :
  partial (server_turn self) t -> Forall (http_ok http) t -> delivers t out -> consumes t inp ->
  exists reqs, server_story self t out inp reqs.
Proof.
  intros Hp Hh Hd Hc. apply partial_server_turn in Hp. unfold server_exchange in *.
  destruct Hp as [|a|a qk nonce Ha|a qk nonce w Ha|a qk nonce r Ha|a qk nonce t rest Ha Ht Hrest];
    unfold server_exchange in *; cbn [take app] in *;
    try (apply Forall_cons in Hh as [Hh _]; cbn [http_ok] in Hh).
  - along_inv. exists []. by apply server_story_nil.
  - along_inv. exists []. by apply server_story_nil.
  - along_inv. eexists. apply (server_story_one _ _ _ _ a nonce qk); auto using prefix_nil.
  - along_inv. eexists. apply (server_story_one _ _ _ _ a nonce qk); auto. simpl.
    destruct (is_ok w); [by subst|done].
  - along_inv. eexists. apply (server_story_one _ _ _ _ a nonce qk); auto.
  - eexists. apply (server_story_one _ _ _ _ a nonce qk); auto.
    + destruct (fanout_partial _ _ _ Ht) as [->|[r ->]]; destruct Hrest as [->| ->]; cbn [app] in *;
        along_inv; done.
    + destruct (fanout_partial _ _ _ Ht) as [->|[r ->]]; destruct Hrest as [->| ->]; cbn [app] in *;
        along_inv; auto; unfold server_installs; simpl; destruct (is_ok r); auto; right; (split; [done|simpl; lia]).
Qed.

Lemma server_story_loop self turns t out inp :
  Forall (fun t => runs (server_turn self) t (Ok tt)) turns ->
  partial (server_turn self) t -> Forall (http_ok http) (mjoin turns ++ t) ->
  delivers (mjoin turns ++ t) out -> consumes (mjoin turns ++ t) inp ->
  exists reqs, server_story self (mjoin turns ++ t) out inp reqs.
Proof.
  intros Hall Hp. revert out inp. induction Hall as [|t1 turns Hr _ IH]; intros out inp Hh Hd Hc.
  - by apply server_story_rest.
  - cbn [mjoin list_join] in *. rewrite <- app_assoc in Hh, Hd, Hc |- *.
    apply Forall_app in Hh as [Hh1 Hh2].
    apply along_app in Hd as (o1 & o2 & -> & Hd1 & Hd2).
    apply along_app in Hc as (i1 & i2 & -> & Hc1 & Hc2).
    destruct (IH _ _ Hh2 Hd2 Hc2) as [reqs Hs].
    destruct (server_story_turn _ _ _ _ _ _ _ _ Hr Hh1 Hd1 Hc1 Hs). eauto.
Qed.

(** The whole task: the notice of its end touches neither wires nor keys. *)
Lemma server_task_story n self cid tr out inp :
  partial (init_task n self cid) tr -> Forall (http_ok http) tr ->
  delivers tr out -> consumes tr inp ->
  exists reqs, server_story (fanout_protocol self cid) tr out inp reqs.
Proof.
  intros Hp Hh Hd Hc.
  assert (Hex : exists tr' ends, tr = tr' ++ ends /\ (ends = [] \/ exists r, ends = [Ev (ESendManager (CExit (mkExitEvent cid))) r]) /\
                 partial (fanout_event_loop n self cid) tr').
  { apply partial_bind in Hp as [Hp%partial_try|(t1 & t2 & r & -> & Hr & Hp)].
    - exists tr, []. rewrite app_nil_r. auto.
    - apply runs_try in Hr as (r' & Hr%runs_partial & _). exists t1, t2. split; [done|]. split; [|done].
      destruct r as [[|[]]|e|m]; [by apply partial_Ret in Hp; auto|..];
        (destruct t2 as [|ev t2]; [auto|]; destruct Hp as (r & -> & Hp); right; exists r; f_equal;
         destruct r as [[]|?|?]; by apply partial_Ret in Hp). }
  destruct Hex as (tr' & ends & -> & Hends & Hp').
  apply partial_forever in Hp' as (turns & rest & -> & Hall & Hrest).
  apply Forall_app in Hh as [Hh _].
  apply along_app in Hd as (o1 & o2 & -> & Hd & Hd2). apply along_app in Hc as (i1 & i2 & -> & Hc & Hc2).
  destruct (server_story_loop _ _ _ _ _ Hall Hrest Hh Hd Hc) as [reqs [Hf Hs Hi Ht Hl]].
  exists reqs.
  assert (Ho2 : o2 = []) by (destruct Hends as [->|[r ->]]; along_inv; done).
  assert (Hie : server_installs ends = []) by (destruct Hends as [->|[r ->]]; done).
  assert (Hsame : server_installs ((mjoin turns ++ rest) ++ ends) = server_installs (mjoin turns ++ rest))
    by (rewrite server_installs_app, Hie; apply app_nil_r).
  subst o2. rewrite app_nil_r. split; rewrite ?Hsame; try done.
  rewrite length_app. lia.
Qed.

(** ** The client's side

    The requests it read and for which its key manager gave a key. *)
Record client_story (self : DaisywayClientProtocol (O := OskDeadman))
    (tr : list event) (sent taken : bytes) (gots : list (array (16 + 32) * Etsi014Key)) : Prop := {
  cs_fetched : Forall (fun '(buf, qk) => exists a,
    http (client_uri self buf) a /\ fetched (client_uri self buf) a qk) gots;
  cs_taken : mjoin (as_bytes <$> gots.*1) `prefix_of` taken;
  cs_sent : length sent <= length gots;
  cs_installs : client_installs tr `prefix_of` ((fun '(buf, qk) => client_key self buf qk) <$> gots);
  cs_lag : length gots <= S (length (client_installs tr));
}.

Lemma deadman_partial (h : OskDeadman) k t :
  partial (set_fresh_osk h k) t -> t = [] \/ exists r, t = [Ev (ESendDeadman (SetOsk k Fresh)) r].
Proof.
  destruct t as [|ev t]; [auto|]. intros (r & -> & Hp). right. exists r.
  destruct r as [[]|e|m]; by apply partial_Ret in Hp as ->.
Qed.

Lemma deadman_runs (h : OskDeadman) k t :
  runs (set_fresh_osk h k) t (Ok tt) -> t = [Ev (ESendDeadman (SetOsk k Fresh)) (Ok tt)].
Proof. intros ([[]|e|m] & t' & -> & Hr); by destruct Hr as [-> ?]. Qed.

Lemma client_story_turn self t tr out1 out2 inp1 inp2 gots :
  runs (client_turn self) t (Ok tt) -> Forall (http_ok http) t ->
  delivers t out1 -> consumes t inp1 ->
  client_story self tr out2 inp2 gots ->
  exists got, client_story self (t ++ tr) (out1 ++ out2) (inp1 ++ inp2) (got :: gots).
Proof.
  intros Hr Hh Hd Hc [Hf Ht Hs Hi Hl].
  apply runs_client_turn in Hr as (buf & a & qk & t' & -> & Ha & ->%deadman_runs).
  exists (buf, qk). unfold client_exchange in *. simpl in Hd, Hc. along_inv.
  apply Forall_cons in Hh as [_ Hh]. apply Forall_cons in Hh as [Hh _]. cbn [http_ok] in Hh.
  split; rewrite ?client_installs_app; simpl.
  - constructor; [eauto|done].
  - by apply prefix_app.
  - apply le_n_S, Hs.
  - by apply prefix_cons.
  - apply le_n_S, Hl.
Qed.

Lemma client_story_nil self tr out inp :
  out = [] -> client_installs tr = [] -> client_story self tr out inp [].
Proof. intros -> Hi. split; rewrite ?Hi; simpl; [constructor|apply prefix_nil|lia|done|lia]. Qed.

Lemma client_story_one self tr out inp a buf qk :
  http (client_uri self buf) a -> fetched (client_uri self buf) a qk ->
  as_bytes buf `prefix_of` inp -> length out <= 1 ->
  client_installs tr `prefix_of` [client_key self buf qk] ->
  client_story self tr out inp [(buf, qk)].
Proof.
  intros Hh Ha Hp Ho Hi. split; simpl.
  - constructor; [eauto|constructor].
  - by rewrite app_nil_r.
  - done.
  - done.
  - lia.
Qed.

Lemma client_story_rest self t out inp :
  partial (client_turn self) t -> Forall (http_ok http) t -> delivers t out -> consumes t inp ->
  exists gots, client_story self t out inp gots.
Proof.
  intros Hp Hh Hd Hc. apply partial_client_turn in Hp.
  destruct Hp as [|r|buf a|buf a qk w Ha|buf a qk t Ha Ht]; unfold client_exchange in *; cbn [take app] in *.
  - along_inv. exists []. by apply client_story_nil.
  - along_inv. exists []. by apply client_story_nil.
  - along_inv. exists []. by apply client_story_nil.
  - along_inv. apply Forall_cons in Hh as [_ Hh]. apply Forall_cons in Hh as [Hh _].
    eexists. apply (client_story_one _ _ _ _ a buf qk); auto using prefix_nil.
    destruct (is_ok w); [subst; simpl; lia|]. by apply prefix_length with (l2 := [Byte.x01]).
  - apply Forall_cons in Hh as [_ Hh]. apply Forall_cons in Hh as [Hh _].
    eexists. apply (client_story_one _ _ _ _ a buf qk); auto.
    + destruct (deadman_partial _ _ _ Ht) as [->|[r ->]]; along_inv; auto.
    + destruct (deadman_partial _ _ _ Ht) as [->|[r ->]]; along_inv; simpl; lia.
    + destruct (deadman_partial _ _ _ Ht) as [->|[r ->]]; unfold client_installs; simpl;
        [apply prefix_nil|]. destruct (is_ok r); [done|apply prefix_nil].
Qed.

Lemma client_loop_story n self tr out inp :
  partial (client_event_loop n self) tr -> Forall (http_ok http) tr ->
  delivers tr out -> consumes tr inp ->
  exists gots, client_story self tr out inp gots.
Proof.
  intros (turns & t & -> & Hall & Hp)%partial_forever. revert out inp.
  induction Hall as [|t1 turns Hr _ IH]; intros out inp Hh Hd Hc; [by apply client_story_rest|].
  cbn [mjoin list_join] in *. rewrite <- app_assoc in Hh, Hd, Hc |- *.
  apply Forall_app in Hh as [Hh1 Hh2].
  apply along_app in Hd as (o1 & o2 & -> & Hd1 & Hd2).
  apply along_app in Hc as (i1 & i2 & -> & Hc1 & Hc2).
  destruct (IH _ _ Hh2 Hd2 Hc2) as [gots Hs].
  destruct (client_story_turn _ _ _ _ _ _ _ _ Hr Hh1 Hd1 Hc1 Hs). eauto.
Qed.
End Agreement.

(** Fixed-size blocks are recovered from their concatenation. *)
Lemma blocks_prefix {n} (l1 l2 : list (array n)) :
  0 < n -> mjoin (as_bytes <$> l1) `prefix_of` mjoin (as_bytes <$> l2) -> l1 `prefix_of` l2.
Proof.
  intros Hn. revert l2. induction l1 as [|b l1 IH]; intros l2 [r Hr]; [apply prefix_nil|].
  destruct l2 as [|b2 l2]; simpl in Hr.
  - apply (f_equal length) in Hr. rewrite !length_app, array_length in Hr. simpl in Hr. lia.
  - rewrite <- app_assoc in Hr. apply as_bytes_app_inj in Hr as [-> Hr].
    apply prefix_cons, IH. by exists r.
Qed.

(** ** The agreement *)
Section Peers.
Context `{Shake256Lib} `{UuidLaws} `{Base64Codec} `{!ReqwestLib}.

(** Two key managers that hold the same keys: whoever is told the identifier
    of a key the other handed out is given that key, if any. *)
Definition kme_honest (http : string -> outcome http_response -> Prop)
    (server client : Etsi014Connection) : Prop :=
  forall a qk a' qk',
    http (any_key_uri server) a -> fetched (any_key_uri server) a qk ->
    http (specific_key_uri client (id qk)) a' -> fetched (specific_key_uri client (id qk)) a' qk' ->
    qk' = qk.

(** Mirrored parameters: the same pre-shared key, the peers exchanged. *)
Definition mirrored (p : DaisywayProtocolParameters) : DaisywayProtocolParameters :=
  mkParams (psk p) (remote_peer_id p) (local_peer_id p).

Lemma derive_mirrored p nonce qk :
  derive_daisyway_key (mirrored p) nonce qk = derive_daisyway_key p nonce qk.
Proof.
  unfold derive_daisyway_key, WireGuardConnectionId_new. simpl. by rewrite sort_pair_comm.
Qed.

Lemma request_fields nonce qk :
  uuid_from_bytes (qkd_key_id (RekeyReq_from_bytes (request nonce qk))) = id qk /\
  req_nonce (RekeyReq_from_bytes (request nonce qk)) = nonce.
Proof.
  unfold request. rewrite RekeyReq_roundtrip. simpl. split; [|done]. apply uuid_from_as_bytes.
Qed.

(** Requests that arrive as they were sent yield the server's keys. *)
Lemma keys_prefix http (sv : DaisywayServerProtocol (O := FanoutOskHandler))
    (cl : DaisywayClientProtocol (O := OskDeadman)) reqs gots :
  kme_honest http (sp_etsi_client sv) (cp_etsi_client cl) ->
  cp_protocol_params cl = mirrored (sp_protocol_params sv) ->
  Forall (fun '(nonce, qk) => exists a, http (any_key_uri (sp_etsi_client sv)) a /\
    fetched (any_key_uri (sp_etsi_client sv)) a qk) reqs ->
  Forall (fun '(buf, qk) => exists a, http (client_uri cl buf) a /\ fetched (client_uri cl buf) a qk) gots ->
  gots.*1 `prefix_of` (fun '(nonce, qk) => request nonce qk) <$> reqs ->
  ((fun '(buf, qk) => client_key cl buf qk) <$> gots) `prefix_of`
  ((fun '(nonce, qk) => server_key sv qk nonce) <$> reqs).
Proof.
  intros Hkme Hpar Sf Cf. revert reqs Sf.
  induction Cf as [|[buf qk'] gots (a' & Ha' & Hf') Cf IH]; intros reqs Sf Hp; [apply prefix_nil|].
  destruct reqs as [|[nonce qk] reqs]; [by apply prefix_nil_not in Hp|].
  simpl in Hp. apply prefix_cons_inv_1 in Hp as Hb. apply prefix_cons_inv_2 in Hp.
  apply Forall_cons in Sf as [(a & Ha & Hf) Sf]. simpl.
  destruct (request_fields nonce qk) as [Hid Hnon]. unfold client_uri in Ha', Hf'.
  rewrite Hb, Hid in Ha', Hf'.
  assert (Hqk : qk' = qk) by (by eapply Hkme).
  assert (client_key cl buf qk' = server_key sv qk nonce) as ->.
  { unfold client_key, server_key. by rewrite Hb, Hnon, Hqk, Hpar, derive_mirrored. }
  by apply prefix_cons, IH.
Qed.

(** The keys of the requests that arrived are those the server negotiated, in order. *)
Lemma stories_keys http (sv : DaisywayServerProtocol (O := FanoutOskHandler))
    (cl : DaisywayClientProtocol (O := OskDeadman)) trs inps reqs trc outc inpc gots l2r :
  kme_honest http (sp_etsi_client sv) (cp_etsi_client cl) ->
  cp_protocol_params cl = mirrored (sp_protocol_params sv) ->
  server_story http sv trs (inpc ++ l2r) inps reqs -> client_story http cl trc outc inpc gots ->
  ((fun '(buf, qk) => client_key cl buf qk) <$> gots) `prefix_of`
  ((fun '(nonce, qk) => server_key sv qk nonce) <$> reqs).
Proof.
  intros Hkme Hpar [Sf Ss _ _ _] [Cf Ct _ _ _]. eapply keys_prefix; [done|done|done|done|].
  apply blocks_prefix; [lia|].
  etrans; [exact Ct|]. etrans; [apply prefix_app_r; reflexivity|]. etrans; [exact Ss|].
  apply reflexive_eq. f_equal. rewrite <- list_fmap_compose.
  apply list_fmap_ext. by intros _ [? ?] _.
Qed.

(** What the two sides installed, from their stories and the wires. *)
Lemma stories_agree http (sv : DaisywayServerProtocol (O := FanoutOskHandler))
    (cl : DaisywayClientProtocol (O := OskDeadman)) trs outs inps reqs trc outc inpc gots l2r r2l :
  kme_honest http (sp_etsi_client sv) (cp_etsi_client cl) ->
  cp_protocol_params cl = mirrored (sp_protocol_params sv) ->
  server_story http sv trs outs inps reqs -> client_story http cl trc outc inpc gots ->
  outs = inpc ++ l2r -> outc = inps ++ r2l ->
  let K := (fun '(buf, qk) => client_key cl buf qk) <$> gots in
  server_installs trs `prefix_of` K /\ client_installs trc `prefix_of` K /\
  length K <= S (length (server_installs trs)) /\ length K <= S (length (client_installs trc)).
Proof.
  intros Hkme Hpar Hss Hcs -> -> K.
  set (keys := (fun '(nonce, qk) => server_key sv qk nonce) <$> reqs) in *.
  assert (HK : K `prefix_of` keys) by (by eapply stories_keys).
  destruct Hss as [_ _ Si St Sl], Hcs as [_ _ Cs Ci Cl].
  assert (Hlen : length (server_installs trs) <= length K).
  { unfold K. rewrite length_fmap. rewrite length_app in Cs. lia. }
  split; [|split; [done|split]].
  - destruct (prefix_weak_total (server_installs trs) K keys Si HK) as [|HKs]; [done|].
    apply prefix_length in HKs as Hl'. destruct HKs as [r Hr].
    assert (r = []) as -> by (apply (f_equal length) in Hr; rewrite length_app in Hr;
      destruct r; [done|simpl in Hr; lia]).
    rewrite app_nil_r in Hr. by rewrite Hr.
  - apply prefix_length in HK. unfold keys in HK. rewrite length_fmap in HK. lia.
  - unfold K. rewrite length_fmap. exact Cl.
Qed.

(** ** Exchanges complete *)

(** One exchange: what the two key managers answered, the key and the nonce. *)
Record exchange : Type := mkExchange {
  x_server_answer : outcome http_response;
  x_client_answer : outcome http_response;
  x_qkd_key : Etsi014Key;
  x_nonce : Nonce;
}.

Definition exchange_ok http (server client : Etsi014Connection) (x : exchange) : Prop :=
  http (any_key_uri server) (x_server_answer x) /\
  fetched (any_key_uri server) (x_server_answer x) (x_qkd_key x) /\
  http (specific_key_uri client (id (x_qkd_key x))) (x_client_answer x) /\
  fetched (specific_key_uri client (id (x_qkd_key x))) (x_client_answer x) (x_qkd_key x).

Definition exchange_key (p : DaisywayProtocolParameters) (x : exchange) : Key :=
  derive_daisyway_key p (x_nonce x) (x_qkd_key x).

Definition server_opening (fc : FanoutConnectionHandler) x : list event :=
  [Ev (EHttpGet (any_key_uri (f_etsi_client fc))) (x_server_answer x);
   Ev ERandom (x_nonce x);
   Ev (EWriteAll (as_bytes (request (x_nonce x) (x_qkd_key x)))) (Ok tt)].

Definition server_closing (fc : FanoutConnectionHandler) cid x : list event :=
  [Ev (EReadExact 1) (Ok (RekeyAck_as_bytes REKEY_ACK));
   Ev (ESendManager (COsk (mkOskEvent cid (exchange_key (f_protocol_params fc) x) Fresh))) (Ok tt);
   Ev (ESleep (f_rekey_interval fc)) tt].

Definition server_events fc cid x : list event := server_opening fc x ++ server_closing fc cid x.

Definition client_events (cl : DaisywayClientProtocol (O := OskDeadman)) x : list event :=
  let buf := request (x_nonce x) (x_qkd_key x) in
  client_exchange cl buf (x_client_answer x) ++
  [Ev (ESendDeadman (SetOsk (client_key cl buf (x_qkd_key x)) Fresh)) (Ok tt)].

Lemma client_uri_request (cl : DaisywayClientProtocol (O := OskDeadman)) nonce qk :
  client_uri cl (request nonce qk) = specific_key_uri (cp_etsi_client cl) (id qk).
Proof. unfold client_uri. by rewrite (proj1 (request_fields nonce qk)). Qed.

Lemma server_residue http fc cid (cl : Etsi014Connection) n x :
  exchange_ok http (f_etsi_client fc) cl x ->
  residue (init_task (S n) fc cid) (server_events fc cid x) (init_task n fc cid).
Proof.
  intros (_ & Hf & _). apply residue_under_bind, residue_under_try, residue_forever.
  apply runs_server_turn. exists (x_server_answer x), (x_qkd_key x), (x_nonce x). eexists [_].
  split; [done|]. split; [done|]. by exists (Ok tt), [].
Qed.

Lemma client_residue http server (cl : DaisywayClientProtocol (O := OskDeadman)) m x :
  exchange_ok http server (cp_etsi_client cl) x ->
  residue (client_event_loop (S m) cl) (client_events cl x) (client_event_loop m cl).
Proof.
  intros (_ & _ & _ & Hf). apply residue_forever, runs_client_turn.
  eexists _, (x_client_answer x), (x_qkd_key x), [_]. split; [done|]. rewrite client_uri_request.
  split; [done|]. by exists (Ok tt), [].
Qed.

Lemma opening_wires fc x :
  consumes (server_opening fc x) [] /\
  delivers (server_opening fc x) (as_bytes (request (x_nonce x) (x_qkd_key x))).
Proof.
  split; [by repeat (apply along_then_quiet; [done|])|].
  apply along_quiet; [done|]. apply along_quiet; [done|]. by apply along_one.
Qed.

Lemma closing_wires fc cid x :
  consumes (server_closing fc cid x) (as_bytes (RekeyAck_as_bytes REKEY_ACK)) /\
  delivers (server_closing fc cid x) [].
Proof. split; by repeat (apply along_then_quiet; [done|]). Qed.

Lemma client_wires cl x :
  consumes (client_events cl x) (as_bytes (request (x_nonce x) (x_qkd_key x))) /\
  delivers (client_events cl x) (as_bytes (RekeyAck_as_bytes REKEY_ACK)).
Proof.
  split; [by repeat (apply along_then_quiet; [done|])|].
  apply along_quiet; [done|]. apply along_quiet; [done|]. by repeat (apply along_then_quiet; [done|]).
Qed.

(** One whole exchange between two idle sides leaves them idle again. *)
Lemma exchange_runs http fc cid (cl : DaisywayClientProtocol (O := OskDeadman)) n m x tl tr :
  exchange_ok http (f_etsi_client fc) (cp_etsi_client cl) x ->
  rtc (duplex_step http)
    (mkDuplex (init_task (S n) fc cid) tl (client_event_loop (S m) cl) tr [] [])
    (mkDuplex (init_task n fc cid) (tl ++ server_events fc cid x)
       (client_event_loop m cl) (tr ++ client_events cl x) [] []).
Proof.
  intros Hx. pose proof (server_residue _ _ cid _ n _ Hx) as Hs.
  pose proof (client_residue _ _ _ m _ Hx) as Hc. destruct Hx as (Hh1 & _ & Hh2 & _).
  rewrite <- (client_uri_request cl (x_nonce x)) in Hh2.
  unfold server_events in Hs |- *. apply residue_app in Hs as (q & Hs1 & Hs2).
  destruct (opening_wires fc x) as [Ho1 Ho2], (closing_wires fc cid x) as [Hc1 Hc2].
  destruct (client_wires cl x) as [Hw1 Hw2].
  pose proof (left_runs http _ _ _ Hs1 _ _ tl (client_event_loop (S m) cl) tr [] [] Ho1 Ho2
    ltac:(by repeat constructor) ltac:(by repeat constructor)) as S1.
  pose proof (right_runs http _ _ _ Hc _ _ tr q (tl ++ server_opening fc x) [] [] Hw1 Hw2
    ltac:(by repeat constructor) ltac:(by repeat constructor)) as S2.
  pose proof (left_runs http _ _ _ Hs2 _ _ (tl ++ server_opening fc x) (client_event_loop m cl)
    (tr ++ client_events cl x) [] [] Hc1 Hc2
    ltac:(by repeat constructor) ltac:(by repeat constructor)) as S3.
  rewrite !app_nil_r in *. rewrite app_assoc. etrans; [exact S1|]. etrans; [exact S2|exact S3].
Qed.

Lemma server_events_install fc cid x :
  server_installs (server_events fc cid x) = [exchange_key (f_protocol_params fc) x].
Proof. done. Qed.

Lemma client_events_install fc (cl : DaisywayClientProtocol (O := OskDeadman)) x :
  cp_protocol_params cl = mirrored (f_protocol_params fc) ->
  client_installs (client_events cl x) = [exchange_key (f_protocol_params fc) x].
Proof.
  intros Hpar. unfold client_events, client_installs, exchange_key. simpl.
  destruct (request_fields (x_nonce x) (x_qkd_key x)) as [_ Hnon].
  unfold client_key. by rewrite Hnon, Hpar, derive_mirrored.
Qed.

(** Any number of exchanges, from two fresh sides. *)
Lemma exchanges_run http fc cid (cl : DaisywayClientProtocol (O := OskDeadman)) xs tl tr :
  Forall (exchange_ok http (f_etsi_client fc) (cp_etsi_client cl)) xs ->
  cp_protocol_params cl = mirrored (f_protocol_params fc) ->
  exists tl' tr',
    rtc (duplex_step http)
      (mkDuplex (init_task (length xs) fc cid) tl (client_event_loop (length xs) cl) tr [] [])
      (mkDuplex (init_task 0 fc cid) (tl ++ tl') (client_event_loop 0 cl) (tr ++ tr') [] []) /\
    server_installs tl' = exchange_key (f_protocol_params fc) <$> xs /\
    client_installs tr' = exchange_key (f_protocol_params fc) <$> xs.
Proof.
  intros Hxs Hpar. revert tl tr. induction Hxs as [|x xs Hx _ IH]; intros tl tr.
  - exists [], []. rewrite !app_nil_r. split; [reflexivity|done].
  - destruct (IH (tl ++ server_events fc cid x) (tr ++ client_events cl x)) as (tl' & tr' & Hrun & Hl & Hr).
    exists (server_events fc cid x ++ tl'), (client_events cl x ++ tr').
    rewrite !app_assoc. split.
    + etrans; [by apply exchange_runs|exact Hrun].
    + by rewrite server_installs_app, client_installs_app, (client_events_install fc), Hl, Hr.
Qed.

(** C3. Progress: when the key managers deliver and nobody interferes, any number
    of rekeyings completes, and both sides installed every key. *)
Theorem rekeying_completes http fc cid (cl : DaisywayClientProtocol (O := OskDeadman)) xs :
  Forall (exchange_ok http (f_etsi_client fc) (cp_etsi_client cl)) xs ->
  cp_protocol_params cl = mirrored (f_protocol_params fc) ->
  exists s,
    reachable (fun s => s = duplex_init (init_task (length xs) fc cid) (client_event_loop (length xs) cl))
      (duplex_step http) s /\
    server_installs (left_trace s) = exchange_key (f_protocol_params fc) <$> xs /\
    client_installs (right_trace s) = exchange_key (f_protocol_params fc) <$> xs.
Proof.
  intros Hxs Hpar. destruct (exchanges_run http fc cid cl xs [] [] Hxs Hpar) as (tl' & tr' & Hrun & Hl & Hr).
  eexists. split; [by eexists|]. done.
Qed.

Lemma reachable_agrees http (fc : FanoutConnectionHandler) cid
    (cl : DaisywayClientProtocol (O := OskDeadman)) n m s :
  kme_honest http (f_etsi_client fc) (cp_etsi_client cl) ->
  cp_protocol_params cl = mirrored (f_protocol_params fc) ->
  reachable (fun s => s = duplex_init (init_task n fc cid) (client_event_loop m cl))
    (duplex_step http) s ->
  exists K,
    server_installs (left_trace s) `prefix_of` K /\ client_installs (right_trace s) `prefix_of` K /\
    length K <= S (length (server_installs (left_trace s))) /\
    length K <= S (length (client_installs (right_trace s))).
Proof.
  intros Hkme Hpar Hreach.
  apply duplex_wires in Hreach as (outs & inps & outc & inpc & Hl & Hr & Hw1 & Hw2).
  destruct Hl as [Hl1%residue_partial Hl2 Hl3 Hl4]. destruct Hr as [Hr1%residue_partial Hr2 Hr3 Hr4].
  destruct (server_task_story _ _ _ _ _ _ _ Hl1 Hl4 Hl2 Hl3) as [reqs Hs].
  destruct (client_loop_story _ _ _ _ _ _ Hr1 Hr4 Hr2 Hr3) as [gots Hc].
  eexists. by eapply (stories_agree http (fanout_protocol fc cid) cl).
Qed.

(** C2. Whatever the interleaving, the faults of the network and of the key
    managers' HTTP interface, and wherever a side stopped: the keys the server
    handed on and the keys the client installed are prefixes of one common
    sequence, and neither misses more than its last element. *)
Theorem peers_agree http (fc : FanoutConnectionHandler) cid
    (cl : DaisywayClientProtocol (O := OskDeadman)) n m s :
  kme_honest http (f_etsi_client fc) (cp_etsi_client cl) ->
  cp_protocol_params cl = mirrored (f_protocol_params fc) ->
  reachable (fun s => s = duplex_init (init_task n fc cid) (client_event_loop m cl))
    (duplex_step http) s ->
  exists K,
    server_installs (left_trace s) `prefix_of` K /\ client_installs (right_trace s) `prefix_of` K /\
    length K <= S (length (server_installs (left_trace s))) /\
    length K <= S (length (client_installs (right_trace s))).
Proof. apply reachable_agrees. Qed.
End Peers.

(** ** Witnesses *)
Definition demo_answer : outcome http_response := Ok (mkResponse 200 (Ok demo_key_text)).
Definition demo_http (uri : string) (r : outcome http_response) : Prop := r = demo_answer.
Definition demo_qkd_key : Etsi014Key := mkEtsi014Key uuid_nil demo_key.
#[local] Instance demo_decoder : ReqwestLib := demo_json.

Lemma demo_fetched uri : fetched uri demo_answer demo_qkd_key.
Proof.
  change (etsi_key_from_response (mkResponseKey uuid_nil demo_key_text) = Ok demo_qkd_key).
  apply (etsi_key_decodes uuid_nil demo_key 46 demo_key_text). vm_compute. reflexivity.
Qed.

Lemma demo_honest s c : kme_honest demo_http s c.
Proof.
  intros a qk a' qk' -> Hf -> Hf'. pose proof (demo_fetched (any_key_uri s)) as H1.
  pose proof (demo_fetched (specific_key_uri c (id qk))) as H2. unfold fetched in *. congruence.
Qed.

Definition demo_fanout : FanoutConnectionHandler :=
  mkFanout demo_params (mkConnection "https://kme-a" "sae-b") 120.
Definition demo_client : DaisywayClientProtocol (O := OskDeadman) :=
  mkClientProtocol (mirrored demo_params) (mkConnection "https://kme-b" "sae-a") mkOskDeadman.
Definition demo_exchange : exchange :=
  mkExchange demo_answer demo_answer demo_qkd_key (new_zeroed 32).

Lemma demo_exchange_ok :
  exchange_ok demo_http (f_etsi_client demo_fanout) (cp_etsi_client demo_client) demo_exchange.
Proof. split; [done|]. split; [apply demo_fetched|]. split; [done|]. apply demo_fetched. Qed.

Lemma rekeying_completes_witness : exists s,
  reachable (fun s => s = duplex_init (init_task 2 demo_fanout 0) (client_event_loop 2 demo_client))
    (duplex_step demo_http) s /\
  length (server_installs (left_trace s)) = 2 /\
  client_installs (right_trace s) = server_installs (left_trace s).
Proof.
  destruct (rekeying_completes demo_http demo_fanout 0 demo_client [demo_exchange; demo_exchange])
    as (s & Hs & Hl & Hr).
  - repeat constructor; apply demo_exchange_ok.
  - reflexivity.
  - exists s. split; [exact Hs|]. rewrite Hl, Hr. split; reflexivity.
Defined.

Lemma peers_agree_witness : exists (s : @duplex (control unit unit) (control unit Empty_set)) K,
  length (server_installs (left_trace s)) = 1 /\
  server_installs (left_trace s) `prefix_of` K /\ client_installs (right_trace s) `prefix_of` K.
Proof.
  set (s := mkDuplex (init_task 0 demo_fanout 0) (server_events demo_fanout 0 demo_exchange)
              (client_event_loop 0 demo_client) (client_events demo_client demo_exchange) [] []).
  destruct (peers_agree demo_http demo_fanout 0 demo_client 1 1 s) as (K & Hl & Hr & _).
  - apply demo_honest.
  - reflexivity.
  - eexists. split; [reflexivity|].
    exact (exchange_runs demo_http demo_fanout 0 demo_client 0 0 demo_exchange [] [] demo_exchange_ok).
  - exists s, K. split; [reflexivity|]. split; [exact Hl|exact Hr].
Defined.
