(* ===== verification/Net.v ===== *)
(** * TCP participants
    ([daisyway/src/internal/daisyway/net/tcp_client.rs], [tcp_server/mod.rs],
    [tcp_participant.rs])

    The client connects, runs its protocol, and starts over whatever went
    wrong; the server binds its address and hands over to the connection
    manager. *)

From S2P Require Import Prelude Types Externals RefInstances Effects Etsi014 HashDomain Crypto Osk Deadman Duplex Protocol ConnectionManager Roster Fanout.

Section Net.
Context `{Shake256Lib} `{UuidLib} `{Base64Codec} `{!ReqwestLib}.
Context {O : Type} `{OskHandler O} (prof : profile).

(** ** Client *)
Record DaisywayTcpClient : Type := mkTcpClient {
  tc_protocol_params : DaisywayProtocolParameters;
  tc_endpoint : string;
  tc_etsi_client : Etsi014Connection;
  tc_osk_handler : O;
}.

Definition client_handler (self : DaisywayTcpClient) : DaisywayClientProtocol :=
  mkClientProtocol (tc_protocol_params self) (tc_etsi_client self) (tc_osk_handler self).

Definition event_loop_without_error_handling (fuel : nat) (self : DaisywayTcpClient)
    : proc (control unit Empty_set) :=
  let! _ := Vis (EConnect (tc_endpoint self)) Ret in
  client_event_loop fuel (client_handler self).

(** The body of the client's [loop]; [Break] says that the fuel of the inner
    loop ran out, that is, that the connection is still up. *)
Definition client_attempt (fuel : nat) (self : DaisywayTcpClient) (_ : unit) : proc (control unit unit) :=
  let! res := ptry (event_loop_without_error_handling fuel self) in
  match res with
  | Ok (Continue _) => pure (Break tt)
  | _ =>
      let! _ := sleep 2 in
      pure (Continue tt)
  end.

Definition tcp_client_event_loop (attempts fuel : nat) (self : DaisywayTcpClient)
    : proc (control unit unit) :=
  loop attempts (client_attempt fuel self) tt.

(** ** Server *)
Record DaisywayTcpServer : Type := mkTcpServer {
  ts_protocol_params : DaisywayProtocolParameters;
  ts_listen_addr : string;
  ts_etsi_client : Etsi014Connection;
  ts_osk_handler : O;
  ts_rekey_interval : Z;
}.

(** What every connection task is spawned with ([ConnectionManager::new]). *)
Definition task_settings (self : DaisywayTcpServer) : FanoutConnectionHandler :=
  mkFanout (ts_protocol_params self) (ts_etsi_client self) (ts_rekey_interval self).

(** The manager is dropped when its loop ends; [Continue] says it is running. *)
Definition tcp_server_event_loop (fuel : nat) (self : DaisywayTcpServer)
    : proc (control (ConnectionManager O) Empty_set) :=
  let! _ := Vis (EBind (ts_listen_addr self)) Ret in
  let! c := manager_event_loop prof fuel (manager_new (ts_osk_handler self)) in
  match c with
  | Continue m => pure (Continue m)
  | Break (e, m) =>
      let! _ := drop_manager m in
      Ret (Err e)
  end.

(** ** Either *)
Inductive DaisywayTcpParticipantConfig : Type :=
  | PClient (endpoint : string)
  | PServer (listen : string).

Inductive DaisywayTcpParticipant : Type :=
  | Client (c : DaisywayTcpClient)
  | Server (s : DaisywayTcpServer).

Definition participant_from_config (protocol_params : DaisywayProtocolParameters)
    (config : DaisywayTcpParticipantConfig) (etsi_client : Etsi014Connection) (osk_handler : O)
    (rekey_interval : Z) : DaisywayTcpParticipant :=
  match config with
  | PClient endpoint => Client (mkTcpClient protocol_params endpoint etsi_client osk_handler)
  | PServer listen =>
      Server (mkTcpServer protocol_params listen etsi_client osk_handler rekey_interval)
  end.

(** Whether the participant is still running after the given fuel. *)
Definition participant_event_loop (attempts fuel : nat) (self : DaisywayTcpParticipant) : proc unit :=
  match self with
  | Client c => let! _ := tcp_client_event_loop attempts fuel c in pure tt
  | Server s => let! _ := tcp_server_event_loop fuel s in pure tt
  end.

(** ** The client never gives up *)

(** One failed attempt, with the pause after it. *)
Definition failed_attempt (fuel : nat) (self : DaisywayTcpClient) (t : list event) : Prop :=
  exists t' e, t = t' ++ [Ev (ESleep 2) tt] /\
    runs (event_loop_without_error_handling fuel self) t' (Err e).

Lemma attempt_starts_connecting fuel self t o :
  runs (event_loop_without_error_handling fuel self) t o ->
  exists r t', t = Ev (EConnect (tc_endpoint self)) r :: t'.
Proof. intros (r & t' & -> & _). eauto. Qed.

Lemma runs_client_attempt fuel self t o :
  runs (client_attempt fuel self tt) t o ->
  (o = Ok (Continue tt) /\ failed_attempt fuel self t) \/
  (o = Ok (Break tt) /\ runs (event_loop_without_error_handling fuel self) t (Ok (Continue tt))) \/
  (exists m, o = Panicked m /\ runs (event_loop_without_error_handling fuel self) t (Panicked m)).
Proof.
  intros [(t1 & t2 & r & -> & Hr & Hp & Ht)|(m & Hr & ->)]%runs_bind_try; [|eauto 10].
  destruct r as [[[]|[]]|e|m]; [| |done].
  - destruct Ht as [-> ->]. rewrite app_nil_r. auto.
  - left. destruct Ht as ([] & t3 & -> & -> & ->). split; [done|]. by exists t1, e.
Qed.

(** C22. The client never gives up: it never returns an error.  Its run is a
    sequence of attempts that failed, each one starting with a connection to
    the configured endpoint and followed by exactly one pause of two seconds,
    and then an attempt that is still running (or panicked). *)
Theorem client_never_gives_up attempts fuel self tr o :
  runs (tcp_client_event_loop attempts fuel self) tr o ->
  exists ts rest, tr = mjoin ts ++ rest /\ Forall (failed_attempt fuel self) ts /\
    ((o = Ok (Continue tt) /\ rest = [] /\ length ts = attempts) \/
     (o = Ok (Break tt) /\ runs (event_loop_without_error_handling fuel self) rest (Ok (Continue tt))) \/
     (exists m, o = Panicked m /\ runs (event_loop_without_error_handling fuel self) rest (Panicked m))).
Proof.
  unfold tcp_client_event_loop. revert tr. induction attempts as [|n IH]; intros tr Hr; cbn [loop] in Hr.
  - destruct Hr as [-> ->]. exists [], []. split; [done|]. split; [by apply Forall_nil|auto].
  - apply runs_bind in Hr as [(t1 & t2 & c & -> & Ha & Hb)|[(e & Ha & ->)|(m & Ha & ->)]];
      apply runs_client_attempt in Ha as [[Ho Hf]|[[Ho Hf]|(m' & Ho & Hf)]]; try done.
    + injection Ho as ->. apply IH in Hb as (ts & rest & -> & Hall & Hend).
      exists (t1 :: ts), rest. split; [by rewrite app_assoc|]. split; [by constructor|].
      destruct Hend as [(-> & -> & <-)|Hend]; auto.
    + injection Ho as ->. destruct Hb as [-> ->]. exists [], t1. rewrite app_nil_r.
      split; [done|]. split; [by apply Forall_nil|auto].
    + injection Ho as <-. exists [], tr. split; [done|]. split; [by apply Forall_nil|eauto].
Qed.

(** ** The server cleans up behind itself *)

(** C18. However the server ends after binding, every task it started is aborted
    exactly once; before that nothing was started. *)
Theorem server_tears_down `{!QuietHandler O} fuel self tr e :
  (Z.of_nat fuel < u64_modulus)%Z ->
  runs (tcp_server_event_loop fuel self) tr (Err e) ->
  tr = [Ev (EBind (ts_listen_addr self)) (Err e)] \/
  (exists tr', tr = Ev (EBind (ts_listen_addr self)) (Ok tt) :: tr' /\ spawned tr' ≡ₚ aborted tr').
Proof.
  intros Hf ([[]|e'|m] & t1 & -> & Hr);
    [|destruct Hr as [-> Ho]; injection Ho as <-; by left|by destruct Hr].
  right. exists t1. split; [done|]. cbn [pbind] in Hr.
  apply runs_bind in Hr as [(t2 & t3 & c & -> & Hm & Hr)|[(e' & Hm & _)|(m & Hm & ?)]]; [| |done].
  - destruct c as [m|[e' m]]; [by destruct Hr|].
    apply runs_bind in Hr as [(t4 & t5 & [] & -> & Hd & [-> _])|[(e2 & Hd & _)|(m2 & Hd & ?)]]; [| |done].
    + rewrite app_nil_r. by eapply manager_break_handles.
    + by apply runs_drop_manager in Hd as [_ ?].
  - by apply manager_loop_no_error in Hm.
Qed.
End Net.

(** ** Witnesses *)
Definition demo_tcp_client : DaisywayTcpClient (O := OskDeadman) :=
  mkTcpClient demo_params "peer:9000" (mkConnection "http://kme" "a") mkOskDeadman.
Definition demo_tcp_server : DaisywayTcpServer (O := OskDeadman) :=
  mkTcpServer demo_params "0.0.0.0:9000" (mkConnection "http://kme" "b") mkOskDeadman 120.

(** A refused connection, a pause, and a second refusal. *)
Definition refused : list event :=
  [Ev (EConnect "peer:9000") (Err (EIo (OtherKind 111))); Ev (ESleep 2) tt].

Lemma client_never_gives_up_witness :
  exists ts, refused ++ refused = mjoin ts /\ length ts = 2.
Proof.
  destruct (client_never_gives_up (H2 := demo_json) 2 5 demo_tcp_client (refused ++ refused)
    (Ok (Continue tt))) as (ts & rest & Ht & _ & [(_ & -> & Hl)|[[Ho _]|(m & Ho & _)]]).
  - apply replay_runs. vm_compute. reflexivity.
  - exists ts. rewrite app_nil_r in Ht. split; [exact Ht|exact Hl].
  - discriminate Ho.
  - discriminate Ho.
Defined.

(** Two connections, and then the listener fails. *)
Definition demo_server_trace : list event :=
  [Ev (EBind "0.0.0.0:9000") (Ok tt);
   Ev ESelect (demo_accept 7); Ev (ESpawn 0 7) 100%Z;
   Ev ESelect (demo_accept 8); Ev (ESpawn 1 8) 101%Z;
   Ev ESelect (Accepted (Err (EIo (OtherKind 24))));
   Ev (EAbort 100) tt; Ev (EAbort 101) tt].

Lemma server_tears_down_witness : spawned (drop 1 demo_server_trace) ≡ₚ aborted (drop 1 demo_server_trace).
Proof.
  destruct (server_tears_down DevProfile 3 demo_tcp_server demo_server_trace (EIo (OtherKind 24)))
    as [Ht|(tr' & Ht & Hp)].
  - vm_compute. reflexivity.
  - apply replay_runs. vm_compute. reflexivity.
  - apply (f_equal length) in Ht. discriminate Ht.
  - apply (f_equal (drop 1)) in Ht. change (drop 1 demo_server_trace = tr') in Ht.
    rewrite Ht. exact Hp.
Defined.
