(* ===== verification/Channels.v ===== *)
(** * Who uses which channel

    The server has two channels: tasks send notifications to the connection
    manager, and the manager sends requests to the dead-man worker.  Nobody
    sends against that direction, and everybody reads only what is meant for
    him - whatever the answers of the environment. *)

From S2P Require Import Prelude Types Externals Effects Etsi014 HashDomain Crypto Osk Deadman Duplex Protocol ConnectionManager Fanout Net.

Inductive channel : Type := Notifications | Requests.

#[export] Instance channel_eq_dec : EqDecision channel.
Proof. solve_decision. Defined.

(** The channel an operation sends to, and the one it receives from. *)
Definition sends (e : effect) : option channel :=
  match e with
  | ESendManager _ => Some Notifications
  | ESendDeadman _ => Some Requests
  | _ => None
  end.

Definition receives (e : effect) : option channel :=
  match e with
  | ESelect => Some Notifications
  | ETimeoutRecv _ => Some Requests
  | _ => None
  end.

(** Operations that may send to [out] and receive from [inp]. *)
Definition between_channels (inp out : option channel) (e : effect) : bool :=
  (bool_decide (sends e = None) || bool_decide (sends e = out)) &&
  (bool_decide (receives e = None) || bool_decide (receives e = inp)).

Abbreviation task_op := (between_channels None (Some Notifications)).
Abbreviation manager_op := (between_channels (Some Notifications) (Some Requests)).
Abbreviation worker_op := (between_channels (Some Requests) None).
Abbreviation no_channel_op := (between_channels None None).

Lemma op_sends inp out e c : between_channels inp out e = true -> sends e = Some c -> out = Some c.
Proof.
  unfold between_channels. intros [[Hn%bool_decide_eq_true_1|Ho%bool_decide_eq_true_1]%orb_true_iff _]%andb_true_iff; congruence.
Qed.

Lemma no_channel_weaken inp out e : no_channel_op e = true -> between_channels inp out e = true.
Proof. by destruct e. Qed.

(** A handler of output keys for the outside world uses no channel. *)
Class OutsideHandler (H : Type) `{OskHandler H} : Prop :=
  outside_set_osk h k r : performs no_channel_op (set_osk (H := H) h k r).

#[export] Instance outfile_outside `{Base64Codec} : OutsideHandler OutfileOskHandler.
Proof. intros h k r. unfold set_osk, outfile_handler, outfile_set_osk. performs_steps. Qed.

#[export] Instance wireguard_outside : OutsideHandler WireGuardOskHandler.
Proof. intros h k r. unfold set_osk, wireguard_handler, wireguard_set_osk. performs_steps. Qed.

(** ** Tasks *)
Section Task.
Context `{Shake256Lib} `{UuidLib} `{Base64Codec} `{!ReqwestLib}.

Lemma fetch_key_performs uri : performs task_op (fetch_key_internal uri).
Proof. unfold fetch_key_internal, http_get. performs_steps. Qed.

Lemma negotiate_key_performs (self : DaisywayServerProtocol (O := FanoutOskHandler)) :
  performs task_op (negotiate_key self).
Proof.
  unfold negotiate_key, fetch_any_key, RekeyReq_new, random_key, write_all, read_exact.
  performs_steps. apply fetch_key_performs.
Qed.

Lemma init_task_performs fuel self id : performs task_op (init_task fuel self id).
Proof.
  unfold init_task, fanout_event_loop, server_event_loop, forever, server_turn, sleep,
    set_fresh_osk, set_osk, fanout_handler, fanout_set_osk, send_manager.
  performs_steps. apply negotiate_key_performs.
Qed.
End Task.

(** ** The connection manager *)
Section Manager.
Context (prof : profile).
Implicit Types m : ConnectionManager OskDeadman.

Lemma drop_option_performs h : performs manager_op (drop_option h).
Proof. unfold drop_option, drop_handle. performs_steps. Qed.

Lemma drop_handles_performs hs : performs manager_op (drop_handles hs).
Proof. induction hs as [|h hs IH]; [done|]. by split. Qed.

Lemma deadman_performs (h : OskDeadman) k r : performs manager_op (set_osk h k r).
Proof. unfold set_osk, deadman_handler, deadman_set_osk, send_deadman. performs_steps. Qed.

Hint Resolve drop_option_performs drop_handles_performs deadman_performs : core.

Lemma on_event_performs m ev : performs manager_op (on_event prof m ev).
Proof.
  unfold on_event, on_accept, prune, drop_handle, on_exit, on_osk, on_osk_from_stale,
    on_osk_from_active, on_osk_from_budding, split_off, drop_map.
  performs_steps; auto.
Qed.

Lemma tcp_server_performs `{UuidLib} fuel (self : DaisywayTcpServer (O := OskDeadman)) :
  performs manager_op (tcp_server_event_loop prof fuel self).
Proof.
  unfold tcp_server_event_loop, manager_event_loop, manager_turn, manager_next, drop_manager, drop_map.
  performs_steps; auto using on_event_performs.
Qed.
End Manager.

(** ** The worker *)
Lemma worker_performs {Broker} `{OutsideHandler Broker} instant_max runtime fuel (self : DeadmanWorker (Broker := Broker)) :
  performs worker_op (worker_thread instant_max runtime fuel self).
Proof.
  assert (Hset : forall k r, performs worker_op (set_osk (broker self) k r))
    by (intros k r; eapply performs_weaken, outside_set_osk; apply no_channel_weaken).
  unfold worker_thread, thread_run, worker_event_loop, worker_turn, erase_stale_osk, random_key.
  performs_steps; auto.
Qed.
