(* ===== verification/ServerTraces.v ===== *)
(** * What the procedures of the server have done at any moment

    The server's main procedure ([Net.tcp_server_event_loop]) may be stopped
    anywhere, in the middle of a handler or while it drops its state.  This
    file says what its trace looks like then: complete turns, and the part of
    one more that was performed ([server_activity]).  From that follow what
    went through the channels and which tasks are left. *)

From S2P Require Import Prelude Types Externals RefInstances Effects Etsi014 HashDomain Crypto Osk Deadman Duplex Protocol ConnectionManager Roster Fanout Net.

(** ** Partial and complete traces *)
Lemma partial_extends {A} (p : proc A) tr : partial p tr -> exists t o, runs p (tr ++ t) o.
Proof.
  revert p. induction tr as [|ev tr IH]; intros p.
  - intros _. induction p as [o|e k IHp]; [by exists [], o|].
    destruct (IHp (default_answer e)) as (t & o & Hr).
    exists (Ev e (default_answer e) :: t), o. simpl in *. eauto.
  - destruct p as [o|e k]; [done|]. intros (a & -> & (t & o & Hr)%IH).
    exists t, o. simpl. eauto.
Qed.

Lemma residue_runs {A} (p : proc A) tr o : residue p tr (Ret o) -> runs p tr o.
Proof. remember (Ret o) as q eqn:Hq. induction 1; subst; simpl; eauto. Qed.

(** A partial run of a loop: nothing yet, or a first turn and the rest. *)
Lemma partial_loop {S A} n (body : S -> proc (control S A)) s tr :
  partial (loop n body s) tr ->
  tr = [] \/ exists n', n = Datatypes.S n' /\
    (partial (body s) tr \/ exists t1 t2 c, tr = t1 ++ t2 /\ runs (body s) t1 (Ok c) /\
       match c with Continue s' => partial (loop n' body s') t2 | Break _ => t2 = [] end).
Proof.
  destruct n as [|n]; cbn [loop]; intros Hp.
  - left. by apply partial_Ret in Hp.
  - right. exists n. split; [done|].
    apply partial_bind in Hp as [Hp|(t1 & t2 & c & -> & Hr & Hp)]; [by left|].
    right. exists t1, t2, c. destruct c; [done|]. by apply partial_Ret in Hp as ->.
Qed.

(** ** What a trace moves through the channels *)

(** Read by the manager, handed to the dead-man switch, posted by a task,
    received by the worker; the connections tasks were started for; and the
    streams that were accepted, and those that tasks were given. *)
Definition notified_by (ev : event) : option ConnectionHandlerEvent :=
  match ev with
  | Ev e a => match e return answer e -> option ConnectionHandlerEvent with
              | ESelect => fun sel => match sel with Notified n => n | _ => None end
              | _ => fun _ => None
              end a
  end.

Definition requested_by (ev : event) : option DeadmanRequest :=
  match ev with
  | Ev e a => match e return answer e -> option DeadmanRequest with
              | ESendDeadman req => fun r => if is_ok r then Some req else None
              | _ => fun _ => None
              end a
  end.

Definition posted_by (ev : event) : option ConnectionHandlerEvent :=
  match ev with
  | Ev e a => match e return answer e -> option ConnectionHandlerEvent with
              | ESendManager n => fun r => if is_ok r then Some n else None
              | _ => fun _ => None
              end a
  end.

Definition received_by (ev : event) : option DeadmanRequest :=
  match ev with
  | Ev e a => match e return answer e -> option DeadmanRequest with
              | ETimeoutRecv _ => fun r => match r with Some req => req | None => None end
              | _ => fun _ => None
              end a
  end.

Definition started_by (ev : event) : option ConnectionId :=
  match ev_effect ev with ESpawn id _ => Some id | _ => None end.

Definition admitted_by (ev : event) : option Z :=
  match ev with
  | Ev e a => match e return answer e -> option Z with
              | ESelect => fun sel => match sel with Accepted (Ok a) => Some (stream a) | _ => None end
              | _ => fun _ => None
              end a
  end.

Definition opened_by (ev : event) : option Z :=
  match ev_effect ev with ESpawn _ s => Some s | _ => None end.

Definition notified (tr : list event) : list ConnectionHandlerEvent := base.omap notified_by tr.
Definition requested (tr : list event) : list DeadmanRequest := base.omap requested_by tr.
Definition posted (tr : list event) : list ConnectionHandlerEvent := base.omap posted_by tr.
Definition received (tr : list event) : list DeadmanRequest := base.omap received_by tr.
Definition started (tr : list event) : list ConnectionId := base.omap started_by tr.
Definition admitted (tr : list event) : list Z := base.omap admitted_by tr.
Definition opened (tr : list event) : list Z := base.omap opened_by tr.

Lemma notified_app t1 t2 : notified (t1 ++ t2) = notified t1 ++ notified t2.
Proof. apply omap_app. Qed.
Lemma requested_app t1 t2 : requested (t1 ++ t2) = requested t1 ++ requested t2.
Proof. apply omap_app. Qed.
Lemma posted_app t1 t2 : posted (t1 ++ t2) = posted t1 ++ posted t2.
Proof. apply omap_app. Qed.
Lemma received_app t1 t2 : received (t1 ++ t2) = received t1 ++ received t2.
Proof. apply omap_app. Qed.
Lemma started_app t1 t2 : started (t1 ++ t2) = started t1 ++ started t2.
Proof. apply omap_app. Qed.
Lemma admitted_app t1 t2 : admitted (t1 ++ t2) = admitted t1 ++ admitted t2.
Proof. apply omap_app. Qed.
Lemma opened_app t1 t2 : opened (t1 ++ t2) = opened t1 ++ opened t2.
Proof. apply omap_app. Qed.

Lemma notified_aborts hs : notified (abort_events hs) = [].
Proof. by induction hs. Qed.
Lemma requested_aborts hs : requested (abort_events hs) = [].
Proof. by induction hs. Qed.
Lemma started_aborts hs : started (abort_events hs) = [].
Proof. by induction hs. Qed.
Lemma admitted_aborts hs : admitted (abort_events hs) = [].
Proof. by induction hs. Qed.
Lemma opened_aborts hs : opened (abort_events hs) = [].
Proof. by induction hs. Qed.
#[export] Hint Rewrite notified_app requested_app posted_app received_app started_app admitted_app opened_app
  notified_aborts requested_aborts started_aborts admitted_aborts opened_aborts : daisy.

Lemma posted_reports tr : posted tr `sublist_of` reports tr.
Proof.
  induction tr as [|[e a] tr IH]; [done|]. unfold posted, reports in *. cbn.
  destruct e; cbn; try done. destruct (is_ok a); by constructor.
Qed.

(** The key an output-key event asks the dead-man switch to install. *)
Definition osk_request (ev : OskEvent) : DeadmanRequest := SetOsk (osk_key ev) (osk_reason ev).
Definition osk_of (n : ConnectionHandlerEvent) : option OskEvent :=
  match n with COsk ev => Some ev | CExit _ => None end.

Lemma filter_sublist {A} (P : A -> Prop) `{!forall x, Decision (P x)} (l1 l2 : list A) :
  l1 `sublist_of` l2 -> filter P l1 `sublist_of` filter P l2.
Proof.
  induction 1 as [|x l1 l2 _ IH|x l1 l2 _ IH]; rewrite ?filter_cons; [done|case_decide|case_decide];
    try done; by constructor.
Qed.

Lemma prefix_submseteq {A} (l1 l2 : list A) : l1 `prefix_of` l2 -> l1 ⊆+ l2.
Proof. intros [k ->]. by apply submseteq_inserts_r. Qed.

Lemma omap_osks (l : list OskEvent) : base.omap osk_of (COsk <$> l) = l.
Proof. induction l as [|ev l IH]; [done|]. cbn. f_equal. exact IH. Qed.

(** The worker found that every sender is gone; the manager, that the worker is. *)
Definition sees_closed (ev : event) : bool :=
  match ev with
  | Ev e a => match e return answer e -> bool with
              | ETimeoutRecv _ => fun r => match r with Some None => true | _ => false end
              | _ => fun _ => false
              end a
  end.

Definition refused (ev : event) : bool :=
  match ev with
  | Ev e a => match e return answer e -> bool with
              | ESendDeadman _ => fun r => match r with Err _ => true | _ => false end
              | _ => fun _ => false
              end a
  end.

(** ** What one event makes the manager do *)
Section Manager.
Context (prof : profile).
Implicit Types m : ConnectionManager OskDeadman.

Inductive footprint m : StreamEvent -> list event -> Prop :=
  | fp_accept ev victim h :
      evicted (budding_connections m) victim ->
      footprint m (SAccept ev)
        (abort_events (option_list (snd <$> victim)) ++ [Ev (ESpawn (next_connection_id m) (stream ev)) h])
  | fp_exit ev :
      footprint m (SExit ev) (abort_events (option_list (connections m !! exit_connection_id ev)))
  | fp_ignored ev : footprint m (SOsk ev) []
  | fp_forwarded ev old rest r :
      is_Some (connections m !! osk_connection_id ev) ->
      old ++ rest ⊆+ silenced m (osk_connection_id ev) ->
      footprint m (SOsk ev)
        (abort_events old ++ [Ev (ESendDeadman (osk_request ev)) r] ++ abort_events rest).

Lemma on_event_footprint high m ev t o :
  manager_wf high m -> (next_connection_id m + 1 < u64_modulus)%Z ->
  runs (on_event prof m ev) t o -> footprint m ev t.
Proof.
  intros Hwf Hnext Hr. destruct ev as [ev|ev|ev]; cbn [on_event] in Hr.
  - apply (on_accept_effect _ _ _ _ _ _ Hwf Hnext) in Hr as (victim & h & Hv & -> & _).
    by constructor.
  - apply (on_exit_effect _ _ _ _ _ Hwf) in Hr as (-> & _). constructor.
  - apply (on_osk_effect _ _ _ _ _ Hwf) in Hr.
    destruct Hr as [_|h old rest t r m' Hc ->%runs_deadman _ Hsil _ _ _ _ _|h old t msg Hc ->%runs_deadman Hsil].
    + constructor.
    + apply fp_forwarded; [by eexists|]. by rewrite Hsil.
    + apply (fp_forwarded m ev old []); [by eexists|]. by rewrite app_nil_r.
Qed.

Lemma partial_on_event high m ev t :
  manager_wf high m -> (next_connection_id m + 1 < u64_modulus)%Z ->
  partial (on_event prof m ev) t -> exists f, footprint m ev f /\ t `prefix_of` f.
Proof.
  intros Hwf Hnext (t' & o & Hr)%partial_extends.
  apply (on_event_footprint _ _ _ _ _ Hwf Hnext) in Hr. exists (t ++ t'). split; [done|]. by exists t'.
Qed.

Lemma footprint_notified m ev f : footprint m ev f -> notified f = [].
Proof. destruct 1; by autorewrite with daisy. Qed.

Lemma footprint_started m ev f :
  footprint m ev f -> started f = match ev with SAccept _ => [next_connection_id m] | _ => [] end.
Proof. destruct 1; by autorewrite with daisy. Qed.

Lemma footprint_admitted m ev f : footprint m ev f -> admitted f = [].
Proof. destruct 1; by autorewrite with daisy. Qed.

Lemma footprint_opened m ev f :
  footprint m ev f -> opened f = match ev with SAccept ev => [stream ev] | _ => [] end.
Proof. destruct 1; by autorewrite with daisy. Qed.

(** At most one key is handed on, that of the event, from a live connection. *)
Lemma footprint_requested m ev f :
  footprint m ev f ->
  requested f = [] \/ exists osk, ev = SOsk osk /\
    forwards m ev = Some (osk_connection_id osk) /\ requested f = [osk_request osk].
Proof.
  destruct 1 as [ev victim h Hv|ev|ev|ev old rest r [h Hc] Hs]; autorewrite with daisy; auto.
  rewrite app_nil_r. destruct r as [[]|e|msg]; [|by left..].
  right. exists ev. by rewrite (forwards_osk _ _ _ Hc).
Qed.

(** The tasks that are left in the middle of an event. *)
Definition balanced m (t : list event) : Prop :=
  exists rest, handles m ++ spawned t ≡ₚ rest ++ aborted t /\ length rest <= S MAX_BUDDING_CONNECTIONS.

Lemma handles_length high m :
  manager_wf high m -> length (handles m) <= S (size (budding_connections m)).
Proof.
  intros Hwf. rewrite (handles_alt _ _ Hwf), length_app, length_fmap, length_map_to_list.
  destruct (active_connection m); simpl; lia.
Qed.

Lemma silenced_submseteq m k : silenced m k ⊆+ handles m.
Proof.
  unfold silenced, handles. rewrite (handles_split (fun kv => kv.1 < k)%Z (connections m)).
  by apply submseteq_inserts_r.
Qed.

Lemma balanced_aborts m t :
  length (handles m) <= S MAX_BUDDING_CONNECTIONS ->
  spawned t = [] -> aborted t ⊆+ handles m -> balanced m t.
Proof.
  intros Hl Hs [k Hk]%submseteq_Permutation. exists k. rewrite Hs, app_nil_r.
  split; [by rewrite Hk, (Permutation_app_comm k)|].
  apply Permutation_length in Hk. rewrite length_app in Hk. lia.
Qed.

Lemma footprint_balanced high m ev f t :
  manager_wf high m -> footprint m ev f -> t `prefix_of` f -> balanced m t.
Proof.
  intros Hwf Hf Hp. pose proof (handles_length _ _ Hwf) as Hlen. pose proof (wf_size _ _ Hwf) as Hsize.
  assert (Hab : aborted t `prefix_of` aborted f) by by apply prefix_omap.
  assert (Hsp : spawned t `prefix_of` spawned f) by by apply prefix_omap.
  destruct Hf as [ev victim h Hv|ev|ev|ev old rest r Hc Hs].
  - apply prefix_of_snoc in Hp as [Hp| ->].
    + clear Hab Hsp. apply (prefix_omap spawned_by) in Hp as Hsp. apply (prefix_omap aborted_by) in Hp as Hab.
      fold (spawned t) (aborted t) (spawned (abort_events (option_list (snd <$> victim))))
        (aborted (abort_events (option_list (snd <$> victim)))) in Hsp, Hab.
      autorewrite with daisy in Hsp, Hab.
      apply balanced_aborts; [lia|by apply prefix_nil_inv in Hsp|].
      etrans; [apply (prefix_submseteq _ _ Hab)|].
      rewrite (handles_alt _ _ Hwf), (without_handles _ _ _ Hwf Hv).
      by apply submseteq_inserts_l, submseteq_inserts_r.
    + exists (h :: option_list (snd <$> active_connection m) ++
                (map_to_list (without victim (budding_connections m))).*2).
      autorewrite with daisy. rewrite (handles_alt _ _ Hwf), (without_handles _ _ _ Hwf Hv). split.
      * simpl. rewrite app_nil_r. rewrite (Permutation_app_comm _ [h]). simpl. apply perm_skip.
        rewrite <- app_assoc. apply Permutation_app_head, Permutation_app_comm.
      * pose proof (without_handles _ _ _ Hwf Hv) as Hw. apply Permutation_length in Hw.
        rewrite !length_app, !length_fmap, !length_map_to_list in *.
        unfold evicted in Hv.
        destruct victim as [[k hv]|], (active_connection m); simpl in *;
          rewrite ?length_fmap, ?length_map_to_list; simpl in *; lia.
  - autorewrite with daisy in Hab, Hsp. apply balanced_aborts; [lia|by apply prefix_nil_inv in Hsp|].
    etrans; [apply (prefix_submseteq _ _ Hab)|].
    destruct (connections m !! exit_connection_id ev) as [h|] eqn:Hc; [|apply submseteq_nil_l].
    unfold handles. rewrite (handles_delete _ _ _ Hc). by apply submseteq_skip, submseteq_nil_l.
  - apply prefix_nil_inv in Hab, Hsp. apply balanced_aborts; [lia|done|rewrite Hab; apply submseteq_nil_l].
  - autorewrite with daisy in Hab, Hsp. simpl in Hab, Hsp.
    apply balanced_aborts; [lia|by apply prefix_nil_inv in Hsp|].
    etrans; [apply (prefix_submseteq _ _ Hab)|]. etrans; [done|]. apply silenced_submseteq.
Qed.
End Manager.

(** ** The whole server *)
Section Server.
Context (prof : profile).
Implicit Types m : ConnectionManager OskDeadman.

(** The handles in the order in which dropping the manager aborts them. *)
Definition held m : list Handle :=
  option_list (snd <$> active_connection m) ++ (entries (budding_connections m)).*2.

Lemma held_handles high m : manager_wf high m -> held m ≡ₚ handles m.
Proof. intros Hwf. unfold held. by rewrite drop_map_handles, (handles_alt _ _ Hwf). Qed.

(** What was performed of the last turn, and of dropping the state after it. *)
Inductive turn_so_far m : list event -> Prop :=
  | tf_nothing : turn_so_far m []
  | tf_handling sel ev t :
      select_event sel = Some ev -> partial (on_event prof m ev) t ->
      turn_so_far m (Ev ESelect sel :: t)
  | tf_stopped sel hs :
      select_event sel = None -> hs `prefix_of` held m ->
      turn_so_far m (Ev ESelect sel :: abort_events hs)
  | tf_failed sel ev t e m' hs :
      select_event sel = Some ev -> runs (on_event prof m ev) t (Ok (Err e, m')) ->
      hs `prefix_of` held m' ->
      turn_so_far m (Ev ESelect sel :: t ++ abort_events hs).

(** What was performed of the server's procedure with fuel for [n] turns. *)
Inductive server_activity (n : nat) (srv : DaisywayTcpServer (O := OskDeadman)) : list event -> Prop :=
  | sa_idle : server_activity n srv []
  | sa_turns r l m t :
      served prof (manager_new (ts_osk_handler srv)) l m -> length l <= n ->
      turn_so_far m t -> t = [] \/ length l < n ->
      server_activity n srv (Ev (EBind (ts_listen_addr srv)) r :: turns_trace l ++ t).

Lemma partial_drop_manager m t :
  partial (drop_manager m) t -> exists hs, t = abort_events hs /\ hs `prefix_of` held m.
Proof.
  intros (t' & o & [Ht _]%runs_drop_manager)%partial_extends. fold (held m) in Ht.
  exists (take (length t) (held m)). split; [|apply take_prefix].
  unfold abort_events in *. by rewrite fmap_take, <- Ht, take_app_length.
Qed.

Lemma partial_manager_turn m t : partial (manager_turn prof m) t -> turn_so_far m t.
Proof.
  destruct t as [|ev t]; [constructor|]. intros (sel & -> & Hp).
  assert (Hnext : forall ev, partial (manager_next prof m ev) t -> partial (on_event prof m ev) t).
  { intros ev [?|(t1 & t2 & [[[]|e|msg] m1] & -> & Hr & Ht)]%partial_bind; [done|..];
      apply partial_Ret in Ht as ->; rewrite app_nil_r; by eapply runs_partial. }
  assert (Hstop : select_event sel = None -> t = [] -> turn_so_far m (Ev ESelect sel :: t)).
  { intros Hsel ->. apply (tf_stopped m _ []); [done|apply prefix_nil]. }
  destruct sel as [[ev|e|msg]|[n|]]; cbn [pbind] in Hp.
  - eapply tf_handling; [done|by apply Hnext].
  - apply Hstop; [done|by apply partial_Ret in Hp].
  - apply Hstop; [done|by apply partial_Ret in Hp].
  - eapply tf_handling; [done|by apply Hnext].
  - apply Hstop; [done|by apply partial_Ret in Hp].
Qed.

Lemma partial_manager_loop n m tr :
  partial (manager_event_loop prof n m) tr ->
  exists l m1 t, served prof m l m1 /\ tr = turns_trace l ++ t /\ turn_so_far m1 t /\
    length l <= n /\ (t = [] \/ length l < n).
Proof.
  unfold manager_event_loop. revert m tr. induction n as [|n IH]; intros m tr Hp;
    apply partial_loop in Hp as [->|(n' & Hn & Hp)].
  - exists [], m, []. repeat constructor.
  - done.
  - exists [], m, []. split; [constructor|]. split; [done|]. split; [constructor|]. simpl. auto with lia.
  - injection Hn as <-. destruct Hp as [Hp|(t1 & t2 & [m1|[e m1]] & -> & Hr & Hp)].
    + exists [], m, tr. split; [constructor|]. split; [done|].
      split; [by apply partial_manager_turn|]. simpl. auto with lia.
    + apply runs_manager_turn in Hr as (sel & ev & t & -> & Hsel & Hev).
      apply IH in Hp as (l & m2 & t3 & Hs & -> & Ht & Hl & Hl').
      exists (mkTurn m sel ev t :: l), m2, t3. split; [by econstructor|].
      split; [unfold turns_trace; simpl; by rewrite <- app_assoc|]. split; [done|]. simpl.
      split; [lia|]. destruct Hl'; [by left|right; lia].
    + subst. exists [], m, t1. rewrite app_nil_r. split; [constructor|]. split; [done|].
      split; [by eapply partial_manager_turn, runs_partial|]. simpl. auto with lia.
Qed.

Lemma partial_tcp_server n srv tr :
  partial (tcp_server_event_loop prof n srv) tr -> server_activity n srv tr.
Proof.
  destruct tr as [|ev tr]; [constructor|]. intros (r & -> & Hp).
  destruct r as [[]|e|msg]; cbn [pbind] in Hp;
    [|apply partial_Ret in Hp as ->; apply (sa_turns n srv _ [] (manager_new (ts_osk_handler srv)) []); simpl; [constructor|lia|constructor|by left]..].
  apply partial_bind in Hp as [Hp|(t1 & t2 & c & -> & Hr & Hp)].
  - apply partial_manager_loop in Hp as (l & m & t & Hs & -> & Ht & Hl & Hl'). by eapply sa_turns.
  - destruct c as [m|[e m']].
    + apply partial_Ret in Hp as ->. rewrite app_nil_r.
      apply runs_partial, partial_manager_loop in Hr as (l & m1 & t & Hs & -> & Ht & Hl & Hl').
      by eapply sa_turns.
    + assert (Hd : exists hs, t2 = abort_events hs /\ hs `prefix_of` held m').
      { apply partial_bind in Hp as [Hp|(t3 & t4 & [] & -> & Hd & ->%partial_Ret)];
          [|apply runs_partial in Hd; rewrite app_nil_r]; by apply partial_drop_manager. }
      destruct Hd as (hs & -> & Hhs).
      apply runs_manager_loop_break in Hr as (l & m1 & t & Hs & Hl & -> & Ht).
      rewrite <- app_assoc. eapply sa_turns; [done|lia| |by right].
      apply runs_turn_break in Ht as (sel & t' & -> & [[-> [= -> ->]]|[(-> & -> & ->)|(ev & Hsel & Hev)]]).
      * by apply tf_stopped.
      * by apply tf_stopped.
      * by eapply tf_failed.
Qed.
(** *** Keys, connections and tasks along the turns *)

(** [log] is what was handed on, out of what was read. *)
Definition logged (tr : list event) (log : list OskEvent) : Prop :=
  requested tr = osk_request <$> log /\ log `sublist_of` base.omap osk_of (notified tr).

Lemma logged_app t1 t2 l1 l2 : logged t1 l1 -> logged t2 l2 -> logged (t1 ++ t2) (l1 ++ l2).
Proof.
  intros [Hr1 Hs1] [Hr2 Hs2]. split.
  - by rewrite requested_app, fmap_app, Hr1, Hr2.
  - rewrite notified_app, omap_app. by apply sublist_app.
Qed.

Lemma logged_quiet t : requested t = [] -> logged t [].
Proof. intros Hr. split; [by rewrite Hr|apply sublist_nil_l]. Qed.

Lemma turn_logged m sel ev f t :
  select_event sel = Some ev -> footprint m ev f -> t `prefix_of` f ->
  exists log, logged (Ev ESelect sel :: t) log /\
    (log = [] \/ exists osk, log = [osk] /\ forwards m ev = Some (osk_connection_id osk)).
Proof.
  intros Hsel Hf Hp. pose proof (prefix_omap requested_by _ _ Hp) as Hreq.
  change (requested t `prefix_of` requested f) in Hreq.
  destruct (footprint_requested _ _ _ Hf) as [Hn|(osk & -> & Hfw & Hn)]; rewrite Hn in Hreq.
  - exists []. split; [|by left]. apply logged_quiet. by apply prefix_nil_inv in Hreq.
  - apply (prefix_of_snoc _ []) in Hreq as [Hreq|Hreq].
    + exists []. split; [|by left]. apply logged_quiet. by apply prefix_nil_inv in Hreq.
    + exists [osk]. split; [|by right; eauto]. apply select_osk in Hsel as ->. split; [done|].
      by apply sublist_skip, sublist_nil_l.
Qed.

Lemma on_event_next high m ev t r m' :
  manager_wf high m -> (next_connection_id m + 1 < u64_modulus)%Z ->
  runs (on_event prof m ev) t (Ok (r, m')) ->
  next_connection_id m' = (next_connection_id m + Z.of_nat (length (started t)))%Z.
Proof.
  intros Hwf Hnext Hr.
  rewrite (footprint_started _ _ _ (on_event_footprint _ _ _ _ _ _ Hwf Hnext Hr)).
  destruct ev as [ev|ev|ev]; cbn [on_event] in Hr.
  - apply (on_accept_effect _ _ _ _ _ _ Hwf Hnext) in Hr as (? & ? & _ & _ & Ho).
    by injection Ho as -> ->.
  - apply (on_exit_effect _ _ _ _ _ Hwf) in Hr as (_ & m'' & Ho & _ & _ & _ & _ & Hn).
    injection Ho as -> <-. rewrite Hn. simpl. lia.
  - apply (on_osk_effect _ _ _ _ _ Hwf) in Hr. remember (Ok (r, m')) as o eqn:Ho.
    destruct Hr as [Hc|h old rest t r0 m0 Hc Hset Hp _ _ _ _ _ Hn|]; [| |done];
      injection Ho as <- <-; rewrite ?Hn; simpl; lia.
Qed.

(** What the complete turns of a run amount to. *)
Record turns_facts (high high' : Z) m m' (tr : list event) (log : list OskEvent) : Prop := {
  tn_wf : manager_wf high' m';
  tn_high : (high <= high')%Z;
  tn_logged : logged tr log;
  tn_sorted : StronglySorted Z.le (osk_connection_id <$> log);
  tn_range : Forall (fun k => high <= k <= high')%Z (osk_connection_id <$> log);
  tn_started : started tr = seqZ (next_connection_id m) (next_connection_id m' - next_connection_id m);
  tn_next : (next_connection_id m <= next_connection_id m')%Z;
  tn_handles : handles m ++ spawned tr ≡ₚ handles m' ++ aborted tr;
}.

Lemma forwards_high high m ev k :
  manager_wf high m -> forwards m ev = Some k -> (high <= k)%Z.
Proof.
  intros Hwf Hf. destruct ev as [|?|osk]; simpl in Hf; try done.
  case_bool_decide as Hc; [|done]. injection Hf as <-. destruct Hc as [h Hc].
  pose proof (connections_range _ _ _ _ Hwf Hc). lia.
Qed.

Lemma turn_facts high m sel ev t m' :
  manager_wf high m -> (next_connection_id m + 1 < u64_modulus)%Z ->
  select_event sel = Some ev -> runs (on_event prof m ev) t (Ok (Ok tt, m')) ->
  exists log, turns_facts high (high_after high m ev) m m' (Ev ESelect sel :: t) log.
Proof.
  intros Hwf Hnext Hsel Hr. pose proof (on_event_footprint _ _ _ _ _ _ Hwf Hnext Hr) as Hf.
  destruct (on_event_preserves prof _ _ _ _ _ _ Hwf Hnext Hr) as (Hwf' & Hle & _).
  pose proof (on_event_next _ _ _ _ _ _ Hwf Hnext Hr) as Hn.
  destruct (turn_logged m sel ev t t Hsel Hf (reflexivity t)) as (log & Hlog & Hcase).
  exists log. split; try done.
  - destruct Hcase as [->|(osk & -> & _)]; repeat constructor.
  - destruct Hcase as [->|(osk & -> & Hfw)]; [constructor|]. apply Forall_singleton.
    pose proof (forwards_high _ _ _ _ Hwf Hfw). unfold high_after. rewrite Hfw. simpl. lia.
  - change (started (Ev ESelect sel :: t)) with (started t). rewrite Hn.
    rewrite (footprint_started _ _ _ Hf). destruct ev; simpl; [|by rewrite seqZ_nil by lia..].
    rewrite seqZ_cons by lia. f_equal. by rewrite seqZ_nil by lia.
  - lia.
  - exact (event_handles prof _ _ _ _ _ _ Hwf Hnext Hr).
Qed.

Lemma served_facts m l m' high :
  served prof m l m' -> manager_wf high m ->
  (next_connection_id m + Z.of_nat (length l) < u64_modulus)%Z ->
  exists high' log, turns_facts high high' m m' (turns_trace l) log /\
    (next_connection_id m' <= next_connection_id m + Z.of_nat (length l))%Z.
Proof.
  intros Hs. revert high. induction Hs as [m|m sel ev tr m1 l m' Hsel Hr Hs IH]; intros high Hwf Hlen.
  - exists high, []. split; [|simpl; lia]. split;
      [done|lia|by apply logged_quiet|constructor|constructor|by rewrite seqZ_nil by lia|lia|done].
  - simpl in Hlen. destruct (on_event_preserves prof _ _ _ _ _ _ Hwf ltac:(lia) Hr) as (Hwf1 & _ & Hn1).
    destruct (turn_facts _ _ _ _ _ _ Hwf ltac:(lia) Hsel Hr) as [log1 [_ Hh1 Hl1 Hs1 Hr1 Hst1 Hx1 Hp1]].
    destruct (IH _ Hwf1 ltac:(lia)) as (high' & log2 & [Hwf2 Hh2 Hl2 Hs2 Hr2 Hst2 Hx2 Hp2] & Hn2).
    exists high', (log1 ++ log2). split; [|simpl; lia].
    change (turns_trace (mkTurn m sel ev tr :: l)) with ((Ev ESelect sel :: tr) ++ turns_trace l).
    split; try done.
    + lia.
    + by apply logged_app.
    + rewrite fmap_app. apply StronglySorted_app_2; [|done|done].
      intros x1 x2 Hin1 Hin2. rewrite Forall_forall in Hr1, Hr2. specialize (Hr1 _ Hin1). specialize (Hr2 _ Hin2). lia.
    + rewrite fmap_app. apply Forall_app. split; eapply Forall_impl; [exact Hr1| |exact Hr2|]; simpl; lia.
    + rewrite started_app, Hst1, Hst2.
      replace (next_connection_id m' - next_connection_id m)%Z with
        ((next_connection_id m1 - next_connection_id m) + (next_connection_id m' - next_connection_id m1))%Z by lia.
      rewrite seqZ_app by lia. do 2 f_equal. lia.
    + lia.
    + rewrite spawned_app, aborted_app, (app_assoc (handles m)), Hp1, <- app_assoc,
        (Permutation_app_comm (aborted _)), app_assoc, Hp2.
      by rewrite <- app_assoc, (Permutation_app_comm (aborted _) (aborted (Ev ESelect sel :: tr))).
Qed.
(** *** The turn that was interrupted *)
Record last_facts (high : Z) m (t : list event) (log : list OskEvent) : Prop := {
  la_logged : logged t log;
  la_log : log = [] \/ exists osk, log = [osk] /\ (high <= osk_connection_id osk)%Z;
  la_started : started t `prefix_of` [next_connection_id m];
  la_balanced : balanced m t;
}.

Lemma held_aborts high m hs :
  manager_wf high m -> hs `prefix_of` held m ->
  exists k, handles m ≡ₚ k ++ hs /\ length k <= S MAX_BUDDING_CONNECTIONS.
Proof.
  intros Hwf [k Hk]. exists k. pose proof (held_handles _ _ Hwf) as Hh. rewrite Hk in Hh.
  split; [by rewrite <- Hh, (Permutation_app_comm k)|].
  pose proof (handles_length _ _ Hwf). pose proof (wf_size _ _ Hwf).
  apply Permutation_length in Hh. rewrite length_app in Hh. lia.
Qed.

Lemma turn_so_far_facts high m t :
  manager_wf high m -> (next_connection_id m + 1 < u64_modulus)%Z ->
  turn_so_far m t -> exists log, last_facts high m t log.
Proof.
  intros Hwf Hnext Ht. destruct Ht as [|sel ev t Hsel Hp|sel hs Hsel Hhs|sel ev t e m' hs Hsel Hr Hhs].
  - destruct (held_aborts _ _ [] Hwf (prefix_nil _)) as (k & Hk & Hl).
    exists []. split; [by apply logged_quiet|by left|apply prefix_nil|].
    exists k. split; [by rewrite app_nil_r|done].
  - destruct (partial_on_event _ _ _ _ _ Hwf Hnext Hp) as (f & Hf & Hpre).
    destruct (turn_logged _ _ _ _ _ Hsel Hf Hpre) as (log & Hlog & Hcase). exists log. split.
    + done.
    + destruct Hcase as [->|(osk & -> & Hfw)]; [by left|right]. exists osk.
      split; [done|]. by apply (forwards_high _ _ _ _ Hwf Hfw).
    + apply (prefix_omap started_by) in Hpre. change (started t `prefix_of` started f) in Hpre.
      change (started (Ev ESelect sel :: t)) with (started t).
      rewrite (footprint_started _ _ _ Hf) in Hpre. destruct ev; [done|..]; apply prefix_nil_inv in Hpre as ->; apply prefix_nil.
    + exact (footprint_balanced _ _ _ _ _ Hwf Hf Hpre).
  - destruct (held_aborts _ _ _ Hwf Hhs) as (k & Hk & Hl).
    exists []. split; [apply logged_quiet|by left| |].
    + exact (requested_aborts hs).
    + change (started (abort_events hs) `prefix_of` [next_connection_id m]).
      rewrite started_aborts. apply prefix_nil.
    + exists k. change (handles m ++ spawned (abort_events hs) ≡ₚ k ++ aborted (abort_events hs) /\
        length k <= S MAX_BUDDING_CONNECTIONS).
      autorewrite with daisy. by rewrite app_nil_r.
  - pose proof (on_event_footprint _ _ _ _ _ _ Hwf Hnext Hr) as Hf.
    destruct (on_event_preserves prof _ _ _ _ _ _ Hwf Hnext Hr) as (Hwf' & _ & _).
    destruct (held_aborts _ _ _ Hwf' Hhs) as (k & Hk & Hl).
    destruct (turn_logged _ _ _ _ _ Hsel Hf (reflexivity t)) as (log & Hlog & Hcase).
    exists log. rewrite app_comm_cons. split.
    + rewrite <- (app_nil_r log). apply logged_app; [done|]. by apply logged_quiet, requested_aborts.
    + destruct Hcase as [->|(osk & -> & Hfw)]; [by left|right]. exists osk.
      split; [done|]. by apply (forwards_high _ _ _ _ Hwf Hfw).
    + rewrite started_app, started_aborts, app_nil_r.
      change (started (Ev ESelect sel :: t)) with (started t).
      rewrite (footprint_started _ _ _ Hf). destruct ev; [done|apply prefix_nil..].
    + exists k. split; [|done]. rewrite spawned_app, aborted_app. autorewrite with daisy. rewrite app_nil_r.
      change (handles m ++ spawned t ≡ₚ k ++ aborted t ++ hs).
      rewrite (event_handles prof _ _ _ _ _ _ Hwf Hnext Hr), Hk, <- app_assoc.
      apply Permutation_app_head, Permutation_app_comm.
Qed.

(** *** All of it *)
Record activity_facts (tr : list event) (log : list OskEvent) (rest : list Handle) : Prop := {
  af_logged : logged tr log;
  af_sorted : StronglySorted Z.le (osk_connection_id <$> log);
  af_started : started tr = seqZ 0 (Z.of_nat (length (started tr)));
  af_handles : spawned tr ≡ₚ rest ++ aborted tr;
  af_bound : length rest <= S MAX_BUDDING_CONNECTIONS;
}.

Lemma seqZ_length_eq (l : list Z) n : l = seqZ 0 n -> l = seqZ 0 (Z.of_nat (length l)).
Proof.
  intros ->. rewrite length_seqZ. destruct (decide (0 <= n)%Z).
  - f_equal. lia.
  - by rewrite !seqZ_nil by lia.
Qed.

Lemma server_activity_facts n srv tr :
  (Z.of_nat n < u64_modulus)%Z -> server_activity n srv tr ->
  exists log rest, activity_facts tr log rest.
Proof.
  intros Hn Ha. destruct Ha as [|r l m t Hs Hl Ht Hlt].
  { exists [], []. split; [by apply logged_quiet|constructor|done|done|simpl; lia]. }
  destruct (served_facts _ _ _ (-1) Hs (manager_new_wf _)) as (high & log1 & [Hwf Hh Hl1 Hs1 Hr1 Hst1 Hx1 Hp1] & Hn1);
    [simpl; lia|]. simpl in Hn1, Hst1, Hx1.
  assert (Hlast : exists log2, last_facts high m t log2).
  { destruct Hlt as [->|Hlt]; [|apply turn_so_far_facts; [done|lia|done]].
    destruct (held_aborts _ _ [] Hwf (prefix_nil _)) as (k & Hk & Hlk).
    exists []. split; [by apply logged_quiet|by left|apply prefix_nil|].
    exists k. split; [by rewrite app_nil_r|done]. }
  destruct Hlast as [log2 [Hl2 Hc2 Hst2 (rest & Hb & Hbl)]].
  exists (log1 ++ log2), rest.
  change (Ev (EBind (ts_listen_addr srv)) r :: turns_trace l ++ t)
    with ([Ev (EBind (ts_listen_addr srv)) r] ++ turns_trace l ++ t). split.
  - apply (logged_app [_] _ []); [by apply logged_quiet|]. by apply logged_app.
  - rewrite fmap_app. apply StronglySorted_app_2; [|done|].
    + intros x1 x2 Hin1 Hin2. rewrite Forall_forall in Hr1. specialize (Hr1 _ Hin1).
      destruct Hc2 as [->|(osk & -> & Hosk)]; [by apply not_elem_of_nil in Hin2|].
      apply list_elem_of_singleton in Hin2 as ->. lia.
    + destruct Hc2 as [->|(osk & -> & Hosk)]; repeat constructor.
  - apply seqZ_length_eq with (next_connection_id m + Z.of_nat (length (started t)))%Z.
    rewrite !started_app, Hst1. replace (next_connection_id m - 0)%Z with (next_connection_id m) by lia.
    simpl. destruct (started t) as [|x st]; [simpl; by rewrite Z.add_0_r, app_nil_r|].
    apply prefix_cons_inv_1 in Hst2 as Hx. apply prefix_cons_inv_2, prefix_nil_inv in Hst2 as ->. subst x.
    by rewrite seqZ_app by (simpl; lia).
  - rewrite !spawned_app, !aborted_app. simpl.
    change (handles (manager_new (ts_osk_handler srv))) with (@nil Handle) in Hp1. simpl in Hp1. rewrite Hp1.
    rewrite (Permutation_app_comm (handles m)), <- app_assoc, Hb.
    rewrite (Permutation_app_comm (aborted (turns_trace l))), <- app_assoc.
    apply Permutation_app_head, Permutation_app_comm.
  - done.
Qed.
End Server.

(** *** A stream that was accepted goes to one task, and in this order *)
Section Streams.
Context (prof : profile).
Implicit Types m : ConnectionManager OskDeadman.

Lemma select_admits sel ev t f m :
  select_event sel = Some ev -> footprint m ev f -> t `prefix_of` f ->
  opened (Ev ESelect sel :: t) `prefix_of` admitted (Ev ESelect sel :: t) /\
  (t = f -> opened (Ev ESelect sel :: t) = admitted (Ev ESelect sel :: t)).
Proof.
  intros Hsel Hf Hp. pose proof (prefix_omap opened_by _ _ Hp) as Ho. pose proof (prefix_omap admitted_by _ _ Hp) as Ha.
  change (opened t `prefix_of` opened f) in Ho. change (admitted t `prefix_of` admitted f) in Ha.
  rewrite (footprint_opened _ _ _ Hf) in Ho. rewrite (footprint_admitted _ _ _ Hf) in Ha.
  apply prefix_nil_inv in Ha.
  assert (Hhead : admitted (Ev ESelect sel :: t) = match ev with SAccept ev => [stream ev] | _ => [] end).
  { destruct sel as [[a|e|msg]|[n|]]; try done; injection Hsel as <-;
      change (admitted (Ev ESelect (Accepted (Ok a)) :: t)) with (stream a :: admitted t) ||
      change (admitted (Ev ESelect (Notified (Some n)) :: t)) with (admitted t); rewrite Ha; [done|].
    by destruct n. }
  rewrite Hhead. split; [exact Ho|]. intros ->. exact (footprint_opened _ _ _ Hf).
Qed.

Lemma served_streams m l m' high :
  served prof m l m' -> manager_wf high m ->
  (next_connection_id m + Z.of_nat (length l) < u64_modulus)%Z ->
  opened (turns_trace l) = admitted (turns_trace l).
Proof.
  intros Hs. revert high. induction Hs as [m|m sel ev tr m1 l m' Hsel Hr Hs IH]; intros high Hwf Hlen; [done|].
  simpl in Hlen. destruct (on_event_preserves prof _ _ _ _ _ _ Hwf ltac:(lia) Hr) as (Hwf1 & _ & Hn1).
  change (turns_trace (mkTurn m sel ev tr :: l)) with ((Ev ESelect sel :: tr) ++ turns_trace l).
  rewrite opened_app, admitted_app, (IH _ Hwf1) by lia. f_equal.
  apply (select_admits sel ev tr tr m Hsel); try done. by eapply on_event_footprint; [|lia|].
Qed.

Lemma activity_streams n srv tr :
  (Z.of_nat n < u64_modulus)%Z -> server_activity prof n srv tr -> opened tr `prefix_of` admitted tr.
Proof.
  intros Hn Ha. destruct Ha as [|r l m t Hs Hl Ht Hlt]; [apply prefix_nil|].
  pose proof (served_streams _ _ _ (-1) Hs (manager_new_wf _) ltac:(simpl; lia)) as Hst.
  destruct (served_from_new prof _ _ _ Hs ltac:(lia)) as (high & Hwf & _ & Hnext).
  change (opened (turns_trace l ++ t) `prefix_of` admitted (turns_trace l ++ t)).
  rewrite opened_app, admitted_app, Hst. apply prefix_app. destruct Hlt as [->|Hlt]; [apply prefix_nil|].
  destruct Ht as [|sel ev t Hsel Hp|sel hs Hsel Hhs|sel ev t e m' hs Hsel Hr Hhs].
  - apply prefix_nil.
  - destruct (partial_on_event prof _ _ _ _ Hwf ltac:(lia) Hp) as (f & Hf & Hpre).
    by apply (select_admits sel ev t f m Hsel Hf).
  - change (opened (abort_events hs) `prefix_of` admitted ([Ev ESelect sel] ++ abort_events hs)).
    rewrite opened_aborts. apply prefix_nil.
  - rewrite app_comm_cons, opened_app, admitted_app, opened_aborts, admitted_aborts, !app_nil_r.
    apply (select_admits sel ev t t m Hsel); [|done]. by eapply on_event_footprint; [|lia|].
Qed.
End Streams.

(** ** Tasks *)
Definition notification_id (n : ConnectionHandlerEvent) : ConnectionId :=
  match n with CExit ev => exit_connection_id ev | COsk ev => osk_connection_id ev end.

Section Task.
Context `{Shake256Lib} `{UuidLib} `{Base64Codec} `{!ReqwestLib}.

Definition negotiated_osk (self : FanoutConnectionHandler) (id : ConnectionId) (x : negotiation) : OskEvent :=
  mkOskEvent id (negotiation_key (fanout_protocol self id) x) Fresh.

(** What a task has posted: its own keys, negotiated before, and its end. *)
Record task_facts (self : FanoutConnectionHandler) (id : ConnectionId) (tr : list event) (xs : list negotiation) : Prop := {
  tk_ok : Forall (negotiation_ok (fanout_protocol self id)) xs;
  tk_trace : mjoin (negotiation_trace (fanout_protocol self id) <$> xs) `sublist_of` tr;
  tk_keys : base.omap osk_of (posted tr) `sublist_of` negotiated_osk self id <$> xs;
  tk_own : Forall (fun n => notification_id n = id) (posted tr);
}.

Lemma partial_task_facts fuel self id tr :
  partial (init_task fuel self id) tr -> exists xs, task_facts self id tr xs.
Proof.
  intros (t & ends & xs & -> & [Hok Hrep Htr] & Hends)%partial_init_task. exists xs.
  assert (Hr : exists e, reports (t ++ ends) =
      (COsk <$> (negotiated_osk self id <$> xs)) ++ e /\ base.omap osk_of e = [] /\
      Forall (fun n => notification_id n = id) e).
  { exists (reports ends). rewrite reports_app, Hrep. split.
    - f_equal. rewrite <- !list_fmap_compose. done.
    - by destruct Hends as [->|[r ->]]; repeat constructor. }
  destruct Hr as (e & Hr & He & Hid). pose proof (posted_reports (t ++ ends)) as Hp. rewrite Hr in Hp. split.
  - done.
  - by apply sublist_inserts_r.
  - apply (sublist_omap osk_of) in Hp. rewrite omap_app, He, app_nil_r in Hp.
    by rewrite omap_osks in Hp.
  - assert (Hall : Forall (fun n => notification_id n = id) ((COsk <$> (negotiated_osk self id <$> xs)) ++ e)).
    { apply Forall_app. split; [|done]. rewrite !Forall_fmap. by apply Forall_true. }
    rewrite Forall_forall in Hall |- *. intros n Hn. apply Hall. by eapply elem_of_submseteq, sublist_submseteq.
Qed.
End Task.

(** ** The ends of the manager and of the worker *)
Section Ends.
Context (prof : profile).
Implicit Types m : ConnectionManager OskDeadman.

(** Operations of the manager do not panic, and its queue is never closed. *)
Definition server_answer_ok (ev : event) : Prop :=
  match ev with
  | Ev e a => match e return answer e -> Prop with
              | ESelect => fun sel => match sel with Accepted r => panics r = false | Notified n => is_Some n end
              | EBind _ | ESendDeadman _ => fun r => panics r = false
              | _ => fun _ => True
              end a
  end.

(** Accepting a connection failed with [e]. *)
Definition accept_failed (e : Error) : event := Ev ESelect (Accepted (Err e)).

(** Handling an event gives an error only when the worker is gone. *)
Lemma on_event_ends high m ev t o :
  manager_wf high m -> (next_connection_id m + 1 < u64_modulus)%Z ->
  Forall server_answer_ok t -> runs (on_event prof m ev) t o ->
  exists r m', o = Ok (r, m') /\ (r = Ok tt \/ exists e a, r = Err e /\ a ∈ t /\ refused a = true).
Proof.
  intros Hwf Hnext Hok Hr. destruct ev as [ev|ev|ev]; cbn [on_event] in Hr.
  - apply (on_accept_effect _ _ _ _ _ _ Hwf Hnext) in Hr as (? & ? & _ & _ & ->). eauto.
  - apply (on_exit_effect _ _ _ _ _ Hwf) in Hr as (_ & ? & -> & _). eauto.
  - apply (on_osk_effect _ _ _ _ _ Hwf) in Hr.
    destruct Hr as [_|h old rest t r m' Hc ->%runs_deadman Hp _ _ _ _ _ _|h old t msg Hc ->%runs_deadman _].
    + eauto.
    + exists r, m'. split; [done|]. destruct r as [[]|e|msg]; [by left| |done].
      right. exists e, (Ev (ESendDeadman (osk_request ev)) (Err e)). split; [done|]. split; [|done]. set_solver.
    + apply Forall_app in Hok as [_ Hok]. by apply Forall_cons in Hok as [? _].
Qed.

(** How a turn of the manager ends when it does not go on. *)
Lemma turn_ends high m tr o :
  manager_wf high m -> (next_connection_id m + 1 < u64_modulus)%Z ->
  Forall server_answer_ok tr -> runs (manager_turn prof m) tr o ->
  match o with
  | Ok (Continue _) => True
  | Ok (Break (e, _)) => accept_failed e ∈ tr \/ exists ev, ev ∈ tr /\ refused ev = true
  | Err _ | Panicked _ => False
  end.
Proof.
  intros Hwf Hnext Hok (sel & t & -> & Hr). apply Forall_cons in Hok as [Hsel Hok].
  assert (Hnx : forall ev, runs (manager_next prof m ev) t o ->
    match o with
    | Ok (Continue _) => True
    | Ok (Break (e, _)) => accept_failed e ∈ Ev ESelect sel :: t \/ exists a, a ∈ Ev ESelect sel :: t /\ refused a = true
    | Err _ | Panicked _ => False
    end).
  { intros ev (o' & He & ->)%runs_manager_next.
    destruct (on_event_ends _ _ _ _ _ Hwf Hnext Hok He) as (r & m' & -> & [->|(e & a & -> & Ha & Hf)]); [done|].
    right. exists a. set_solver. }
  destruct sel as [[ev|e|msg]|[n|]]; cbn [pbind] in Hr.
  - by apply (Hnx (SAccept ev)).
  - destruct Hr as [-> ->]. left. by apply elem_of_cons; left.
  - done.
  - by apply (Hnx (stream_event_from n)).
  - by destruct Hsel.
Qed.

(** How the server ends: binding failed, accepting failed, or the worker is gone. *)
Lemma server_ends n srv tr o :
  (Z.of_nat n < u64_modulus)%Z -> Forall server_answer_ok tr ->
  runs (tcp_server_event_loop (O := OskDeadman) prof n srv) tr o ->
  match o with
  | Ok (Continue _) => True
  | Ok (Break _) | Panicked _ => False
  | Err e => tr = [Ev (EBind (ts_listen_addr srv)) (Err e)] \/ accept_failed e ∈ tr \/
      exists ev, ev ∈ tr /\ refused ev = true
  end.
Proof.
  intros Hn Hok (r & t & -> & Hr). apply Forall_cons in Hok as [Hb Hok].
  destruct r as [[]|e|msg]; cbn [pbind] in Hr; [|destruct Hr as [-> ->]; by left|done].
  assert (Hloop : forall t1 t2 o', t = t1 ++ t2 -> runs (manager_event_loop prof n (manager_new (ts_osk_handler srv))) t1 o' ->
    match o' with
    | Ok (Continue _) => True
    | Ok (Break (e, _)) => accept_failed e ∈ t \/ exists ev, ev ∈ t /\ refused ev = true
    | Err _ | Panicked _ => False
    end).
  { intros t1 t2 o' -> [[m' ->]|(l & m1 & t3 & Hs & Hl & -> & Ht)]%runs_manager_loop_ends; [done|].
    destruct (served_from_new prof _ _ _ Hs ltac:(lia)) as (high & Hwf & _ & Hnext).
    apply Forall_app in Hok as [[_ Hok]%Forall_app _].
    pose proof (turn_ends _ _ _ _ Hwf ltac:(lia) Hok Ht) as He.
    destruct o' as [[?|[e ?]]| |]; try done.
    destruct He as [He|(ev & Hev & ?)]; [left|right; exists ev]; set_solver. }
  apply runs_bind in Hr as [(t1 & t2 & c & -> & Hm & Hr)|[(e & Hm & ->)|(msg & Hm & ->)]].
  - specialize (Hloop _ _ _ eq_refl Hm). destruct c as [m|[e m]]; [by destruct Hr as [-> ->]|].
    apply runs_bind in Hr as [(t3 & t4 & [] & -> & Hd & [-> ->])|[(e2 & Hd & ->)|(msg & Hd & ->)]];
      [|by apply runs_drop_manager in Hd as [_ ?]..].
    right. destruct Hloop as [?|(ev & ? & ?)]; [left|right; exists ev]; set_solver.
  - by destruct (Hloop t [] (Err e)); [rewrite app_nil_r|].
  - by destruct (Hloop t [] (Panicked msg)); [rewrite app_nil_r|].
Qed.

(** The worker's thread ends by a panic, or when every sender is gone. *)
Lemma worker_ends {Broker} `{OskHandler Broker} instant_max runtime n (w : DeadmanWorker (Broker := Broker)) tr o :
  runs (worker_thread instant_max runtime n w) tr o ->
  match o with
  | Ok (Break _) => exists ev, ev ∈ tr /\ sees_closed ev = true
  | Err _ => False
  | _ => True
  end.
Proof.
  intros (o' & Hr & ->)%runs_map_outcome. destruct o' as [[|[]]| |]; try done.
  apply runs_bind_Ok in Hr as (t0 & t & [] & -> & _ & Hr).
  apply runs_bind_Ok in Hr as (t1 & t2 & [] & -> & _ & Hr).
  assert (Hl : exists ev, ev ∈ t2 /\ sees_closed ev = true); [|destruct Hl as (ev & ? & ?); exists ev; set_solver].
  clear t1. revert t2 Hr. induction n as [|n IH]; intros t Hr; cbn [loop] in Hr; [by destruct Hr|].
  apply runs_bind_Ok in Hr as (t1 & t2 & c & -> & Ht & Hr).
  destruct c as [[]|[]]; [destruct (IH _ Hr) as (ev & ? & ?); exists ev; set_solver|].
  destruct Ht as (now & t3 & -> & Ht). simpl in Ht. unfold instant_add in Ht. case_bool_decide; [|by destruct Ht].
  destruct Ht as (req & t4 & -> & Ht). exists (Ev (ETimeoutRecv (now + erase_after w)) req).
  split; [set_solver|]. destruct req as [[[k r]|]|]; [|done|destruct Ht as (k & t5 & -> & Ht)];
    by apply runs_bind_Ok in Ht as (? & ? & ? & _ & _ & [_ ?]).
Qed.
End Ends.
