(* ===== verification/ServerSystem.v ===== *)
(** * The server process

    All of it running together: the connection tasks, the notification queue
    to the connection manager, the manager, the request queue to the dead-man
    worker, and the worker's thread.  The processes are the procedures of the
    other files, stepped one operation at a time in any interleaving; the
    queues are bounded, and a send waits for room and fails once the receiver
    is gone.  The sockets, the key managers and the outside of the worker's
    handler answer whatever they like.

    The step function is executable: a [move] names the process and the
    operation with its answer, and [sys_move] says whether it is possible. *)

From S2P Require Import Prelude Types Externals RefInstances Effects Etsi014 HashDomain Crypto Osk Deadman Duplex Protocol ConnectionManager Roster Fanout Agreement Net Channels ServerTraces.

(** [mpsc::channel(16)] and [mpsc::channel(8)] *)
Definition NOTIFICATION_QUEUE : nat := 16.
Definition REQUEST_QUEUE : nat := 8.

(** One operation of a process, with a recorded answer. *)
Definition proc_step {A} (p : proc A) (ev : event) : option (proc A) :=
  match p with
  | Vis e k => if bool_decide (ev_effect ev = e) then k <$> cast_answer (ev_effect ev) e (ev_answer ev) else None
  | Ret _ => None
  end.

(** A process that is over; one whose fuel ran out is not.  The receiver of a
    channel is gone when the process that owns it is over. *)
Definition ended {S A} (p : proc (control S A)) : bool :=
  match p with
  | Ret (Ok (Continue _)) => false
  | Ret _ => true
  | Vis _ _ => false
  end.

(** A send through a channel of the given capacity. *)
Definition channel_send {A} (capacity : nat) (closed : bool) (queue : list A) (x : A) (r : outcome unit)
    : option (list A) :=
  match r with
  | Ok _ => if negb closed && bool_decide (length queue < capacity) then Some (queue ++ [x]) else None
  | Err _ => if closed then Some queue else None
  | Panicked _ => None
  end.

(** A worker's operation, on the queue it reads; [closed] says that every sender
    is gone.  A timeout may come at any time. *)
Definition worker_env (closed : bool) (queue : list DeadmanRequest) (ev : event) : option (list DeadmanRequest) :=
  match ev with
  | Ev e a => match e return answer e -> option (list DeadmanRequest) with
      | ETimeoutRecv _ => fun r =>
          match r, queue with
          | Some (Some req), req' :: q => if bool_decide (req = req') then Some q else None
          | Some (Some _), [] => None
          | Some None, [] => if closed then Some [] else None
          | Some None, _ :: _ => None
          | None, q => Some q
          end
      | _ => fun _ => Some queue
      end a
  end.

Section System.
Context `{Shake256Lib} `{UuidLib} `{Base64Codec} `{!ReqwestLib}.
Context {Broker : Type} `{OskHandler Broker} (instant_max : Z) (runtime : outcome unit) (prof : profile).

(** The process: its settings, its dead-man worker, the turns each loop may take. *)
Context (srv : DaisywayTcpServer (O := OskDeadman)) (wkr : DeadmanWorker (Broker := Broker)).
Context (server_fuel task_fuel worker_fuel : nat).

(** A task stays on record when it is over or was aborted. *)
Record conn_task : Type := mkTask {
  task_id : ConnectionId;
  task_stream : Z;
  task_proc : proc (control unit unit);
  task_trace : list event;
  task_alive : bool;
}.

Record server_system : Type := mkSystem {
  server : proc (control (ConnectionManager OskDeadman) Empty_set);
  server_trace : list event;
  tasks : gmap Handle conn_task;
  notifications : list ConnectionHandlerEvent;
  worker : proc (control unit unit);
  worker_trace : list event;
  requests : list DeadmanRequest;
}.

Definition system_init : server_system :=
  mkSystem (tcp_server_event_loop prof server_fuel srv) [] ∅ []
    (worker_thread instant_max runtime worker_fuel wkr) [] [].

(** [spawn]: a task for connection [id] over an accepted stream. *)
Definition new_task (id : ConnectionId) (stream : Z) : conn_task :=
  mkTask id stream (init_task task_fuel (task_settings srv) id) [] true.

(** ** What the rest of the process makes of an operation *)

(** A task's: the new notification queue. *)
Definition task_env (s : server_system) (ev : event) : option (list ConnectionHandlerEvent) :=
  match ev with
  | Ev e a => match e return answer e -> option (list ConnectionHandlerEvent) with
              | ESendManager n => channel_send NOTIFICATION_QUEUE (ended (server s)) (notifications s) n
              | _ => fun _ => Some (notifications s)
              end a
  end.

(** The manager's: the tasks and the two queues.  The manager owns a sender
    of the queue it reads, so that it never finds it closed; accepting and
    binding may fail, but they do not panic. *)
Definition server_env (s : server_system) (ev : event)
    : option (gmap Handle conn_task * list ConnectionHandlerEvent * list DeadmanRequest) :=
  match ev with
  | Ev e a => match e return answer e -> option (gmap Handle conn_task * list ConnectionHandlerEvent * list DeadmanRequest) with
      | ESelect => fun sel =>
          match sel, notifications s with
          | Accepted r, q => if panics r then None else Some (tasks s, q, requests s)
          | Notified (Some n), n' :: q =>
              if bool_decide (n = n') then Some (tasks s, q, requests s) else None
          | Notified _, _ => None
          end
      | EBind _ => fun r => if panics r then None else Some (tasks s, notifications s, requests s)
      | ESpawn id stream => fun h =>
          match tasks s !! h with
          | None => Some (<[h := new_task id stream]> (tasks s), notifications s, requests s)
          | Some _ => None
          end
      | ESendDeadman req => fun r =>
          q ← channel_send REQUEST_QUEUE (ended (worker s)) (requests s) req r;
          Some (tasks s, notifications s, q)
      | _ => fun _ => Some (tasks s, notifications s, requests s)
      end a
  end.

(** ** Moves *)
Inductive move : Type :=
  | MTask (h : Handle) (ev : event)
  | MServer (ev : event)
  | MWorker (ev : event)
  | MKill (h : Handle).   (* a task that was aborted reaches a point where it yields *)

Definition sys_move (mv : move) (s : server_system) : option server_system :=
  match mv with
  | MTask h ev =>
      t ← tasks s !! h;
      if task_alive t then
        p ← proc_step (task_proc t) ev;
        q ← task_env s ev;
        Some (mkSystem (server s) (server_trace s)
          (<[h := mkTask (task_id t) (task_stream t) p (task_trace t ++ [ev]) true]> (tasks s)) q
          (worker s) (worker_trace s) (requests s))
      else None
  | MServer ev =>
      p ← proc_step (server s) ev;
      '(ts, q, reqs) ← server_env s ev;
      Some (mkSystem p (server_trace s ++ [ev]) ts q (worker s) (worker_trace s) reqs)
  | MWorker ev =>
      p ← proc_step (worker s) ev;
      reqs ← worker_env (ended (server s)) (requests s) ev;
      Some (mkSystem (server s) (server_trace s) (tasks s) (notifications s) p (worker_trace s ++ [ev]) reqs)
  | MKill h =>
      t ← tasks s !! h;
      if bool_decide (h ∈ aborted (server_trace s)) then
        Some (mkSystem (server s) (server_trace s)
          (<[h := mkTask (task_id t) (task_stream t) (task_proc t) (task_trace t) false]> (tasks s)) (notifications s)
          (worker s) (worker_trace s) (requests s))
      else None
  end.

Definition sys_step (s s' : server_system) : Prop := exists mv, sys_move mv s = Some s'.

Definition system_state (s : server_system) : Prop := reachable (eq system_init) sys_step s.

Fixpoint sys_moves (mvs : list move) (s : server_system) : option server_system :=
  match mvs with
  | [] => Some s
  | mv :: mvs => s' ← sys_move mv s; sys_moves mvs s'
  end.

Lemma sys_moves_state mvs s : sys_moves mvs system_init = Some s -> system_state s.
Proof.
  intros Hm. exists system_init. split; [done|]. revert Hm. generalize system_init.
  induction mvs as [|mv mvs IH]; intros s0; simpl; [intros [= ->]; reflexivity|].
  intros (s1 & Hs1 & Hs2)%bind_Some. eapply rtc_l; [by exists mv|auto].
Qed.

(** ** Lemmas on single operations *)
Lemma proc_step_Some {A} (p : proc A) ev p' :
  proc_step p ev = Some p' -> exists e k a, p = Vis e k /\ ev = Ev e a /\ p' = k a.
Proof.
  destruct p as [o|e k]; [done|]. destruct ev as [e' a]. simpl. case_bool_decide as Heq; [|done].
  destruct Heq. rewrite cast_answer_same. intros [= <-]. by exists e', k, a.
Qed.

Lemma proc_step_residue {A} (p0 p : proc A) tr ev p' :
  residue p0 tr p -> proc_step p ev = Some p' -> residue p0 (tr ++ [ev]) p'.
Proof. intros Hr (e & k & a & -> & -> & ->)%proc_step_Some. by apply residue_snoc. Qed.

Lemma proc_step_running {S A} (p : proc (control S A)) ev p' : proc_step p ev = Some p' -> ended p = false.
Proof. by intros (e & k & a & -> & -> & ->)%proc_step_Some. Qed.

Lemma channel_send_Some {A} n closed (q : list A) x r q' :
  channel_send n closed q x r = Some q' -> length q <= n ->
  q' = q ++ (if is_ok r then [x] else []) /\ length q' <= n /\
  (forall e, r = Err e -> closed = true) /\ panics r = false.
Proof.
  destruct r as [[]|e|m]; simpl; [|destruct closed|done]; try done.
  - destruct closed; [done|]. simpl. case_bool_decide; [|done]. intros [= <-] _.
    rewrite length_app. simpl. repeat split; [lia|done].
  - intros [= <-] ?. by rewrite app_nil_r.
Qed.

Lemma task_env_Some s ev q :
  task_env s ev = Some q -> length (notifications s) <= NOTIFICATION_QUEUE ->
  q = notifications s ++ posted [ev] /\ length q <= NOTIFICATION_QUEUE.
Proof.
  destruct ev as [e a]; destruct e; cbn [task_env]; intros Hs Hl;
    try (injection Hs as <-; by rewrite app_nil_r).
  apply channel_send_Some in Hs as (-> & Hl' & _); [|done]. split; [|done].
  unfold posted. cbn. by destruct (is_ok a).
Qed.

(** What an operation of the manager does to the rest of the process. *)
Record server_env_facts (s : server_system) (ev : event) (ts : gmap Handle conn_task)
    (q : list ConnectionHandlerEvent) (reqs : list DeadmanRequest) : Prop := {
  se_answer : server_answer_ok ev;
  se_notified : notified [ev] ++ q = notifications s;
  se_requested : reqs = requests s ++ requested [ev];
  se_tasks :
    (ts = tasks s /\ spawned [ev] = [] /\ started [ev] = []) \/
    (exists id st h, tasks s !! h = None /\ ts = <[h := new_task id st]> (tasks s) /\
       spawned [ev] = [h] /\ started [ev] = [id]);
  se_requests : length reqs <= REQUEST_QUEUE;
  se_dead : refused ev = true -> ended (worker s) = true;
}.

Lemma server_env_Some s ev ts q reqs :
  server_env s ev = Some (ts, q, reqs) -> length (requests s) <= REQUEST_QUEUE ->
  server_env_facts s ev ts q reqs.
Proof.
  destruct ev as [e a]; destruct e; cbn [server_env]; intros Hs Hl;
    try (injection Hs as <- <- <-; split; [done|done|by rewrite app_nil_r|by left|done|done]).
  - destruct (panics a) eqn:Hp; [done|]. injection Hs as <- <- <-.
    split; [done|done|by rewrite app_nil_r|by left|done|done].
  - destruct a as [r|[n|]]; [destruct (panics r) eqn:Hp; [done|]|destruct (notifications s) as [|n' q'] eqn:Hq; [done|]|done].
    + injection Hs as <- <- <-. split; [done|done|by rewrite app_nil_r|by left|done|done].
    + case_bool_decide as Hn; [|done]. injection Hs as <- <- <-. subst n'.
      split; [by eexists|by rewrite Hq|by rewrite app_nil_r|by left|done|done].
  - destruct (tasks s !! a) eqn:Ht; [done|]. injection Hs as <- <- <-.
    split; [done|done|by rewrite app_nil_r|right; by exists id, s0, a|done|done].
  - apply bind_Some in Hs as (q' & Hs & [= <- <- <-]).
    apply channel_send_Some in Hs as (-> & Hl' & He & Hp); [|done].
    split; [done|done| |by left|done|].
    + unfold requested. cbn. by destruct (is_ok a).
    + destruct a as [[]|e|m]; try done. intros _. by eapply He.
Qed.

Lemma worker_env_Some closed queue ev reqs :
  worker_env closed queue ev = Some reqs ->
  queue = received [ev] ++ reqs /\ (sees_closed ev = true -> closed = true /\ reqs = []).
Proof.
  destruct ev as [e a]; destruct e; cbn [worker_env sees_closed]; intros Hs;
    try (by injection Hs as <-).
  destruct a as [[req|]|]; destruct queue as [|req' q]; try done.
  - case_bool_decide as Hr; [|done]. injection Hs as <-. by subst.
  - destruct closed; [|done]. by injection Hs as <-.
  - by injection Hs as <-.
  - by injection Hs as <-.
Qed.

(** ** What holds in every state *)

(** Everything that ever was in the notification queue, in order. *)
Definition posts (s : server_system) : list ConnectionHandlerEvent :=
  notified (server_trace s) ++ notifications s.

Record sys_inv (s : server_system) : Prop := {
  si_server : residue (tcp_server_event_loop prof server_fuel srv) (server_trace s) (server s);
  si_worker : residue (worker_thread instant_max runtime worker_fuel wkr) (worker_trace s) (worker s);
  si_tasks : forall h t, tasks s !! h = Some t ->
    residue (init_task task_fuel (task_settings srv) (task_id t)) (task_trace t) (task_proc t);
  si_spawned : forall h t, tasks s !! h = Some t -> h ∈ spawned (server_trace s);
  si_started : forall h t, tasks s !! h = Some t -> task_id t ∈ started (server_trace s);
  si_unique : forall h1 h2 t1 t2,
    tasks s !! h1 = Some t1 -> tasks s !! h2 = Some t2 -> task_id t1 = task_id t2 -> h1 = h2;
  si_answers : Forall server_answer_ok (server_trace s);
  si_requested : requested (server_trace s) = received (worker_trace s) ++ requests s;
  si_posted : forall h t, tasks s !! h = Some t ->
    filter (fun n => notification_id n = task_id t) (posts s) = posted (task_trace t);
  si_known : forall n, n ∈ posts s -> exists h t, tasks s !! h = Some t /\ task_id t = notification_id n;
  si_notifications : length (notifications s) <= NOTIFICATION_QUEUE;
  si_requests : length (requests s) <= REQUEST_QUEUE;
  si_refused : forall ev, ev ∈ server_trace s -> refused ev = true -> exists m, worker s = Ret (Panicked m);
  si_closed : forall ev, ev ∈ worker_trace s -> sees_closed ev = true ->
    ended (server s) = true /\ requests s = [];
}.

Context (Hfuel : (Z.of_nat server_fuel < u64_modulus)%Z).

Lemma server_facts s : sys_inv s -> exists log rest, activity_facts (server_trace s) log rest.
Proof.
  intros Hi. eapply (server_activity_facts prof); [exact Hfuel|].
  by apply partial_tcp_server, residue_partial with (server s), Hi.
Qed.

Lemma inv_init : sys_inv system_init.
Proof.
  split; simpl; try done; try apply r_nil;
    try (unfold NOTIFICATION_QUEUE, REQUEST_QUEUE; lia); intros *;
    try (by rewrite lookup_empty); by intros ?%not_elem_of_nil.
Qed.

(** Replacing a task by a later state of itself. *)
Lemma update_lookup (ts : gmap Handle conn_task) h t t' h1 t1 :
  ts !! h = Some t -> task_id t' = task_id t -> <[h := t']> ts !! h1 = Some t1 ->
  exists t0, ts !! h1 = Some t0 /\ task_id t0 = task_id t1.
Proof. intros Ht Hid [[-> ->]|[_ Hl1]]%lookup_insert_Some; eauto. Qed.

Lemma update_known (ts : gmap Handle conn_task) h t t' h1 t1 :
  ts !! h = Some t -> task_id t' = task_id t -> ts !! h1 = Some t1 ->
  exists t2, <[h := t']> ts !! h1 = Some t2 /\ task_id t2 = task_id t1.
Proof.
  intros Ht Hid Hl1. destruct (decide (h = h1)) as [->|Hne].
  - exists t'. rewrite lookup_insert_eq. split; [done|]. congruence.
  - exists t1. by rewrite lookup_insert_ne.
Qed.

Lemma filter_own c l :
  Forall (fun n => notification_id n = c) l -> filter (fun n => notification_id n = c) l = l.
Proof. induction 1 as [|n l Hn _ IH]; [done|]. by rewrite filter_cons_True, IH. Qed.

Lemma filter_others c c' l :
  Forall (fun n => notification_id n = c) l -> c <> c' -> filter (fun n => notification_id n = c') l = [].
Proof. intros Hl Hne. induction Hl as [|n l Hn _ IH]; [done|]. by rewrite filter_cons_False by congruence. Qed.

Lemma inv_task s h ev s' : sys_inv s -> sys_move (MTask h ev) s = Some s' -> sys_inv s'.
Proof.
  intros Hi Hm. simpl in Hm. apply bind_Some in Hm as (t & Ht & Hm).
  destruct (task_alive t); [|done]. apply bind_Some in Hm as (p & Hp & Hm).
  apply bind_Some in Hm as (q & Hq & [= <-]).
  apply task_env_Some in Hq as [-> Hlen]; [|apply (si_notifications _ Hi)].
  set (t' := mkTask (task_id t) (task_stream t) p (task_trace t ++ [ev]) true).
  assert (Hres : residue (init_task task_fuel (task_settings srv) (task_id t)) (task_trace t ++ [ev]) p)
    by (eapply proc_step_residue; [by eapply si_tasks|done]).
  destruct (partial_task_facts _ _ _ _ (residue_partial _ _ _ Hres)) as [xs Hxs].
  apply tk_own in Hxs as Hown. rewrite posted_app in Hown. apply Forall_app in Hown as [_ Hown].
  assert (Hback := fun h1 t1 => update_lookup (tasks s) h t t' h1 t1 Ht eq_refl).
  split; cbn [server server_trace tasks notifications worker worker_trace requests]; try apply Hi.
  - intros h1 t1 [[<- <-]|[_ Hl1]]%lookup_insert_Some; [exact Hres|by apply (si_tasks _ Hi h1)].
  - intros h1 t1 (t0 & Hl0 & _)%Hback. by apply (si_spawned _ Hi h1 t0).
  - intros h1 t1 (t0 & Hl0 & <-)%Hback. by apply (si_started _ Hi h1 t0).
  - intros h1 h2 t1 t2 (t3 & Hl3 & <-)%Hback (t4 & Hl4 & <-)%Hback. by apply (si_unique _ Hi).
  - unfold posts. cbn [server_trace notifications]. intros h1 t1 Hl1. rewrite app_assoc, filter_app.
    apply lookup_insert_Some in Hl1 as [[<- <-]|[Hne Hl1]].
    + cbn [t' task_id task_trace]. rewrite (filter_own _ _ Hown), posted_app. f_equal. apply (si_posted _ Hi _ _ Ht).
    + rewrite (filter_others _ (task_id t1) _ Hown), app_nil_r; [by apply (si_posted _ Hi h1)|].
      intros Heq. by apply Hne, (si_unique _ Hi h h1 t t1).
  - unfold posts. cbn [server_trace notifications]. intros n. rewrite app_assoc, elem_of_app. intros [Hn|Hn].
    + apply (si_known _ Hi) in Hn as (h1 & t1 & Hl1 & <-).
      destruct (update_known (tasks s) h t t' h1 t1 Ht eq_refl Hl1) as (t2 & ? & ?). eauto.
    + exists h, t'. rewrite lookup_insert_eq. split; [done|]. rewrite Forall_forall in Hown. by rewrite (Hown _ Hn).
  - exact Hlen.
Qed.

Lemma inv_kill s h s' : sys_inv s -> sys_move (MKill h) s = Some s' -> sys_inv s'.
Proof.
  intros Hi Hm. simpl in Hm. apply bind_Some in Hm as (t & Ht & Hm).
  case_bool_decide; [|done]. injection Hm as <-.
  set (t' := mkTask (task_id t) (task_stream t) (task_proc t) (task_trace t) false).
  assert (Hback := fun h1 t1 => update_lookup (tasks s) h t t' h1 t1 Ht eq_refl).
  split; cbn [server server_trace tasks notifications worker worker_trace requests]; try apply Hi.
  - intros h1 t1 [[<- <-]|[_ Hl1]]%lookup_insert_Some; [exact (si_tasks _ Hi h t Ht)|by apply (si_tasks _ Hi h1)].
  - intros h1 t1 (t0 & Hl0 & _)%Hback. by apply (si_spawned _ Hi h1 t0).
  - intros h1 t1 (t0 & Hl0 & <-)%Hback. by apply (si_started _ Hi h1 t0).
  - intros h1 h2 t1 t2 (t3 & Hl3 & <-)%Hback (t4 & Hl4 & <-)%Hback. by apply (si_unique _ Hi).
  - intros h1 t1 [[<- <-]|[_ Hl1]]%lookup_insert_Some; [exact (si_posted _ Hi h t Ht)|by apply (si_posted _ Hi h1)].
  - intros n (h1 & t1 & Hl1 & <-)%(si_known _ Hi).
    destruct (update_known (tasks s) h t t' h1 t1 Ht eq_refl Hl1) as (t2 & ? & ?). eauto.
Qed.

Lemma inv_worker s ev s' : sys_inv s -> sys_move (MWorker ev) s = Some s' -> sys_inv s'.
Proof.
  intros Hi Hm. simpl in Hm. apply bind_Some in Hm as (p & Hp & Hm).
  apply bind_Some in Hm as (reqs & Hq & [= <-]). apply worker_env_Some in Hq as [Hreq Hclosed].
  assert (Hlen : length reqs <= length (requests s)) by (rewrite Hreq, length_app; lia).
  split; cbn [server server_trace tasks notifications worker worker_trace requests]; try apply Hi.
  - by eapply proc_step_residue; [apply Hi|].
  - by rewrite (si_requested _ Hi), Hreq, received_app, <- app_assoc.
  - pose proof (si_requests _ Hi). lia.
  - intros ev' He Hr. destruct (si_refused _ Hi _ He Hr) as [m Hw]. by rewrite Hw in Hp.
  - intros ev' [He|Hev%list_elem_of_singleton]%elem_of_app Hs.
    + destruct (si_closed _ Hi _ He Hs) as [Hsrv Hn]. split; [done|].
      apply length_zero_iff_nil. rewrite Hn in Hlen. simpl in Hlen. lia.
    + subst. by apply Hclosed.
Qed.

(** A connection number is used once. *)
Lemma started_fresh s p ev id :
  residue (tcp_server_event_loop prof server_fuel srv) (server_trace s ++ [ev]) p ->
  started [ev] = [id] -> id ∉ started (server_trace s).
Proof.
  intros Hr Hid Hin. apply residue_partial, partial_tcp_server in Hr.
  apply (server_activity_facts prof) in Hr as (log & rest & [_ _ Hst _ _]); [|exact Hfuel].
  pose proof (NoDup_seqZ 0 (Z.of_nat (length (started (server_trace s ++ [ev]))))) as Hnd.
  rewrite <- Hst, started_app, Hid in Hnd. apply NoDup_app in Hnd as (_ & Hnd & _).
  apply (Hnd id Hin). by apply list_elem_of_singleton.
Qed.

Lemma inv_server s ev s' : sys_inv s -> sys_move (MServer ev) s = Some s' -> sys_inv s'.
Proof.
  intros Hi Hm. simpl in Hm. apply bind_Some in Hm as (p & Hp & Hm).
  apply bind_Some in Hm as ([[ts q] reqs] & Hq & [= <-]).
  apply server_env_Some in Hq as [Hok Hnot Hreq Htasks Hlen Hdead]; [|apply (si_requests _ Hi)].
  pose proof (proc_step_running _ _ _ Hp) as Hrun.
  assert (Hres := proc_step_residue _ _ _ _ _ (si_server _ Hi) Hp).
  assert (Hposts : notified (server_trace s ++ [ev]) ++ q = posts s)
    by (unfold posts; by rewrite notified_app, <- app_assoc, Hnot).
  assert (Hold : forall h t, tasks s !! h = Some t -> ts !! h = Some t).
  { destruct Htasks as [(-> & _)|(id & st & h & Hh & -> & _)]; [done|]. intros h1 t1 Hl1.
    rewrite lookup_insert_ne; [done|]. intros ->. congruence. }
  assert (Hnew : forall h t, ts !! h = Some t -> tasks s !! h = Some t \/
    (exists id st, t = new_task id st /\ spawned [ev] = [h] /\ started [ev] = [id] /\ id ∉ started (server_trace s))).
  { destruct Htasks as [(-> & _)|(id & st & h & Hh & -> & Hsp & Hst)]; [by left|].
    intros h1 t1 [[<- <-]|[_ Hl1]]%lookup_insert_Some; [|by left]. right. exists id, st.
    split; [done|]. split; [done|]. split; [done|]. by eapply started_fresh. }
  split; cbn [server server_trace tasks notifications worker worker_trace requests].
  - exact Hres.
  - apply Hi.
  - intros h t [Hl|(id & st & -> & _)]%Hnew; [by apply (si_tasks _ Hi h)|constructor].
  - intros h t [Hl|(id & st & _ & Hsp & _)]%Hnew; rewrite spawned_app, elem_of_app.
    + left. by apply (si_spawned _ Hi h t).
    + right. rewrite Hsp. by apply list_elem_of_singleton.
  - intros h t [Hl|(id & st & -> & _ & Hst & _)]%Hnew; rewrite started_app, elem_of_app.
    + left. by apply (si_started _ Hi h t).
    + right. rewrite Hst. by apply list_elem_of_singleton.
  - intros h1 h2 t1 t2 [Hl1|(id1 & st1 & -> & Hsp1 & Hst1 & Hf1)]%Hnew [Hl2|(id2 & st2 & -> & Hsp2 & Hst2 & Hf2)]%Hnew Heq.
    + by apply (si_unique _ Hi h1 h2 t1 t2).
    + destruct Hf2. simpl in Heq. rewrite <- Heq. by apply (si_started _ Hi h1).
    + destruct Hf1. simpl in Heq. rewrite Heq. by apply (si_started _ Hi h2).
    + rewrite Hsp1 in Hsp2. by injection Hsp2.
  - apply Forall_app. split; [apply Hi|]. by apply Forall_singleton.
  - rewrite requested_app, (si_requested _ Hi), Hreq. by rewrite <- app_assoc.
  - intros h t Hl. unfold posts. cbn [server_trace notifications]. rewrite Hposts.
    apply Hnew in Hl as [Hl|(id & st & -> & _ & _ & Hf)]; [by apply (si_posted _ Hi h)|].
    cbn [new_task task_id task_trace]. destruct (filter _ (posts s)) as [|n l] eqn:Hfil; [done|].
    assert (Hn : n ∈ filter (fun n => notification_id n = id) (posts s)) by (rewrite Hfil; left).
    apply list_elem_of_filter in Hn as [<- Hn]. apply (si_known _ Hi) in Hn as (h1 & t1 & Hl1 & Hid).
    destruct Hf. rewrite <- Hid. by apply (si_started _ Hi h1).
  - intros n. unfold posts. cbn [server_trace notifications]. rewrite Hposts.
    intros (h & t & Hl & Hid)%(si_known _ Hi). eauto.
  - pose proof (si_notifications _ Hi) as Hln. rewrite <- Hnot, length_app in Hln. lia.
  - exact Hlen.
  - intros ev' [He|He%list_elem_of_singleton]%elem_of_app Href; [by apply (si_refused _ Hi ev')|]. subst ev'.
    specialize (Hdead Href). destruct (worker s) as [o|] eqn:Hw; [|done].
    pose proof (si_worker _ Hi) as Hwr. rewrite Hw in Hwr. apply residue_runs, worker_ends in Hwr.
    destruct o as [[|]|e|m]; [done| |done|by exists m].
    destruct Hwr as (act & Hact & Hs). destruct (si_closed _ Hi _ Hact Hs) as [Hend _]. congruence.
  - intros a Ha Hs. destruct (si_closed _ Hi _ Ha Hs) as [Hend _]. congruence.
Qed.

Lemma system_inv s : system_state s -> sys_inv s.
Proof.
  apply reachable_invariant; [intros ? <-; apply inv_init|].
  intros s1 s2 Hi [[h ev|ev|ev|h] Hm].
  - by eapply inv_task.
  - by eapply inv_server.
  - by eapply inv_worker.
  - by eapply inv_kill.
Qed.

(** ** What the process guarantees *)
Lemma osk_filter c (l : list ConnectionHandlerEvent) :
  base.omap osk_of (filter (fun n => notification_id n = c) l) =
  filter (fun ev => osk_connection_id ev = c) (base.omap osk_of l).
Proof.
  induction l as [|[ev|ev] l IH]; [done|..]; rewrite filter_cons.
  - by case_decide.
  - change (base.omap osk_of (COsk ev :: l)) with (ev :: base.omap osk_of l). rewrite filter_cons.
    cbn [notification_id]. case_decide; [|exact IH].
    change (ev :: base.omap osk_of (filter (fun n => notification_id n = c) l) =
      ev :: filter (fun ev => osk_connection_id ev = c) (base.omap osk_of l)). by rewrite IH.
Qed.

Lemma osk_of_posts s ev : ev ∈ base.omap osk_of (posts s) -> COsk ev ∈ posts s.
Proof. intros ([|ev'] & Hin & [= ->])%list_elem_of_omap. done. Qed.

(** The keys on their way to the worker, out of what the tasks posted. *)
Lemma pipeline_log s :
  sys_inv s -> exists log,
    received (worker_trace s) ++ requests s = osk_request <$> log /\
    StronglySorted Z.le (osk_connection_id <$> log) /\
    log `sublist_of` base.omap osk_of (posts s) /\
    forall h t, tasks s !! h = Some t ->
      filter (fun ev => osk_connection_id ev = task_id t) log `sublist_of` base.omap osk_of (posted (task_trace t)).
Proof.
  intros Hi. destruct (server_facts _ Hi) as (log & rest & [[Hreq Hsub] Hsort _ _ _]).
  assert (Hlog : log `sublist_of` base.omap osk_of (posts s))
    by (unfold posts; rewrite omap_app; by apply sublist_inserts_r).
  exists log. split; [by rewrite <- (si_requested _ Hi)|]. split; [done|]. split; [done|].
  intros h t Ht. rewrite <- (si_posted _ Hi _ _ Ht), osk_filter. by apply filter_sublist.
Qed.

(** C4. From the exchange to the output key: what the worker received, and what is
    on its way to it, are fresh keys of connections whose tasks the server
    started, with non-decreasing connection numbers; and the keys of one
    connection are, in order, among those its task negotiated, each one after
    a complete exchange - a key fetched from the key manager, its identifier
    and nonce sent, the acknowledgement read. *)
Theorem server_pipeline s :
  system_state s ->
  exists log,
    received (worker_trace s) ++ requests s = osk_request <$> log /\
    StronglySorted Z.le (osk_connection_id <$> log) /\
    Forall (fun ev => osk_reason ev = Fresh /\
      exists h t, tasks s !! h = Some t /\ task_id t = osk_connection_id ev) log /\
    forall h t, tasks s !! h = Some t ->
      exists xs, Forall (negotiation_ok (fanout_protocol (task_settings srv) (task_id t))) xs /\
        mjoin (negotiation_trace (fanout_protocol (task_settings srv) (task_id t)) <$> xs)
          `sublist_of` task_trace t /\
        filter (fun ev => osk_connection_id ev = task_id t) log
          `sublist_of` (negotiated_osk (task_settings srv) (task_id t) <$> xs).
Proof.
  intros Hi%system_inv. destruct (pipeline_log _ Hi) as (log & Hreq & Hsort & Hlog & Hposted).
  assert (Htask : forall h t, tasks s !! h = Some t ->
    exists xs, Forall (negotiation_ok (fanout_protocol (task_settings srv) (task_id t))) xs /\
      mjoin (negotiation_trace (fanout_protocol (task_settings srv) (task_id t)) <$> xs)
        `sublist_of` task_trace t /\
      filter (fun ev => osk_connection_id ev = task_id t) log
        `sublist_of` (negotiated_osk (task_settings srv) (task_id t) <$> xs)).
  { intros h t Ht. pose proof (residue_partial _ _ _ (si_tasks _ Hi _ _ Ht)) as Hp.
    destruct (partial_task_facts _ _ _ _ Hp) as [xs [Hok Htr Hkeys _]].
    exists xs. split; [done|]. split; [done|]. etrans; [by eapply Hposted|done]. }
  exists log. split; [done|]. split; [done|]. split; [|done].
  apply Forall_forall. intros ev Hev.
  assert (Hpost : COsk ev ∈ posts s) by (by eapply osk_of_posts, elem_of_submseteq, sublist_submseteq).
  destruct (si_known _ Hi _ Hpost) as (h & t & Ht & Hid). split; [|eauto].
  destruct (Htask _ _ Ht) as (xs & _ & _ & Hxs).
  assert (Hin : ev ∈ negotiated_osk (task_settings srv) (task_id t) <$> xs).
  { eapply elem_of_submseteq; [|by apply sublist_submseteq]. by apply list_elem_of_filter. }
  by apply list_elem_of_fmap in Hin as (x & -> & _).
Qed.

(** C8. The server never panics, and it ends only because it could not bind, because
    accepting a connection failed, or because the worker's thread panicked: no
    connection, no queue and no order of events can stop it. *)
Theorem server_survives s o :
  system_state s -> server s = Ret o ->
  match o with
  | Ok (Continue _) => True
  | Ok (Break _) | Panicked _ => False
  | Err e => server_trace s = [Ev (EBind (ts_listen_addr srv)) (Err e)] \/
      accept_failed e ∈ server_trace s \/ exists m, worker s = Ret (Panicked m)
  end.
Proof.
  intros Hi%system_inv Hs. pose proof (si_server _ Hi) as Hr. rewrite Hs in Hr.
  apply residue_runs in Hr. pose proof (server_ends prof _ _ _ _ Hfuel (si_answers _ Hi) Hr) as He.
  destruct o as [[m|x]|e|m]; try done. destruct He as [He|[He|(ev & Hev & Href)]]; auto.
  right. right. by apply (si_refused _ Hi ev).
Qed.

(** C15. The worker outlives the server: unless it panics, it returns only after the
    server has ended, and by then it has received every key that was handed to
    the dead-man switch.  The thread is detached and ends with the process at
    the latest, when [main] returns; such a run is one of the model that takes
    no further step. *)
Theorem worker_drains s o :
  system_state s -> worker s = Ret o ->
  match o with
  | Ok (Continue _) | Panicked _ => True
  | Err _ => False
  | Ok (Break _) => ended (server s) = true /\ received (worker_trace s) = requested (server_trace s)
  end.
Proof.
  intros Hi%system_inv Hw. pose proof (si_worker _ Hi) as Hr. rewrite Hw in Hr.
  apply residue_runs, worker_ends in Hr. destruct o as [[|]|e|m]; try done.
  destruct Hr as (ev & Hev & Hc). destruct (si_closed _ Hi _ Hev Hc) as [Hend Hn].
  split; [done|]. by rewrite (si_requested _ Hi), Hn, app_nil_r.
Qed.
(** ** Nobody waits in a circle *)
Definition running {A} (p : proc A) : Prop := exists e k, p = Vis e k.

(** A process whose loop is not out of fuel is running or over. *)
Definition fuelled {S A} (p : proc (control S A)) : Prop := forall x, p <> Ret (Ok (Continue x)).

Lemma running_or_ended {S A} (p : proc (control S A)) : fuelled p -> running p \/ ended p = true.
Proof.
  intros Hf. destruct p as [[[x|x]|e|m]|e k]; [by destruct (Hf x)|by right..|left]. by exists e, k.
Qed.

(** Sending goes through, or fails, unless the queue is full and still read. *)
Lemma channel_send_waits {A} n closed (q : list A) x :
  length q <= n -> (exists r q', channel_send n closed q x r = Some q') \/ (length q = n /\ closed = false).
Proof.
  intros Hl. destruct closed; [left; by exists (Err (EMsg (Msg "channel closed" []))), q|].
  destruct (decide (length q < n)) as [Hlt|]; [left|right; lia].
  exists (Ok tt), (q ++ [x]). simpl. by rewrite bool_decide_eq_true_2.
Qed.

Lemma proc_step_answer {A} e k (a : answer e) : proc_step (A := A) (Vis e k) (Ev e a) = Some (k a).
Proof. simpl. by rewrite bool_decide_eq_true_2, cast_answer_same. Qed.

(** The channel whose lack of room keeps an operation from happening: it is
    full, and its receiver still reads.  It does not matter whose operation
    it is. *)
Definition blocked_on (s : server_system) (e : effect) : option channel :=
  match e with
  | ESendManager _ =>
      if bool_decide (length (notifications s) < NOTIFICATION_QUEUE) || ended (server s) then None
      else Some Notifications
  | ESendDeadman _ =>
      if bool_decide (length (requests s) < REQUEST_QUEUE) || ended (worker s) then None
      else Some Requests
  | _ => None
  end.

Lemma blocked_on_sends s e c : blocked_on s e = Some c -> sends e = Some c.
Proof. destruct e; simpl; try done; by destruct (_ || _). Qed.

(** A process reads the channel it owns as long as it is not over. *)
Lemma blocked_on_alive s e c :
  blocked_on s e = Some c ->
  match c with Notifications => ended (server s) = false | Requests => ended (worker s) = false end.
Proof.
  destruct e; simpl; try done; destruct (bool_decide _); try done; simpl.
  - by destruct (ended (server s)); intros [= <-].
  - by destruct (ended (worker s)); intros [= <-].
Qed.

Lemma worker_can_move s e k :
  worker s = Vis e k -> exists a s', sys_move (MWorker (Ev e a)) s = Some s'.
Proof.
  intros Hw. assert (Henv : exists a q, worker_env (ended (server s)) (requests s) (Ev e a) = Some q).
  { destruct e; by exists (default_answer _), (requests s). }
  destruct Henv as (a & q & Hq). exists a. eexists. unfold sys_move. by rewrite Hw, proc_step_answer, Hq.
Qed.

Lemma server_can_move s e k :
  sys_inv s -> server s = Vis e k -> blocked_on s e = None ->
  exists a s', sys_move (MServer (Ev e a)) s = Some s'.
Proof.
  intros Hi Hs Hb. assert (Henv : exists a r, server_env s (Ev e a) = Some r).
  { destruct e; try (by eexists (default_answer _), _).
    - by eexists (Accepted (Ok (mkAcceptEvent 0 ""))), _.
    - assert (Hf : exists h : answer (ESpawn id s0), tasks s !! h = None)
        by (exists (fresh (dom (tasks s))); apply not_elem_of_dom, is_fresh).
      destruct Hf as [h Hf]. exists h. eexists. cbn [server_env]. by rewrite Hf.
    - destruct (channel_send_waits REQUEST_QUEUE (ended (worker s)) (requests s) req) as [(r & q & Hq)|[Hl He]];
        [apply Hi|exists r; eexists; cbn [server_env]; by rewrite Hq|].
      simpl in Hb. rewrite Hl, He in Hb. by rewrite bool_decide_eq_false_2 in Hb by lia. }
  destruct Henv as (a & [[ts q] reqs] & Hq). exists a. eexists. unfold sys_move.
  by rewrite Hs, proc_step_answer, Hq.
Qed.

Lemma task_can_move s h t e k :
  sys_inv s -> tasks s !! h = Some t -> task_alive t = true -> task_proc t = Vis e k -> blocked_on s e = None ->
  exists a s', sys_move (MTask h (Ev e a)) s = Some s'.
Proof.
  intros Hi Ht Ha Hs Hb. assert (Henv : exists a q, task_env s (Ev e a) = Some q).
  { destruct e; try (by exists (default_answer _), (notifications s)).
    destruct (channel_send_waits NOTIFICATION_QUEUE (ended (server s)) (notifications s) ev) as [?|[Hl He]];
      [apply Hi|done|]. simpl in Hb. rewrite Hl, He in Hb. by rewrite bool_decide_eq_false_2 in Hb by lia. }
  destruct Henv as (a & q & Hq). exists a. eexists. unfold sys_move. rewrite Ht. cbn [mbind option_bind].
  by rewrite Ha, Hs, proc_step_answer, Hq.
Qed.

(** What a process may do next is what its procedure may do. *)
Lemma next_operation {A} P (p0 : proc A) tr p e k :
  residue p0 tr p -> performs P p0 -> p = Vis e k -> P e = true.
Proof. intros Hr Hp ->. by apply (residue_performs _ _ _ _ Hr Hp). Qed.

(** C11. Nobody waits in a circle.  A full channel is the only thing that can keep an
    operation from happening, and it never keeps the worker; the connection
    manager it keeps only when the channel to the worker is full and the worker
    is running - never on the channel the manager itself must empty -, and a
    task only when the channel to the manager is full and the manager is
    running.  So in every reachable state that is not the end of everything
    some process can go on. *)
Theorem nobody_waits_in_a_circle `{!OutsideHandler Broker} s :
  system_state s -> fuelled (server s) -> fuelled (worker s) ->
  (forall e k, worker s = Vis e k ->
     blocked_on s e = None /\ exists a s', sys_move (MWorker (Ev e a)) s = Some s') /\
  (forall e k, server s = Vis e k ->
     (blocked_on s e = None /\ exists a s', sys_move (MServer (Ev e a)) s = Some s') \/
     (blocked_on s e = Some Requests /\ running (worker s))) /\
  (forall h t e k, tasks s !! h = Some t -> task_alive t = true -> task_proc t = Vis e k ->
     (blocked_on s e = None /\ exists a s', sys_move (MTask h (Ev e a)) s = Some s') \/
     (blocked_on s e = Some Notifications /\ running (server s))).
Proof.
  intros Hi%system_inv Hs%running_or_ended Hw%running_or_ended. split; [|split].
  - intros e k He. split; [|by eapply worker_can_move].
    destruct (blocked_on s e) as [c|] eqn:Hb; [|done]. apply blocked_on_sends in Hb.
    pose proof (next_operation _ _ _ _ _ _ (si_worker _ Hi) (worker_performs _ _ _ _) He) as Hop.
    by eapply op_sends in Hop.
  - intros e k He. destruct (blocked_on s e) as [c|] eqn:Hb; [right|left; split; [done|by eapply server_can_move]].
    pose proof (next_operation _ _ _ _ _ _ (si_server _ Hi) (tcp_server_performs _ _ _) He) as Hop.
    pose proof (op_sends _ _ _ _ Hop (blocked_on_sends _ _ _ Hb)) as Hc. injection Hc as <-. split; [done|].
    apply blocked_on_alive in Hb. destruct Hw; [done|congruence].
  - intros h t e k Ht Ha He.
    destruct (blocked_on s e) as [c|] eqn:Hb; [right|left; split; [done|by eapply task_can_move]].
    pose proof (next_operation _ _ _ _ _ _ (si_tasks _ Hi _ _ Ht) (init_task_performs _ _ _) He) as Hop.
    pose proof (op_sends _ _ _ _ Hop (blocked_on_sends _ _ _ Hb)) as Hc. injection Hc as <-. split; [done|].
    apply blocked_on_alive in Hb. destruct Hs; [done|congruence].
Qed.
(** C14. The process is bounded: the queues never hold more than they are made for,
    and at most 2001 connection tasks are neither over nor told to stop. *)
Theorem system_bounds s :
  system_state s ->
  length (notifications s) <= 16 /\ length (requests s) <= 8 /\
  size (filter (fun ht => ht.1 ∉ aborted (server_trace s)) (tasks s)) <= 2001.
Proof.
  intros Hi%system_inv. split; [apply Hi|]. split; [apply Hi|].
  destruct (server_facts _ Hi) as (log & rest & [_ _ _ Hp Hl]). etrans; [|exact Hl].
  rewrite <- length_map_to_list, <- (length_fmap fst). apply submseteq_length, NoDup_submseteq.
  - apply NoDup_fst_map_to_list.
  - intros h ([h' t] & -> & Hin%elem_of_map_to_list)%list_elem_of_fmap.
    apply map_lookup_filter_Some in Hin as [Ht Hna]. simpl in *.
    apply (si_spawned _ Hi) in Ht. rewrite Hp, elem_of_app in Ht. by destruct Ht.
Qed.

End System.

(** ** Witnesses *)
Definition demo_wireguard : DeadmanWorker (Broker := WireGuardOskHandler) :=
  mkWorker (mkWireGuard "wg0" (sim_key 9)) 150.
Definition demo_system : server_system := system_init 1000000 (Ok tt) DevProfile demo_tcp_server demo_wireguard 9 9.

Definition demo_moves (mvs : list move) : option server_system :=
  sys_moves (H2 := demo_json) demo_tcp_server 9 mvs demo_system.
Definition demo_state (mvs : list move) : server_system := default demo_system (demo_moves mvs).

Lemma demo_system_state mvs :
  is_Some (demo_moves mvs) ->
  system_state (H2 := demo_json) 1000000 (Ok tt) DevProfile demo_tcp_server demo_wireguard 9 9 9 (demo_state mvs).
Proof.
  intros [s Hs]. apply (sys_moves_state _ _ _ _ _ _ _ _ mvs). unfold demo_state. by rewrite Hs.
Qed.

Definition is_possible (mvs : list move) : bool :=
  match demo_moves mvs with Some _ => true | None => false end.

Lemma demo_possible mvs : is_possible mvs = true -> is_Some (demo_moves mvs).
Proof. unfold is_possible. destruct (demo_moves mvs); [eauto|done]. Qed.

(** A connection is accepted, negotiates a key and posts it; the manager reads
    it and hands it to the dead-man switch. *)
Definition demo_negotiation : negotiation := mkNegotiation demo_answer demo_qkd_key (new_zeroed 32).
Definition demo_task_protocol : DaisywayServerProtocol (O := FanoutOskHandler) :=
  fanout_protocol (task_settings demo_tcp_server) 0.
Definition demo_osk_event : OskEvent := negotiated_osk (task_settings demo_tcp_server) 0 demo_negotiation.

Definition demo_delivery : list move :=
  [MServer (Ev (EBind "0.0.0.0:9000") (Ok tt));
   MServer (Ev ESelect (demo_accept 7)); MServer (Ev (ESpawn 0 7) 100%Z)] ++
  (MTask 100 <$> negotiation_trace demo_task_protocol demo_negotiation) ++
  [MTask 100 (Ev (ESendManager (COsk demo_osk_event)) (Ok tt));
   MServer (Ev ESelect (Notified (Some (COsk demo_osk_event))));
   MServer (Ev (ESendDeadman (osk_request demo_osk_event)) (Ok tt))].

Lemma demo_delivery_possible : is_possible demo_delivery = true.
Proof. vm_compute. reflexivity. Qed.

Lemma server_pipeline_witness : exists log,
  [osk_request demo_osk_event] = osk_request <$> log /\ StronglySorted Z.le (osk_connection_id <$> log).
Proof.
  destruct (server_pipeline (H2 := demo_json) 1000000 (Ok tt) DevProfile demo_tcp_server demo_wireguard 9 9 9
    ltac:(vm_compute; reflexivity) (demo_state demo_delivery)) as (log & Hlog & Hsort & _).
  - apply demo_system_state, demo_possible, demo_delivery_possible.
  - exists log. split; [|exact Hsort]. rewrite <- Hlog. vm_compute. reflexivity.
Defined.

Lemma system_bounds_witness :
  length (requests (demo_state demo_delivery)) <= 8 /\
  size (filter (fun ht => ht.1 ∉ aborted (server_trace (demo_state demo_delivery)))
    (tasks (demo_state demo_delivery))) <= 2001.
Proof.
  exact (proj2 (system_bounds (H2 := demo_json) 1000000 (Ok tt) DevProfile demo_tcp_server demo_wireguard 9 9 9
    ltac:(vm_compute; reflexivity) (demo_state demo_delivery)
    (demo_system_state _ (demo_possible _ demo_delivery_possible)))).
Defined.

(** The address is taken; the worker erases, finds that nobody is left and erases again. *)
Definition demo_erase (k : Key) : list move :=
  [MWorker (Ev ERandom k);
   MWorker (Ev (EWgSetDevice (mkSetDevice "wg0" [mkSetPeer (sim_key 9) [UpdateOnly] (Some k)])) (Ok tt))].
Definition demo_shutdown : list move :=
  [MServer (Ev (EBind "0.0.0.0:9000") (Err (EIo (OtherKind 98))))] ++
  demo_erase (sim_key 1) ++
  [MWorker (Ev ENow 5%Z); MWorker (Ev (ETimeoutRecv 155) (Some None))] ++
  demo_erase (sim_key 2).

Lemma demo_shutdown_possible : is_possible demo_shutdown = true.
Proof. vm_compute. reflexivity. Qed.

Lemma server_survives_witness :
  server_trace (demo_state demo_shutdown) = [Ev (EBind "0.0.0.0:9000") (Err (EIo (OtherKind 98)))] \/
  accept_failed (EIo (OtherKind 98)) ∈ server_trace (demo_state demo_shutdown) \/
  exists m, worker (demo_state demo_shutdown) = Ret (Panicked m).
Proof.
  apply (server_survives (H2 := demo_json) 1000000 (Ok tt) DevProfile demo_tcp_server demo_wireguard 9 9 9
    ltac:(vm_compute; reflexivity) (demo_state demo_shutdown) (Err (EIo (OtherKind 98)))).
  - apply demo_system_state, demo_possible, demo_shutdown_possible.
  - vm_compute. reflexivity.
Defined.

Lemma worker_drains_witness :
  ended (server (demo_state demo_shutdown)) = true /\
  received (worker_trace (demo_state demo_shutdown)) = requested (server_trace (demo_state demo_shutdown)).
Proof.
  apply (worker_drains (H2 := demo_json) 1000000 (Ok tt) DevProfile demo_tcp_server demo_wireguard 9 9 9
    ltac:(vm_compute; reflexivity) (demo_state demo_shutdown) (Ok (Break tt))).
  - apply demo_system_state, demo_possible, demo_shutdown_possible.
  - vm_compute. reflexivity.
Defined.

Definition is_running {A} (p : proc A) : bool := match p with Vis _ _ => true | Ret _ => false end.

Lemma is_running_fuelled {S A} (p : proc (control S A)) : is_running p = true -> fuelled p.
Proof. by intros Hp x ->. Qed.

Lemma nobody_waits_in_a_circle_witness : exists e a s',
  sys_move (H2 := demo_json) demo_tcp_server 9 (MWorker (Ev e a)) (demo_state demo_delivery) = Some s' /\
  blocked_on (demo_state demo_delivery) e = None.
Proof.
  destruct (nobody_waits_in_a_circle (H2 := demo_json) 1000000 (Ok tt) DevProfile demo_tcp_server demo_wireguard 9 9 9
    ltac:(vm_compute; reflexivity) (demo_state demo_delivery)) as [Hw _].
  - apply demo_system_state, demo_possible, demo_delivery_possible.
  - apply is_running_fuelled. vm_compute. reflexivity.
  - apply is_running_fuelled. vm_compute. reflexivity.
  - destruct (worker (demo_state demo_delivery)) as [o|e k] eqn:Hk.
    + assert (Hr : is_running (worker (demo_state demo_delivery)) = true) by (vm_compute; reflexivity).
      rewrite Hk in Hr. discriminate Hr.
    + destruct (Hw e k eq_refl) as (Hb & a & s' & Hm). exists e, a, s'. split; [exact Hm|exact Hb].
Defined.
