(* ===== verification/ClientTraces.v ===== *)
(** * What the client's procedure has done at any moment

    The trace of the client ([Net.tcp_client_event_loop]) falls into sessions,
    one for each connection that was made: a partial run of the protocol, and
    then only pauses and failed attempts. *)

From S2P Require Import Prelude Types Externals RefInstances Effects Etsi014 HashDomain Crypto Osk Deadman Duplex Protocol ConnectionManager Roster Fanout Agreement Net ServerTraces.

(** ** Sessions *)

(** A connection was made; and an operation between connections. *)
Definition connected (ev : event) : bool :=
  match ev with
  | Ev e a => match e return answer e -> bool with
              | EConnect _ => fun r => is_ok r
              | _ => fun _ => false
              end a
  end.

Definition between (ev : event) : bool :=
  match ev with
  | Ev e a => match e return answer e -> bool with
              | EConnect _ => fun r => negb (is_ok r)
              | ESleep _ => fun _ => true
              | _ => fun _ => false
              end a
  end.

Definition last_index {A} (l : list A) : nat := pred (length l).

(** An operation belongs to the last connection that was made. *)
Definition session_step (ss : list (list event)) (ev : event) : list (list event) :=
  if connected ev then ss ++ [[]] else alter (fun t => t ++ [ev]) (last_index ss) ss.

Definition sessions (tr : list event) : list (list event) := foldl session_step [] tr.

Lemma sessions_snoc tr ev : sessions (tr ++ [ev]) = session_step (sessions tr) ev.
Proof. unfold sessions. by rewrite foldl_app. Qed.

Lemma alter_last {A} (f : A -> A) (l : list A) x :
  alter f (last_index (l ++ [x])) (l ++ [x]) = l ++ [f x].
Proof.
  unfold last_index. rewrite length_app. simpl. rewrite Nat.add_1_r. simpl.
  by rewrite alter_app_r_alt, Nat.sub_diag.
Qed.

(** Operations that connect nothing go into the open session, if there is one. *)
Lemma sessions_extend t ss x :
  Forall (fun ev => connected ev = false) t -> foldl session_step (ss ++ [x]) t = ss ++ [x ++ t].
Proof.
  intros Hall. revert x. induction Hall as [|ev t Hev _ IH]; intros x; simpl; [by rewrite app_nil_r|].
  unfold session_step at 2. rewrite Hev, alter_last, IH. by rewrite <- app_assoc.
Qed.

Lemma sessions_before t : Forall (fun ev => connected ev = false) t -> foldl session_step [] t = [].
Proof. induction 1 as [|ev t Hev _ IH]; [done|]. simpl. unfold session_step at 2. by rewrite Hev. Qed.

(** What holds of every event holds in every session. *)
Lemma sessions_Forall (P : event -> Prop) tr : Forall P tr -> Forall (Forall P) (sessions tr).
Proof.
  induction tr as [|ev tr IH] using rev_ind; [intros _; constructor|].
  intros [Htr Hev]%Forall_app. rewrite sessions_snoc. unfold session_step.
  destruct (connected ev); [apply Forall_app; split; [by apply IH|by repeat constructor]|].
  apply Forall_alter; [by apply IH|]. intros t _ Ht. by apply Forall_app.
Qed.

Lemma between_wires t out inp :
  Forall (fun ev => between ev = true) t -> delivers t out -> consumes t inp -> out = [] /\ inp = [].
Proof.
  intros Hall. revert out inp. induction Hall as [|ev t Hev _ IH]; intros out inp Hd Hc; [done|].
  destruct Hd as (o1 & o2 & -> & Hd1 & Hd2), Hc as (i1 & i2 & -> & Hc1 & Hc2).
  destruct (IH _ _ Hd2 Hc2) as [-> ->]. destruct ev as [e a]; destruct e; try done; by simpl in *; subst.
Qed.

(** ** The client's trace *)
Section Client.
Context `{Shake256Lib} `{UuidLib} `{Base64Codec} `{!ReqwestLib}.
Implicit Types tc : DaisywayTcpClient (O := OskDeadman).

(** A session: the protocol for a while, and what came between. *)
Definition session_ok (fuel : nat) tc (t : list event) : Prop :=
  exists t0 q, t = t0 ++ q /\ partial (client_event_loop fuel (client_handler tc)) t0 /\
    Forall (fun ev => between ev = true) q.

(** An attempt: one that made no connection, or a session after its connection. *)
Definition attempt_ok (fuel : nat) tc (t : list event) : Prop :=
  Forall (fun ev => between ev = true) t \/
  exists r t', t = Ev (EConnect (tc_endpoint tc)) (Ok r) :: t' /\ session_ok fuel tc t'.

Lemma partial_sleep t : partial (let! _ := sleep 2 in pure (@Continue unit unit tt)) t ->
  Forall (fun ev => between ev = true) t.
Proof.
  destruct t as [|ev t]; [by constructor|]. intros ([] & -> & Hp). apply partial_Ret in Hp as ->.
  by repeat constructor.
Qed.

Lemma partial_client_attempt fuel tc t : partial (client_attempt fuel tc tt) t -> attempt_ok fuel tc t.
Proof.
  assert (Hcon : forall t, partial (event_loop_without_error_handling fuel tc) t ->
    Forall (fun ev => between ev = true) t \/
    exists r t', t = Ev (EConnect (tc_endpoint tc)) (Ok r) :: t' /\
      partial (client_event_loop fuel (client_handler tc)) t').
  { intros [|ev t']; [by left; constructor|]. intros (r & -> & Hp). destruct r as [r|e|m].
    - right. by exists r, t'.
    - left. apply partial_Ret in Hp as ->. by repeat constructor.
    - left. apply partial_Ret in Hp as ->. by repeat constructor. }
  intros [Hp%partial_try|(t1 & t2 & r & -> & Hr & Hp)]%partial_bind.
  - apply Hcon in Hp as [?|(r & t' & -> & Hp)]; [by left|right].
    exists r, t'. split; [done|]. exists t', []. rewrite app_nil_r. split; [done|]. by split; [|constructor].
  - apply runs_partial, partial_try, Hcon in Hr.
    assert (Hq : Forall (fun ev => between ev = true) t2).
    { destruct r as [[[]|[]]|e|m]; [apply partial_Ret in Hp as ->; constructor|by apply partial_sleep..]. }
    destruct Hr as [?|(x & t' & -> & Hp')]; [left; by apply Forall_app|right].
    exists x, (t' ++ t2). split; [done|]. by exists t', t2.
Qed.

Lemma partial_tcp_client attempts fuel tc tr :
  partial (tcp_client_event_loop attempts fuel tc) tr ->
  exists l, tr = mjoin l /\ Forall (attempt_ok fuel tc) l.
Proof.
  unfold tcp_client_event_loop. revert tr. induction attempts as [|n IH]; intros tr Hp;
    apply partial_loop in Hp as [->|(n' & Hn & Hp)]; try by (exists []; split; [|constructor]).
  injection Hn as <-. destruct Hp as [Hp|(t1 & t2 & c & -> & Hr%runs_partial & Hp)].
  - exists [tr]. cbn [mjoin list_join]. rewrite app_nil_r. split; [done|].
    apply Forall_singleton. by apply partial_client_attempt.
  - apply partial_client_attempt in Hr. destruct c as [[]|[]].
    + apply IH in Hp as (l & -> & Hl). exists (t1 :: l). split; [done|]. by constructor.
    + subst. exists [t1]. split; [done|]. by apply Forall_singleton.
Qed.

(** Neither the protocol nor a pause makes a connection. *)
Lemma between_plain ev : between ev = true -> connected ev = false /\ client_install_of ev = None.
Proof. destruct ev as [e a]; destruct e; try done. by destruct a. Qed.

Lemma turn_plain cl t :
  client_progress (O := OskDeadman) cl t -> Forall (fun ev => connected ev = false) t.
Proof.
  intros Hp. destruct Hp as [|r|buf a|buf a qk w Ha|buf a qk t Ha Ht]; try by repeat constructor.
  apply Forall_app. split; [by repeat constructor|].
  destruct (deadman_partial _ _ _ Ht) as [->|[r ->]]; by repeat constructor.
Qed.

Lemma loop_plain fuel cl t :
  partial (client_event_loop (O := OskDeadman) fuel cl) t -> Forall (fun ev => connected ev = false) t.
Proof.
  intros (turns & rest & -> & Hall & Hp)%partial_forever. apply Forall_app. split.
  - induction Hall as [|t turns Hr _ IH]; [constructor|]. cbn [mjoin list_join]. apply Forall_app. split; [|done].
    by eapply turn_plain, partial_client_turn, runs_partial.
  - by eapply turn_plain, partial_client_turn.
Qed.

Lemma session_plain fuel tc t : session_ok fuel tc t -> Forall (fun ev => connected ev = false) t.
Proof.
  intros (t0 & q & -> & Hp & Hq). apply Forall_app. split; [by eapply loop_plain|].
  eapply Forall_impl; [exact Hq|]. by intros ev [? ?]%between_plain.
Qed.

Lemma between_installs t : Forall (fun ev => between ev = true) t -> client_installs t = [].
Proof.
  induction 1 as [|ev t Hev _ IH]; [done|]. apply between_plain in Hev as [_ Hev].
  unfold client_installs in *. cbn. by rewrite Hev.
Qed.

Lemma attempts_sessions fuel tc l ss :
  Forall (attempt_ok fuel tc) l -> Forall (session_ok fuel tc) ss ->
  Forall (session_ok fuel tc) (foldl session_step ss (mjoin l)) /\
  client_installs (mjoin (foldl session_step ss (mjoin l))) = client_installs (mjoin ss) ++ client_installs (mjoin l).
Proof.
  intros Hl. revert ss. induction Hl as [|t l Ht _ IH]; intros ss Hss; [by rewrite app_nil_r|].
  cbn [mjoin list_join]. rewrite foldl_app, client_installs_app.
  assert (Hstep : Forall (session_ok fuel tc) (foldl session_step ss t) /\
    client_installs (mjoin (foldl session_step ss t)) = client_installs (mjoin ss) ++ client_installs t).
  { destruct Ht as [Hq|(r & t' & -> & Ht)].
    - assert (Hplain : Forall (fun ev => connected ev = false) t).
      { eapply Forall_impl; [exact Hq|]. by intros ev [? ?]%between_plain. }
      rewrite (between_installs _ Hq), app_nil_r.
      destruct ss as [|x ss _] using rev_ind; [by rewrite sessions_before|].
      rewrite (sessions_extend _ _ _ Hplain). apply Forall_app in Hss as [Hss Hx].
      apply Forall_singleton in Hx as (t0 & q & -> & Hp & Hq0). split.
      + apply Forall_app. split; [done|]. apply Forall_singleton. exists t0, (q ++ t).
        rewrite <- app_assoc. split; [done|]. split; [done|]. by apply Forall_app.
      + rewrite !join_app. simpl. rewrite !app_nil_r, !client_installs_app, (between_installs _ Hq).
        by rewrite app_nil_r.
    - simpl. change (session_step ss (Ev (EConnect (tc_endpoint tc)) (Ok r))) with (ss ++ [[]]).
      rewrite sessions_extend by (by eapply session_plain). split.
      + apply Forall_app. split; [done|]. by apply Forall_singleton.
      + rewrite join_app. simpl. by rewrite app_nil_r, client_installs_app. }
  destruct Hstep as [Hs1 Hs2]. destruct (IH _ Hs1) as [Hi1 Hi2]. split; [done|].
  etrans; [exact Hi2|]. by rewrite Hs2, app_assoc.
Qed.

(** What the sessions of the client are, and that nothing is installed outside. *)
Lemma client_sessions attempts fuel tc tr :
  partial (tcp_client_event_loop attempts fuel tc) tr ->
  Forall (session_ok fuel tc) (sessions tr) /\ client_installs (mjoin (sessions tr)) = client_installs tr.
Proof.
  intros (l & -> & Hl)%partial_tcp_client.
  destruct (attempts_sessions _ _ _ [] Hl (Forall_nil_2 _)) as [Hs Hi]. split; [exact Hs|exact Hi].
Qed.
End Client.
