(* ===== verification/Link.v ===== *)
(** * The two processes on a network

    A server process ([ServerSystem]) and a client process, over any number of
    connections: the client connects, loses the connection, and connects again
    ([Net.tcp_client_event_loop]), the server accepts what is connected, in any
    order or never, and strangers may connect to it too.  Every connection is a
    pair of wires that lose and reorder nothing, on which any operation may
    fail.  Each process has its own dead-man worker behind its request queue.

    The step function is executable, like that of [ServerSystem]. *)

From S2P Require Import Prelude Types Externals RefInstances Effects Etsi014 HashDomain Crypto Osk Deadman Duplex Protocol ConnectionManager Roster Fanout Agreement Net ServerTraces ServerSystem ClientTraces.

(** ** Wires *)

(** A connection: the bytes in flight, and whether the server has accepted it. *)
Record pipe : Type := mkPipe { to_server : bytes; to_client : bytes; accepted : bool }.

Definition new_pipe : pipe := mkPipe [] [] false.

(** What an operation does to the incoming wire, and what it puts on the
    outgoing one; one that fails took or delivered [n] bytes of it. *)
Definition wire_env (inp : bytes) (n : nat) (ev : event) : option (bytes * bytes) :=
  match ev with
  | Ev e a => match e return answer e -> option (bytes * bytes) with
      | EWriteAll data => fun r =>
          match r with Ok _ => Some (inp, data) | Err _ => Some (inp, take n data) | Panicked _ => None end
      | EReadExact len => fun r =>
          match r with
          | Ok b => if bool_decide (take len inp = as_bytes b) then Some (drop len inp, []) else None
          | Err _ => Some (drop n inp, [])
          | Panicked _ => None
          end
      | _ => fun _ => Some (inp, [])
      end a
  end.

Lemma wire_env_Some inp n ev inp' out :
  wire_env inp n ev = Some (inp', out) -> exists took, inp = took ++ inp' /\ takes ev took /\ puts ev out.
Proof.
  destruct ev as [e a]; destruct e; cbn [wire_env]; intros Hw; try (injection Hw as <- <-; by exists []).
  - destruct a as [[]|e|m]; [| |done]; injection Hw as <- <-; exists []; [done|].
    split; [done|]. split; [done|]. apply prefix_take.
  - destruct a as [b|e|m]; [| |done].
    + case_bool_decide as Hb; [|done]. injection Hw as <- <-. exists (as_bytes b).
      split; [by rewrite <- Hb, take_drop|done].
    + injection Hw as <- <-. exists (take n inp). by rewrite take_drop.
Qed.

(** The server's and the client's end of a connection. *)
Definition server_end (p : pipe) (n : nat) (ev : event) : option pipe :=
  '(inp, out) ← wire_env (to_server p) n ev;
  Some (mkPipe inp (to_client p ++ out) (accepted p)).

Definition client_end (p : pipe) (n : nat) (ev : event) : option pipe :=
  '(inp, out) ← wire_env (to_client p) n ev;
  Some (mkPipe (to_server p ++ out) inp (accepted p)).

(** The server's and the client's trace of a connection explain what is in flight. *)
Definition joined (trs trc : list event) (p : pipe) : Prop :=
  exists outs inps outc inpc,
    delivers trs outs /\ consumes trs inps /\ delivers trc outc /\ consumes trc inpc /\
    outs = inpc ++ to_client p /\ outc = inps ++ to_server p.

Lemma joined_new : joined [] [] new_pipe.
Proof. by exists [], [], [], []. Qed.

Lemma joined_same_wires trs trc p p' :
  joined trs trc p -> to_server p' = to_server p -> to_client p' = to_client p -> joined trs trc p'.
Proof. unfold joined. by intros Hj -> ->. Qed.

Lemma joined_server trs trc p n ev p' :
  joined trs trc p -> server_end p n ev = Some p' -> joined (trs ++ [ev]) trc p' /\ accepted p' = accepted p.
Proof.
  intros (outs & inps & outc & inpc & H1 & H2 & H3 & H4 & -> & ->) Hs.
  apply bind_Some in Hs as ([inp out] & Hw & [= <-]). split; [|done].
  apply wire_env_Some in Hw as (took & Hin & Ht & Hp).
  exists ((inpc ++ to_client p) ++ out), (inps ++ took), (inps ++ to_server p), inpc.
  split; [by apply along_snoc|]. split; [by apply along_snoc|]. split; [done|]. split; [done|]. simpl.
  split; [by rewrite app_assoc|]. by rewrite Hin, app_assoc.
Qed.

Lemma joined_client trs trc p n ev p' :
  joined trs trc p -> client_end p n ev = Some p' -> joined trs (trc ++ [ev]) p' /\ accepted p' = accepted p.
Proof.
  intros (outs & inps & outc & inpc & H1 & H2 & H3 & H4 & -> & ->) Hs.
  apply bind_Some in Hs as ([inp out] & Hw & [= <-]). split; [|done].
  apply wire_env_Some in Hw as (took & Hin & Ht & Hp).
  exists (inpc ++ to_client p), inps, ((inps ++ to_server p) ++ out), (inpc ++ took).
  split; [done|]. split; [done|]. split; [by apply along_snoc|]. split; [by apply along_snoc|]. simpl.
  split; [by rewrite Hin, app_assoc|]. by rewrite app_assoc.
Qed.

(** The key a request asks to install. *)
Definition request_key (req : DeadmanRequest) : Key := let 'SetOsk k _ := req in k.

(** ** The two processes *)
Section Link.
Context `{Shake256Lib} `{UuidLaws} `{Base64Codec} `{!ReqwestLib}.
Context {SB CB : Type} `{OskHandler SB} `{OskHandler CB} (instant_max : Z) (runtime : outcome unit) (prof : profile).

(** The server and its worker; the client and its; the turns each loop may
    take; and what the key managers may answer. *)
Context (srv : DaisywayTcpServer (O := OskDeadman)) (swkr : DeadmanWorker (Broker := SB)).
Context (tc : DaisywayTcpClient (O := OskDeadman)) (cwkr : DeadmanWorker (Broker := CB)).
Context (server_fuel task_fuel attempts client_fuel worker_fuel : nat).
Context (http : string -> outcome http_response -> Prop).

(** The connections that were made, in the order in which the client made
    them: the stream of the server's end of the i-th is [i]. *)
Record link : Type := mkLink {
  host : server_system;
  pipes : list pipe;
  client : proc (control unit unit);
  client_trace : list event;
  client_worker : proc (control unit unit);
  client_worker_trace : list event;
  client_requests : list DeadmanRequest;
}.

Definition link_init : link :=
  mkLink (system_init instant_max runtime prof srv swkr server_fuel worker_fuel) []
    (tcp_client_event_loop attempts client_fuel tc) []
    (worker_thread instant_max runtime worker_fuel cwkr) [] [].

(** Replaces the pipe of a stream, if there is one to replace it with. *)
Definition on_pipe (i : nat) (f : pipe -> option pipe) (ps : list pipe) : option (list pipe) :=
  p ← ps !! i; p' ← f p; Some (<[i := p']> ps).

(** Accepting: a connection is accepted once; a stranger's stream is negative. *)
Definition accept_pipe (p : pipe) : option pipe :=
  if accepted p then None else Some (mkPipe (to_server p) (to_client p) true).

Definition host_pipes (s : link) (mv : move) (n : nat) : option (list pipe) :=
  match mv with
  | MTask h ev =>
      t ← tasks (host s) !! h;
      if bool_decide (task_stream t < 0)%Z then Some (pipes s)
      else on_pipe (Z.to_nat (task_stream t)) (fun p => server_end p n ev) (pipes s)
  | MServer ev =>
      match admitted_by ev with
      | Some st =>
          if bool_decide (st < 0)%Z then Some (pipes s) else on_pipe (Z.to_nat st) accept_pipe (pipes s)
      | None => Some (pipes s)
      end
  | MWorker _ | MKill _ => Some (pipes s)
  end.

(** The client's operations: a connection that is made is the current one. *)
Definition client_pipes (s : link) (n : nat) (ev : event) : option (list pipe) :=
  if connected ev then Some (pipes s ++ [new_pipe])
  else match pipes s with
       | [] => Some []
       | _ => on_pipe (last_index (pipes s)) (fun p => client_end p n ev) (pipes s)
       end.

(** The client is gone, and its sender with it, only when it has panicked. *)
Definition client_gone (s : link) : bool := match client s with Ret o => panics o | Vis _ _ => false end.

Definition client_env (s : link) (ev : event) : option (list DeadmanRequest) :=
  match ev with
  | Ev e a => match e return answer e -> option (list DeadmanRequest) with
              | EConnect _ => fun r => if panics r then None else Some (client_requests s)
              | ESendDeadman req => fun r =>
                  channel_send REQUEST_QUEUE (ended (client_worker s)) (client_requests s) req r
              | _ => fun _ => Some (client_requests s)
              end a
  end.

Inductive link_event : Type :=
  | LHost (mv : move) (n : nat)
  | LClient (ev : event) (n : nat)
  | LWorker (ev : event).

Definition link_move (lm : link_event) (s : link) : option link :=
  match lm with
  | LHost mv n =>
      host' ← sys_move srv task_fuel mv (host s);
      ps ← host_pipes s mv n;
      Some (mkLink host' ps (client s) (client_trace s) (client_worker s) (client_worker_trace s) (client_requests s))
  | LClient ev n =>
      p ← proc_step (client s) ev;
      ps ← client_pipes s n ev;
      reqs ← client_env s ev;
      Some (mkLink (host s) ps p (client_trace s ++ [ev]) (client_worker s) (client_worker_trace s) reqs)
  | LWorker ev =>
      p ← proc_step (client_worker s) ev;
      reqs ← worker_env (client_gone s) (client_requests s) ev;
      Some (mkLink (host s) (pipes s) (client s) (client_trace s) p (client_worker_trace s ++ [ev]) reqs)
  end.

(** The key managers' answers to the tasks and to the client. *)
Definition answered (lm : link_event) : Prop :=
  match lm with LHost (MTask _ ev) _ | LClient ev _ => http_ok http ev | _ => True end.

Definition link_step (s s' : link) : Prop := exists lm, answered lm /\ link_move lm s = Some s'.

Definition link_state (s : link) : Prop := reachable (eq link_init) link_step s.

Fixpoint link_moves (lms : list link_event) (s : link) : option link :=
  match lms with
  | [] => Some s
  | lm :: lms => s' ← link_move lm s; link_moves lms s'
  end.

Lemma link_moves_state lms s :
  Forall answered lms -> link_moves lms link_init = Some s -> link_state s.
Proof.
  intros Ha Hm. exists link_init. split; [done|]. revert Hm. generalize link_init.
  induction Ha as [|lm lms Hlm _ IH]; intros s0; simpl; [intros [= ->]; reflexivity|].
  intros (s1 & Hs1 & Hs2)%bind_Some. eapply rtc_l; [by exists lm|auto].
Qed.

(** ** What holds in every state *)

(** What the server has done on a stream: nothing, while no task has it. *)
Definition served_on (ts : gmap Handle conn_task) (st : Z) (tr : list event) : Prop :=
  (exists h t, ts !! h = Some t /\ task_stream t = st /\ tr = task_trace t) \/
  (tr = [] /\ forall h t, ts !! h = Some t -> task_stream t <> st).

Definition own (st : Z) : Prop := (0 <= st)%Z.

Record link_inv (s : link) : Prop := {
  li_host : system_state instant_max runtime prof srv swkr server_fuel task_fuel worker_fuel (host s);
  li_client : residue (tcp_client_event_loop attempts client_fuel tc) (client_trace s) (client s);
  li_http : forall h t, tasks (host s) !! h = Some t -> Forall (http_ok http) (task_trace t);
  li_client_http : Forall (http_ok http) (client_trace s);
  li_opened : forall h t, tasks (host s) !! h = Some t -> task_stream t ∈ opened (server_trace (host s));
  li_unique : forall h1 h2 t1 t2, tasks (host s) !! h1 = Some t1 -> tasks (host s) !! h2 = Some t2 ->
    task_stream t1 = task_stream t2 -> own (task_stream t1) -> h1 = h2;
  li_admitted : NoDup (filter own (admitted (server_trace (host s))));
  li_accepted : forall st, st ∈ admitted (server_trace (host s)) -> own st ->
    exists p, pipes s !! Z.to_nat st = Some p /\ accepted p = true;
  li_length : length (sessions (client_trace s)) = length (pipes s);
  li_joined : forall i p trc trs, pipes s !! i = Some p -> sessions (client_trace s) !! i = Some trc ->
    served_on (tasks (host s)) (Z.of_nat i) trs -> joined trs trc p;
  li_requested : requested (client_trace s) = received (client_worker_trace s) ++ client_requests s;
  li_requests : length (client_requests s) <= REQUEST_QUEUE;
}.

Context (Hfuel : (Z.of_nat server_fuel < u64_modulus)%Z).

(** *** Single operations *)
Lemma on_pipe_Some i f ps ps' :
  on_pipe i f ps = Some ps' -> exists p p', ps !! i = Some p /\ f p = Some p' /\ ps' = <[i := p']> ps.
Proof. intros (p & Hp & (p' & Hf & [= <-])%bind_Some)%bind_Some. by exists p, p'. Qed.

(** What became of a pipe when one of them was replaced. *)
Lemma replaced_pipe (i j : nat) (ps : list pipe) (p p1 p' : pipe) :
  ps !! i = Some p -> <[i := p1]> ps !! j = Some p' -> (j = i /\ p' = p1) \/ (j <> i /\ ps !! j = Some p').
Proof.
  intros Hp Hj. destruct (decide (j = i)) as [->|Hne].
  - left. rewrite list_lookup_insert_eq in Hj by (by eapply lookup_lt_Some). by injection Hj.
  - right. by rewrite list_lookup_insert_ne in Hj.
Qed.

Lemma still_accepted (i j : nat) (ps : list pipe) (p p1 p2 : pipe) :
  ps !! i = Some p -> (accepted p = true -> accepted p1 = true) -> ps !! j = Some p2 -> accepted p2 = true ->
  exists p3, <[i := p1]> ps !! j = Some p3 /\ accepted p3 = true.
Proof.
  intros Hp Hacc Hj Ha. destruct (decide (j = i)) as [->|Hne].
  - exists p1. rewrite list_lookup_insert_eq by (by eapply lookup_lt_Some). split; [done|]. apply Hacc. congruence.
  - exists p2. by rewrite list_lookup_insert_ne.
Qed.

Lemma client_env_Some s ev reqs :
  client_env s ev = Some reqs -> length (client_requests s) <= REQUEST_QUEUE ->
  reqs = client_requests s ++ requested [ev] /\ length reqs <= REQUEST_QUEUE.
Proof.
  destruct ev as [e a]; destruct e; cbn [client_env]; intros Hs Hl;
    try (injection Hs as <-; by rewrite app_nil_r).
  - destruct (panics a); [done|]. injection Hs as <-. by rewrite app_nil_r.
  - apply channel_send_Some in Hs as (-> & Hl' & _); [|done]. split; [|done].
    unfold requested. cbn. by destruct (is_ok a).
Qed.

(** The server gives the streams it has accepted to the tasks it starts. *)
Lemma server_env_tasks s ev ts q reqs :
  server_env srv task_fuel s ev = Some (ts, q, reqs) ->
  (ts = tasks s /\ opened [ev] = []) \/
  (exists id st h, tasks s !! h = None /\ ts = <[h := new_task srv task_fuel id st]> (tasks s) /\
     opened [ev] = [st] /\ admitted_by ev = None).
Proof.
  destruct ev as [e a]; destruct e; cbn [server_env]; intros Hs; try (left; by injection Hs as <- <- <-).
  - destruct (panics a); [done|]. left. by injection Hs as <- <- <-.
  - left. split; [|done]. destruct a as [r|[n|]]; [destruct (panics r)|destruct (notifications s)|]; try done.
    + by injection Hs as <- <- <-.
    + case_bool_decide; [|done]. by injection Hs as <- <- <-.
  - destruct (tasks s !! a) eqn:Ht; [done|]. injection Hs as <- <- <-. right. by exists id, s0, a.
  - apply bind_Some in Hs as (q' & _ & [= <- <- <-]). by left.
Qed.

(** Old tasks stay, and a new one is the one that was started. *)
Lemma tasks_after s ev ts :
  (ts = tasks s /\ opened [ev] = []) \/
  (exists id st h, tasks s !! h = None /\ ts = <[h := new_task srv task_fuel id st]> (tasks s) /\
     opened [ev] = [st] /\ admitted_by ev = None) ->
  (forall h t, tasks s !! h = Some t -> ts !! h = Some t) /\
  (forall h t, ts !! h = Some t -> tasks s !! h = Some t \/
     exists id st, t = new_task srv task_fuel id st /\ opened [ev] = [st] /\ ts = <[h := t]> (tasks s) /\
       tasks s !! h = None).
Proof.
  intros [(-> & _)|(id & st & h & Hh & -> & Ho & _)]; [by auto|]. split.
  - intros h1 t1 Hl1. rewrite lookup_insert_ne; [done|]. intros ->. congruence.
  - intros h1 t1 [[<- <-]|[_ Hl1]]%lookup_insert_Some; [|by left]. right. by exists id, st.
Qed.

Lemma opened_admitted h :
  system_state instant_max runtime prof srv swkr server_fuel task_fuel worker_fuel h ->
  opened (server_trace h) `prefix_of` admitted (server_trace h).
Proof.
  intros Hs%system_inv; [|exact Hfuel].
  eapply (activity_streams prof); [exact Hfuel|]. eapply partial_tcp_server, residue_partial, Hs.
Qed.

(** A task on a stream of the client reads and writes an existing connection. *)
Lemma task_pipe s h t :
  link_inv s -> tasks (host s) !! h = Some t -> own (task_stream t) ->
  exists p, pipes s !! Z.to_nat (task_stream t) = Some p /\ accepted p = true.
Proof.
  intros Hi Ht Hown. apply (li_accepted _ Hi); [|done].
  eapply elem_of_prefix; [by eapply li_opened|]. by apply opened_admitted, Hi.
Qed.

(** A task that was replaced by a later state of itself. *)
Lemma served_on_update s h t t' st trs :
  link_inv s -> tasks (host s) !! h = Some t -> task_stream t' = task_stream t -> own st ->
  served_on (<[h := t']> (tasks (host s))) st trs ->
  (task_stream t = st /\ trs = task_trace t' /\ served_on (tasks (host s)) st (task_trace t)) \/
  (task_stream t <> st /\ served_on (tasks (host s)) st trs).
Proof.
  intros Hi Ht Hst Hown Hs. destruct (decide (task_stream t = st)) as [Heq|Hne].
  - left. split; [done|]. split; [|left; by exists h, t].
    destruct Hs as [(h1 & t1 & Hl1 & Hst1 & ->)|[_ Hnone]].
    + apply lookup_insert_Some in Hl1 as [[_ <-]|[Hh Hl1]]; [done|].
      destruct Hh. apply (li_unique _ Hi h h1 t t1); [done|done|congruence|congruence].
    + destruct (Hnone h t'); [by rewrite lookup_insert_eq|congruence].
  - right. split; [done|]. destruct Hs as [(h1 & t1 & Hl1 & Hst1 & ->)|[-> Hnone]].
    + apply lookup_insert_Some in Hl1 as [[_ <-]|[_ Hl1]]; [congruence|]. left. by exists h1, t1.
    + right. split; [done|]. intros h1 t1 Hl1. destruct (decide (h = h1)) as [->|Hh]; [congruence|].
      apply (Hnone h1 t1). by rewrite lookup_insert_ne.
Qed.

(** *** Preservation *)
Lemma link_inv_init : link_inv link_init.
Proof.
  split; simpl; try done; try apply r_nil; try (unfold REQUEST_QUEUE; lia);
    try (intros *; by rewrite lookup_empty); try (by constructor).
  - exists (system_init instant_max runtime prof srv swkr server_fuel worker_fuel). split; [done|]. reflexivity.
  - by intros st ?%not_elem_of_nil.
Qed.

(** The client's pipes and sessions go together. *)
Lemma client_step s n ev ps :
  link_inv s -> client_pipes s n ev = Some ps ->
  length (session_step (sessions (client_trace s)) ev) = length ps /\
  (forall j p, pipes s !! j = Some p -> accepted p = true -> exists p', ps !! j = Some p' /\ accepted p' = true) /\
  forall i p trc trs, ps !! i = Some p -> session_step (sessions (client_trace s)) ev !! i = Some trc ->
    served_on (tasks (host s)) (Z.of_nat i) trs -> joined trs trc p.
Proof.
  intros Hi Hp. unfold client_pipes in Hp. unfold session_step. pose proof (li_length _ Hi) as Hlen.
  destruct (connected ev).
  - injection Hp as <-. rewrite !length_app. split; [simpl; lia|]. split.
    { intros j p Hj Ha. exists p. split; [by apply lookup_app_l_Some|done]. }
    intros i p trc trs Hpi Hti Hs. apply lookup_app_Some in Hpi as [Hpi|[Hge Hpi]].
    + apply lookup_lt_Some in Hpi as Hlt. rewrite lookup_app_l in Hti by lia. by eapply li_joined.
    + rewrite lookup_app_r, Hlen in Hti by lia. apply list_lookup_singleton_Some in Hpi as [Hz <-].
      apply list_lookup_singleton_Some in Hti as [_ <-].
      assert (Hno : forall h t, tasks (host s) !! h = Some t -> task_stream t <> Z.of_nat i).
      { intros h t Ht Hst. destruct (task_pipe _ _ _ Hi Ht) as (p & Hpp & _); [unfold own; lia|].
        rewrite Hst, Nat2Z.id in Hpp. apply lookup_lt_Some in Hpp. lia. }
      destruct Hs as [(h & t & Ht & Hst & _)|[-> _]]; [by destruct (Hno h t)|apply joined_new].
  - destruct (pipes s) as [|p0 ps0] eqn:Hps.
    { injection Hp as <-. simpl in Hlen. apply nil_length_inv in Hlen as ->. by repeat split. }
    apply on_pipe_Some in Hp as (p & p' & Hl & Hc & ->). rewrite length_alter, length_insert, Hlen.
    unfold last_index. rewrite Hlen. fold (last_index (p0 :: ps0)). split; [done|].
    assert (Hacc : accepted p' = accepted p) by (by apply bind_Some in Hc as ([? ?] & _ & [= <-])).
    split; [intros j p2 Hj Ha; eapply still_accepted; [done|congruence|done|done]|].
    intros i p2 trc trs Hpi Hti Hs. eapply replaced_pipe in Hpi as [[-> ->]|[Hne Hpi]]; [| |exact Hl].
    + rewrite list_lookup_alter_eq in Hti. apply fmap_Some in Hti as (trc0 & Ht0 & ->).
      eapply joined_client; [|exact Hc]. eapply li_joined; [done|by rewrite Hps|done|done].
    + rewrite list_lookup_alter_ne in Hti by done. eapply li_joined; [done|by rewrite Hps|done|done].
Qed.

Lemma link_inv_client s ev n s' :
  link_inv s -> http_ok http ev -> link_move (LClient ev n) s = Some s' -> link_inv s'.
Proof.
  intros Hi Hh Hm. simpl in Hm. apply bind_Some in Hm as (p & Hp & Hm). apply bind_Some in Hm as (ps & Hps & Hm).
  apply bind_Some in Hm as (reqs & Hreq & [= <-]).
  apply client_env_Some in Hreq as [-> Hlr]; [|apply (li_requests _ Hi)].
  destruct (client_step _ _ _ _ Hi Hps) as (Hlen & Hacc & Hj).
  split; cbn [host pipes client client_trace client_worker client_worker_trace client_requests]; try apply Hi.
  - by eapply proc_step_residue; [apply Hi|].
  - apply Forall_app. split; [apply Hi|]. by apply Forall_singleton.
  - intros st Hst Hown. destruct (li_accepted _ Hi _ Hst Hown) as (p1 & Hl & Ha). by eapply Hacc.
  - by rewrite sessions_snoc.
  - intros i p1 trc trs Hl Ht. rewrite sessions_snoc in Ht. by apply Hj.
  - by rewrite requested_app, (li_requested _ Hi), app_assoc.
  - exact Hlr.
Qed.

Lemma link_inv_worker s ev s' : link_inv s -> link_move (LWorker ev) s = Some s' -> link_inv s'.
Proof.
  intros Hi Hm. simpl in Hm. apply bind_Some in Hm as (p & Hp & Hm).
  apply bind_Some in Hm as (reqs & Hreq & [= <-]). apply worker_env_Some in Hreq as [Hreq _].
  split; cbn [host pipes client client_trace client_worker client_worker_trace client_requests]; try apply Hi.
  - by rewrite (li_requested _ Hi), Hreq, received_app, app_assoc.
  - pose proof (li_requests _ Hi) as Hl. rewrite Hreq, length_app in Hl. lia.
Qed.

Lemma host_step s mv host' :
  link_inv s -> sys_move srv task_fuel mv (host s) = Some host' ->
  system_state instant_max runtime prof srv swkr server_fuel task_fuel worker_fuel host'.
Proof.
  intros (s0 & Hs0 & Hr)%li_host Hm. exists s0. split; [done|]. eapply rtc_r; [exact Hr|]. by exists mv.
Qed.

(** A task was replaced by a later state of itself, which performed [evs]. *)
Lemma link_inv_update s h t t' ps host' :
  link_inv s -> system_state instant_max runtime prof srv swkr server_fuel task_fuel worker_fuel host' ->
  tasks (host s) !! h = Some t -> task_stream t' = task_stream t -> Forall (http_ok http) (task_trace t') ->
  tasks host' = <[h := t']> (tasks (host s)) -> server_trace host' = server_trace (host s) ->
  length ps = length (pipes s) ->
  (forall j p, pipes s !! j = Some p -> accepted p = true -> exists p', ps !! j = Some p' /\ accepted p' = true) ->
  (forall j p', ps !! j = Some p' -> exists p, pipes s !! j = Some p /\
     forall trc, joined (task_trace t) trc p -> task_stream t = Z.of_nat j -> joined (task_trace t') trc p') ->
  (forall j, task_stream t <> Z.of_nat j -> ps !! j = pipes s !! j) ->
  link_inv (mkLink host' ps (client s) (client_trace s) (client_worker s) (client_worker_trace s) (client_requests s)).
Proof.
  intros Hi Hhost Ht Hst Hhttp Hts Htr Hlen Hacc Hown Hother.
  assert (Hback : forall h1 t1, tasks host' !! h1 = Some t1 ->
    exists t0, tasks (host s) !! h1 = Some t0 /\ task_stream t0 = task_stream t1).
  { rewrite Hts. intros h1 t1 [[<- <-]|[_ Hl]]%lookup_insert_Some; eauto. }
  split; cbn [host pipes client client_trace client_worker client_worker_trace client_requests];
    rewrite ?Htr, ?Hlen; try apply Hi.
  - done.
  - rewrite Hts. intros h1 t1 [[_ <-]|[_ Hl]]%lookup_insert_Some; [done|by eapply li_http].
  - intros h1 t1 (t0 & Hl & <-)%Hback. by eapply li_opened.
  - intros h1 h2 t1 t2 (t3 & Hl1 & <-)%Hback (t4 & Hl2 & <-)%Hback. by apply (li_unique _ Hi).
  - intros st Hin Ho. destruct (li_accepted _ Hi _ Hin Ho) as (p & Hp & Ha). by eapply Hacc.
  - rewrite Hts. intros i p trc trs Hp Hc Hs.
    eapply served_on_update in Hs as [(Heq & -> & Hs)|[Hne Hs]]; [| |done|done|done|unfold own; lia].
    + destruct (Hown _ _ Hp) as (p0 & Hp0 & Hj). apply Hj; [|done]. by eapply li_joined.
    + rewrite Hother in Hp by done. by eapply li_joined.
Qed.

Lemma link_inv_task s h ev n s' :
  link_inv s -> http_ok http ev -> link_move (LHost (MTask h ev) n) s = Some s' -> link_inv s'.
Proof.
  intros Hi Hh Hm. cbn [link_move] in Hm. apply bind_Some in Hm as (host' & Hm & Hp).
  apply bind_Some in Hp as (ps & Hp & [= <-]). pose proof (host_step _ _ _ Hi Hm) as Hhost.
  cbn [host_pipes sys_move] in Hp, Hm. apply bind_Some in Hm as (t & Ht & Hm).
  destruct (task_alive t); [|done]. apply bind_Some in Hm as (p & _ & Hm).
  apply bind_Some in Hm as (q & _ & [= <-]). rewrite Ht in Hp. cbn [mbind option_bind] in Hp.
  eapply (link_inv_update s h t (mkTask (task_id t) (task_stream t) p (task_trace t ++ [ev]) true));
    [done|done|done|done| |done|done|..].
  - cbn [task_trace]. apply Forall_app. split; [by eapply li_http|]. by apply Forall_singleton.
  - case_bool_decide; [by injection Hp as <-|].
    apply on_pipe_Some in Hp as (? & ? & _ & _ & ->). by rewrite length_insert.
  - case_bool_decide; [injection Hp as <-; eauto|]. apply on_pipe_Some in Hp as (p1 & p2 & Hl & Hs & ->).
    assert (Hacc : accepted p2 = accepted p1) by (by apply bind_Some in Hs as ([? ?] & _ & [= <-])).
    intros j p3 Hj Ha. eapply still_accepted; [done|congruence|done|done].
  - cbn [task_trace]. case_bool_decide as Hneg.
    { injection Hp as <-. intros j p1 Hj. exists p1. split; [done|]. intros trc _ Heq. lia. }
    apply on_pipe_Some in Hp as (p1 & p2 & Hl & Hs & ->). intros j p3 Hj.
    eapply replaced_pipe in Hj as [[-> ->]|[Hne Hj]]; [| |exact Hl].
    + exists p1. split; [done|]. intros trc Hjn _. by eapply joined_server.
    + exists p3. split; [done|]. intros trc _ Heq. destruct Hne. by rewrite Heq, Nat2Z.id.
  - case_bool_decide; [by injection Hp as <-|]. apply on_pipe_Some in Hp as (p1 & p2 & Hl & Hs & ->).
    intros j Hne. rewrite list_lookup_insert_ne; [done|]. lia.
Qed.

Lemma link_inv_kill s h n s' : link_inv s -> link_move (LHost (MKill h) n) s = Some s' -> link_inv s'.
Proof.
  intros Hi Hm. cbn [link_move host_pipes] in Hm. apply bind_Some in Hm as (host' & Hm & Hps).
  injection Hps as <-. pose proof (host_step _ _ _ Hi Hm) as Hhost.
  cbn [sys_move] in Hm. apply bind_Some in Hm as (t & Ht & Hm).
  case_bool_decide; [|done]. injection Hm as <-.
  eapply (link_inv_update s h t (mkTask (task_id t) (task_stream t) (task_proc t) (task_trace t) false)); eauto.
  exact (li_http _ Hi _ _ Ht).
Qed.

Lemma link_inv_host_worker s ev n s' :
  link_inv s -> link_move (LHost (MWorker ev) n) s = Some s' -> link_inv s'.
Proof.
  intros Hi Hm. cbn [link_move host_pipes] in Hm. apply bind_Some in Hm as (host' & Hm & Hps).
  injection Hps as <-. pose proof (host_step _ _ _ Hi Hm) as Hhost.
  cbn [sys_move] in Hm. apply bind_Some in Hm as (p & _ & Hm). apply bind_Some in Hm as (q & _ & [= <-]).
  split; cbn [host pipes client client_trace client_worker client_worker_trace client_requests
    tasks server_trace]; first [done|apply Hi].
Qed.

(** A stream that is given out now was not given out before. *)
Lemma stream_fresh (os ad : list Z) st :
  os ++ [st] `prefix_of` ad -> NoDup (filter own ad) -> own st -> st ∉ os.
Proof.
  intros [k ->] Hnd Hown Hin. rewrite !filter_app, filter_cons_True in Hnd by done.
  apply NoDup_app in Hnd as [Hnd _]. apply NoDup_app in Hnd as (_ & Hnd & _).
  apply (Hnd st); [by apply list_elem_of_filter|left].
Qed.

(** Accepting takes a pipe that was not accepted, and changes no wire. *)
Lemma accepts_pipe s ev n ps :
  link_inv s -> host_pipes s (MServer ev) n = Some ps ->
  length ps = length (pipes s) /\
  (forall i p, ps !! i = Some p -> exists p0, pipes s !! i = Some p0 /\ to_server p = to_server p0 /\ to_client p = to_client p0) /\
  NoDup (filter own (admitted (server_trace (host s)) ++ admitted [ev])) /\
  (forall st, st ∈ admitted (server_trace (host s)) ++ admitted [ev] -> own st ->
     exists p, ps !! Z.to_nat st = Some p /\ accepted p = true).
Proof.
  intros Hi Hp. cbn [host_pipes] in Hp. unfold admitted at 2 4. cbn [base.omap list_omap].
  destruct (admitted_by ev) as [st|]; [|injection Hp as <-; rewrite app_nil_r; split; [done|]; split; [eauto|]; split; apply Hi].
  rewrite filter_app. case_bool_decide as Hneg.
  - injection Hp as <-. rewrite filter_cons_False by (unfold own; lia). rewrite filter_nil, app_nil_r.
    split; [done|]. split; [eauto|]. split; [apply Hi|].
    intros st' [Hin|Hin%list_elem_of_singleton]%elem_of_app Hown; [by apply (li_accepted _ Hi)|].
    subst. unfold own in *. lia.
  - apply on_pipe_Some in Hp as (p & p' & Hl & Ha & ->). unfold accept_pipe in Ha.
    destruct (accepted p) eqn:Hacc; [done|]. injection Ha as <-. rewrite length_insert. split; [done|].
    rewrite filter_cons_True, filter_nil by (unfold own; lia). split; [|split].
    + intros i p1 Hp1. eapply replaced_pipe in Hp1 as [[-> ->]|[_ Hp1]]; [| |exact Hl]; eauto.
    + apply NoDup_app. split; [apply Hi|]. split; [|apply NoDup_singleton].
      intros st' [Hown Hin]%list_elem_of_filter ->%list_elem_of_singleton.
      destruct (li_accepted _ Hi _ Hin Hown) as (p1 & Hp1 & Ha1). congruence.
    + intros st' [Hin|Hin%list_elem_of_singleton]%elem_of_app Hown.
      * destruct (li_accepted _ Hi _ Hin Hown) as (p1 & Hp1 & Ha1). eapply still_accepted; eauto.
      * subst. eexists. rewrite list_lookup_insert_eq by (by eapply lookup_lt_Some). done.
Qed.

Lemma link_inv_server s ev n s' : link_inv s -> link_move (LHost (MServer ev) n) s = Some s' -> link_inv s'.
Proof.
  intros Hi Hm. cbn [link_move] in Hm. apply bind_Some in Hm as (host' & Hm & Hp).
  apply bind_Some in Hp as (ps & Hp & [= <-]). pose proof (host_step _ _ _ Hi Hm) as Hhost.
  cbn [sys_move] in Hm. apply bind_Some in Hm as (p & _ & Hm).
  apply bind_Some in Hm as ([[ts q] reqs] & Hq & [= <-]).
  destruct (accepts_pipe _ _ _ _ Hi Hp) as (Hlen & Hback & Hnd & Hacc).
  apply server_env_tasks in Hq. destruct (tasks_after _ _ _ Hq) as [Hold Hts].
  assert (Hfresh : forall st, opened [ev] = [st] -> own st -> st ∉ opened (server_trace (host s))).
  { intros st Ho Hown Hin. pose proof (opened_admitted _ Hhost) as Hpre. cbn [server_trace] in Hpre.
    rewrite opened_app, Ho, admitted_app in Hpre.
    exact (stream_fresh _ _ _ Hpre Hnd Hown Hin). }
  split; cbn [host pipes client client_trace client_worker client_worker_trace client_requests tasks server_trace];
    rewrite ?admitted_app, ?Hlen; try apply Hi; try done.
  - intros h t [Hl|(id & st & -> & _)]%Hts; [by eapply li_http|constructor].
  - intros h t [Hl|(id & st & -> & Ho & _)]%Hts; rewrite opened_app, elem_of_app.
    + left. by eapply li_opened.
    + right. rewrite Ho. by apply list_elem_of_singleton.
  - intros h1 h2 t1 t2 [Hl1|(id1 & st1 & -> & Ho1 & Heq1 & Hn1)]%Hts [Hl2|(id2 & st2 & -> & Ho2 & Heq2 & Hn2)]%Hts Heq Hown.
    + by apply (li_unique _ Hi h1 h2 t1 t2).
    + destruct (Hfresh _ Ho2); [by rewrite Heq in Hown|]. simpl in Heq. rewrite <- Heq. by eapply li_opened.
    + destruct (Hfresh _ Ho1); [done|]. simpl in Heq. rewrite Heq. by eapply li_opened.
    + destruct (decide (h1 = h2)) as [|Hne]; [done|]. rewrite Heq2 in Heq1.
      apply (f_equal (.!! h1)) in Heq1. by rewrite lookup_insert_eq, lookup_insert_ne, Hn1 in Heq1.
  - intros i p1 trc trs Hp1 Hc Hs. destruct (Hback _ _ Hp1) as (p0 & Hp0 & Hts0 & Htc0).
    apply (joined_same_wires _ _ p0); [|done|done]. eapply li_joined; [exact Hi|done|done|]. destruct Hs as [(h & t & Hl & Hst & ->)|[-> Hno]].
    + apply Hts in Hl as [Hl|(id & st & -> & Ho & _)]; [left; by exists h, t|right; split; [done|]].
      intros h1 t1 Hl1 Hst1. destruct (Hfresh _ Ho); [simpl in *; unfold own; lia|].
      simpl in Hst. rewrite Hst, <- Hst1. by eapply li_opened.
    + right. split; [done|]. intros h t Hl. by eapply Hno, Hold.
Qed.

Lemma link_state_inv s : link_state s -> link_inv s.
Proof.
  apply reachable_invariant; [intros ? <-; apply link_inv_init|].
  intros s1 s2 Hi ([[h ev|ev|ev|h] n|ev n|ev] & Ha & Hm).
  - by eapply link_inv_task.
  - by eapply link_inv_server.
  - by eapply link_inv_host_worker.
  - by eapply link_inv_kill.
  - by eapply link_inv_client.
  - by eapply link_inv_worker.
Qed.

(** *** The stories of a connection *)
Lemma session_story sess out inp :
  session_ok client_fuel tc sess -> Forall (http_ok http) sess -> delivers sess out -> consumes sess inp ->
  exists gots, client_story http (client_handler tc) sess out inp gots.
Proof.
  intros (t0 & q & -> & Hp & Hq) [Hh _]%Forall_app Hd Hc.
  apply along_app in Hd as (o1 & o2 & -> & Hd & Hd2). apply along_app in Hc as (i1 & i2 & -> & Hc & Hc2).
  destruct (between_wires _ _ _ Hq Hd2 Hc2) as [-> ->]. rewrite !app_nil_r.
  destruct (client_loop_story _ _ _ _ _ _ Hp Hh Hd Hc) as [gots [Hf Ht Hs Hi Hl]]. exists gots.
  split; rewrite ?client_installs_app, ?(between_installs _ Hq), ?app_nil_r; done.
Qed.

Lemma link_sessions s i sess :
  link_inv s -> sessions (client_trace s) !! i = Some sess ->
  session_ok client_fuel tc sess /\ Forall (http_ok http) sess /\
  exists p, pipes s !! i = Some p.
Proof.
  intros Hi Hs. destruct (client_sessions _ _ _ _ (residue_partial _ _ _ (li_client _ Hi))) as [Hok _].
  split; [by eapply Forall_lookup_1|]. split.
  - eapply (Forall_lookup_1 (Forall (http_ok http))); [|exact Hs]. apply sessions_Forall, Hi.
  - apply lookup_lt_is_Some. rewrite <- (li_length _ Hi). by eapply lookup_lt_Some.
Qed.

(** A key that the server's key manager has handed out, derived by its protocol. *)
Definition dispensed (k : Key) : Prop :=
  exists a nonce qk, http (any_key_uri (ts_etsi_client srv)) a /\
    fetched (any_key_uri (ts_etsi_client srv)) a qk /\
    k = derive_daisyway_key (ts_protocol_params srv) nonce qk.

(** The keys of the two ends of a connection, however many there are. *)
Lemma connection_agrees s i sess h t :
  link_inv s -> kme_honest http (ts_etsi_client srv) (tc_etsi_client tc) ->
  tc_protocol_params tc = mirrored (ts_protocol_params srv) ->
  sessions (client_trace s) !! i = Some sess ->
  tasks (host s) !! h = Some t -> task_stream t = Z.of_nat i ->
  exists K, Forall dispensed K /\
    server_installs (task_trace t) `prefix_of` K /\ client_installs sess `prefix_of` K /\
    length K <= S (length (server_installs (task_trace t))) /\ length K <= S (length (client_installs sess)).
Proof.
  intros Hi Hkme Hpar Hs Ht Hst. destruct (link_sessions _ _ _ Hi Hs) as (Hok & Hh & p & Hp).
  destruct (li_joined _ Hi i p sess (task_trace t) Hp Hs) as (outs & inps & outc & inpc & Hds & Hcs & Hdc & Hcc & -> & ->);
    [left; eauto|].
  pose proof (residue_partial _ _ _ (si_tasks _ _ _ _ _ _ _ _ _ (system_inv _ _ _ _ _ _ _ _ Hfuel _ (li_host _ Hi)) _ _ Ht)) as Hr.
  destruct (server_task_story _ _ _ _ _ _ _ Hr (li_http _ Hi _ _ Ht) Hds Hcs) as [reqs Hss].
  destruct (session_story _ _ _ Hok Hh Hdc Hcc) as [gots Hgs].
  set (sv := fanout_protocol (task_settings srv) (task_id t)) in *.
  pose proof (stories_keys http sv (client_handler tc) _ _ _ _ _ _ _ _ Hkme Hpar Hss Hgs) as [rest HK].
  eexists. split; [|by eapply (stories_agree http sv (client_handler tc))].
  assert (Hall : Forall dispensed ((fun '(nonce, qk) => server_key sv qk nonce) <$> reqs)).
  { apply Forall_fmap. eapply Forall_impl; [exact (ss_fetched _ _ _ _ _ _ Hss)|].
    intros [nonce qk] (a & Ha & Hf). by exists a, nonce, qk. }
  rewrite HK in Hall. by apply Forall_app in Hall as [Hall _].
Qed.

(** A connection that the server has not taken up yields no key. *)
Lemma connection_ignored s i sess :
  link_inv s -> sessions (client_trace s) !! i = Some sess ->
  (forall h t, tasks (host s) !! h = Some t -> task_stream t <> Z.of_nat i) -> client_installs sess = [].
Proof.
  intros Hi Hs Hno. destruct (link_sessions _ _ _ Hi Hs) as (Hok & Hh & p & Hp).
  destruct (li_joined _ Hi i p sess [] Hp Hs) as (outs & inps & outc & inpc & Hds & Hcs & Hdc & Hcc & Ho & _);
    [by right|].
  destruct (session_story _ _ _ Hok Hh Hdc Hcc) as [gots [_ Ht _ Hin _]].
  simpl in Hds. subst outs. symmetry in Ho. apply app_eq_nil in Ho as [-> _]. apply prefix_nil_inv in Ht.
  destruct gots as [|[buf qk] gots]; [by apply prefix_nil_inv in Hin|].
  apply (f_equal length) in Ht. simpl in Ht. rewrite length_app, array_length in Ht. simpl in Ht. lia.
Qed.

Lemma server_installs_posted tr : server_installs tr = osk_key <$> base.omap osk_of (posted tr).
Proof.
  induction tr as [|[e a] tr IH]; [done|]. unfold server_installs, posted in *. cbn.
  destruct e; try exact IH. cbn. destruct ev as [ev|ev], (is_ok a); cbn; rewrite ?IH; done.
Qed.

Lemma client_installs_requested tr : client_installs tr = request_key <$> requested tr.
Proof.
  induction tr as [|[e a] tr IH]; [done|]. unfold client_installs, requested in *. cbn.
  destruct e; try exact IH. cbn. destruct req as [k r], (is_ok a); cbn; rewrite ?IH; done.
Qed.

Lemma join_installs (ss : list (list event)) : client_installs (mjoin ss) = mjoin (client_installs <$> ss).
Proof.
  induction ss as [|t ss IH]; [done|].
  change (client_installs (t ++ mjoin ss) = client_installs t ++ mjoin (client_installs <$> ss)).
  by rewrite client_installs_app, IH.
Qed.

(** C1. From worker to worker.  The keys the server's worker was handed are those of
    [log], the keys the client's worker was handed those of the client's
    sessions, one after the other.  For every connection the client ever
    made: if a task of the server serves it, the keys of this task in the
    server's log and the keys of the client's session lie on one common
    sequence [K] of keys that the server's key manager gave out, of which the
    client misses at most the last; if none does, the client got no key from it. *)
Theorem link_end_to_end s :
  link_state s -> kme_honest http (ts_etsi_client srv) (tc_etsi_client tc) ->
  tc_protocol_params tc = mirrored (ts_protocol_params srv) ->
  exists log,
    received (worker_trace (host s)) ++ requests (host s) = osk_request <$> log /\
    request_key <$> (received (client_worker_trace s) ++ client_requests s) =
      mjoin (client_installs <$> sessions (client_trace s)) /\
    forall i sess, sessions (client_trace s) !! i = Some sess ->
      (forall h t, tasks (host s) !! h = Some t -> task_stream t = Z.of_nat i ->
         exists K, Forall dispensed K /\
           (osk_key <$> filter (fun ev => osk_connection_id ev = task_id t) log) `sublist_of` K /\
           client_installs sess `prefix_of` K /\ length K <= S (length (client_installs sess))) /\
      ((forall h t, tasks (host s) !! h = Some t -> task_stream t <> Z.of_nat i) -> client_installs sess = []).
Proof.
  intros Hi%link_state_inv Hkme Hpar.
  destruct (pipeline_log _ _ _ _ _ _ _ _ Hfuel _ (system_inv _ _ _ _ _ _ _ _ Hfuel _ (li_host _ Hi)))
    as (log & Hlog & _ & _ & Hown).
  exists log. split; [done|]. split.
  { rewrite <- (li_requested _ Hi), <- client_installs_requested.
    destruct (client_sessions _ _ _ _ (residue_partial _ _ _ (li_client _ Hi))) as [_ <-]. apply join_installs. }
  intros i sess Hs. split; [|by apply (connection_ignored _ i)].
  intros h t Ht Hst. destruct (connection_agrees _ _ _ _ _ Hi Hkme Hpar Hs Ht Hst) as (K & Hd & Hsi & Hci & _ & Hl).
  exists K. split; [done|]. split; [|done]. etrans; [|destruct Hsi as [rest ->]; by apply sublist_inserts_r].
  rewrite server_installs_posted. apply fmap_sublist. by eapply Hown.
Qed.
End Link.

(** ** Witness

    A connection on which one key is exchanged breaks; the client connects
    again, and a second key is exchanged on the new connection, whose task
    supersedes the first. *)
#[local] Instance demo_link_decoder : ReqwestLib := demo_json.

Definition demo_link_client : DaisywayTcpClient (O := OskDeadman) :=
  mkTcpClient (mirrored demo_params) "peer:9000" (mkConnection "http://kme" "a") mkOskDeadman.

Definition demo_link : link :=
  link_init 1000000 (Ok tt) DevProfile demo_tcp_server demo_wireguard demo_link_client demo_wireguard 9 9 9 9.

Definition demo_settings : FanoutConnectionHandler := task_settings demo_tcp_server.
Definition second_exchange : exchange := mkExchange demo_answer demo_answer demo_qkd_key (sim_key 3).

(** The server takes up connection [i], and a key is exchanged on it. *)
Definition demo_connect (i : Z) (x : exchange) : list link_event :=
  let host ev := LHost (MServer ev) 0 in
  let task ev := LHost (MTask (100 + i) ev) 0 in
  let client ev := LClient ev 0 in
  [client (Ev (EConnect "peer:9000") (Ok tt)); host (Ev ESelect (demo_accept i)); host (Ev (ESpawn i i) (100 + i)%Z)] ++
  (task <$> server_opening demo_settings x) ++
  (client <$> client_events (client_handler demo_link_client) x) ++
  (task <$> take 2 (server_closing demo_settings i x)) ++
  [host (Ev ESelect (Notified (Some (COsk (mkOskEvent i (exchange_key demo_params x) Fresh)))))].

Definition demo_forward (x : exchange) : link_event :=
  LHost (MServer (Ev (ESendDeadman (SetOsk (exchange_key demo_params x) Fresh)) (Ok tt))) 0.

Definition demo_reconnection : list link_event :=
  [LHost (MServer (Ev (EBind "0.0.0.0:9000") (Ok tt))) 0] ++
  demo_connect 0 demo_exchange ++ [demo_forward demo_exchange] ++
  [LClient (Ev (EReadExact 48) (Err (EIo (OtherKind 104)))) 0; LClient (Ev (ESleep 2) tt) 0] ++
  demo_connect 1 second_exchange ++
  [LHost (MServer (Ev (EAbort 100) tt)) 0; LHost (MKill 100) 0; demo_forward second_exchange].

Definition demo_link_moves (lms : list link_event) : option link :=
  link_moves demo_tcp_server 9 lms demo_link.

Definition demo_state_after (lms : list link_event) : link := default demo_link (demo_link_moves lms).

(** What the two workers were handed. *)
Definition handed (s : link) : list DeadmanRequest * list Key :=
  (received (worker_trace (host s)) ++ requests (host s),
   request_key <$> (received (client_worker_trace s) ++ client_requests s)).

Lemma demo_link_reached lms x :
  Forall (answered demo_http) lms -> handed <$> demo_link_moves lms = Some x ->
  handed (demo_state_after lms) = x /\
  link_state 1000000 (Ok tt) DevProfile demo_tcp_server demo_wireguard demo_link_client demo_wireguard 9 9 9 9 9
    demo_http (demo_state_after lms).
Proof.
  intros Ha (s & Hs & ->)%fmap_Some. unfold demo_state_after. split; [by rewrite Hs|].
  apply link_moves_state with lms; [done|]. by rewrite Hs.
Qed.

Lemma demo_reconnection_answered : Forall (answered demo_http) demo_reconnection.
Proof. repeat constructor. Qed.

Definition demo_link_keys : list Key := [exchange_key demo_params demo_exchange; exchange_key demo_params second_exchange].

Lemma demo_reconnection_run :
  handed <$> demo_link_moves demo_reconnection = Some ((fun k => SetOsk k Fresh) <$> demo_link_keys, demo_link_keys).
Proof. vm_compute. reflexivity. Qed.

Lemma link_end_to_end_witness : exists log,
  osk_request <$> log = (fun k => SetOsk k Fresh) <$> demo_link_keys /\
  mjoin (client_installs <$> sessions (client_trace (demo_state_after demo_reconnection))) = demo_link_keys.
Proof.
  destruct (demo_link_reached _ _ demo_reconnection_answered demo_reconnection_run) as [Hh Hst].
  destruct (link_end_to_end 1000000 (Ok tt) DevProfile demo_tcp_server demo_wireguard demo_link_client demo_wireguard
    9 9 9 9 9 demo_http ltac:(vm_compute; reflexivity) (demo_state_after demo_reconnection) Hst
    (demo_honest _ _) eq_refl) as (log & Hlog & Hc & _).
  unfold handed in Hh. apply pair_equal_spec in Hh as [Hs Hk]. exists log. rewrite <- Hlog, <- Hc. split; [exact Hs|exact Hk].
Defined.
