(* ===== verification/Setup.v ===== *)
(** * From the configuration to a running participant
    ([daisyway/src/internal/daisyway/setup.rs])

    The keys are loaded, the key manager's client and the output-key handler
    are set up, the handler goes behind a dead-man switch, and the participant
    gets the switch's handle. *)

From S2P Require Import Prelude Types Externals RefInstances Effects Util Etsi014 HashDomain Crypto Osk Deadman Duplex Protocol ConnectionManager Roster Fanout Net.

(** ** Configuration *)
Record WireGuardConfig : Type := mkWireGuardConfig {
  wg_local_peer_id : string;
  wg_remote_peer_id : string;
  wg_interface : option string;
}.

Record OutfileConfig : Type := mkOutfileConfig { outfile_path : string }.

Record PeerConfig : Type := mkPeerConfig {
  peer_participant : DaisywayTcpParticipantConfig;
  psk_file : option string;
}.

Record DaisywayConfig : Type := mkDaisywayConfig {
  etsi014 : Etsi014Config;
  wireguard : WireGuardConfig;
  outfile : option OutfileConfig;
  peer : PeerConfig;
}.

(** [load_from_file], given what [read_to_string] and [toml::from_str] do. *)
Definition load_from_file (read_to_string : string -> outcome string)
    (toml_from_str : string -> outcome DaisywayConfig) (file_path : string) : outcome DaisywayConfig :=
  let? cfg := ocontext (Msg "Failed to read config file {file_path:?}" [FStr file_path])
                (read_to_string file_path) in
  toml_from_str cfg.

(** ** The handler behind the dead-man switch *)
Section Setup.
Context `{Base64Codec}.

Inductive Broker : Type :=
  | BOutfile (h : OutfileOskHandler)
  | BWireGuard (h : WireGuardOskHandler).

#[export] Instance broker_handler : OskHandler Broker := fun b key reason =>
  match b with
  | BOutfile h => set_osk h key reason
  | BWireGuard h => set_osk h key reason
  end.

Context (prof : profile).

Definition start_deadman (o : Broker) (rekey_interval : Z) : outcome (OskDeadman * DeadmanWorker (Broker := Broker)) :=
  let? erase_after := add_u64 prof rekey_interval 30 in
  Ok (deadman_start erase_after (fun _ => o)).

(** ** [Daisyway::from_config] *)
Context `{RustlsLib}.
Context {HttpClient : Type} (build_client : option ClientConfig -> outcome HttpClient).
Context {R : Type} `{Reader R} (open : string -> outcome R) (fuel : nat).
Context (target_linux : bool).

(** The thread started for the worker is part of the result. *)
Record Daisyway : Type := mkDaisyway {
  participant : DaisywayTcpParticipant (O := OskDeadman);
  worker : DeadmanWorker (Broker := Broker);
}.

Definition load_psk (psk_file : option string) : outcome Key :=
  match psk_file with
  | Some file =>
      ocontext (Msg "Could not load PSK file from {file:?}" [])
        (match load_base64_key_file open fuel file with
         | Some r => r
         | None => Panicked (Msg "(reading takes more than {} steps)" [FInt (Z.of_nat fuel)])
         end)
  | None => Ok (new_zeroed KEY_LENGTH)
  end.

Definition setup_handler (cfg : DaisywayConfig) (rekey_interval : Z)
    : proc (OskDeadman * DeadmanWorker (Broker := Broker)) :=
  match wg_interface (wireguard cfg), outfile cfg with
  | None, None =>
      Ret (Err (EMsg (Msg "You need to specify either the wireguard.interface or outfile.path configuration option" [])))
  | Some _, Some _ =>
      Ret (Err (EMsg (Msg "You can not specify both the wireguard.interface and outfile.path configuration options" [])))
  | None, Some (mkOutfileConfig path) =>
      Ret (start_deadman (BOutfile (mkOutfile path)) rekey_interval)
  | Some interface, None =>
      if target_linux then
        let peer := wg_remote_peer_id (wireguard cfg) in
        let! h := pcontext (Msg "Could start WireGuard key handler" []) (wireguard_setup peer interface) in
        Ret (start_deadman (BWireGuard h) rekey_interval)
      else
        Ret (Err (EMsg (Msg "Directly interfacing with WireGuard is only supported on Linux. Please use the outfile configuration option instead." [])))
  end.

(** [installed]: whether the process already has a TLS crypto provider. *)
Definition daisyway_from_config (cfg : DaisywayConfig) (installed : bool) : proc Daisyway :=
  let rekey_interval := default REKEY_INTERVAL (interval_secs (etsi014 cfg)) in
  let! psk := Ret (load_psk (psk_file (peer cfg))) in
  let! local_peer_id :=
    Ret (ocontext (Msg "Could not decode WireGuard local peer id {:?}" [FStr (wg_local_peer_id (wireguard cfg))])
           (base64_to_key (str_bytes (wg_local_peer_id (wireguard cfg))))) in
  let! remote_peer_id :=
    Ret (ocontext (Msg "Could not decode WireGuard remote peer id {:?}" [FStr (wg_remote_peer_id (wireguard cfg))])
           (base64_to_key (str_bytes (wg_remote_peer_id (wireguard cfg))))) in
  let protocol_params := mkParams psk local_peer_id remote_peer_id in
  let! etsi := Ret (etsi_from_config build_client (etsi014 cfg) installed).1 in
  let! h := setup_handler cfg rekey_interval in
  let '(osk_handler, worker) := h in
  pure (mkDaisyway
    (participant_from_config protocol_params (peer_participant (peer cfg)) etsi.1 osk_handler rekey_interval)
    worker).

(** [Daisyway::event_loop] *)
Definition daisyway_event_loop `{Shake256Lib} `{UuidLib} `{!ReqwestLib} (attempts steps : nat) (self : Daisyway) : proc unit :=
  participant_event_loop prof attempts steps (participant self).
End Setup.

(** ** Correctness *)
Section SetupProofs.
Context `{Base64Laws} (prof : profile).
Context `{RustlsLib}.
Context {HttpClient : Type} (build_client : option ClientConfig -> outcome HttpClient).
Context {R : Type} `{Reader R} (open : string -> outcome R) (fuel : nat) (target_linux : bool).

Abbreviation interval cfg := (default REKEY_INTERVAL (interval_secs (etsi014 cfg))).

(** Which handler a configuration gets, and what setting it up did. *)
Definition handler_installed (cfg : DaisywayConfig) (remote : Key) (tr : list event) (b : Broker) : Prop :=
  match wg_interface (wireguard cfg), outfile cfg with
  | None, Some o => b = BOutfile (mkOutfile (outfile_path o)) /\ tr = []
  | Some i, None =>
      target_linux = true /\ b = BWireGuard (mkWireGuard i remote) /\
      exists device_peers, remote ∈ device_peers /\
        tr = [Ev EWgConnect (Ok tt); Ev (EWgGetDevice i) (Ok device_peers)]
  | _, _ => False
  end.

Lemma wireguard_setup_Ok peer_str i pk tr h :
  base64_to_key (str_bytes peer_str) = Ok pk -> runs (wireguard_setup peer_str i) tr (Ok h) ->
  h = mkWireGuard i pk /\ exists device_peers, pk ∈ device_peers /\
    tr = [Ev EWgConnect (Ok tt); Ev (EWgGetDevice i) (Ok device_peers)].
Proof.
  intros Hpk. unfold wireguard_setup. rewrite Hpk. simpl.
  intros ([[]|e|m] & tr1 & -> & Hr); simpl in Hr; [|by destruct Hr..].
  destruct Hr as ([l|e|m] & tr2 & -> & Hr); simpl in Hr; [|by destruct Hr..].
  case_bool_decide; destruct Hr as [-> Hh]; [|done]. injection Hh as <-. eauto.
Qed.

Lemma setup_handler_Ok cfg remote tr d w :
  base64_to_key (str_bytes (wg_remote_peer_id (wireguard cfg))) = Ok remote ->
  runs (setup_handler prof target_linux cfg (interval cfg)) tr (Ok (d, w)) ->
  handler_installed cfg remote tr (broker w) /\ add_u64 prof (interval cfg) 30 = Ok (erase_after w).
Proof.
  intros Hpk Hr. unfold setup_handler in Hr. unfold handler_installed.
  destruct (wg_interface _) as [i|], (outfile cfg) as [[p]|]; try by destruct Hr.
  - destruct target_linux; [|by destruct Hr].
    apply runs_bind_Ok in Hr as (t1 & t2 & h & -> & (o' & Hr & Ho)%runs_context & Hs).
    symmetry in Ho. apply ocontext_Ok_iff in Ho as ->.
    apply (wireguard_setup_Ok _ _ _ _ _ Hpk) in Hr as (-> & Hdev).
    unfold start_deadman in Hs. destruct Hs as [-> Hs]. rewrite app_nil_r.
    destruct (add_u64 _ _ _); try done. simpl in Hs. injection Hs as -> ->. auto.
  - destruct Hr as [-> Hs]. unfold start_deadman in Hs.
    destruct (add_u64 _ _ _); try done. simpl in Hs. injection Hs as -> ->. auto.
Qed.

(** C24. What a successful set-up has established: exactly one handler is
    configured, and it sits behind the dead-man switch with a deadline half a
    minute beyond the rekey interval; the protocol runs between the two
    configured identities, and under WireGuard the key goes to the peer the
    protocol names, which the interface knows. *)
Theorem setup_spec cfg installed tr d :
  runs (daisyway_from_config prof build_client open fuel target_linux
          cfg installed) tr (Ok d) ->
  exists k l r etsi,
    load_psk open fuel (psk_file (peer cfg)) = Ok k /\
    base64_to_key (str_bytes (wg_local_peer_id (wireguard cfg))) = Ok l /\
    base64_to_key (str_bytes (wg_remote_peer_id (wireguard cfg))) = Ok r /\
    participant d = participant_from_config (mkParams k l r) (peer_participant (peer cfg)) etsi
                      mkOskDeadman (interval cfg) /\
    url etsi = cfg_url (etsi014 cfg) /\ remote_sae_id etsi = cfg_remote_sae_id (etsi014 cfg) /\
    handler_installed cfg r tr (broker (worker d)) /\
    add_u64 prof (interval cfg) 30 = Ok (erase_after (worker d)).
Proof.
  unfold daisyway_from_config. intros Hr.
  apply runs_bind_Ok in Hr as (? & t1 & k & -> & [-> Hk] & Hr).
  apply runs_bind_Ok in Hr as (? & t2 & l & -> & [-> Hl] & Hr).
  apply runs_bind_Ok in Hr as (? & t3 & r & -> & [-> Hrem] & Hr).
  apply runs_bind_Ok in Hr as (? & t4 & [etsi client] & -> & [-> He] & Hr).
  apply runs_bind_Ok in Hr as (t5 & t6 & [h w] & -> & Hset & [-> Hd]).
  symmetry in Hk, Hl, Hrem, He. apply ocontext_Ok_iff in Hl, Hrem.
  injection Hd as ->. cbn [app participant worker]. rewrite app_nil_r.
  destruct (setup_handler_Ok _ _ _ _ _ Hrem Hset) as [Hh Hw].
  exists k, l, r, etsi. destruct h.
  assert (Hc : url etsi = cfg_url (etsi014 cfg) /\ remote_sae_id etsi = cfg_remote_sae_id (etsi014 cfg)).
  { unfold etsi_from_config in He. destruct (configure_rustls _ _) as [tls i]. simpl in He.
    outcome_inv. simplify_eq. by outcome_inv; simplify_eq. }
  destruct Hc. auto 10.
Qed.

(** C35. Without exactly one handler configured, or for WireGuard elsewhere than on
    Linux, set-up does not succeed and WireGuard is not even contacted. *)
Theorem setup_needs_one_handler cfg installed tr o :
  (wg_interface (wireguard cfg) = None <-> outfile cfg = None) \/
  (target_linux = false /\ is_Some (wg_interface (wireguard cfg))) ->
  runs (daisyway_from_config prof build_client open fuel target_linux
          cfg installed) tr o -> is_ok o = false /\ tr = [].
Proof.
  intros Hc Hr.
  assert (Hset : forall tr o, runs (setup_handler prof target_linux cfg (interval cfg)) tr o ->
                   is_ok o = false /\ tr = []).
  { intros tr' o' Hs. unfold setup_handler in Hs.
    destruct (wg_interface _) as [i|] eqn:Ei, (outfile cfg) as [[p]|] eqn:Eo, target_linux;
      try (by destruct Hs as [-> ->]);
      exfalso; destruct Hc as [Hc|[? [? ?]]]; naive_solver. }
  unfold daisyway_from_config in Hr.
  repeat (apply runs_bind in Hr as [(? & ? & ? & -> & [-> ?] & Hr)|[(? & [-> ?] & ->)|(? & [-> ?] & ->)]];
    [|done..]).
  apply runs_bind in Hr as [(t1 & t2 & a & -> & Hs & _)|[(e & Hs & ->)|(m & Hs & ->)]];
    apply Hset in Hs as [Hok ->]; [done|auto..].
Qed.

(** C34. The deadline of the dead-man switch: half a minute after the next key is
    due.  In the top half minute of the 64-bit range the sum overflows: a build
    with overflow checks panics at start-up, a release build erases every key
    within less than half a minute. *)
Theorem deadman_deadline b interval_s :
  in_u64 interval_s ->
  match start_deadman prof b interval_s with
  | Ok (_, w) => broker w = b /\
      ((interval_s + 30 < u64_modulus /\ erase_after w = interval_s + 30) \/
       (u64_modulus <= interval_s + 30 /\ prof = ReleaseProfile /\ erase_after w < 30 /\ erase_after w < interval_s))%Z
  | Err _ => False
  | Panicked _ => prof = DevProfile /\ (u64_modulus <= interval_s + 30)%Z
  end.
Proof.
  unfold start_deadman, add_u64, in_u64. intros Hi. case_bool_decide as Hs; simpl.
  - split; [done|]. left. lia.
  - destruct prof; simpl; [split; [done|lia]|]. split; [done|]. right.
    assert (HU : u64_modulus = 18446744073709551616%Z) by done.
    rewrite HU in *. split; [lia|]. split; [done|]. Z.div_mod_to_equations. lia.
Qed.
End SetupProofs.

(** ** Witnesses *)

(** The client side of the README's example, writing its keys to a file. *)
Definition demo_config (interface : option string) (out : option OutfileConfig) : DaisywayConfig :=
  mkDaisywayConfig (demo_etsi_config (Some "ca.crt"%string) false)
    (mkWireGuardConfig "AQAAAAAAAAAAAAAAAAAAAAAAAAAAAAAAAAAAAAAAAAA=" demo_peer interface)
    out (mkPeerConfig (PClient "peer:9000") None).

Definition demo_open (path : string) : outcome file_reader := Err (EIo (OtherKind 2)).

Definition demo_from_config (cfg : DaisywayConfig) : proc Daisyway :=
  @daisyway_from_config ref_base64 DevProfile demo_rustls unit (fun _ => Ok tt)
    file_reader _ demo_open 100 true cfg false.

Definition demo_daisyway : Daisyway :=
  mkDaisyway
    (Client (mkTcpClient
       (mkParams (new_zeroed 32) (array_overwrite (new_zeroed 32) [Byte.x01]) demo_peer_key)
       "peer:9000" (mkConnection "https://kme" "SAE_002") mkOskDeadman))
    (mkWorker (BOutfile (mkOutfile "/run/psk")) 150).

Lemma setup_spec_witness :
  broker (worker demo_daisyway) = BOutfile (mkOutfile "/run/psk") /\
  (add_u64 DevProfile 120 30 = Ok (erase_after (worker demo_daisyway))).
Proof.
  destruct (@setup_spec ref_base64 DevProfile demo_rustls unit
    (fun _ => Ok tt) file_reader _ demo_open 100 true
    (demo_config None (Some (mkOutfileConfig "/run/psk"))) false [] demo_daisyway)
    as (k & l & r & etsi & _ & _ & _ & _ & _ & _ & Hh & He).
  - change (runs (demo_from_config (demo_config None (Some (mkOutfileConfig "/run/psk")))) [] (Ok demo_daisyway)).
    apply replay_runs. vm_compute. reflexivity.
  - split; [exact (proj1 Hh)|exact He].
Defined.

Lemma setup_needs_one_handler_witness :
  is_ok (@Err Daisyway (EMsg (Msg "You can not specify both the wireguard.interface and outfile.path configuration options" []))) = false.
Proof.
  refine (proj1 (@setup_needs_one_handler ref_base64 DevProfile demo_rustls unit
    (fun _ => Ok tt) file_reader _ demo_open 100 false
    (demo_config (Some "wg0"%string) (Some (mkOutfileConfig "/run/psk"))) false [] _ _ _)).
  - right. split; [reflexivity|]. eexists. reflexivity.
  - apply replay_runs. vm_compute. reflexivity.
Defined.

Lemma deadman_deadline_witness :
  (exists w, start_deadman ReleaseProfile (BOutfile demo_outfile) (2 ^ 64 - 10) = Ok (mkOskDeadman, w) /\
     erase_after w = 20%Z) /\
  match start_deadman DevProfile (BOutfile demo_outfile) (2 ^ 64 - 10) with
  | Panicked _ => DevProfile = DevProfile
  | _ => False
  end.
Proof.
  pose proof (deadman_deadline DevProfile (BOutfile demo_outfile) (2 ^ 64 - 10)) as Hd.
  assert (Hi : in_u64 (2 ^ 64 - 10)) by (split; vm_compute; [discriminate|reflexivity]).
  split.
  - eexists. split; [vm_compute; reflexivity|reflexivity].
  - exact (proj1 (Hd Hi)).
Defined.
