(* ===== verification/Simulator.v ===== *)
(** * The key-manager simulator ([simulator/src/main.rs])

    An ETSI 014 key manager for tests: it numbers the keys it hands out and
    computes each key from its identifier, so that either side of a link can
    ask for it. *)

From S2P Require Import Prelude Types Externals RefInstances Effects Etsi014.

(** ** [str] *)
Fixpoint str_find (needle hay : string) : option nat :=
  if String.prefix needle hay then Some 0
  else match hay with
       | EmptyString => None
       | String _ hay => S <$> str_find needle hay
       end.

Definition str_contains (needle hay : string) : bool :=
  match str_find needle hay with Some _ => true | None => false end.

Fixpoint str_drop (n : nat) (s : string) : string :=
  match n, s with
  | S n, String _ s => str_drop n s
  | _, _ => s
  end.

Fixpoint str_take (n : nat) (s : string) : string :=
  match n, s with
  | S n, String c s => String c (str_take n s)
  | _, _ => EmptyString
  end.

(** [serde_json]: the body [{ "keys": [{ "key": .., "key_ID": .. }] }]. *)
Class JsonEncoder : Type := keys_json : string -> string -> string.

(** What the program's decoder makes of such a body, for a base64 text. *)
Class JsonLaws `{UuidLib} `{Base64Codec} `{!ReqwestLib} `{!JsonEncoder} : Prop := {
  json_reqwest :: ReqwestLaws;
  json_roundtrip u (k : bytes) cap text : b64_encode k cap = Ok text ->
    response_json (keys_json text (uuid_to_string u)) = Ok (mkResponseKeys [mkResponseKey u text]);
}.

Section Simulator.
Context `{UuidLib} `{Base64Codec} `{!JsonEncoder}.

(** ** Requests

    The shared counter is the state; [fetch_add] wraps around. *)
Definition fetch_add (counter : Z) : Z * Z := (counter, (counter + 1) `mod` u64_modulus)%Z.

Definition empty : outcome string := Ok EmptyString.
Definition full (chunk : string) : outcome string := Ok chunk.

Definition bad_request (msg : string) : http_response := mkResponse 400 (full msg).

(** The identifier a request is about, or the response that refuses it. *)
Definition request_key_id (path : string) (query : option string) (counter : Z)
    : (Uuid + http_response) * Z :=
  if str_contains "dec_keys" path then
    (match query with
     | Some q =>
         match str_find "key_ID=" q with
         | Some pos =>
             match uuid_parse_str (str_drop (pos + 7) q) with
             | Some id => inl id
             | None => inr (bad_request "Invalid key_ID format")
             end
         | None => inr (bad_request "Invalid key_ID format")
         end
     | None => inr (bad_request "key_ID parameter is required")
     end, counter)
  else
    let '(count, counter) := fetch_add counter in
    (inl (uuid_from_u128 count), counter).

(** The key of an identifier: its bytes, twice. *)
Definition key_input (key_id : Uuid) : array (16 + 16) :=
  array_app (uuid_as_bytes key_id) (uuid_as_bytes key_id).

Definition key_response (key_id : Uuid) : outcome http_response :=
  let? encoded_key := oexpect (Msg "called `Result::unwrap()` on an `Err` value" [])
                        (b64_encode (as_bytes (key_input key_id)) 128) in
  Ok (mkResponse 200 (full (keys_json encoded_key (uuid_to_string key_id)))).

Definition handle_keys (path : string) (query : option string) (counter : Z)
    : outcome http_response * Z :=
  if negb (str_contains "dec_keys" path) && negb (str_contains "enc_keys" path)
  then (Ok (bad_request "Only one of /dec_keys or /enc_keys is allowed"), counter)
  else
    let '(key_id, counter) := request_key_id path query counter in
    (match key_id with
     | inl key_id => key_response key_id
     | inr refusal => Ok refusal
     end, counter).

Definition handle_request (path : string) (query : option string) (counter : Z)
    : outcome http_response * Z :=
  if String.prefix "/api/v1/keys/" path then handle_keys path query counter
  else (Ok (mkResponse 404 empty), counter).

(** ** The accept loop

    Every connection has a task: it shakes hands, where TLS is configured, and
    serves the requests that arrive on it.  The tasks share nothing but the
    counter, so that a run of the simulator is a sequence of the things that
    happen to it, in any order: connections with the outcome of their
    handshakes, requests on connections, and the end of the listener. *)
Inductive arrival : Type :=
  | Connected (handshake : outcome unit)
  | Requested (connection : nat) (path : string) (query : option string)
  | AcceptFailed (e : Error).

(** One answered request. *)
Record served_request : Type := mkServed {
  sr_path : string; sr_query : option string; sr_response : outcome http_response;
}.

(** [open] says of each connection whether HTTP is spoken on it; the outcome is
    the state of the counter, or the error that ends the process. *)
Fixpoint serve (tls : bool) (arrivals : list arrival) (open : list bool) (counter : Z)
    : list served_request * outcome Z :=
  match arrivals with
  | [] => ([], Ok counter)
  | Connected handshake :: arrivals =>
      serve tls arrivals (open ++ [if tls then is_ok handshake else true]) counter
  | Requested c path query :: arrivals =>
      if default false (open !! c) then
        let '(r, counter) := handle_request path query counter in
        let '(served, o) := serve tls arrivals open counter in
        (mkServed path query r :: served, o)
      else serve tls arrivals open counter
  | AcceptFailed e :: _ => ([], Err e)
  end.

Definition initial_counter : Z := 1.
End Simulator.

(** ** Start-up *)
Record Args : Type := mkArgs {
  arg_addr : string;
  arg_cert_path : option string;
  arg_key_path : option string;
  arg_ca_path : option string;
  arg_danger : bool;
}.

(** [rustls] on the server's side. *)
Class ServerTls : Type := {
  SCert : Type; SKey : Type; SRoots : Type; SVerifier : Type; SConfig : Type;
  s_cert_from_pem : string -> outcome SCert;
  s_key_from_pem : string -> outcome SKey;
  s_roots_add : SCert -> outcome SRoots;
  s_client_verifier : SRoots -> outcome SVerifier;
  s_single_cert : option SVerifier -> SCert -> SKey -> outcome SConfig;
}.

Section Startup.
Context `{ServerTls}.

Definition load_tls_config (cert_path key_path : string) (ca_path : option string) : outcome SConfig :=
  let? cert := oexpect (Msg "Failed to read certificate file" []) (s_cert_from_pem cert_path) in
  let? key := oexpect (Msg "Failed to read private key file" []) (s_key_from_pem key_path) in
  match ca_path with
  | Some ca_path =>
      let? ca_cert := oexpect (Msg "Failed to read CA certificate file" []) (s_cert_from_pem ca_path) in
      let? roots := s_roots_add ca_cert in
      let? verifier := oexpect (Msg "Failed to create client certificate verifier" []) (s_client_verifier roots) in
      oexpect (Msg "Failed to create server config" []) (s_single_cert (Some verifier) cert key)
  | None =>
      oexpect (Msg "called `Result::unwrap()` on an `Err` value" []) (s_single_cert None cert key)
  end.

(** [main] up to the listener: the TLS acceptor, if any. *)
Definition tls_setup (args : Args) : outcome (option SConfig) :=
  match arg_cert_path args, arg_key_path args with
  | Some cert_path, Some key_path =>
      let? tls_config := load_tls_config cert_path key_path (arg_ca_path args) in
      Ok (Some tls_config)
  | None, None => Ok None
  | _, _ => Err (EMsg (Msg "Both --cert-path and --key-path must be provided" []))
  end.
End Startup.

(** ** Correctness *)
Lemma str_find_unfold n h :
  str_find n h = if String.prefix n h then Some 0
                 else match h with EmptyString => None | String _ h => S <$> str_find n h end.
Proof. by destruct h. Qed.

Lemma str_find_prefix n s : str_find n (n +:+ s) = Some 0.
Proof.
  assert (Hp : String.prefix n (n +:+ s) = true).
  { induction n as [|c n IH]; simpl; [by destruct s|]. by destruct (Ascii.ascii_dec c c). }
  rewrite str_find_unfold. by rewrite Hp.
Qed.

Lemma str_find_app n a s : is_Some (str_find n (a +:+ n +:+ s)).
Proof.
  induction a as [|c a IH].
  { change (is_Some (str_find n (n +:+ s))). rewrite str_find_prefix. eauto. }
  change (String c a +:+ n +:+ s) with (String c (a +:+ n +:+ s)). rewrite str_find_unfold.
  destruct (String.prefix n (String c (a +:+ n +:+ s))); [eauto|]. destruct IH as [x Hx]. rewrite Hx. eauto.
Qed.

Lemma str_drop_app a s : str_drop (String.length a) (a +:+ s) = s.
Proof. induction a as [|c a IH]; [by destruct s|done]. Qed.

Lemma str_app_assoc (a b c : string) : (a +:+ b) +:+ c = a +:+ b +:+ c.
Proof. induction a as [|x a IH]; [done|]. change (String x ((a +:+ b) +:+ c) = String x (a +:+ b +:+ c)). by f_equal. Qed.

Lemma str_take_app a s : str_take (String.length a) (a +:+ s) = a.
Proof. induction a as [|c a IH]; [by destruct s|]. simpl. by f_equal. Qed.

Section SimulatorProofs.
Context `{UuidLaws} `{Base64Laws} `{!JsonEncoder}.

(** The identifier twice always fits the buffer. *)
Lemma key_response_ok key_id :
  exists text, b64_encode (as_bytes (key_input key_id)) 128 = Ok text /\
    key_response key_id = Ok (mkResponse 200 (full (keys_json text (uuid_to_string key_id)))).
Proof.
  destruct (b64_encode_ok (as_bytes (key_input key_id)) 128) as (text & Ht & _).
  - rewrite b64_encoded_len_spec, array_length. vm_compute. lia.
  - exists text. unfold key_response. by rewrite Ht.
Qed.

Lemma request_answered path query counter :
  exists r counter', handle_request path query counter = (Ok r, counter') /\
    (status r = 200 \/ status r = 400 \/ status r = 404)%Z /\ is_ok (body r) = true /\
    (counter' = counter \/
     (counter' = ((counter + 1) `mod` u64_modulus)%Z /\
      key_response (uuid_from_u128 counter) = Ok r /\
      String.prefix "/api/v1/keys/" path && str_contains "enc_keys" path && negb (str_contains "dec_keys" path) = true)).
Proof.
  unfold handle_request, handle_keys, request_key_id, fetch_add.
  destruct (String.prefix _ path); [|eexists _, _; split; [done|]; simpl; auto].
  destruct (str_contains "dec_keys" path) eqn:Ed; simpl.
  - destruct query as [q|]; [|eexists _, _; split; [done|]; simpl; auto].
    destruct (str_find "key_ID=" q); [|eexists _, _; split; [done|]; simpl; auto].
    destruct (uuid_parse_str _) as [u|]; [|eexists _, _; split; [done|]; simpl; auto].
    destruct (key_response_ok u) as (text & _ & Hk). rewrite Hk.
    eexists _, _. split; [done|]. simpl. auto.
  - destruct (str_contains "enc_keys" path); simpl; [|eexists _, _; split; [done|]; simpl; auto].
    destruct (key_response_ok (uuid_from_u128 counter)) as (text & _ & Hk). rewrite Hk.
    eexists _, _. split; [done|]. simpl. split; [auto|]. split; [done|]. right. auto.
Qed.

(** C32. Every request is answered, with one of three statuses and without a panic;
    only a request for a new key advances the counter. *)
Theorem simulator_answers path query counter :
  exists r counter', handle_request path query counter = (Ok r, counter') /\
    (status r = 200 \/ status r = 400 \/ status r = 404)%Z /\ is_ok (body r) = true /\
    (counter' = counter \/
     (counter' = ((counter + 1) `mod` u64_modulus)%Z /\
      key_response (uuid_from_u128 counter) = Ok r /\
      String.prefix "/api/v1/keys/" path && str_contains "enc_keys" path && negb (str_contains "dec_keys" path) = true)).
Proof. apply request_answered. Qed.

(** ** What either side of a link makes of the answers *)
Context `{!ReqwestLib} `{!JsonLaws}.

Definition simulated_key (key_id : Uuid) : Etsi014Key := mkEtsi014Key key_id (key_input key_id).

Lemma key_response_decodes uri key_id :
  obind (key_response key_id) (decode_response uri) = Ok (simulated_key key_id).
Proof.
  destruct (key_response_ok key_id) as (text & Ht & ->). cbn [obind]. unfold decode_response. cbn [status body full].
  rewrite (proj2 (is_success_spec 200)) by lia. cbn [obind full].
  rewrite (json_roundtrip _ _ _ _ Ht). cbn [obind etsi_key_from_responses keys].
  apply (etsi_key_decodes key_id (key_input key_id) 128 text Ht).
Qed.

Definition enc_path (sae_id : string) : string := "/api/v1/keys/" +:+ sae_id +:+ "/enc_keys".
Definition dec_path (sae_id : string) : string := "/api/v1/keys/" +:+ sae_id +:+ "/dec_keys".

Lemma api_prefix s : String.prefix "/api/v1/keys/" ("/api/v1/keys/" +:+ s) = true.
Proof. simpl. by destruct s. Qed.

Lemma dec_path_contains sae : str_contains "dec_keys" (dec_path sae) = true.
Proof.
  unfold str_contains, dec_path.
  destruct (str_find_app "dec_keys" ("/api/v1/keys/" +:+ sae +:+ "/") "") as [x Hx].
  assert (Heq : "/api/v1/keys/" +:+ sae +:+ "/dec_keys" =
                ("/api/v1/keys/" +:+ sae +:+ "/") +:+ "dec_keys" +:+ "").
  { by rewrite !str_app_assoc. }
  by rewrite Heq, Hx.
Qed.

Lemma enc_path_contains sae : str_contains "enc_keys" (enc_path sae) = true.
Proof.
  unfold str_contains, enc_path.
  destruct (str_find_app "enc_keys" ("/api/v1/keys/" +:+ sae +:+ "/") "") as [x Hx].
  assert (Heq : "/api/v1/keys/" +:+ sae +:+ "/enc_keys" =
                ("/api/v1/keys/" +:+ sae +:+ "/") +:+ "enc_keys" +:+ "").
  { by rewrite !str_app_assoc. }
  by rewrite Heq, Hx.
Qed.

Lemma handle_enc sae query counter :
  str_contains "dec_keys" (enc_path sae) = false ->
  handle_request (enc_path sae) query counter =
  (key_response (uuid_from_u128 counter), ((counter + 1) `mod` u64_modulus)%Z).
Proof.
  intros Hd. unfold handle_request.
  assert (Hp : String.prefix "/api/v1/keys/" (enc_path sae) = true) by apply api_prefix. rewrite Hp.
  unfold handle_keys, request_key_id. by rewrite Hd, enc_path_contains.
Qed.

Lemma handle_dec sae u counter :
  handle_request (dec_path sae) (Some ("key_ID=" +:+ uuid_to_string u)) counter = (key_response u, counter).
Proof.
  unfold handle_request.
  assert (Hp : String.prefix "/api/v1/keys/" (dec_path sae) = true) by apply api_prefix. rewrite Hp.
  unfold handle_keys, request_key_id. rewrite dec_path_contains. cbn [negb andb].
  rewrite str_find_prefix. replace (0 + 7) with (String.length "key_ID=") by reflexivity.
  rewrite str_drop_app, uuid_parse_to_string. reflexivity.
Qed.

(** *** Identifiers *)

(** Requests for a new key. *)
Definition wants_new_key (path : string) : bool :=
  String.prefix "/api/v1/keys/" path && str_contains "enc_keys" path && negb (str_contains "dec_keys" path).

(** What a client makes of an answer. *)
Definition answered_id (uri : string) (r : served_request) : option Uuid :=
  match obind (sr_response r) (decode_response uri) with Ok k => Some (id k) | _ => None end.

(** The identifiers in the answers to requests for new keys. *)
Definition issued (uri : string) (l : list served_request) : list (option Uuid) :=
  answered_id uri <$> filter (fun r => wants_new_key (sr_path r) = true) l.

Lemma handle_new path query counter :
  wants_new_key path = true ->
  handle_request path query counter = (key_response (uuid_from_u128 counter), ((counter + 1) `mod` u64_modulus)%Z).
Proof.
  unfold wants_new_key. intros [[Hp He]%andb_true_iff Hd%negb_true_iff]%andb_true_iff.
  unfold handle_request, handle_keys, request_key_id. by rewrite Hp, Hd, He.
Qed.

Lemma handle_other path query counter :
  wants_new_key path = false -> (handle_request path query counter).2 = counter.
Proof.
  intros Hw. destruct (request_answered path query counter) as (r & c & -> & _ & _ & [->|(_ & _ & Hn)]); [done|].
  unfold wants_new_key in Hw. congruence.
Qed.

Lemma issued_from uri tls arrivals open counter :
  (0 <= counter)%Z -> (counter + Z.of_nat (length arrivals) < u64_modulus)%Z ->
  exists n, issued uri (serve tls arrivals open counter).1 =
      (fun i => Some (uuid_from_u128 i)) <$> seqZ counter (Z.of_nat n) /\ n <= length arrivals.
Proof.
  revert open counter. induction arrivals as [|[hs|c path query|e] arrivals IH]; intros open counter Hge Hl;
    cbn [serve length] in *.
  - by exists 0.
  - destruct (IH (open ++ [if tls then is_ok hs else true]) counter) as (n & Hn & ?); [lia..|]. exists n. split; [done|lia].
  - destruct (default false (open !! c)); [|destruct (IH open counter) as (n & Hn & ?); [lia..|]; exists n; split; [done|lia]].
    destruct (wants_new_key path) eqn:Hw.
    + rewrite (handle_new _ _ _ Hw), Z.mod_small by lia.
      destruct (IH open (counter + 1)%Z) as (n & Hn & ?); [lia..|].
      destruct (serve tls arrivals open (counter + 1)) as [l o]. cbn [fst] in *. exists (S n). split; [|lia].
      unfold issued in *. rewrite filter_cons_True by done. cbn [fmap list_fmap].
      rewrite Hn, (seqZ_cons counter) by lia. cbn [fmap list_fmap]. unfold answered_id at 1. cbn [sr_response].
      rewrite key_response_decodes. cbn [id simulated_key].
      by replace (Z.pred (Z.of_nat (S n))) with (Z.of_nat n) by lia.
    + pose proof (handle_other _ query counter Hw) as Hc.
      destruct (handle_request path query counter) as [r c']. cbn [snd] in Hc. subst c'.
      destruct (IH open counter) as (n & Hn & ?); [lia..|].
      destruct (serve tls arrivals open counter) as [l o]. cbn [fst] in *. exists n. split; [|lia].
      unfold issued in *. by rewrite filter_cons_False by (cbn [sr_path]; congruence).
  - exists 0. split; [done|lia].
Qed.

(** C31. No identifier is handed out twice, whatever arrives in whichever order on
    whichever connections, as long as fewer than [2^64 - 1] things happen: every
    request for a new key that is served is answered with a key, and the
    identifiers in these answers differ. *)
Theorem simulator_ids_unique uri tls arrivals :
  (Z.of_nat (length arrivals) + 1 < u64_modulus)%Z ->
  let ids := issued uri (serve tls arrivals [] initial_counter).1 in
  NoDup ids /\ Forall is_Some ids.
Proof.
  intros Hl. unfold initial_counter. cbv zeta.
  destruct (issued_from uri tls arrivals [] 1) as (n & -> & Hn); [lia..|]. split.
  - apply NoDup_fmap_2_strong; [|apply NoDup_seqZ]. intros i j Hi%elem_of_seqZ Hj%elem_of_seqZ [= Heq].
    assert (u64_modulus < 2 ^ 128)%Z by done. apply uuid_from_u128_inj in Heq; lia.
  - apply Forall_fmap, Forall_true. by eexists.
Qed.

(** C30. The round trip of a key: what one side is handed under a fresh identifier,
    the other side is handed when it presents that identifier, at any later
    time and under any SAE name. *)
Theorem simulator_roundtrip uri uri' sae sae' query counter counter' :
  str_contains "dec_keys" (enc_path sae) = false ->
  let '(r, _) := handle_request (enc_path sae) query counter in
  let '(r', _) := handle_request (dec_path sae')
                    (Some ("key_ID=" +:+ uuid_to_string (uuid_from_u128 counter))) counter' in
  obind r (decode_response uri) = Ok (simulated_key (uuid_from_u128 counter)) /\
  obind r' (decode_response uri') = Ok (simulated_key (uuid_from_u128 counter)).
Proof.
  intros Hd. rewrite (handle_enc sae query counter Hd), (handle_dec sae' _ counter').
  split; apply key_response_decodes.
Qed.
End SimulatorProofs.
