(* ===== verification/EndToEnd.v ===== *)
(** * Daisyway against the simulated key manager

    The key-manager simulator of [Simulator.v] put in the place of the key
    managers of [Agreement.v]: it is honest, so the two peers agree, and any
    number of rekeyings completes against it. *)

From S2P Require Import Prelude Types Externals RefInstances Effects Etsi014 HashDomain Crypto Osk Deadman Duplex Protocol Fanout Agreement Simulator.

(** ** HTTP against the simulator

    The path of a request target ends at the first [?]; a request meets the
    simulator at any value of its counter, or fails on the way. *)
Definition split_target (target : string) : string * option string :=
  match str_find "?" target with
  | Some p => (str_take p target, Some (str_drop (S p) target))
  | None => (target, None)
  end.

Lemma prefix_char q c s s' :
  String.prefix (String q "") (String c s) = String.prefix (String q "") (String c s').
Proof. simpl. destruct (Ascii.ascii_dec q c); by destruct s, s'. Qed.

Lemma str_find_question a s :
  str_contains "?" a = false -> str_find "?" (a +:+ "?" +:+ s) = Some (String.length a).
Proof.
  unfold str_contains. induction a as [|c a IH]; intros Ha.
  { change (str_find "?" ("?" +:+ s) = Some 0). apply str_find_prefix. }
  rewrite str_find_unfold in Ha.
  change (String c a +:+ "?" +:+ s) with (String c (a +:+ "?" +:+ s)). rewrite str_find_unfold.
  rewrite (prefix_char _ c (a +:+ "?" +:+ s) a).
  destruct (String.prefix "?" (String c a)); [done|].
  destruct (str_find "?" a); [done|]. by rewrite IH.
Qed.

Lemma split_target_query a s :
  str_contains "?" a = false -> split_target (a +:+ "?" +:+ s) = (a, Some s).
Proof.
  intros Ha. unfold split_target. rewrite (str_find_question _ _ Ha), str_take_app.
  do 2 f_equal. clear Ha. induction a as [|c a IH]; [by destruct s|exact IH].
Qed.

Lemma str_app_inj_l (a b c : string) : a +:+ b = a +:+ c -> b = c.
Proof. induction a as [|x a IH]; [done|]. intros Heq. injection Heq. exact IH. Qed.

Section EndToEnd.
Context `{Shake256Lib} `{UuidLaws} `{Base64Laws} `{!JsonEncoder} `{!ReqwestLib} `{!JsonLaws}.

Definition sim_http (base uri : string) (r : outcome http_response) : Prop :=
  exists target counter, uri = base +:+ target /\
    ((exists e, r = Err e) \/
     r = (let '(path, query) := split_target target in handle_request path query counter).1).

(** An SAE name that cannot be mistaken for a part of the path. *)
Definition plain_sae (sae : string) : Prop :=
  str_contains "?" (enc_path sae) = false /\ str_contains "?" (dec_path sae) = false /\
  str_contains "dec_keys" (enc_path sae) = false.

Lemma any_key_uri_target base sae :
  any_key_uri (mkConnection base sae) = base +:+ (enc_path sae +:+ "?" +:+ "number=1&key_length=256").
Proof. unfold any_key_uri, enc_path. cbn [url remote_sae_id]. by rewrite !str_app_assoc. Qed.

Lemma specific_key_uri_target base sae u :
  specific_key_uri (mkConnection base sae) u =
  base +:+ (dec_path sae +:+ "?" +:+ ("key_ID=" +:+ uuid_to_string u)).
Proof. unfold specific_key_uri, dec_path. cbn [url remote_sae_id]. by rewrite !str_app_assoc. Qed.

(** What can be fetched from the simulator. *)
Lemma sim_any_key base sae r qk :
  plain_sae sae -> sim_http base (any_key_uri (mkConnection base sae)) r ->
  fetched (any_key_uri (mkConnection base sae)) r qk ->
  exists counter, qk = simulated_key (uuid_from_u128 counter).
Proof.
  intros (Hq & _ & Hd) (target & c & Ht & [[e ->]|Hr]) Hf; [done|].
  rewrite any_key_uri_target in Ht at 1. apply str_app_inj_l in Ht as <-.
  rewrite (split_target_query _ _ Hq), (handle_enc sae _ c Hd) in Hr. cbn [fst] in Hr. subst r.
  unfold fetched in Hf. rewrite key_response_decodes in Hf. injection Hf as <-. eauto.
Qed.

Lemma sim_specific_key base sae u r qk :
  plain_sae sae -> sim_http base (specific_key_uri (mkConnection base sae) u) r ->
  fetched (specific_key_uri (mkConnection base sae) u) r qk -> qk = simulated_key u.
Proof.
  intros (_ & Hq & _) (target & c & Ht & [[e ->]|Hr]) Hf; [done|].
  rewrite specific_key_uri_target in Ht at 1. apply str_app_inj_l in Ht as <-.
  rewrite (split_target_query _ _ Hq), (handle_dec sae u c) in Hr. cbn [fst] in Hr. subst r.
  unfold fetched in Hf. rewrite key_response_decodes in Hf. by injection Hf as <-.
Qed.

Lemma simulator_is_honest base sae_s sae_c :
  plain_sae sae_s -> plain_sae sae_c ->
  kme_honest (sim_http base) (mkConnection base sae_s) (mkConnection base sae_c).
Proof.
  intros Hs Hc a qk a' qk' Ha Hf Ha' Hf'.
  destruct (sim_any_key _ _ _ _ Hs Ha Hf) as [c ->].
  by apply (sim_specific_key _ _ _ _ _ Hc Ha') in Hf' as ->.
Qed.

(** One exchange against the simulator, at a value of its counter. *)
Definition simulated_exchange (x : Z * Nonce) : exchange :=
  let u := uuid_from_u128 x.1 in
  mkExchange (key_response u) (key_response u) (simulated_key u) x.2.

Lemma simulated_exchange_ok base sae_s sae_c x :
  plain_sae sae_s -> plain_sae sae_c ->
  exchange_ok (sim_http base) (mkConnection base sae_s) (mkConnection base sae_c) (simulated_exchange x).
Proof.
  intros (Hqs & _ & Hds) (_ & Hqc & _). destruct x as [c nonce]. unfold exchange_ok. cbn [simulated_exchange fst snd x_server_answer x_client_answer x_qkd_key].
  split; [|split; [apply key_response_decodes|split; [|apply key_response_decodes]]].
  - eexists _, c. split; [apply any_key_uri_target|]. right.
    by rewrite (split_target_query _ _ Hqs), (handle_enc sae_s _ c Hds).
  - eexists _, c. split; [apply specific_key_uri_target|]. right.
    by rewrite (split_target_query _ _ Hqc), (handle_dec sae_c _ c).
Qed.

(** C23. The whole link over one simulator: from the start both sides can install
    any number of keys, and in every reachable state they installed the same
    ones, up to the last. *)
Theorem simulated_link base sae_s sae_c params cid interval (nonces : list Nonce) :
  plain_sae sae_s -> plain_sae sae_c ->
  let fc := mkFanout params (mkConnection base sae_s) interval in
  let cl := mkClientProtocol (mirrored params) (mkConnection base sae_c) mkOskDeadman in
  let n := length nonces in
  let init s := s = duplex_init (init_task n fc cid) (client_event_loop n cl) in
  (exists s, reachable init (duplex_step (sim_http base)) s /\
     length (server_installs (left_trace s)) = n /\
     client_installs (right_trace s) = server_installs (left_trace s)) /\
  (forall s, reachable init (duplex_step (sim_http base)) s ->
     exists K, server_installs (left_trace s) `prefix_of` K /\ client_installs (right_trace s) `prefix_of` K /\
       length K <= S (length (server_installs (left_trace s))) /\
       length K <= S (length (client_installs (right_trace s)))).
Proof.
  intros Hs Hc fc cl n init. split.
  - set (xs := simulated_exchange <$> imap (fun i k => (initial_counter + Z.of_nat i, k)%Z) nonces).
    destruct (exchanges_run (sim_http base) fc cid cl xs [] []) as (tl & tr & Hrun & Hl & Hr).
    + apply Forall_fmap, Forall_true. intros x. by apply simulated_exchange_ok.
    + done.
    + unfold xs in Hrun. rewrite length_fmap, length_imap in Hrun. fold n in Hrun.
      eexists. split; [eexists; split; [reflexivity|exact Hrun]|]. cbn [left_trace right_trace app].
      rewrite Hl, Hr. split; [|done]. unfold xs. by rewrite !length_fmap, length_imap.
  - intros s. apply reachable_agrees; [by apply simulator_is_honest|done].
Qed.
End EndToEnd.

(** ** A body format with a decoder

    The identifier's length in unary, the identifier, the key: a stand-in for
    JSON that shows the assumption on encoder and decoder has a model. *)
Definition letter_x : Ascii.ascii := Ascii.ascii_of_nat 120.

Fixpoint header (a : string) : string :=
  match a with
  | EmptyString => "|"
  | String _ a => String letter_x (header a)
  end.

Fixpoint leading_x (s : string) : nat :=
  match s with
  | String c s => if Ascii.ascii_dec c letter_x then S (leading_x s) else 0
  | EmptyString => 0
  end.

Definition unframe (s : string) : string * string :=
  let n := leading_x s in
  let rest := str_drop (S n) s in
  (str_take n rest, str_drop n rest).

Lemma leading_header a b : leading_x (header a +:+ b) = String.length a.
Proof.
  induction a as [|c a IH]; [done|].
  change (leading_x (String letter_x (header a +:+ b)) = S (String.length a)). cbn [leading_x].
  destruct (Ascii.ascii_dec letter_x letter_x); [by rewrite IH|done].
Qed.

Lemma drop_header a b : str_drop (S (String.length a)) (header a +:+ b) = b.
Proof. induction a as [|c a IH]; [by destruct b|exact IH]. Qed.

Lemma unframe_frame a b : unframe (header a +:+ a +:+ b) = (a, b).
Proof.
  unfold unframe. cbv zeta. rewrite (leading_header a (a +:+ b)), (drop_header a (a +:+ b)). by rewrite str_take_app, str_drop_app.
Qed.

#[local] Instance frame_encoder : JsonEncoder := fun text id => header id +:+ id +:+ text.
#[local] Instance frame_decoder : ReqwestLib := {|
  response_json s :=
    let '(id, text) := unframe s in
    let? u := ok_or (EForeign "serde_json" "invalid UUID") (uuid_parse_str id) in
    Ok (mkResponseKeys [mkResponseKey u text]);
  is_success status := (200 <=? status)%Z && (status <? 300)%Z;
|}.

#[local] Instance frame_laws : JsonLaws.
Proof.
  split.
  - intros s. unfold is_success, frame_decoder. rewrite andb_true_iff, Z.leb_le, Z.ltb_lt. done.
  - intros u k cap text _. unfold response_json, frame_decoder, keys_json, frame_encoder.
    rewrite unframe_frame. by rewrite uuid_parse_to_string.
Qed.

Lemma plain_demo : plain_sae "sae-a" /\ plain_sae "sae-b".
Proof. repeat split; vm_compute; reflexivity. Qed.

Lemma simulated_link_witness :
  exists s : @duplex (control unit unit) (control unit Empty_set),
    length (server_installs (left_trace s)) = 3 /\
    client_installs (right_trace s) = server_installs (left_trace s).
Proof.
  destruct (simulated_link "http://kme" "sae-b" "sae-a" demo_params 0 120
    [new_zeroed 32; new_zeroed 32; new_zeroed 32] (proj2 plain_demo) (proj1 plain_demo))
    as [(s & _ & Hl & Hr) _].
  exists s. split; [exact Hl|exact Hr].
Defined.

Lemma simulator_roundtrip_witness :
  obind (handle_request (enc_path "sae-b") None 7).1 (decode_response "") =
  obind (handle_request (dec_path "sae-a")
           (Some ("key_ID=" +:+ uuid_to_string (uuid_from_u128 7))) 9).1 (decode_response "").
Proof.
  pose proof (simulator_roundtrip "" "" "sae-b" "sae-a" None 7 9 (proj2 (proj2 (proj2 plain_demo)))) as Hs.
  destruct (handle_request (enc_path "sae-b") None 7) as [r c].
  destruct (handle_request (dec_path "sae-a") _ 9) as [r' c'].
  destruct Hs as [Hr Hr']. etransitivity; [exact Hr|symmetry; exact Hr'].
Defined.

(** One connection whose handshake fails, and one on which keys are requested. *)
Definition demo_arrivals : list arrival :=
  [Connected (Err (EForeign "rustls" "handshake")); Connected (Ok tt);
   Requested 0 (enc_path "sae-b") None; Requested 1 (enc_path "sae-b") None;
   Requested 1 (dec_path "sae-a") None; Requested 1 (enc_path "sae-b") None].

Lemma simulator_ids_unique_witness :
  NoDup (issued "" (serve true demo_arrivals [] initial_counter).1).
Proof. apply (simulator_ids_unique "" true demo_arrivals). vm_compute. reflexivity. Defined.

Example demo_issued :
  issued "" (serve true demo_arrivals [] initial_counter).1 = [Some (uuid_from_u128 1); Some (uuid_from_u128 2)].
Proof. vm_compute. reflexivity. Qed.

Lemma simulator_answers_witness : exists r, (handle_request "/" None 5).1 = Ok r /\
  (status r = 200 \/ status r = 400 \/ status r = 404)%Z.
Proof.
  destruct (simulator_answers "/" None 5) as (r & c & Hr & Hs & _).
  exists r. rewrite Hr. split; [reflexivity|exact Hs].
Defined.
