(* ===== verification/Cli.v ===== *)
(** * The command line ([daisyway/src/main.rs])

    Parsing is clap's; what is modelled is what the program does with the
    parsed arguments.  The subcommands that print documentation are reduced to
    the choice they make. *)

From S2P Require Import Prelude Types Externals RefInstances Effects Util Etsi014 HashDomain Crypto Osk Deadman Duplex Protocol ConnectionManager Roster Fanout Net Setup.

(** ** Arguments *)
Inductive LevelFilter : Type := LOff | LError | LWarn | LInfo | LDebug | LTrace.

#[export] Instance LevelFilter_eq_dec : EqDecision LevelFilter.
Proof. solve_decision. Defined.

Inductive ManpageSelection : Type :=
  | SDaisyway | SExchange | SManpage | SExportManpages | SShellCompletion | SHelp.

Record ManpageCommand : Type := mkManpage { selection : ManpageSelection; dont_invoke_man : bool }.

Inductive Commands : Type :=
  | Exchange (config : string)
  | Manpage (cmd : ManpageCommand)
  | ExportManpages (destination : string)
  | ShellCompletion (shell : string).

Record Cli : Type := mkCli {
  command : option Commands;
  log_level : option LevelFilter;
  verbose : bool;
  quiet : bool;
}.

(** ** Logging *)
Definition log_level_filter (self : Cli) : option LevelFilter :=
  if verbose self then Some LInfo
  else if quiet self then Some LWarn
  else match log_level self with
       | Some level => Some level
       | None => None
       end.

(** [init_logging]: the settings of the logger, given [env_logger]'s builder
    from the environment and whether [RUST_LOG] is set. *)
Definition init_logging {Builder : Type} (from_default_env : Builder)
    (filter_level : Builder -> LevelFilter -> Builder) (rust_log_set : bool) (self : Cli) : Builder :=
  let log_builder := from_default_env in
  let log_builder := if rust_log_set then log_builder else filter_level log_builder LWarn in
  match log_level_filter self with
  | Some filter => filter_level log_builder filter
  | None => log_builder
  end.

(** ** Documentation

    The subcommands that print.  clap's description of the program, its
    rendering and the shell completions are the generators' business, and
    parameters here. *)
Section Documentation.
Context {Command : Type} (cmd : Command) (find : string -> option Command).
Context (render : Command -> outcome bytes) (print_out : bytes -> outcome unit).
Context (spawn_man : outcome unit) (man : bytes -> outcome (bool * option Z)).
Context (generate_to : Command -> string -> outcome unit).
Context {Path : Type} (current_exe : outcome Path) (to_str : Path -> option string).
Context (generate : string -> Command -> string -> outcome unit).

(** [find] is [cmd]'s [find_subcommand]. *)
Definition selected_command (self : ManpageCommand) : option Command :=
  match selection self with
  | SDaisyway => Some cmd
  | SExchange => find "exchange"
  | SManpage => find "manpage"
  | SExportManpages => find "export-manpages"
  | SShellCompletion => find "shell-completion"
  | SHelp => find "help"
  end.

(** [ManpageCommand::run]: rendering goes to standard output, or through
    [man], which is started first and must exit successfully: [spawn_man] says
    whether it starts, [man] what becomes of its input. *)
Definition manpage_run (self : ManpageCommand) : outcome unit :=
  let? cmd := oexpect (Msg "called `Result::unwrap()` on an `Err` value" [])
                (ok_or (EMsg (Msg "Could not retrieve command for manpage – this is a bug." []))
                   (selected_command self)) in
  if dont_invoke_man self then
    let? page := render cmd in
    print_out page
  else
    let? _ := ocontext (Msg "Failed to start `man` command." []) spawn_man in
    let? buf := render cmd in
    let? status := man buf in
    if status.1 then Ok tt
    else Err (EMsg (Msg "`man` command exited unsuccessfully, with exit code {:?}"
                      [FInt (default (-1)%Z status.2)])).

(** [ExportManpagesCommand::run] *)
Definition export_manpages_run (destination : string) : outcome unit :=
  generate_to cmd destination.

(** [ShellCompletion::run] *)
Definition shell_completion_run (shell : string) : outcome unit :=
  let? exe := oexpect (Msg "called `Result::unwrap()` on an `Err` value" []) current_exe in
  let? bin_name := oexpect (Msg "called `Result::unwrap()` on an `Err` value" [])
    (ok_or (EMsg (Msg "Could not convert command binary name to string? UTF-8 woes?" [])) (to_str exe)) in
  generate shell cmd bin_name.

(** A panic of a documentation command is a missing subcommand, a binary whose
    name is not a string, or comes from a generator. *)
Definition quiet_generators : Prop :=
  (forall c, panics (render c) = false) /\ (forall b, panics (print_out b) = false) /\
  panics spawn_man = false /\ (forall b, panics (man b) = false) /\ (forall c d, panics (generate_to c d) = false) /\
  (forall s c n, panics (generate s c n) = false).

Theorem manpage_run_panics self :
  quiet_generators -> panics (manpage_run self) = bool_decide (selected_command self = None).
Proof.
  intros (Hr & Hp & Hsp & Hm & _). unfold manpage_run.
  destruct (selected_command self) as [c|]; simpl; [|done].
  specialize (Hr c). destruct (dont_invoke_man self), spawn_man as [[]|es|ms], (render c) as [page|e|m]; simpl in *; try done.
  specialize (Hm page). destruct (man page) as [[[] ?]|e|m]; simpl in *; done.
Qed.
End Documentation.

(** ** Running a command *)
Section Run.
Context `{Shake256Lib} `{UuidLib} `{Base64Codec} `{!ReqwestLib} (prof : profile).
Context `{RustlsLib}.
Context {HttpClient : Type} (build_client : option ClientConfig -> outcome HttpClient).
Context {R : Type} `{Reader R} (open : string -> outcome R) (fuel : nat) (target_linux : bool).
Context (read_to_string : string -> outcome string) (toml_from_str : string -> outcome DaisywayConfig).

(** [ExchangeCommand::run]; the loops are cut after [attempts] connections and
    [steps] turns each. *)
Definition exchange_run (attempts steps : nat) (config : string) : proc unit :=
  let! config := Ret (load_from_file read_to_string toml_from_str config) in
  let! d := daisyway_from_config prof build_client open fuel target_linux config false in
  daisyway_event_loop prof attempts steps d.

Context {Command : Type} (cmd : Command) (find : string -> option Command).
Context (render : Command -> outcome bytes) (print_out : bytes -> outcome unit).
Context (spawn_man : outcome unit) (man : bytes -> outcome (bool * option Z)).
Context (generate_to : Command -> string -> outcome unit).
Context {Path : Type} (current_exe : outcome Path) (to_str : Path -> option string).
Context (generate : string -> Command -> string -> outcome unit).

(** [Commands::run] *)
Definition commands_run (attempts steps : nat) (self : Commands) : proc unit :=
  match self with
  | Exchange config => exchange_run attempts steps config
  | Manpage m => Ret (manpage_run cmd find render print_out spawn_man man m)
  | ExportManpages destination => Ret (export_manpages_run cmd generate_to destination)
  | ShellCompletion shell => Ret (shell_completion_run cmd current_exe to_str generate shell)
  end.

(** [Cli::run] *)
Definition cli_run (attempts steps : nat) (self : Cli) : proc unit :=
  match command self with
  | Some cmd => commands_run attempts steps cmd
  | None => Ret (Err (EMsg (Msg "No command specified" [])))
  end.

(** [main], after clap has parsed the arguments; [try_init] installs the logger. *)
Definition main {Builder : Type} (from_default_env : Builder)
    (filter_level : Builder -> LevelFilter -> Builder) (rust_log_set : bool)
    (try_init : Builder -> outcome unit) (attempts steps : nat) (cli : Cli) : proc unit :=
  let! _ := Ret (try_init (init_logging from_default_env filter_level rust_log_set cli)) in
  cli_run attempts steps cli.

(** A configuration that cannot be read or is refused stops the program before
    it has done anything. *)
Theorem exchange_needs_config attempts steps config rest_verbose rest_quiet level tr o :
  is_ok (load_from_file read_to_string toml_from_str config) = false ->
  runs (cli_run attempts steps (mkCli (Some (Exchange config)) level rest_verbose rest_quiet)) tr o ->
  is_ok o = false /\ tr = [].
Proof.
  cbn [cli_run command commands_run]. unfold exchange_run.
  destruct (load_from_file _ _ _) as [c|e|m]; [done|intros _ Hr; by destruct Hr as [-> ->]..].
Qed.
End Run.

(** ** The level that is set *)

(** The command line decides before the environment, [--verbose] before
    [--quiet] before [--log-level]; [--verbose] sets info and [--quiet] sets
    warn, the level that is also used when nothing is said at all.  The last
    [filter_level] of a builder wins. *)
Theorem log_level_spec {Builder : Type} (env : Builder) (set : Builder -> LevelFilter -> Builder) rust_log cli :
  (forall b l l', set (set b l) l' = set b l') ->
  init_logging env set rust_log cli =
  match verbose cli, quiet cli, log_level cli with
  | true, _, _ => set env LInfo
  | _, true, _ => set env LWarn
  | _, _, Some level => set env level
  | _, _, None => if rust_log then env else set env LWarn
  end.
Proof.
  intros Hset. unfold init_logging, log_level_filter.
  destruct (verbose cli), (quiet cli), (log_level cli), rust_log; try done; apply Hset.
Qed.

(** ** Witnesses *)
Lemma log_level_spec_witness :
  init_logging LError (fun _ l => l) false (mkCli None (Some LTrace) true false) = LInfo.
Proof. apply (log_level_spec LError (fun _ l => l) false (mkCli None (Some LTrace) true false)). reflexivity. Defined.

Lemma exchange_needs_config_witness : is_ok (@Err unit (EContext (Msg "Failed to read config file {file_path:?}"
    [FStr "daisyway.toml"]) (EIo (OtherKind 2)))) = false.
Proof.
  refine (proj1 (@exchange_needs_config ref_shake ref_uuid ref_base64 demo_json DevProfile demo_rustls
    unit (fun _ => Ok tt) file_reader _ demo_open 100 true
    (fun _ => Err (EIo (OtherKind 2))) (fun _ => Ok (demo_config None None))
    unit tt (fun _ => None) (fun _ => Ok []) (fun _ => Ok tt) (Ok tt) (fun _ => Ok (true, None)) (fun _ _ => Ok tt)
    unit (Ok tt) (fun _ => None) (fun _ _ _ => Ok tt) 1 1
    "daisyway.toml" false false None [] _ _ _)).
  - reflexivity.
  - split; reflexivity.
Defined.

Lemma manpage_run_panics_witness :
  panics (manpage_run tt (fun _ => None) (fun _ => Ok []) (fun _ => Ok tt) (Ok tt) (fun _ => Ok (true, None))
    (mkManpage SHelp true)) = true.
Proof.
  apply (manpage_run_panics tt (fun _ => None) (fun _ => Ok []) (fun _ => Ok tt) (Ok tt) (fun _ => Ok (true, None))
    (fun _ _ => Ok tt) (fun _ _ _ => Ok tt) (mkManpage SHelp true)).
  repeat split.
Defined.
